(** * lode-star: NMEA codec, file generators and broadcast thread

    A shallow embedding of [lode_server/core.py] and of the three generators
    under [lode_server/generators/], followed by the properties stated for
    them.

    Conventions.
    - A Python [str] is a Rocq [string]; its characters are the code points
      0..255.
    - A Python [int] is a [Z].
    - A Python [float] is an element of a type [F] carrying the operations of
      the class [PyFloat].  Its instance [Binary64.t] is IEEE-754 binary64 as
      Python has it, built on the Standard Library's [spec_float].
    - A function that can raise returns an [option] (or a [result]); [None]
      is "an exception was raised".
    - [datetime.now(timezone.utc)] is an argument [now] of the functions that
      read the clock. *)

From Stdlib Require Import ZArith NArith QArith Qabs Qpower Qround.
From Stdlib Require Import List String Ascii Bool Lia Lqa.
From Stdlib Require Import SpecFloat.
Import ListNotations.

#[local] Open Scope list_scope.
#[local] Open Scope string_scope.
#[local] Open Scope Z_scope.

(** ** Python strings *)

Module PyStr.

Definition ord (c : ascii) : N := N_of_ascii c.

Fixpoint take (n : nat) (s : string) : string :=
  match n, s with
  | S k, String c r => String c (take k r)
  | _, _ => ""
  end.

Fixpoint drop (n : nat) (s : string) : string :=
  match n, s with
  | S k, String _ r => drop k r
  | _, _ => s
  end.

(** Index normalisation of a slice bound: a negative bound counts from the
    end, and the result is clamped to [0 .. len]. *)
Definition clamp (n : nat) (i : Z) : nat :=
  let j := if i <? 0 then i + Z.of_nat n else i in
  Z.to_nat (Z.min (Z.max j 0) (Z.of_nat n)).

(** [s[lo:hi]], [s[lo:]] and [s[:hi]]. *)
Definition slice (s : string) (lo hi : Z) : string :=
  let a := clamp (String.length s) lo in
  let b := clamp (String.length s) hi in
  take (b - a) (drop a s).

Definition slice_from (s : string) (lo : Z) : string :=
  drop (clamp (String.length s) lo) s.

Definition slice_to (s : string) (hi : Z) : string :=
  take (clamp (String.length s) hi) s.

Fixpoint startswith (s p : string) {struct p} : bool :=
  match p, s with
  | "", _ => true
  | String a p', String b s' => Ascii.eqb a b && startswith s' p'
  | String _ _, "" => false
  end.

(** [s.find(c)] for a one-character needle; [None] is Python's [-1]. *)
Fixpoint find (c : ascii) (s : string) : option nat :=
  match s with
  | "" => None
  | String a r => if Ascii.eqb a c then Some O else option_map S (find c r)
  end.

(** [c in s]. *)
Definition contains (c : ascii) (s : string) : bool :=
  match find c s with Some _ => true | None => false end.

(** [s.split(c)]: always at least one piece. *)
Fixpoint split (c : ascii) (s : string) : list string :=
  match s with
  | "" => [""]
  | String a r =>
      if Ascii.eqb a c then "" :: split c r
      else match split c r with
           | h :: t => String a h :: t
           | [] => [String a ""]
           end
  end.

(** [s.split(c, 1)]: cut at the first [c] only. *)
Definition split1 (c : ascii) (s : string) : list string :=
  match find c s with
  | Some i => [take i s; drop (S i) s]
  | None => [s]
  end.

(** [str.isspace] on the code points 0..255: TAB, LF, VT, FF, CR, FS, GS,
    RS, US, SPACE, NEL and NBSP. *)
Definition is_space (c : ascii) : bool :=
  let n := ord c in
  ((9 <=? n) && (n <=? 13) || (28 <=? n) && (n <=? 32)
   || (n =? 133) || (n =? 160))%N.

Fixpoint lstrip (s : string) : string :=
  match s with
  | String c r => if is_space c then lstrip r else s
  | "" => ""
  end.

Fixpoint rstrip (s : string) : string :=
  match s with
  | "" => ""
  | String c r =>
      match rstrip r with
      | "" => if is_space c then "" else String c ""
      | r' => String c r'
      end
  end.

Definition strip (s : string) : string := rstrip (lstrip s).

Definition lower (c : ascii) : ascii :=
  let n := ord c in
  if ((65 <=? n) && (n <=? 90))%N then ascii_of_N (n + 32) else c.

Fixpoint lowercase (s : string) : string :=
  match s with
  | "" => ""
  | String c r => String (lower c) (lowercase r)
  end.

(** [lst[i]] for a non-negative constant index; [None] is [IndexError]. *)
Definition item {A} (l : list A) (i : nat) : option A := nth_error l i.

(** The i-th element of a list already known to be long enough. *)
Definition field (l : list string) (i : nat) : string := nth i l "".

Definition nonempty (s : string) : bool :=
  match s with "" => false | _ => true end.

End PyStr.

(** ** Decimal and hexadecimal text *)

Module PyNum.
Import PyStr.

Definition is_digit (c : ascii) : bool :=
  let n := ord c in ((48 <=? n) && (n <=? 57))%N.

Definition digit_val (c : ascii) : N := (ord c - 48)%N.

Definition digit_char (d : N) : ascii := ascii_of_N (48 + d).

Definition hex_char (d : N) : ascii :=
  if (d <? 10)%N then ascii_of_N (48 + d) else ascii_of_N (55 + d).

(** Digits of [n] in base [b], most significant first, pushed on [acc]. *)
Fixpoint digits_acc (ch : N -> ascii) (b : N) (fuel : nat) (n : N)
         (acc : string) : string :=
  match fuel with
  | O => acc
  | S f =>
      let acc' := String (ch (n mod b)%N) acc in
      if (n <? b)%N then acc' else digits_acc ch b f (n / b)%N acc'
  end.

Definition dec (n : N) : string :=
  digits_acc digit_char 10 (S (N.to_nat (N.log2 n))) n "".

Definition hex (n : N) : string :=
  digits_acc hex_char 16 (S (N.to_nat (N.log2 n))) n "".

Fixpoint zeros (k : nat) : string :=
  match k with O => "" | S j => String "0" (zeros j) end.

(** Pad on the left with ['0'] up to width [w]. *)
Definition zfill (w : nat) (s : string) : string :=
  zeros (w - String.length s) ++ s.

Definition sign_str (neg : bool) : string := if neg then "-" else "".

(** [f"{z:0{w}d}"]: the zeros go between the sign and the digits. *)
Definition fmt_d (w : nat) (z : Z) : string :=
  let sg := sign_str (z <? 0) in
  sg ++ zfill (w - String.length sg) (dec (Z.abs_N z)).

(** [f"{n:0{w}X}"]. *)
Definition fmt_X (w : nat) (n : N) : string := zfill w (hex n).

(** What [float.__format__] sees of a float: its class, its sign and the
    exact value of its magnitude. *)
Inductive fview : Type :=
| VNan
| VInf (neg : bool)
| VFin (neg : bool) (mag : Q).

(** The integer nearest to the non-negative rational [q], ties to even. *)
Definition round_half_even (q : Q) : N :=
  let n := Qnum q in
  let d := Zpos (Qden q) in
  let k := n / d in
  let r := n mod d in
  Z.to_N (if 2 * r <? d then k
          else if d <? 2 * r then k + 1
          else if Z.even k then k else k + 1).

Definition pow10 (p : nat) : N := (10 ^ N.of_nat p)%N.

(** The digits of [q] rounded to [p] decimals. *)
Definition fixed_digits (p : nat) (q : Q) : string :=
  let n := round_half_even (q * (Z.of_N (pow10 p) # 1)) in
  let ip := dec (n / pow10 p) in
  match p with
  | O => ip
  | _ => ip ++ "." ++ zfill p (dec (n mod pow10 p))
  end.

(** [f"{x:0{w}.{p}f}"] ([w = 0] is the plain [f"{x:.{p}f}"]). *)
Definition fmt_f (w p : nat) (v : fview) : string :=
  match v with
  | VNan => zfill w "nan"
  | VInf neg =>
      let sg := sign_str neg in sg ++ zfill (w - String.length sg) "inf"
  | VFin neg q =>
      let sg := sign_str neg in
      sg ++ zfill (w - String.length sg) (fixed_digits p q)
  end.

(** A run of decimal digits in which single underscores may separate
    digits, as [int] and [float] accept it.  Returns the value and the
    number of digits; [prev] says that the previous character was a
    digit. *)
Fixpoint digits_us (s : string) (acc : N) (cnt : nat) (prev : bool)
  : option (N * nat) :=
  match s with
  | "" => if prev then Some (acc, cnt) else None
  | String c r =>
      if is_digit c then digits_us r (acc * 10 + digit_val c)%N (S cnt) true
      else if Ascii.eqb c "_" then
        if prev then digits_us r acc cnt false else None
      else None
  end.

Definition digits (s : string) : option (N * nat) := digits_us s 0%N O false.

(** An optional sign in front of [s]. *)
Definition split_sign (s : string) : bool * string :=
  match s with
  | String "-" r => (true, r)
  | String "+" r => (false, r)
  | _ => (false, s)
  end.

(** The white space that [int] and [float] skip at the two ends of a
    string.  On the code points 0..255 it is TAB, LF, VT, FF, CR, SPACE, NEL
    and NBSP: unlike [str.strip], the two constructors leave FS, GS, RS and
    US where they are, and then reject the string. *)
Definition is_num_space (c : ascii) : bool :=
  let n := ord c in
  ((9 <=? n) && (n <=? 13) || (n =? 32) || (n =? 133) || (n =? 160))%N.

Fixpoint num_lstrip (s : string) : string :=
  match s with
  | String c r => if is_num_space c then num_lstrip r else s
  | "" => ""
  end.

Fixpoint num_rstrip (s : string) : string :=
  match s with
  | "" => ""
  | String c r =>
      match num_rstrip r with
      | "" => if is_num_space c then "" else String c ""
      | r' => String c r'
      end
  end.

Definition num_strip (s : string) : string := num_rstrip (num_lstrip s).

(** [sys.get_int_max_str_digits()]: [int] refuses a decimal string of more
    digits. *)
Definition int_max_str_digits : nat := 4300.

(** [int(s)] for a string; [None] is [ValueError]. *)
Definition py_int (s : string) : option Z :=
  let '(neg, body) := split_sign (num_strip s) in
  match digits body with
  | Some (n, cnt) =>
      if (int_max_str_digits <? cnt)%nat then None
      else Some (if neg then - Z.of_N n else Z.of_N n)
  | None => None
  end.

(** What a string accepted by [float] denotes: [m * 10^e10] with a sign,
    an infinity or a NaN. *)
Inductive float_lit : Type :=
| LitNum (neg : bool) (m : N) (e10 : Z)
| LitInf (neg : bool)
| LitNan.

Definition is_exp_mark (c : ascii) : bool :=
  Ascii.eqb c "e" || Ascii.eqb c "E".

(** Cut [s] at its first exponent mark. *)
Fixpoint split_exp (s : string) : string * option string :=
  match s with
  | "" => ("", None)
  | String c r =>
      if is_exp_mark c then ("", Some r)
      else let '(m, e) := split_exp r in (String c m, e)
  end.

(** The exponent part: an optional sign and digits. *)
Definition exp_part (e : option string) : option Z :=
  match e with
  | None => Some 0
  | Some t =>
      let '(neg, body) := split_sign t in
      match digits body with
      | Some (n, _) => Some (if neg then - Z.of_N n else Z.of_N n)
      | None => None
      end
  end.

(** The mantissa: digits, optionally a point and more digits; one of the
    two digit runs may be missing, not both.  Returns the digits read as
    one integer and the number of those after the point. *)
Definition mant_part (m : string) : option (N * nat) :=
  match find "." m with
  | None => match digits m with
            | Some (n, _) => Some (n, O)
            | None => None
            end
  | Some i =>
      let ip := take i m in
      let fp := drop (S i) m in
      match ip, fp with
      | "", "" => None
      | _, "" => match digits ip with
                 | Some (n, _) => Some (n, O)
                 | None => None
                 end
      | "", _ => digits fp
      | _, _ => match digits ip, digits fp with
                | Some (a, _), Some (b, k) => Some (a * pow10 k + b, k)%N
                | _, _ => None
                end
      end
  end.

(** The grammar of [float(s)] for a string; [None] is [ValueError]. *)
Definition py_float_lit (s : string) : option float_lit :=
  let '(neg, body) := split_sign (num_strip s) in
  let low := lowercase body in
  if String.eqb low "inf" || String.eqb low "infinity" then Some (LitInf neg)
  else if String.eqb low "nan" then Some LitNan
  else
    let '(m, e) := split_exp body in
    match mant_part m, exp_part e with
    | Some (n, k), Some x => Some (LitNum neg n (x - Z.of_nat k))
    | _, _ => None
    end.

End PyNum.

(** ** Python floats *)

(** The operations the program applies to floats. *)
Class PyFloat (F : Type) : Type := {
  (** the float denoted by a decimal literal: sign, digits, power of ten *)
  f_lit : bool -> N -> Z -> F;
  f_inf : bool -> F;
  f_nan : F;
  (** [float(n)] for an integer; [None] is [OverflowError] *)
  f_of_int : Z -> option F;
  f_add : F -> F -> F;
  f_sub : F -> F -> F;
  f_mul : F -> F -> F;
  (** true division; the program only divides by the constant 60 *)
  f_div : F -> F -> F;
  f_abs : F -> F;
  f_neg : F -> F;
  (** [x >= 0] *)
  f_ge0 : F -> bool;
  (** [int(x)]: truncation towards zero; [None] on an infinity or a NaN *)
  f_trunc : F -> option Z;
  f_view : F -> PyNum.fview
}.

(** IEEE-754 binary64, round to nearest even: CPython's [float]. *)
Module Binary64.

Definition prec : Z := 53.
Definition emax : Z := 1024.

Definition t : Type := spec_float.

(** Correctly rounded [m * 10^e]. *)
Definition lit (neg : bool) (m : N) (e : Z) : t :=
  match m with
  | N0 => S754_zero neg
  | Npos p =>
      if 0 <=? e
      then binary_normalize prec emax
             ((if neg then Zneg p else Zpos p) * 10 ^ e) 0 neg
      else SFdiv prec emax (S754_finite neg p 0)
             (S754_finite false (Z.to_pos (10 ^ (- e))) 0)
  end.

Definition of_int (z : Z) : option t :=
  match binary_normalize prec emax z 0 false with
  | S754_infinity _ => None
  | x => Some x
  end.

(** The exact value of a finite float's magnitude. *)
Definition mag (m : positive) (e : Z) : Q :=
  if 0 <=? e then (Zpos m * 2 ^ e) # 1 else Zpos m # Z.to_pos (2 ^ (- e)).

Definition trunc (x : t) : option Z :=
  match x with
  | S754_zero _ => Some 0
  | S754_finite s m e =>
      let q := mag m e in
      let k := Qnum q / Zpos (Qden q) in
      Some (if s then - k else k)
  | _ => None
  end.

Definition view (x : t) : PyNum.fview :=
  match x with
  | S754_nan => PyNum.VNan
  | S754_infinity s => PyNum.VInf s
  | S754_zero s => PyNum.VFin s 0%Q
  | S754_finite s m e => PyNum.VFin s (mag m e)
  end.

#[global] Instance ops : PyFloat t := {
  f_lit := lit;
  f_inf := S754_infinity;
  f_nan := S754_nan;
  f_of_int := of_int;
  f_add := SFadd prec emax;
  f_sub := SFsub prec emax;
  f_mul := SFmul prec emax;
  f_div := SFdiv prec emax;
  f_abs := SFabs;
  f_neg := SFopp;
  f_ge0 := SFleb (S754_zero false);
  f_trunc := trunc;
  f_view := view
}.

End Binary64.

(** ** Exceptions as [option] *)

Notation "x <- e ;; k" :=
  (match e with Some x => k | None => None end)
  (at level 61, e at next level, right associativity).

Notation "' p <- e ;; k" :=
  (match e with Some p => k | None => None end)
  (at level 61, p pattern, e at next level, right associativity).

(** ** [datetime] *)

Inductive tz : Type := UTC.

Record datetime : Type := mk_dt {
  year : Z; month : Z; day : Z;
  hour : Z; minute : Z; second : Z; microsecond : Z;
  tzinfo : option tz
}.

Module PyTime.
Import PyStr PyNum.

Definition is_leap (y : Z) : bool :=
  (y mod 4 =? 0) && (negb (y mod 100 =? 0) || (y mod 400 =? 0)).

Definition days_in_month (y m : Z) : Z :=
  if m =? 2 then (if is_leap y then 29 else 28)
  else if (m =? 4) || (m =? 6) || (m =? 9) || (m =? 11) then 30
  else 31.

Definition between (lo x hi : Z) : bool := (lo <=? x) && (x <=? hi).

(** The range checks of the [datetime] constructor and of [replace]. *)
Definition valid (d : datetime) : bool :=
  between 1 (year d) 9999 && between 1 (month d) 12
  && between 1 (day d) (days_in_month (year d) (month d))
  && between 0 (hour d) 23 && between 0 (minute d) 59
  && between 0 (second d) 59 && between 0 (microsecond d) 999999.

(** [datetime(y, m, d, H, M, S, us, tzinfo=timezone.utc)]; [None] is
    [ValueError]. *)
Definition make (y m d H M S us : Z) : option datetime :=
  let r := mk_dt y m d H M S us (Some UTC) in
  if valid r then Some r else None.

(** [now.replace(hour=H, minute=M, second=S, microsecond=us)]. *)
Definition replace_time (now : datetime) (H M S us : Z) : option datetime :=
  let r := mk_dt (year now) (month now) (day now) H M S us (tzinfo now) in
  if valid r then Some r else None.

(** [d.strftime("%H%M%S.%f")] and [d.strftime("%d%m%y")]. *)
Definition strftime_HMSf (d : datetime) : string :=
  fmt_d 2 (hour d) ++ fmt_d 2 (minute d) ++ fmt_d 2 (second d)
  ++ "." ++ fmt_d 6 (microsecond d).

Definition strftime_dmy (d : datetime) : string :=
  fmt_d 2 (day d) ++ fmt_d 2 (month d) ++ fmt_d 2 (year d mod 100).

(** The placeholder [datetime(1970, 1, 1, tzinfo=timezone.utc)]. *)
Definition epoch : datetime := mk_dt 1970 1 1 0 0 0 0 (Some UTC).

End PyTime.

(** ** core.py: Position, NMEAEncoder, NMEADecoder *)

Definition crlf : string := String "013" (String "010" "").

Section Codec.
Import PyStr PyNum PyTime.
Context {F : Type} {PF : PyFloat F}.

Record Position : Type := mk_position {
  index : Z;
  lat : F;
  lon : F;
  speed : F;
  elevation : F;
  time : datetime;
  duration : F;
  transition : string;
  description : string
}.

(** [float(s)] for a string. *)
Definition py_float (s : string) : option F :=
  match py_float_lit s with
  | Some (LitNum neg m e) => Some (f_lit neg m e)
  | Some (LitInf neg) => Some (f_inf neg)
  | Some LitNan => Some f_nan
  | None => None
  end.

Definition f_zero : F := f_lit false 0 0.
Definition f_sixty : F := f_lit false 60 0.

(** [Position(index, lat, lon, speed, elevation, time)] with the defaults
    of the dataclass. *)
Definition position6 (i : Z) (la lo sp el : F) (t : datetime) : Position :=
  mk_position i la lo sp el t f_zero "auto" "".

(** *** NMEAEncoder *)

Definition GGA_FIX_QUALITY : string := "1".
Definition GGA_NUM_SATELLITES : string := "08".
Definition GGA_HDOP : string := "1.0".
Definition GGA_GEOID_SEPARATION : string := "0.0".
Definition GGA_DGPS_AGE : string := "".
Definition GGA_DGPS_REF : string := "".

(** One coordinate of [format_coords]: [w] is the width of the degrees. *)
Definition format_coord (w : nat) (x : F) : option string :=
  deg <- f_trunc x ;;
  deg_f <- f_of_int deg ;;
  let mins := f_abs (f_mul (f_sub x deg_f) f_sixty) in
  Some (fmt_d w (Z.abs deg) ++ fmt_f 9 6 (f_view mins)).

Definition format_coords (la lo : F)
  : option (string * string * string * string) :=
  lat_str <- format_coord 2 la ;;
  let lat_dir := if f_ge0 la then "N" else "S" in
  lon_str <- format_coord 3 lo ;;
  let lon_dir := if f_ge0 lo then "E" else "W" in
  Some (lat_str, lat_dir, lon_str, lon_dir).

Fixpoint xor_bytes (s : string) (checksum : N) : N :=
  match s with
  | "" => checksum
  | String c r => xor_bytes r (N.lxor checksum (ord c))
  end.

Definition calculate_checksum (sentence : string) : string :=
  fmt_X 2 (xor_bytes sentence 0%N).

(** [data.time.strftime("%H%M%S.%f")[:-3]] *)
Definition time_str_of (d : datetime) : string :=
  slice_to (strftime_HMSf d) (-3).

Definition gga_body (data : Position) : option string :=
  let time_str := time_str_of (time data) in
  '(lat_str, lat_dir, lon_str, lon_dir) <- format_coords (lat data) (lon data) ;;
  Some ("GPGGA," ++ time_str ++ "," ++ lat_str ++ "," ++ lat_dir ++ ","
        ++ lon_str ++ "," ++ lon_dir ++ "," ++ GGA_FIX_QUALITY ++ ","
        ++ GGA_NUM_SATELLITES ++ "," ++ GGA_HDOP ++ ","
        ++ fmt_f 0 1 (f_view (elevation data)) ++ ",M,"
        ++ GGA_GEOID_SEPARATION ++ ",M," ++ GGA_DGPS_AGE ++ ","
        ++ GGA_DGPS_REF).

Definition frame (body : string) : string :=
  "$" ++ body ++ "*" ++ calculate_checksum body ++ crlf.

Definition encode_gga (data : Position) : option string :=
  gga <- gga_body data ;; Some (frame gga).

(** km/h to knots *)
Definition knots_per_kmh : F := f_lit false 539957 (-6).

Definition rmc_body (data : Position) : option string :=
  let time_str := time_str_of (time data) in
  let date_str := strftime_dmy (time data) in
  '(lat_str, lat_dir, lon_str, lon_dir) <- format_coords (lat data) (lon data) ;;
  let speed_knots := f_mul (speed data) knots_per_kmh in
  Some ("GPRMC," ++ time_str ++ ",A," ++ lat_str ++ "," ++ lat_dir ++ ","
        ++ lon_str ++ "," ++ lon_dir ++ ","
        ++ fmt_f 0 1 (f_view speed_knots) ++ ",0.0," ++ date_str ++ ",,,A").

Definition encode_rmc (data : Position) : option string :=
  rmc <- rmc_body data ;; Some (frame rmc).

End Codec.

Arguments Position F : clear implicits.

Section Decoder.
Import PyStr PyNum PyTime.
Context {F : Type} {PF : PyFloat F}.

(** *** NMEADecoder *)

(** [int(coord_str[:k])] and [float(coord_str[k:])]. *)
Definition deg_and_min (coord_str : string) (k : Z) : option (Z * F) :=
  deg <- py_int (slice_to coord_str k) ;;
  min_val <- py_float (slice_from coord_str k) ;;
  Some (deg, min_val).

Definition _parse_coordinate (coord_str : string) (max_degrees_digits : Z)
  : option F :=
  if negb (nonempty coord_str) then Some f_zero
  else
    let n := Z.of_nat (String.length coord_str) in
    '(deg, min_val) <-
      match find "." coord_str with
      | Some dot =>
          let dot_pos := Z.of_nat dot in
          if 4 <=? dot_pos then deg_and_min coord_str (dot_pos - 2)
          else deg_and_min coord_str (Z.min max_degrees_digits (n - 2))
      | None =>
          let deg_digits :=
            if 2 <? n then Z.min max_degrees_digits (n - 2)
            else max_degrees_digits in
          deg <- py_int (slice_to coord_str deg_digits) ;;
          min_val <- (if deg_digits <? n
                      then py_float (slice_from coord_str deg_digits)
                      else Some f_zero) ;;
          Some (deg, min_val)
      end ;;
    deg_f <- f_of_int deg ;;
    Some (f_add deg_f (f_div min_val f_sixty)).

Definition _parse_lat (lat_str ns : string) : option F :=
  if negb (nonempty lat_str) || negb (nonempty ns) then Some f_zero
  else
    la <- _parse_coordinate lat_str 2 ;;
    Some (if String.eqb ns "S" then f_neg la else la).

Definition _parse_lon (lon_str ew : string) : option F :=
  if negb (nonempty lon_str) || negb (nonempty ew) then Some f_zero
  else
    lo <- _parse_coordinate lon_str 3 ;;
    Some (if String.eqb ew "W" then f_neg lo else lo).

(** [int(float('0.' + time_str.split('.')[1]) * 1e6) if '.' in time_str
    else 0] *)
Definition microsecond_of (time_str : string) : option Z :=
  if contains "." time_str then
    frac <- item (split "." time_str) 1 ;;
    x <- py_float ("0." ++ frac) ;;
    f_trunc (f_mul x (f_lit false 1 6))
  else Some 0.

(** The [try] block returns [None] on every exception, so a failure and
    the explicit [return None] are one outcome.  [date_str] is [None] when
    the caller passes no date. *)
Definition _parse_datetime (now : datetime) (time_str : string)
           (date_str : option string) : option datetime :=
  if negb (nonempty time_str) then None
  else
    H <- py_int (slice time_str 0 2) ;;
    M <- py_int (slice time_str 2 4) ;;
    S <- py_int (slice time_str 4 6) ;;
    us <- microsecond_of time_str ;;
    match date_str with
    | Some (String _ _ as ds) =>
        d <- py_int (slice ds 0 2) ;;
        m <- py_int (slice ds 2 4) ;;
        y <- py_int (slice ds 4 6) ;;
        make (y + 2000) m d H M S us
    | _ => replace_time now H M S us
    end.

Definition is_rmc (t : string) : bool :=
  String.eqb t "GPRMC" || String.eqb t "RMC" || String.eqb t "GNRMC".

Definition is_gga (t : string) : bool :=
  String.eqb t "GPGGA" || String.eqb t "GGA" || String.eqb t "GNGGA".

(** [nmea = nmea.strip()], then the cut at the first ['*'], then
    [nmea[1:].split(',')]. *)
Definition fields_of (nmea : string) : list string :=
  let nmea := strip nmea in
  let nmea := match find "*" nmea with
              | Some i => slice_to nmea (Z.of_nat i)
              | None => nmea
              end in
  split "," (slice_from nmea 1).

(** knots to km/h *)
Definition kmh_per_knot : F := f_lit false 1852 (-3).

Definition decode_rmc (now : datetime) (fields : list string)
  : option (Position F) :=
  if (List.length fields <? 10)%nat || negb (String.eqb (field fields 2) "A")
  then None
  else
    let time_str := field fields 1 in
    let date_str := field fields 9 in
    la <- _parse_lat (field fields 3) (field fields 4) ;;
    lo <- _parse_lon (field fields 5) (field fields 6) ;;
    sp <- (if nonempty (field fields 7)
           then x <- py_float (field fields 7) ;; Some (f_mul x kmh_per_knot)
           else Some f_zero) ;;
    let el := f_zero in
    dt <- _parse_datetime now time_str (Some date_str) ;;
    Some (position6 0 la lo sp el dt).

Definition decode_gga (now : datetime) (fields : list string)
  : option (Position F) :=
  if (List.length fields <? 10)%nat then None
  else
    let time_str := field fields 1 in
    la <- _parse_lat (field fields 2) (field fields 3) ;;
    lo <- _parse_lon (field fields 4) (field fields 5) ;;
    el <- (if nonempty (field fields 9)
           then py_float (field fields 9)
           else Some f_zero) ;;
    let sp := f_zero in
    dt <- _parse_datetime now time_str None ;;
    Some (position6 0 la lo sp el dt).

(** [NMEADecoder.decode]; [None] is a raised [ValueError] (or any other
    exception). *)
Definition decode (now : datetime) (nmea : string) : option (Position F) :=
  if negb (startswith nmea "$") then None
  else
    let fields := fields_of nmea in
    let t := field fields 0 in
    if is_rmc t then decode_rmc now fields
    else if is_gga t then decode_gga now fields
    else None.

End Decoder.

(** ** core.py: LodeGenerator and FileGenerator *)

(** What [__next__] does: return a Position or raise [StopIteration]. *)
Inductive pulled (A : Type) : Type :=
| Yield (p : A)
| StopIteration.

Arguments Yield {A} p.
Arguments StopIteration {A}.

Section Generators.
Import PyStr PyNum PyTime.
Context {F : Type} {PF : PyFloat F}.

(** The attributes of a [FileGenerator] instance. *)
Record FileGenerator : Type := mk_gen {
  _positions : list (Position F);
  _index : nat;
  _duration_override : option F;
  _index_override : option Z
}.

(** [FileGenerator.__init__] *)
Definition FileGenerator_init : FileGenerator := mk_gen [] O None None.

Definition set_duration_override (g : FileGenerator) (d : F) : FileGenerator :=
  mk_gen (_positions g) (_index g) (Some d) (_index_override g).

Definition set_index_override (g : FileGenerator) (i : Z) : FileGenerator :=
  mk_gen (_positions g) (_index g) (_duration_override g) (Some i).

Definition set_positions (g : FileGenerator) (ps : list (Position F))
  : FileGenerator :=
  mk_gen ps (_index g) (_duration_override g) (_index_override g).

Definition set_index (g : FileGenerator) (i : nat) : FileGenerator :=
  mk_gen (_positions g) i (_duration_override g) (_index_override g).

(** [param.split("=", 1)[1]] for a [param] that starts with [key=]. *)
Definition param_value (param : string) : string :=
  field (split1 "=" param) 1.

(** [_parse_common_params]: the arguments are the strings of the command
    line.  Returns the generator with its overrides set and the remaining
    arguments; [None] is the [ValueError]. *)
Fixpoint _parse_common_params (g : FileGenerator) (args : list string)
  : option (FileGenerator * list string) :=
  match args with
  | [] => Some (g, [])
  | param :: rest =>
      if startswith param "duration=" then
        d <- py_float (param_value param) ;;
        _parse_common_params (set_duration_override g d) rest
      else if startswith param "index=" then
        i <- py_int (param_value param) ;;
        _parse_common_params (set_index_override g i) rest
      else
        '(g', remaining) <- _parse_common_params g rest ;;
        Some (g', param :: remaining)
  end.

Definition with_duration (p : Position F) (d : F) : Position F :=
  mk_position (index p) (lat p) (lon p) (speed p) (elevation p) (time p)
              d (transition p) (description p).

Definition with_index (p : Position F) (i : Z) : Position F :=
  mk_position i (lat p) (lon p) (speed p) (elevation p) (time p)
              (duration p) (transition p) (description p).

Definition with_time (p : Position F) (t : datetime) : Position F :=
  mk_position (index p) (lat p) (lon p) (speed p) (elevation p) t
              (duration p) (transition p) (description p).

Definition _apply_common_params (g : FileGenerator) (position : Position F)
           (original_index : Z) : Position F :=
  let position :=
    match _duration_override g with
    | Some d => with_duration position d
    | None => position
    end in
  match _index_override g with
  | Some start => with_index position (start + (original_index - 1))
  | None => position
  end.

(** [FileGenerator._update_position]: the next stored position, or [None]
    when the list is used up. *)
Definition FileGenerator_update_position (g : FileGenerator)
  : option (Position F) * FileGenerator :=
  match nth_error (_positions g) (_index g) with
  | None => (None, g)
  | Some position => (Some position, set_index g (S (_index g)))
  end.

(** [lst[i] = x] for an index in range. *)
Fixpoint store {A} (l : list A) (i : nat) (x : A) : list A :=
  match l, i with
  | [], _ => []
  | _ :: t, O => x :: t
  | h :: t, S j => h :: store t j x
  end.

(** [CSVGenerator._update_position] and [GeoJSONGenerator._update_position]:
    the stored object itself gets the new [time]. *)
Definition stamping_update_position (now : datetime) (g : FileGenerator)
  : option (Position F) * FileGenerator :=
  match FileGenerator_update_position g with
  | (Some position, g') =>
      let position := with_time position now in
      (Some position,
       set_positions g' (store (_positions g') (_index g) position))
  | (None, g') => (None, g')
  end.

(** The three concrete classes. *)
Inductive kind : Type := CSV | GeoJSON | NMEA.

Record Generator : Type := mk_generator {
  cls : kind;
  self : FileGenerator
}.

(** Method resolution of [_update_position]: [NMEAGenerator] inherits the
    one of [FileGenerator]. *)
Definition _update_position (now : datetime) (G : Generator)
  : option (Position F) * Generator :=
  let '(r, g') :=
    match cls G with
    | CSV | GeoJSON => stamping_update_position now (self G)
    | NMEA => FileGenerator_update_position (self G)
    end in
  (r, mk_generator (cls G) g').

(** [LodeGenerator.__next__]; [now] is the clock at the time of the call. *)
Definition next (now : datetime) (G : Generator)
  : pulled (Position F) * Generator :=
  match _update_position now G with
  | (Some data, G') => (Yield data, G')
  | (None, G') => (StopIteration, G')
  end.

(** [k] calls of [next]; the clock reads [clock i] at the i-th call. *)
Fixpoint pulls (clock : nat -> datetime) (k : nat) (G : Generator)
  : list (pulled (Position F)) * Generator :=
  match k with
  | O => ([], G)
  | S j =>
      let '(r, G') := next (clock O) G in
      let '(rs, G'') := pulls (fun i => clock (S i)) j G' in
      (r :: rs, G'')
  end.

End Generators.

Arguments FileGenerator F : clear implicits.
Arguments Generator F : clear implicits.

(** ** The files the generators read *)

(** [csv.reader] with the default dialect, for a file of one line: the
    states of the reader's automaton.  [None] is [csv.Error].  The dialect
    is not strict, so a quoted field that is still open when the input ends
    is closed there. *)
Module PyCsv.

Inductive state : Type :=
| START_RECORD | START_FIELD | IN_FIELD | IN_QUOTED_FIELD
| QUOTE_IN_QUOTED_FIELD | EAT_CRNL.

Definition is_eol (c : ascii) : bool := Ascii.eqb c "010" || Ascii.eqb c "013".

Definition push (field : string) (c : ascii) : string :=
  field ++ String c "".

Fixpoint scan (st : state) (line : string) (field : string)
         (fields : list string) : option (list string) :=
  match line with
  | "" =>
      match st with
      | START_RECORD | EAT_CRNL => Some fields
      | _ => Some (fields ++ [field])%list
      end
  | String c r =>
      match st with
      | START_RECORD | START_FIELD =>
          if is_eol c then
            match st with
            | START_RECORD => scan EAT_CRNL r "" fields
            | _ => scan EAT_CRNL r "" (fields ++ [field])%list
            end
          else if Ascii.eqb c "034" then scan IN_QUOTED_FIELD r field fields
          else if Ascii.eqb c "," then scan START_FIELD r "" (fields ++ [field])%list
          else scan IN_FIELD r (push field c) fields
      | IN_FIELD =>
          if is_eol c then scan EAT_CRNL r "" (fields ++ [field])%list
          else if Ascii.eqb c "," then scan START_FIELD r "" (fields ++ [field])%list
          else scan IN_FIELD r (push field c) fields
      | IN_QUOTED_FIELD =>
          if Ascii.eqb c "034" then scan QUOTE_IN_QUOTED_FIELD r field fields
          else scan IN_QUOTED_FIELD r (push field c) fields
      | QUOTE_IN_QUOTED_FIELD =>
          if Ascii.eqb c "034" then scan IN_QUOTED_FIELD r (push field c) fields
          else if Ascii.eqb c "," then scan START_FIELD r "" (fields ++ [field])%list
          else if is_eol c then scan EAT_CRNL r "" (fields ++ [field])%list
          else scan IN_FIELD r (push field c) fields
      | EAT_CRNL =>
          if is_eol c then scan EAT_CRNL r field fields else None
      end
  end.

Definition record (line : string) : option (list string) :=
  scan START_RECORD line "" [].

End PyCsv.

Section Loaders.
Import PyStr PyNum PyTime.
Context {F : Type} {PF : PyFloat F}.

(** What [json.load] returns. *)
#[local] Unset Elimination Schemes.
Inductive json : Type :=
| JNull
| JBool (b : bool)
| JInt (z : Z)
| JFloat (x : F)
| JStr (s : string)
| JList (l : list json)
| JDict (items : list (string * json)).
#[local] Set Elimination Schemes.

(** The files as the library calls deliver them: [None] when [open] or the
    parser raises.
    - [read_csv]: the rows [csv.reader] yields;
    - [read_json]: the value [json.load] returns;
    - [read_lines]: the lines that iterating the file yields. *)
Record files : Type := mk_files {
  read_csv : string -> option (list (list string));
  read_json : string -> option json;
  read_lines : string -> option (list string)
}.

(** *** generators/csv_generator.py *)

(** One row of the loop of [CSVGenerator._load_file]: [Some None] is
    [continue], [None] an exception. *)
Definition csv_position (g : FileGenerator F) (idx : Z) (row : list string)
  : option (option (Position F)) :=
  match row with
  | [] => Some None
  | first :: _ =>
      if startswith first "#" then Some None
      else if (List.length row <? 5)%nat then None
      else
        la <- py_float (field row 1) ;;
        lo <- py_float (field row 2) ;;
        sp <- (if (3 <? List.length row)%nat then py_float (field row 3)
               else Some f_zero) ;;
        el <- (if (4 <? List.length row)%nat then py_float (field row 4)
               else Some f_zero) ;;
        du <- (if (5 <? List.length row)%nat then py_float (field row 5)
               else Some f_zero) ;;
        let tr := if (6 <? List.length row)%nat then field row 6 else "auto" in
        let de := if (7 <? List.length row)%nat then field row 7 else "" in
        let position := mk_position idx la lo sp el epoch du tr de in
        Some (Some (_apply_common_params g position idx))
  end.

Fixpoint csv_rows (g : FileGenerator F) (idx : Z) (rows : list (list string))
         (positions : list (Position F)) : option (list (Position F)) :=
  match rows with
  | [] => Some positions
  | row :: rest =>
      r <- csv_position g idx row ;;
      match r with
      | None => csv_rows g idx rest positions
      | Some position => csv_rows g (idx + 1) rest (positions ++ [position])%list
      end
  end.

(** [CSVGenerator._load_file]: every exception of the [try] block comes
    out as one [ValueError]. *)
Definition CSV_load_file (fs : files) (g : FileGenerator F)
           (filename : string) : option (FileGenerator F) :=
  rows <- read_csv fs filename ;;
  positions <- csv_rows g 1 rows (_positions g) ;;
  match positions with
  | [] => None
  | _ => Some (set_positions g positions)
  end.

Definition CSVGenerator_init (fs : files) (args : list string)
  : option (Generator F) :=
  '(g, remaining_args) <- _parse_common_params FileGenerator_init args ;;
  match remaining_args with
  | [] => None
  | filename :: _ =>
      g' <- CSV_load_file fs g filename ;; Some (mk_generator CSV g')
  end.

(** *** generators/geojson_generator.py *)

Fixpoint assoc (k : string) (items : list (string * json)) : option json :=
  match items with
  | [] => None
  | (k', v) :: rest => if String.eqb k k' then Some v else assoc k rest
  end.

(** [v[k]] for a string key: only a dict holding [k] answers. *)
Definition getitem (v : json) (k : string) : option json :=
  match v with
  | JDict items => assoc k items
  | _ => None
  end.

(** [v[i]] for an integer index [i >= 0]: an element of a list, a
    character of a string. *)
Definition getindex (v : json) (i : nat) : option json :=
  match v with
  | JList l => nth_error l i
  | JStr s => match slice s (Z.of_nat i) (Z.of_nat (S i)) with
              | "" => None
              | c => Some (JStr c)
              end
  | _ => None
  end.

(** [v.get(k, default)]: only a dict has [get]. *)
Definition get (v : json) (k : string) (default : json) : option json :=
  match v with
  | JDict items =>
      Some (match assoc k items with Some x => x | None => default end)
  | _ => None
  end.

(** [float(v)] *)
Definition float_of_json (v : json) : option F :=
  match v with
  | JInt z => f_of_int z
  | JFloat x => Some x
  | JBool b => Some (f_lit false (if b then 1 else 0) 0)
  | JStr s => py_float s
  | _ => None
  end.

(** The loader stores [coords[1]] and [coords[0]] as they come, whatever
    their type; [Position] declares them [float], and so does this
    embedding.  The only reader of the two fields is [format_coords], and a
    stored value stands for the float on which it does what the code does on
    the object itself:
    - a float is that float;
    - [True] and [False] are the integers 1 and 0;
    - an integer is the float of the same value ([int(lat)], [lat - lat_deg]
      and the comparison with 0 are then the same; this is exact up to
      [2^53] in magnitude; beyond it the code still writes the digits of the
      integer, while the float here is the nearest one, or the infinity of
      its sign where no float is that large, and the encoder raises on it);
    - on a string, [None], a list or a dict [format_coords] raises
      ([int(lat)] or [lat - lat_deg]): it is a NaN, on which it raises too. *)
Definition stored_float (v : json) : F :=
  match v with
  | JFloat x => x
  | JInt z => match f_of_int z with
              | Some x => x
              | None => f_inf (z <? 0)
              end
  | JBool b => f_lit false (if b then 1 else 0) 0
  | _ => f_nan
  end.

(** [transition] and [description] are stored as they come as well.  No
    function of the program reads the two fields of a loaded position; a
    string is stored as that string, and the empty string stands for a
    value of any other type. *)
Definition stored_str (v : json) : string :=
  match v with JStr s => s | _ => "" end.

Definition json_is_point (v : json) : bool :=
  match v with JStr s => String.eqb s "Point" | _ => false end.

Definition geo_position (g : FileGenerator F) (idx : Z) (feature : json)
  : option (option (Position F)) :=
  geometry <- getitem feature "geometry" ;;
  gtype <- getitem geometry "type" ;;
  if negb (json_is_point gtype) then Some None
  else
    coords <- getitem geometry "coordinates" ;;
    props <- get feature "properties" (JDict []) ;;
    la <- getindex coords 1 ;;
    lo <- getindex coords 0 ;;
    sp_v <- get props "speed" (JInt 0) ;;
    sp <- float_of_json sp_v ;;
    el_v <- get props "elevation" (JInt 0) ;;
    el <- float_of_json el_v ;;
    du_v <- get props "duration" (JInt 0) ;;
    du <- float_of_json du_v ;;
    tr <- get props "transition" (JStr "auto") ;;
    de <- get props "description" (JStr "") ;;
    let point := mk_position idx (stored_float la) (stored_float lo) sp el
                             epoch du (stored_str tr) (stored_str de) in
    Some (Some (_apply_common_params g point idx)).

Fixpoint geo_features (g : FileGenerator F) (idx : Z) (features : list json)
         (positions : list (Position F)) : option (list (Position F)) :=
  match features with
  | [] => Some positions
  | feature :: rest =>
      r <- geo_position g idx feature ;;
      match r with
      | None => geo_features g idx rest positions
      | Some point => geo_features g (idx + 1) rest (positions ++ [point])%list
      end
  end.

(** [GeoJSONGenerator._load_file].  Iterating over a [features] value that
    is not a list either raises or yields strings, on which
    [feature['geometry']] raises, or yields nothing, which leaves no
    position: the load fails in each case. *)
Definition GeoJSON_load_file (fs : files) (g : FileGenerator F)
           (filename : string) : option (FileGenerator F) :=
  route_data <- read_json fs filename ;;
  match route_data with
  | JDict items =>
      features <- assoc "features" items ;;
      match features with
      | JList l =>
          positions <- geo_features g 1 l (_positions g) ;;
          match positions with
          | [] => None
          | _ => Some (set_positions g positions)
          end
      | _ => None
      end
  | _ => None
  end.

Definition GeoJSONGenerator_init (fs : files) (args : list string)
  : option (Generator F) :=
  '(g, remaining_args) <- _parse_common_params FileGenerator_init args ;;
  match remaining_args with
  | [] => None
  | filename :: _ =>
      g' <- GeoJSON_load_file fs g filename ;; Some (mk_generator GeoJSON g')
  end.

(** *** generators/nmea_generator.py *)

(** The loop of [NMEAGenerator._load_file]; [clock k] is the clock while
    line [k] is decoded. *)
Fixpoint nmea_lines (clock : nat -> datetime) (g : FileGenerator F)
         (idx : Z) (lines : list string) (positions : list (Position F))
  : list (Position F) :=
  match lines with
  | [] => positions
  | line :: rest =>
      let later := fun k => clock (S k) in
      match decode (clock O) line with
      | Some pos =>
          let pos := with_index pos idx in
          let pos := with_duration pos (f_lit false 10 (-1)) in
          let pos := _apply_common_params g pos idx in
          nmea_lines later g (idx + 1) rest (positions ++ [pos])%list
      | None => nmea_lines later g idx rest positions
      end
  end.

Definition NMEA_load_file (fs : files) (clock : nat -> datetime)
           (g : FileGenerator F) (filename : string)
  : option (FileGenerator F) :=
  lines <- read_lines fs filename ;;
  Some (set_positions g (nmea_lines clock g 1 lines (_positions g))).

Definition NMEAGenerator_init (fs : files) (clock : nat -> datetime)
           (args : list string) : option (Generator F) :=
  '(g, remaining_args) <- _parse_common_params FileGenerator_init args ;;
  match remaining_args with
  | [] => None
  | filename :: _ =>
      g' <- NMEA_load_file fs clock g filename ;; Some (mk_generator NMEA g')
  end.

(** Construction of a generator of class [k]; [None] when [__init__]
    raises.  [clock] is read by the NMEA loader only. *)
Definition construct (k : kind) (fs : files) (clock : nat -> datetime)
           (args : list string) : option (Generator F) :=
  match k with
  | CSV => CSVGenerator_init fs args
  | GeoJSON => GeoJSONGenerator_init fs args
  | NMEA => NMEAGenerator_init fs clock args
  end.

End Loaders.

Arguments json F : clear implicits.
Arguments files F : clear implicits.

(** ** core.py: ClientThread *)

Module Net.
Import PyStr.

(** A connected socket seen from the server: [fd] is the identity of the
    socket object, [received] the bytes that reached the peer so far,
    [budget] the number of bytes the peer still takes before the connection
    breaks ([None]: it never breaks), [closed] whether [close] was called. *)
Record conn : Type := mk_conn {
  fd : nat;
  received : string;
  budget : option nat;
  closed : bool
}.

Fixpoint all_ascii (s : string) : bool :=
  match s with
  | "" => true
  | String c r => (ord c <? 128)%N && all_ascii r
  end.

(** [s.encode('ascii')]; [None] is [UnicodeEncodeError]. *)
Definition encode_ascii (s : string) : option string :=
  if all_ascii s then Some s else None.

(** [conn.sendall(data)]: the connection afterwards, and whether the call
    raised.  A call that raises may have delivered the first bytes. *)
Definition sendall (c : conn) (data : string) : conn * bool :=
  if closed c then (c, true)
  else
    match budget c with
    | None => (mk_conn (fd c) (received c ++ data) None false, false)
    | Some b =>
        if (String.length data <=? b)%nat
        then (mk_conn (fd c) (received c ++ data)
                      (Some (b - String.length data)%nat) false, false)
        else (mk_conn (fd c) (received c ++ take b data) (Some O) false, true)
    end.

Definition close (c : conn) : conn :=
  mk_conn (fd c) (received c) (budget c) true.

(** The [try] block of [_broadcast] for one connection. *)
Definition send_pair (c : conn) (rmc gga : string) : conn * bool :=
  match encode_ascii rmc with
  | None => (c, true)
  | Some rmc_bytes =>
      match sendall c rmc_bytes with
      | (c1, true) => (c1, true)
      | (c1, false) =>
          match encode_ascii gga with
          | None => (c1, true)
          | Some gga_bytes => sendall c1 gga_bytes
          end
      end
  end.

(** [self._clients.remove(conn)]: the first entry that is this socket. *)
Fixpoint remove_conn (i : nat) (clients : list conn) : list conn :=
  match clients with
  | [] => []
  | c :: rest => if Nat.eqb (fd c) i then rest else c :: remove_conn i rest
  end.

(** The socket object [i] in the list, replaced by its new state. *)
Fixpoint update_conn (c' : conn) (clients : list conn) : list conn :=
  match clients with
  | [] => []
  | c :: rest =>
      if Nat.eqb (fd c) (fd c') then c' :: rest else c :: update_conn c' rest
  end.

Fixpoint lookup_conn (i : nat) (clients : list conn) : option conn :=
  match clients with
  | [] => None
  | c :: rest => if Nat.eqb (fd c) i then Some c else lookup_conn i rest
  end.

(** The loop of [_broadcast] over the copy [self._clients[:]], here the
    identities [snapshot]; [clients] is [self._clients]. *)
Fixpoint broadcast_loop (snapshot : list nat) (clients : list conn)
         (rmc gga : string) : list conn :=
  match snapshot with
  | [] => clients
  | i :: rest =>
      match lookup_conn i clients with
      | None => broadcast_loop rest clients rmc gga
      | Some c =>
          match send_pair c rmc gga with
          | (c', false) => broadcast_loop rest (update_conn c' clients) rmc gga
          | (c', true) => broadcast_loop rest (remove_conn i clients) rmc gga
          end
      end
  end.

(** The attributes of a [ClientThread] that the relay uses. *)
Record ClientThread : Type := mk_thread {
  _clients : list conn;
  _data_queue : list (string * string);
  _running : bool
}.

Definition _broadcast (t : ClientThread) (rmc gga : string) : ClientThread :=
  mk_thread (broadcast_loop (map fd (_clients t)) (_clients t) rmc gga)
            (_data_queue t) (_running t).

(** [add_data]: [Queue.put] appends at the tail. *)
Definition add_data (t : ClientThread) (rmc gga : string) : ClientThread :=
  mk_thread (_clients t) (_data_queue t ++ [(rmc, gga)])%list (_running t).

(** [while not self._data_queue.empty(): rmc, gga = self._data_queue.get();
    self._broadcast(rmc, gga)], with no producer running in between. *)
Fixpoint drain_queue (queue : list (string * string)) (t : ClientThread)
  : ClientThread :=
  match queue with
  | [] => t
  | (rmc, gga) :: rest => drain_queue rest (_broadcast t rmc gga)
  end.

Definition drain (t : ClientThread) : ClientThread :=
  drain_queue (_data_queue t)
              (mk_thread (_clients t) [] (_running t)).

(** A connection accepted by [run]. *)
Definition accept (t : ClientThread) (c : conn) : ClientThread :=
  mk_thread (_clients t ++ [c])%list (_data_queue t) (_running t).

End Net.

(** ** Notions used in the statements *)

Section StatementDefs.
Context {F : Type} {PF : PyFloat F}.

(** What a pull hands out for the stored position [p]: the CSV and GeoJSON
    classes stamp the clock on it, the NMEA class hands it out as stored. *)
Definition emitted (k : kind) (now : datetime) (p : Position F) : Position F :=
  match k with
  | NMEA => p
  | CSV | GeoJSON => with_time p now
  end.

(** The positions among the results of some pulls. *)
Fixpoint yields (rs : list (pulled (Position F))) : list (Position F) :=
  match rs with
  | [] => []
  | Yield p :: rest => p :: yields rest
  | StopIteration :: rest => yields rest
  end.

(** The stored positions [ps] as successive pulls emit them, the clock
    reading [clock j] at the j-th pull. *)
Fixpoint emit_all (k : kind) (clock : nat -> datetime) (ps : list (Position F))
  : list (Position F) :=
  match ps with
  | [] => []
  | p :: rest => emitted k (clock O) p :: emit_all k (fun j => clock (S j)) rest
  end.

(** The positions of a list carry the numbers [start], [start + 1], ... *)
Definition numbered (start : Z) (ps : list (Position F)) : Prop :=
  forall j p, nth_error ps j = Some p -> index p = start + Z.of_nat j.

(** The stored positions not handed out yet. *)
Definition remaining (G : Generator F) : list (Position F) :=
  skipn (_index (self G)) (_positions (self G)).

End StatementDefs.

(** ** Notions about texts and numbers *)

Section TextNotions.
Import PyStr PyNum.

(** Every character of [s] satisfies [P]. *)
Fixpoint all_chars (P : ascii -> bool) (s : string) : bool :=
  match s with
  | "" => true
  | String c r => P c && all_chars P r
  end.

(** The number a string of digits denotes, read after the digits [acc]. *)
Fixpoint nval (s : string) (acc : N) : N :=
  match s with
  | "" => acc
  | String c r => nval r (acc * 10 + digit_val c)
  end.

(** Characters that are neither a comma nor a star, a text made of such
    characters, and a text without a star. *)
Definition okch (c : ascii) : bool :=
  negb (Ascii.eqb c ",") && negb (Ascii.eqb c "*").

Definition clean (s : string) : Prop := all_chars okch s = true.

Definition nostar (s : string) : Prop :=
  all_chars (fun c => negb (Ascii.eqb c "*")) s = true.

End TextNotions.

(** ** Binary64 numbers as rationals *)

(** A zero or a finite number, as opposed to an infinity or a NaN. *)
Definition finite64 (x : Binary64.t) : bool :=
  match x with
  | S754_zero _ | S754_finite _ _ _ => true
  | _ => false
  end.

(** The number a float stands for; 0 for the zeros, and for the infinities
    and NaN, which stand for none. *)
Definition real (x : Binary64.t) : Q :=
  match x with
  | S754_finite s m e => if s then (- Binary64.mag m e)%Q else Binary64.mag m e
  | _ => 0%Q
  end.

(** A float of the format: its mantissa and exponent are the canonical ones
    of a binary64 number. *)
Definition float64 (x : Binary64.t) : Prop := valid_binary 53 1024 x = true.

(** True for the negative numbers only. *)
Definition negative (x : Binary64.t) : bool :=
  match x with
  | S754_finite true _ _ => true
  | _ => false
  end.

(** The relative precision of the format, [2^-52], and its smallest
    positive number, [2^-1074]. *)
Definition eps64 : Q := 1 # 4503599627370496.
Definition tiny64 : Q := Qpower (2 # 1) (-1074).

(** What [binary_round_aux] makes of the mantissa [q] that the first shift
    and the rounding leave at the exponent [e1]. *)
Inductive rounded (sx : bool) (q e1 : Z) : spec_float -> Prop :=
| rounded_zero : q = 0 -> rounded sx q e1 (S754_zero sx)
| rounded_finite (m : positive) (e : Z) :
    bounded 53 1024 m e = true -> e1 <= e -> Zpos m * 2 ^ (e - e1) = q ->
    rounded sx q e1 (S754_finite sx m e).

(** [R] is a float of the format with the sign [sx] and a magnitude that
    is off the non-negative number [v] by no more than the precision of the
    format allows. *)
Definition rounds (sx : bool) (R : spec_float) (v : Q) : Prop :=
  finite64 R = true /\ float64 R
  /\ exists a, (real R == (if sx then - a else a) /\ 0 <= a
               /\ Qabs (a - v) <= v * eps64 + tiny64)%Q.

(** [R] is a float of the format, off the number [v] by no more than the
    precision of the format allows. *)
Definition near64 (R : Binary64.t) (v : Q) : Prop :=
  finite64 R = true /\ float64 R
  /\ (Qabs (real R - v) <= Qabs v * eps64 + tiny64)%Q.

(** ** The round trip through a sentence *)

(** The float of [x] written to one decimal, ties to even, as the [.1f]
    format writes it and [float] reads it. *)
Definition one_decimal {F : Type} {PF : PyFloat F} (x : F) : F :=
  match f_view x with
  | PyNum.VFin neg q => f_lit neg (PyNum.round_half_even (q * (10 # 1))) (-1)
  | PyNum.VInf neg => f_inf neg
  | PyNum.VNan => f_nan
  end.

(** Two finite floats that stand for numbers at most [eps] apart. *)
Definition near (eps : Q) (x y : Binary64.t) : Prop :=
  finite64 x = true /\ finite64 y = true /\ (Qabs (real x - real y) <= eps)%Q.

(** Half a unit of the sixth decimal of a minute, in degrees
    (1/120000000), and what the float operations of the two directions add
    to it (less than 1e-13). *)
Definition coord_tolerance : Q :=
  ((1 # 120000000) + (1 # 10000000000000))%Q.

(** Half a tenth of a knot in km/h (0.0926), the part of the speed by
    which the two conversion factors miss each other
    (0.539957 * 1.852 = 1.000000364), and what the float operations add:
    0.09261 km/h and 0.3641 millionths of the speed bound the three
    together. *)
Definition speed_tolerance (sp : Q) : Q :=
  ((9261 # 100000) + (3641 # 10000000000) * sp)%Q.

(** The largest speed of the round trip, 1e307 km/h. *)
Definition max_speed : Q := Qpower (10 # 1) 307.

(** ** The ways a line can fail to decode *)

Definition is_none {A} (o : option A) : bool :=
  match o with None => true | Some _ => false end.

(** The failures of [decode], written from their description and with
    Python's own functions only ([str.strip], [str.split], slices, [int],
    [float] and the [datetime] constructor), for comparison with the
    decoder. *)
Module DecodeSpec.
Section Words.
Import PyStr PyNum PyTime.
Context {F : Type} {PF : PyFloat F}.

(** The characters of [s] in front of its first [c]; all of [s] when it has
    none. *)
Fixpoint upto (c : ascii) (s : string) : string :=
  match s with
  | "" => ""
  | String a r => if Ascii.eqb a c then "" else String a (upto c r)
  end.

(** The fields of a line: the line without the white space around it, cut
    in front of its first star, without its first character, split at the
    commas.  A field that is not there reads as the empty text. *)
Definition fields (nmea : string) : list string :=
  split "," (drop 1 (upto "*" (strip nmea))).

Definition nth_field (nmea : string) (i : nat) : string :=
  nth i (fields nmea) "".

Definition rmc (nmea : string) : bool :=
  existsb (String.eqb (nth_field nmea 0)) ["GPRMC"; "GNRMC"; "RMC"].

Definition gga (nmea : string) : bool :=
  existsb (String.eqb (nth_field nmea 0)) ["GPGGA"; "GNGGA"; "GGA"].

(** *** The five listed failures *)

Definition no_dollar (nmea : string) : bool :=
  match nmea with
  | String "$" _ => false
  | _ => true
  end.

Definition unknown_type (nmea : string) : bool :=
  negb (rmc nmea || gga nmea).

Definition too_few_fields (nmea : string) : bool :=
  (List.length (fields nmea) <? 10)%nat.

Definition void_rmc (nmea : string) : bool :=
  rmc nmea && negb (String.eqb (nth_field nmea 2) "A").

(** The number [int] reads in a text, 0 where it rejects the text. *)
Definition number (s : string) : Z :=
  match py_int s with Some z => z | None => 0 end.

(** [int] rejects one of the three pairs of characters of [s]. *)
Definition pairs_rejected (s : string) : bool :=
  is_none (py_int (slice s 0 2)) || is_none (py_int (slice s 2 4))
  || is_none (py_int (slice s 4 6)).

(** The microseconds of a time text: none without a point; with one, the
    text between the first point and the second, read as the decimals of a
    float, times a million, cut to an integer.  [None] where [float] or the
    cut raises. *)
Definition microseconds (t : string) : option Z :=
  if contains "." t then
    match py_float ("0." ++ nth 1 (split "." t) "") with
    | Some x => f_trunc (f_mul x (f_lit false 1 6))
    | None => None
    end
  else Some 0.

(** No timestamp: the time field is empty, or one of its pairs or its
    decimals cannot be read, or the date field of an RMC line is there and
    one of its pairs cannot be read, or the numbers read are not those of a
    [datetime]: the date is the one of the date field (with 2000 added to
    the year) where an RMC line has one, and that of the clock otherwise. *)
Definition no_timestamp (now : datetime) (nmea : string) : bool :=
  let t := nth_field nmea 1 in
  let d := if rmc nmea then nth_field nmea 9 else "" in
  let H := number (slice t 0 2) in
  let M := number (slice t 2 4) in
  let S := number (slice t 4 6) in
  let us := match microseconds t with Some z => z | None => 0 end in
  negb (nonempty t)
  || pairs_rejected t
  || is_none (microseconds t)
  || (nonempty d && pairs_rejected d)
  || is_none (if nonempty d
              then make (number (slice d 4 6) + 2000) (number (slice d 2 4))
                        (number (slice d 0 2)) H M S us
              else replace_time now H M S us).

Definition listed_failure (now : datetime) (nmea : string) : bool :=
  no_dollar nmea || unknown_type nmea || too_few_fields nmea
  || void_rmc nmea || no_timestamp now nmea.

(** *** The failure that the list leaves out *)

(** Where the degrees of a coordinate field end and its minutes begin: two
    characters in front of the decimal point when at least four characters
    stand in front of it; otherwise after [maxd] characters, or two
    characters before the end of the field if that comes first; a field of
    one or two characters without a point is all degrees. *)
Definition degrees_end (coord : string) (maxd : Z) : Z :=
  let n := Z.of_nat (String.length coord) in
  match find "." coord with
  | Some dot => if 4 <=? Z.of_nat dot then Z.of_nat dot - 2
                else Z.min maxd (n - 2)
  | None => if n <=? 2 then maxd else Z.min maxd (n - 2)
  end.

(** A coordinate that cannot be read: the field and its hemisphere letter
    are both there, and [int] rejects the degrees, or the degrees are too
    large for a float, or there are minutes and [float] rejects them. *)
Definition bad_coordinate (coord hemi : string) (maxd : Z) : bool :=
  let k := degrees_end coord maxd in
  let has_minutes :=
    contains "." coord || (k <? Z.of_nat (String.length coord)) in
  nonempty coord && nonempty hemi
  && (is_none (py_int (slice_to coord k))
      || is_none (f_of_int (number (slice_to coord k)))
      || (has_minutes && is_none (py_float (slice_from coord k)))).

(** A speed or elevation field that is there and that [float] rejects. *)
Definition bad_float (s : string) : bool :=
  nonempty s && is_none (py_float s).

(** The latitude and the longitude, 2 and 3 digits of degrees, stand in
    fields 3 to 6 of an RMC line, with the speed in field 7, and in fields
    2 to 5 of a GGA line, with the elevation in field 9. *)
Definition bad_number (nmea : string) : bool :=
  let f := nth_field nmea in
  if rmc nmea
  then bad_coordinate (f 3%nat) (f 4%nat) 2
       || bad_coordinate (f 5%nat) (f 6%nat) 3 || bad_float (f 7%nat)
  else bad_coordinate (f 2%nat) (f 3%nat) 2
       || bad_coordinate (f 4%nat) (f 5%nat) 3 || bad_float (f 9%nat).

Definition fails (now : datetime) (nmea : string) : bool :=
  listed_failure now nmea || bad_number nmea.

End Words.
End DecodeSpec.

(** ** The checksum, as the description of the sentence states it *)

Module ChecksumSpec.
Import PyStr.

(** The position of the last [c] in [s]. *)
Fixpoint rfind (c : ascii) (s : string) : option nat :=
  match s with
  | "" => None
  | String a r =>
      match rfind c r with
      | Some i => Some (S i)
      | None => if Ascii.eqb a c then Some O else None
      end
  end.

(** The exclusive or of the byte values of all characters of [s]. *)
Fixpoint xor_all (s : string) : N :=
  match s with
  | "" => 0%N
  | String c r => N.lxor (ord c) (xor_all r)
  end.

Definition upper_hex_digit (d : N) : ascii :=
  match String.get (N.to_nat d) "0123456789ABCDEF" with
  | Some c => c
  | None => "?"%char
  end.

(** A byte as two uppercase hexadecimal digits. *)
Definition two_hex (n : N) : string :=
  String (upper_hex_digit (n / 16)) (String (upper_hex_digit (n mod 16)) "").

(** The sentence starts with a dollar, has a star, and the exclusive or of
    the characters strictly between the dollar and the last star is written
    in the two characters after that star; a CR LF ends the sentence. *)
Definition checksum_holds (sentence : string) : bool :=
  match sentence with
  | String "$" r =>
      match rfind "*" r with
      | Some i =>
          String.eqb (drop (S i) r) (two_hex (xor_all (take i r)) ++ crlf)
      | None => false
      end
  | _ => false
  end.

End ChecksumSpec.

(** ** Sample data *)

Module Samples.

Definition B : Type := Binary64.t.

Definition lf : string := String "010" "".

(** The row of the CSV scenario. *)
Definition start_row : string :=
  "1,59.9343,30.3351,10.0,5.5,2.0,manual,"
  ++ String "034" "Start" ++ String "034" "".

Definition start_fields : list string :=
  ["1"; "59.9343"; "30.3351"; "10.0"; "5.5"; "2.0"; "manual"; "Start"].

(** The position that row stands for, with the placeholder time. *)
Definition start_position : Position B :=
  mk_position 1 (f_lit false 599343 (-4)) (f_lit false 303351 (-4))
              (f_lit false 100 (-1)) (f_lit false 55 (-1)) PyTime.epoch
              (f_lit false 20 (-1)) "manual" "Start".

Definition rmc_line : string :=
  "$GPRMC,120000.00,A,5956.058000,N,03020.106000,E,5.4,0.0,010120,,,A*5A" ++ lf.

(** The text of [rmc_line] before its star. *)
Definition rmc_text : string :=
  "$GPRMC,120000.00,A,5956.058000,N,03020.106000,E,5.4,0.0,010120,,,A".

(** A GGA line with a latitude that is not a number. *)
Definition abc_line : string := "$GPGGA,120000,abc,N,,,,,,1.0".

Definition bad_line : string := "$GPXXX,1,2,3*00" ++ lf.

(** A directory with one file of each kind, and one NMEA file without a
    single usable line. *)
Definition disk : files B :=
  mk_files
    (fun name => if String.eqb name "route.csv" then Some [start_fields] else None)
    (fun name => None)
    (fun name =>
       if String.eqb name "route.nmea" then Some [rmc_line]
       else if String.eqb name "bad.nmea" then Some [bad_line]
       else None).

(** Two readings of the clock: while the files are loaded, and at a pull. *)
Definition load_time : datetime := mk_dt 2026 11 5 9 30 0 0 (Some UTC).
Definition pull_time : datetime := mk_dt 2026 11 5 9 30 7 250000 (Some UTC).

(** The time written in [rmc_line]. *)
Definition rmc_line_time : datetime := mk_dt 2020 1 1 12 0 0 0 (Some UTC).

Definition csv_generator : Generator B :=
  mk_generator CSV (mk_gen [start_position] 0 None None).

(** The two sentences of [start_position] stamped with [pull_time]. *)
Definition gga_sentence : string :=
  "$GPGGA,093007.250,5956.058000,N,03020.106000,E,1,08,1.0,5.5,M,0.0,M,,*6B"
  ++ crlf.

Definition rmc_sentence : string :=
  "$GPRMC,093007.250,A,5956.058000,N,03020.106000,E,5.4,0.0,051126,,,A*60"
  ++ crlf.

(** A relay thread with one healthy client that has received nothing yet. *)
Definition client : Net.conn := Net.mk_conn 7 "" None false.

Definition relay : Net.ClientThread := Net.mk_thread [client] [] true.

(** The sample position at a speed of 1e9 km/h. *)
Definition fast_position : Position B :=
  mk_position 1 (f_lit false 599343 (-4)) (f_lit false 303351 (-4))
              (f_lit false 1000000000 0) (f_lit false 55 (-1)) pull_time
              (f_lit false 20 (-1)) "manual" "Start".

(** What [CSVGenerator("route.csv", "index=100")] builds. *)
Definition csv_generator_100 : Generator B :=
  mk_generator CSV (mk_gen [with_index start_position 100] 0 None (Some 100)).

End Samples.

(** ** core.py: the shutdown of the ClientThread *)

Module NetShutdown.
Import Net.

(** [_cleanup]: every connection of the list is closed and the list is
    cleared.  The thread lets go of the sockets, so they are handed back
    beside the thread: they are what the peers still hold.  A [close] that
    raises is passed over.  The listening socket is not part of this
    embedding. *)
Definition _cleanup (t : ClientThread) : ClientThread * list conn :=
  (mk_thread [] (_data_queue t) (_running t), map close (_clients t)).

(** [stop] *)
Definition stop (t : ClientThread) : ClientThread * list conn :=
  _cleanup (mk_thread (_clients t) (_data_queue t) false).

End NetShutdown.

(** ** Notions used in the further properties *)

Module NetMore.
Import PyStr Net.

(** The bytes of a queue of sentence pairs in the order [_broadcast] writes
    them. *)
Fixpoint wire (queue : list (string * string)) : string :=
  match queue with
  | [] => ""
  | (rmc, gga) :: rest => rmc ++ gga ++ wire rest
  end.

(** Both sentences of a pair are ASCII. *)
Definition ascii_pair (pair : string * string) : bool :=
  all_ascii (fst pair) && all_ascii (snd pair).

(** What one call of [_broadcast] does to the client [c]: [Some] its new
    state when both writes went through, [None] when it is dropped. *)
Definition served (c : conn) (rmc gga : string) : option conn :=
  match send_pair c rmc gga with
  | (c', false) => Some c'
  | (_, true) => None
  end.

End NetMore.

Section GeneratorNotions.
Import PyStr.
Context {F : Type} {PF : PyFloat F}.

(** An argument that [_parse_common_params] takes for itself. *)
Definition is_common_param (param : string) : bool :=
  startswith param "duration=" || startswith param "index=".

(** A [duration=] or [index=] argument whose value is not a number. *)
Definition bad_param (param : string) : bool :=
  if startswith param "duration="
  then is_none (py_float (F := F) (param_value param))
  else if startswith param "index="
       then is_none (PyNum.py_int (param_value param))
       else false.

(** A row the CSV loader passes over: an empty one, or a comment. *)
Definition csv_skipped (row : list string) : bool :=
  match row with
  | [] => true
  | first :: _ => startswith first "#"
  end.

(** The rows the CSV loader does not pass over. *)
Definition csv_data (rows : list (list string)) : list (list string) :=
  filter (fun row => negb (csv_skipped row)) rows.

(** A row the CSV loader cannot read: fewer than five columns, or a
    latitude, longitude, speed, elevation or duration that is not a
    number. *)
Definition csv_bad_row (row : list string) : bool :=
  negb (csv_skipped row)
  && ((List.length row <? 5)%nat
      || is_none (py_float (F := F) (field row 1))
      || is_none (py_float (F := F) (field row 2))
      || is_none (py_float (F := F) (field row 3))
      || is_none (py_float (F := F) (field row 4))
      || ((5 <? List.length row)%nat
          && is_none (py_float (F := F) (field row 5)))).

(** A feature with a geometry of a type other than [Point] (a LineString,
    a Polygon, ...): the GeoJSON loader passes it over. *)
Definition other_geometry (feature : json F) : bool :=
  match getitem feature "geometry" with
  | Some geometry =>
      match getitem geometry "type" with
      | Some t => negb (json_is_point t)
      | None => false
      end
  | None => false
  end.

(** The features of a list without those the loader passes over. *)
Definition geo_read (features : list (json F)) : list (json F) :=
  filter (fun feature => negb (other_geometry feature)) features.

(** The positions that the lines of an NMEA file decode to, in file order;
    [clock k] is the clock while line [k] is decoded. *)
Fixpoint decoded (clock : nat -> datetime) (lines : list string)
  : list (Position F) :=
  match lines with
  | [] => []
  | line :: rest =>
      let later := fun k => clock (S k) in
      match decode (clock O) line with
      | Some pos => pos :: decoded later rest
      | None => decoded later rest
      end
  end.

(** The positions [ps] with the numbers [idx], [idx + 1], ... and the
    duration [d]. *)
Fixpoint renumbered (idx : Z) (d : F) (ps : list (Position F))
  : list (Position F) :=
  match ps with
  | [] => []
  | p :: rest =>
      with_duration (with_index p idx) d :: renumbered (idx + 1) d rest
  end.

(** A property [P i q] of the [i]-th stored position [q] that the override
    step establishes, and a list whose positions all have it. *)
Definition kept_by (g : FileGenerator F) (P : Z -> Position F -> Prop) : Prop :=
  forall p i, index p = i -> P i (_apply_common_params g p i).

Definition holds_from (P : Z -> Position F -> Prop) (ps : list (Position F))
  : Prop :=
  forall j p, nth_error ps j = Some p -> P (1 + Z.of_nat j) p.

End GeneratorNotions.

Section MoreTextNotions.
Import PyStr.

(** The text a line is cut down to before it is split: without the blanks
    at its end, and without the first star and what follows it. *)
Definition before_star (s : string) : string :=
  match find "*" (rstrip s) with
  | Some i => take i (rstrip s)
  | None => rstrip s
  end.

(** A word without a blank, a comma or a star. *)
Definition plain_word (t : string) : Prop :=
  all_chars (fun c => negb (is_space c) && okch c) t = true.

(** Code points below 128, and a text made of them. *)
Definition is_ascii (c : ascii) : bool := (ord c <? 128)%N.

Definition ascii_text (s : string) : Prop := all_chars is_ascii s = true.

End MoreTextNotions.

(** ** More sample data *)

Module MoreSamples.
Import Samples.

(** A comment row, an empty row and the row of the CSV scenario; a row with
    three columns; a GeoJSON route whose only feature has no geometry; a
    Point feature without properties. *)
Definition mixed_rows : list (list string) :=
  [["# point,lat,lon,speed,elevation"]; []; start_fields].

Definition short_rows : list (list string) := [["1"; "59.9343"; "30.3351"]].

Definition point_feature : json B :=
  JDict [("type", JStr "Feature");
         ("geometry",
          JDict [("type", JStr "Point");
                 ("coordinates",
                  JList [JFloat (f_lit false 303351 (-4));
                         JFloat (f_lit false 599343 (-4));
                         JFloat (f_lit false 120 0)])])].

Definition bare_feature : json B := JDict [("type", JStr "Feature")].

(** A LineString feature, and a route of it and the Point feature. *)
Definition line_feature : json B :=
  JDict [("type", JStr "Feature");
         ("geometry",
          JDict [("type", JStr "LineString");
                 ("coordinates",
                  JList [JList [JFloat (f_lit false 303351 (-4));
                                JFloat (f_lit false 599343 (-4))];
                         JList [JFloat (f_lit false 303400 (-4));
                                JFloat (f_lit false 599400 (-4))]])])].

Definition line_route : list (string * json B) :=
  [("type", JStr "FeatureCollection");
   ("features", JList [line_feature; point_feature; line_feature])].

Definition point_route : list (string * json B) :=
  [("type", JStr "FeatureCollection"); ("features", JList [point_feature])].

Definition bare_route : list (string * json B) :=
  [("type", JStr "FeatureCollection"); ("features", JList [bare_feature])].

Definition disk2 : files B :=
  mk_files
    (fun name =>
       if String.eqb name "mixed.csv" then Some mixed_rows
       else if String.eqb name "short.csv" then Some short_rows
       else None)
    (fun name =>
       if String.eqb name "bare.geojson" then Some (JDict bare_route)
       else if String.eqb name "line.geojson" then Some (JDict line_route)
       else if String.eqb name "point.geojson" then Some (JDict point_route)
       else None)
    (fun name =>
       if String.eqb name "track.nmea" then Some [bad_line; rmc_line]
       else None).

(** A relay with the healthy client and one whose connection breaks after
    ten more bytes. *)
Definition weak_client : Net.conn := Net.mk_conn 8 "" (Some 10%nat) false.

Definition two_clients : Net.ClientThread :=
  Net.mk_thread [client; weak_client] [] true.

(** The sample relay with the pair of sentences queued twice. *)
Definition queued : Net.ClientThread :=
  Net.mk_thread [client]
    [(rmc_sentence, gga_sentence); (rmc_sentence, gga_sentence)] true.

(** A sentence with a character that is not ASCII. *)
Definition latin1_sentence : string := "$GPTXT,caf" ++ String "233" "".

(** A GGA line of a receiver without a fix: the coordinates and the
    altitude are empty. *)
Definition no_fix_line : string := "$GPGGA,120000.00,,,,,0,00,,,M,,M,,*66".

(** 59.9999999999 degrees. *)
Definition almost_sixty : B := f_lit false 599999999999 (-10).

End MoreSamples.

(** * Properties *)

(** ** Generators *)

Section GeneratorFacts.
Context {F : Type} {PF : PyFloat F}.

Lemma nth_error_store_same {A} (l : list A) (i : nat) (x : A) :
  (i < List.length l)%nat -> nth_error (store l i x) i = Some x.
Proof.
  revert i; induction l as [|h t IH]; intros [|i] H; simpl in *; try lia; auto.
  apply IH; lia.
Qed.

Lemma nth_error_store_other {A} (l : list A) (i j : nat) (x : A) :
  i <> j -> nth_error (store l i x) j = nth_error l j.
Proof.
  revert i j; induction l as [|h t IH]; intros [|i] [|j] H; simpl; auto;
    try congruence.
Qed.

Lemma length_store {A} (l : list A) (i : nat) (x : A) :
  List.length (store l i x) = List.length l.
Proof.
  revert i; induction l as [|h t IH]; intros [|i]; simpl; auto.
Qed.

(** A pull on a used-up generator raises [StopIteration] and changes
    nothing. *)
Lemma next_exhausted (now : datetime) (G : Generator F) :
  nth_error (_positions (self G)) (_index (self G)) = None ->
  next now G = (StopIteration, G).
Proof.
  intros H. destruct G as [k g]. unfold next, _update_position.
  simpl in *.
  destruct k; unfold stamping_update_position, FileGenerator_update_position;
    rewrite H; reflexivity.
Qed.

(** A pull on a generator that has a position left hands it out, moves the
    cursor by one and leaves the other stored positions alone. *)
Lemma next_available (now : datetime) (G : Generator F) (p : Position F) :
  nth_error (_positions (self G)) (_index (self G)) = Some p ->
  exists G',
    next now G = (Yield (emitted (cls G) now p), G')
    /\ cls G' = cls G
    /\ _index (self G') = S (_index (self G))
    /\ _index_override (self G') = _index_override (self G)
    /\ List.length (_positions (self G')) = List.length (_positions (self G))
    /\ forall j, j <> _index (self G) ->
         nth_error (_positions (self G')) j = nth_error (_positions (self G)) j.
Proof.
  intros H. destruct G as [k g]. unfold next, _update_position. simpl in *.
  destruct k; unfold stamping_update_position, FileGenerator_update_position;
    rewrite H; simpl; eexists; (split; [reflexivity|]); simpl;
    repeat split; auto using length_store.
  all: intros j Hj; apply nth_error_store_other; congruence.
Qed.

(** The j-th of [m] pulls: the stored position [_index + j] as the class
    emits it at that moment, or [StopIteration] when there is none. *)
Lemma pulls_nth (m : nat) :
  forall (clock : nat -> datetime) (G : Generator F) (j : nat),
    (j < m)%nat ->
    nth_error (fst (pulls clock m G)) j =
    Some (match nth_error (_positions (self G)) (_index (self G) + j) with
          | Some p => Yield (emitted (cls G) (clock j) p)
          | None => StopIteration
          end).
Proof.
  induction m as [|m IH]; intros clock G j Hj; [lia|].
  simpl.
  destruct (nth_error (_positions (self G)) (_index (self G))) as [p|] eqn:E.
  - destruct (next_available (clock O) G p E)
      as (G' & Hn & Hc & Hi & _ & Hl & Ho).
    rewrite Hn.
    destruct (pulls (fun i => clock (S i)) m G') as [rs G''] eqn:Ep.
    destruct j as [|j]; simpl.
    + rewrite Nat.add_0_r, E. reflexivity.
    + specialize (IH (fun i => clock (S i)) G' j ltac:(lia)).
      rewrite Ep in IH. simpl in IH. rewrite IH, Hi, Hc, Ho by lia.
      replace (S (_index (self G)) + j)%nat with (_index (self G) + S j)%nat by lia.
      reflexivity.
  - rewrite (next_exhausted (clock O) G E).
    destruct (pulls (fun i => clock (S i)) m G) as [rs G''] eqn:Ep.
    destruct j as [|j]; simpl.
    + rewrite Nat.add_0_r, E. reflexivity.
    + specialize (IH (fun i => clock (S i)) G j ltac:(lia)).
      rewrite Ep in IH. simpl in IH. rewrite IH.
      assert (nth_error (_positions (self G)) (_index (self G) + j) = None) as ->.
      { apply nth_error_None. apply nth_error_None in E. lia. }
      assert (nth_error (_positions (self G)) (_index (self G) + S j) = None) as ->.
      { apply nth_error_None. apply nth_error_None in E. lia. }
      reflexivity.
Qed.

Lemma length_pulls (m : nat) :
  forall (clock : nat -> datetime) (G : Generator F),
    List.length (fst (pulls clock m G)) = m.
Proof.
  induction m as [|m IH]; intros clock G; simpl; auto.
  destruct (next (clock O) G) as [r G'].
  specialize (IH (fun i => clock (S i)) G').
  destruct (pulls (fun i => clock (S i)) m G') as [rs G'']. simpl in *. lia.
Qed.

Lemma nth_error_emit_all (k : kind) (ps : list (Position F)) :
  forall (clock : nat -> datetime) (j : nat),
    nth_error (emit_all k clock ps) j
    = option_map (emitted k (clock j)) (nth_error ps j).
Proof.
  induction ps as [|p ps IH]; intros clock [|j]; simpl; auto.
  apply (IH (fun i => clock (S i))).
Qed.

Lemma length_emit_all (k : kind) (ps : list (Position F)) :
  forall clock, List.length (emit_all k clock ps) = List.length ps.
Proof.
  induction ps as [|p ps IH]; intros clock; simpl; auto.
Qed.

(** Pulling more often than positions remain: each remaining position once,
    in order, then [StopIteration] every time. *)
Lemma pulls_run (G : Generator F) (clock : nat -> datetime) (k : nat) :
  fst (pulls clock (List.length (remaining G) + k) G)
  = (map Yield (emit_all (cls G) clock (remaining G))
     ++ repeat StopIteration k)%list.
Proof.
  apply nth_error_ext. intros n.
  destruct (Nat.lt_ge_cases n (List.length (remaining G) + k)) as [Hn|Hn].
  - rewrite pulls_nth by exact Hn.
    rewrite nth_error_app, length_map, length_emit_all.
    destruct (Nat.ltb_spec n (List.length (remaining G))) as [Hl|Hl].
    + rewrite nth_error_map, nth_error_emit_all.
      unfold remaining in *. rewrite nth_error_skipn.
      destruct (nth_error (_positions (self G)) (_index (self G) + n)) eqn:E;
        [reflexivity|].
      apply nth_error_None in E. rewrite length_skipn in Hl. lia.
    + rewrite nth_error_repeat by lia.
      unfold remaining in *. rewrite length_skipn in Hl.
      assert (nth_error (_positions (self G)) (_index (self G) + n) = None) as ->
        by (apply nth_error_None; lia).
      reflexivity.
  - transitivity (@None (pulled (Position F))).
    + apply nth_error_None. rewrite length_pulls. exact Hn.
    + symmetry. apply nth_error_None.
      rewrite length_app, length_map, length_emit_all, repeat_length. exact Hn.
Qed.

(** After enough pulls the cursor is at the end of the list. *)
Lemma pulls_reach_end (m : nat) :
  forall (clock : nat -> datetime) (G : Generator F),
    (List.length (remaining G) <= m)%nat ->
    remaining (snd (pulls clock m G)) = [].
Proof.
  unfold remaining.
  induction m as [|m IH]; intros clock G Hm.
  - simpl. destruct (skipn _ _); simpl in *; [reflexivity|lia].
  - simpl.
    destruct (nth_error (_positions (self G)) (_index (self G))) as [p|] eqn:E.
    + destruct (next_available (clock O) G p E)
        as (G' & Hn & Hc & Hi & _ & Hl & Ho).
      rewrite Hn.
      specialize (IH (fun i => clock (S i)) G').
      destruct (pulls (fun i => clock (S i)) m G') as [rs G''] eqn:Ep.
      simpl in *. apply IH.
      rewrite length_skipn in *. rewrite Hi, Hl.
      assert (_index (self G) < List.length (_positions (self G)))%nat
        by (apply nth_error_Some; congruence).
      lia.
    + rewrite (next_exhausted (clock O) G E).
      specialize (IH (fun i => clock (S i)) G).
      destruct (pulls (fun i => clock (S i)) m G) as [rs G''] eqn:Ep.
      simpl in *. apply IH.
      apply nth_error_None in E. rewrite length_skipn. lia.
Qed.

Lemma remaining_nil_exhausted (G : Generator F) :
  remaining G = [] ->
  nth_error (_positions (self G)) (_index (self G)) = None.
Proof.
  unfold remaining. intros H. apply nth_error_None.
  assert (L : List.length (skipn (_index (self G)) (_positions (self G))) = O)
    by (rewrite H; reflexivity).
  rewrite length_skipn in L. lia.
Qed.

End GeneratorFacts.

(** ** Override arguments and loaders *)

Section LoaderFacts.
Context {F : Type} {PF : PyFloat F}.

(** [_parse_common_params] touches the two override attributes only. *)
Lemma parse_common_params_keeps (args : list string) :
  forall (g g' : FileGenerator F) (rem : list string),
    _parse_common_params g args = Some (g', rem) ->
    _positions g' = _positions g /\ _index g' = _index g.
Proof.
  induction args as [|a args IH]; intros g g' rem H;
    cbn [_parse_common_params] in H.
  - injection H as <- _. auto.
  - destruct (PyStr.startswith a "duration=").
    + destruct (py_float (param_value a)); [|discriminate].
      apply IH in H. simpl in H. exact H.
    + destruct (PyStr.startswith a "index=").
      * destruct (PyNum.py_int (param_value a)); [|discriminate].
        apply IH in H. simpl in H. exact H.
      * destruct (_parse_common_params g args) as [[g1 r1]|] eqn:E;
          [|discriminate].
        injection H as <- _. eapply IH; eauto.
Qed.

(** Without an [index=] argument the index override stays as it is. *)
Lemma parse_common_params_no_index (args : list string) :
  Forall (fun a => PyStr.startswith a "index=" = false) args ->
  forall (g g' : FileGenerator F) (rem : list string),
    _parse_common_params g args = Some (g', rem) ->
    _index_override g' = _index_override g.
Proof.
  induction 1 as [|a args Ha _ IH]; intros g g' rem H;
    cbn [_parse_common_params] in H.
  - injection H as <- _. auto.
  - rewrite Ha in H. destruct (PyStr.startswith a "duration=").
    + destruct (py_float (param_value a)); [|discriminate].
      apply IH in H. simpl in H. exact H.
    + destruct (_parse_common_params g args) as [[g1 r1]|] eqn:E;
        [|discriminate].
      injection H as <- _. eapply IH; eauto.
Qed.

(** The last [index=] argument sets the index override. *)
Lemma parse_common_params_index (a1 a2 : list string) (s : string) (start : Z) :
  PyNum.py_int s = Some start ->
  Forall (fun a => PyStr.startswith a "index=" = false) a2 ->
  forall (g g' : FileGenerator F) (rem : list string),
    _parse_common_params g (a1 ++ ("index=" ++ s)%string :: a2)%list = Some (g', rem) ->
    _index_override g' = Some start.
Proof.
  intros Hs Ha2.
  induction a1 as [|a a1 IH]; intros g g' rem H.
  - cbn [app] in H.
    cbn [_parse_common_params] in H.
    change (PyStr.startswith ("index=" ++ s) "duration=") with false in H.
    change (PyStr.startswith ("index=" ++ s) "index=") with true in H.
    change (param_value ("index=" ++ s)) with s in H.
    cbv iota in H. rewrite Hs in H.
    apply (parse_common_params_no_index a2 Ha2) in H. exact H.
  - cbn [_parse_common_params app] in H.
    destruct (PyStr.startswith a "duration=").
    + destruct (py_float (param_value a)); [|discriminate]. eauto.
    + destruct (PyStr.startswith a "index=").
      * destruct (PyNum.py_int (param_value a)); [|discriminate]. eauto.
      * destruct (_parse_common_params g (a1 ++ ("index=" ++ s)%string :: a2)%list)
          as [[g1 r1]|] eqn:E; [|discriminate].
        injection H as <- _. eauto.
Qed.

Lemma numbered_snoc (start : Z) (ps : list (Position F)) (p : Position F) :
  numbered start ps ->
  index p = start + Z.of_nat (List.length ps) ->
  numbered start (ps ++ [p])%list.
Proof.
  intros Hps Hp j q Hj.
  destruct (Nat.lt_ge_cases j (List.length ps)) as [L|L].
  - rewrite nth_error_app1 in Hj by exact L. auto.
  - rewrite nth_error_app2 in Hj by exact L.
    destruct (j - List.length ps)%nat as [|d] eqn:D; simpl in Hj.
    + injection Hj as <-. rewrite Hp. f_equal. lia.
    + destruct d; discriminate.
Qed.

Lemma index_apply_common_params (g : FileGenerator F) (p : Position F)
      (idx start : Z) :
  _index_override g = Some start ->
  index (_apply_common_params g p idx) = start + (idx - 1).
Proof.
  intros H. unfold _apply_common_params. rewrite H. reflexivity.
Qed.

Lemma csv_rows_numbered (g : FileGenerator F) (start : Z) :
  _index_override g = Some start ->
  forall rows idx acc ps,
    csv_rows g idx rows acc = Some ps ->
    idx = 1 + Z.of_nat (List.length acc) ->
    numbered start acc -> numbered start ps.
Proof.
  intros Ho. induction rows as [|row rows IH]; intros idx acc ps H Hi Ha;
    simpl in H.
  - injection H as <-. exact Ha.
  - destruct (csv_position g idx row) as [[p|]|] eqn:E; [| |discriminate].
    + eapply IH; [exact H| |].
      * rewrite length_app. cbn [List.length]. lia.
      * apply numbered_snoc; [exact Ha|].
        unfold csv_position in E. destruct row as [|c0 row']; [discriminate|].
        destruct (PyStr.startswith c0 "#"); [discriminate|].
        destruct (_ <? _)%nat; [discriminate|].
        repeat match type of E with
               | (match ?x with Some _ => _ | None => _ end) = _ =>
                   destruct x; [|discriminate]
               end.
        injection E as <-.
        rewrite (index_apply_common_params _ _ _ _ Ho). lia.
    + eapply IH; eauto.
Qed.

Lemma geo_features_numbered (g : FileGenerator F) (start : Z) :
  _index_override g = Some start ->
  forall features idx acc ps,
    geo_features g idx features acc = Some ps ->
    idx = 1 + Z.of_nat (List.length acc) ->
    numbered start acc -> numbered start ps.
Proof.
  intros Ho. induction features as [|ft fts IH]; intros idx acc ps H Hi Ha;
    simpl in H.
  - injection H as <-. exact Ha.
  - destruct (geo_position g idx ft) as [[p|]|] eqn:E; [| |discriminate].
    + eapply IH; [exact H| |].
      * rewrite length_app. cbn [List.length]. lia.
      * apply numbered_snoc; [exact Ha|].
        unfold geo_position in E.
        repeat match type of E with
               | (match ?x with Some _ => _ | None => _ end) = _ =>
                   destruct x; [|discriminate]
               | (if ?b then _ else _) = _ => destruct b; [discriminate|]
               end.
        injection E as <-.
        rewrite (index_apply_common_params _ _ _ _ Ho). lia.
    + eapply IH; eauto.
Qed.

Lemma nmea_lines_numbered (g : FileGenerator F) (start : Z) :
  _index_override g = Some start ->
  forall lines clock idx acc,
    idx = 1 + Z.of_nat (List.length acc) ->
    numbered start acc -> numbered start (nmea_lines clock g idx lines acc).
Proof.
  intros Ho. induction lines as [|line lines IH]; intros clock idx acc Hi Ha;
    simpl.
  - exact Ha.
  - destruct (decode (clock O) line) as [p|].
    + apply IH.
      * rewrite length_app. cbn [List.length]. lia.
      * apply numbered_snoc; [exact Ha|].
        rewrite (index_apply_common_params _ _ _ _ Ho). lia.
    + apply IH; auto.
Qed.

Lemma numbered_nil (start : Z) : @numbered F start [].
Proof. intros [|j] p H; discriminate. Qed.

(** A generator that [construct] returns has its cursor at 0 and, when an
    [index=] argument was given, its positions numbered from there. *)
Lemma construct_numbered (k : kind) (fs : files F) (clock : nat -> datetime)
      (a1 a2 : list string) (s : string) (start : Z) (G : Generator F) :
  PyNum.py_int s = Some start ->
  Forall (fun a => PyStr.startswith a "index=" = false) a2 ->
  construct k fs clock (a1 ++ ("index=" ++ s)%string :: a2)%list = Some G ->
  cls G = k /\ _index (self G) = O /\ numbered start (_positions (self G)).
Proof.
  intros Hs Ha2 H.
  destruct k; simpl in H;
    [unfold CSVGenerator_init in H | unfold GeoJSONGenerator_init in H
     | unfold NMEAGenerator_init in H];
    destruct (_parse_common_params FileGenerator_init _) as [[g rem]|] eqn:E;
    try discriminate;
    pose proof (parse_common_params_index a1 a2 s start Hs Ha2 _ _ _ E) as Ho;
    apply parse_common_params_keeps in E; simpl in E; destruct E as [Ep Ei];
    destruct rem as [|filename rem]; try discriminate.
  - unfold CSV_load_file in H.
    destruct (read_csv fs filename) as [rows|]; [|discriminate].
    destruct (csv_rows g 1 rows (_positions g)) as [ps|] eqn:E; [|discriminate].
    destruct ps as [|p ps]; [discriminate|]. injection H as <-. simpl.
    repeat split; auto.
    eapply csv_rows_numbered; eauto; rewrite Ep; auto using numbered_nil.
  - unfold GeoJSON_load_file in H.
    destruct (read_json fs filename) as [[| | | | | |items]|]; try discriminate.
    destruct (assoc "features" items) as [[| | | | |l|]|]; try discriminate.
    destruct (geo_features g 1 l (_positions g)) as [ps|] eqn:E; [|discriminate].
    destruct ps as [|p ps]; [discriminate|]. injection H as <-. simpl.
    repeat split; auto.
    eapply geo_features_numbered; eauto; rewrite Ep; auto using numbered_nil.
  - unfold NMEA_load_file in H.
    destruct (read_lines fs filename) as [lines|]; [|discriminate].
    injection H as <-. simpl. repeat split; auto.
    apply nmea_lines_numbered; auto; rewrite Ep; auto using numbered_nil.
Qed.

(** The CSV and the GeoJSON loaders refuse a file without a usable point. *)
Lemma csv_never_empty (fs : files F) (args : list string) (G : Generator F) :
  CSVGenerator_init fs args = Some G -> _positions (self G) <> [].
Proof.
  unfold CSVGenerator_init, CSV_load_file. intros H.
  destruct (_parse_common_params _ _) as [[g [|filename rem]]|];
    try discriminate.
  destruct (read_csv fs filename) as [rows|]; [|discriminate].
  destruct (csv_rows g 1 rows (_positions g)) as [[|p ps]|]; try discriminate.
  injection H as <-. simpl. discriminate.
Qed.

Lemma geojson_never_empty (fs : files F) (args : list string)
      (G : Generator F) :
  GeoJSONGenerator_init fs args = Some G -> _positions (self G) <> [].
Proof.
  unfold GeoJSONGenerator_init, GeoJSON_load_file. intros H.
  destruct (_parse_common_params _ _) as [[g [|filename rem]]|];
    try discriminate.
  destruct (read_json fs filename) as [[| | | | | |items]|]; try discriminate.
  destruct (assoc "features" items) as [[| | | | |l|]|]; try discriminate.
  destruct (geo_features g 1 l (_positions g)) as [[|p ps]|]; try discriminate.
  injection H as <-. simpl. discriminate.
Qed.

Lemma yields_map_Yield (ps : list (Position F)) : yields (map Yield ps) = ps.
Proof. induction ps; simpl; congruence. Qed.

Lemma index_emitted (k : kind) (now : datetime) (p : Position F) :
  index (emitted k now p) = index p.
Proof. destruct k; reflexivity. Qed.

Lemma map_index_emit_all (k : kind) (ps : list (Position F)) :
  forall clock, map (@index F) (emit_all k clock ps) = map (@index F) ps.
Proof.
  induction ps as [|p ps IH]; intros clock; simpl; auto.
  rewrite index_emitted, IH. reflexivity.
Qed.

Lemma numbered_map_index (start : Z) (ps : list (Position F)) :
  numbered start ps ->
  map (@index F) ps
  = map (fun j => start + Z.of_nat j) (seq 0 (List.length ps)).
Proof.
  intros H. apply nth_error_ext. intros n.
  rewrite !nth_error_map, nth_error_seq.
  destruct (Nat.ltb_spec n (List.length ps)) as [L|L].
  - destruct (nth_error ps n) as [p|] eqn:E.
    + simpl. rewrite (H _ _ E). reflexivity.
    + apply nth_error_None in E. lia.
  - apply nth_error_None in L. rewrite L. reflexivity.
Qed.

(** *** The times of the positions of an NMEA generator *)

Lemma time_apply_common_params (g : FileGenerator F) (p : Position F) (i : Z) :
  time (_apply_common_params g p i) = time p.
Proof.
  unfold _apply_common_params.
  destruct (_duration_override g), (_index_override g); reflexivity.
Qed.

(** The loader changes the index and the duration of what a line decodes
    to, never its time. *)
Lemma nmea_lines_times (g : FileGenerator F) :
  forall lines clock idx acc,
    map (@time F) (nmea_lines clock g idx lines acc)
    = (map (@time F) acc ++ map (@time F) (decoded clock lines))%list.
Proof.
  induction lines as [|line lines IH]; intros clock idx acc;
    cbn [nmea_lines decoded].
  - cbn [map]. rewrite app_nil_r. reflexivity.
  - destruct (decode (clock O) line) as [p|].
    + rewrite IH, map_app. cbn [map]. rewrite time_apply_common_params.
      cbn [time with_duration with_index]. rewrite <- app_assoc. reflexivity.
    + apply IH.
Qed.

(** A generator as the constructor returns it: of the class asked for and
    with its cursor on the first position. *)
Lemma construct_fresh (k : kind) (fs : files F) (clock : nat -> datetime)
      (args : list string) (G : Generator F) :
  construct k fs clock args = Some G -> cls G = k /\ _index (self G) = O.
Proof.
  intros H.
  destruct k; simpl in H;
    [unfold CSVGenerator_init in H | unfold GeoJSONGenerator_init in H
     | unfold NMEAGenerator_init in H];
    destruct (_parse_common_params FileGenerator_init _) as [[g rem]|] eqn:E;
    try discriminate;
    apply parse_common_params_keeps in E; simpl in E; destruct E as [Ep Ei];
    destruct rem as [|filename rem]; try discriminate.
  - unfold CSV_load_file in H.
    destruct (read_csv fs filename) as [rows|]; [|discriminate].
    destruct (csv_rows g 1 rows (_positions g)) as [ps|]; [|discriminate].
    destruct ps as [|p ps]; [discriminate|]. injection H as <-. simpl. auto.
  - unfold GeoJSON_load_file in H.
    destruct (read_json fs filename) as [[| | | | | |items]|]; try discriminate.
    destruct (assoc "features" items) as [[| | | | |l|]|]; try discriminate.
    destruct (geo_features g 1 l (_positions g)) as [ps|]; [|discriminate].
    destruct ps as [|p ps]; [discriminate|]. injection H as <-. simpl. auto.
  - unfold NMEA_load_file in H.
    destruct (read_lines fs filename) as [lines|]; [|discriminate].
    injection H as <-. simpl. auto.
Qed.

Lemma parse_common_params_rem (args : list string) :
  forall (g g' : FileGenerator F) (rem : list string),
    _parse_common_params g args = Some (g', rem) ->
    forall a, In a rem -> In a args.
Proof.
  induction args as [|a args IH]; intros g g' rem H x Hx;
    cbn [_parse_common_params] in H.
  - injection H as _ <-. exact Hx.
  - destruct (PyStr.startswith a "duration=").
    + destruct (py_float (param_value a)); [|discriminate].
      right. eapply IH; eauto.
    + destruct (PyStr.startswith a "index=").
      * destruct (PyNum.py_int (param_value a)); [|discriminate].
        right. eapply IH; eauto.
      * destruct (_parse_common_params g args) as [[g1 r1]|] eqn:E;
          [|discriminate].
        injection H as _ <-. destruct Hx as [<-|Hx]; [left; reflexivity|].
        right. eapply IH; eauto.
Qed.

(** The times an NMEA generator holds are those its file decodes to, line
    by line, at load time. *)
Lemma construct_nmea_times (fs : files F) (clock : nat -> datetime)
      (args : list string) (G : Generator F) :
  construct NMEA fs clock args = Some G ->
  exists file lines,
    In file args /\ read_lines fs file = Some lines
    /\ map (@time F) (_positions (self G))
       = map (@time F) (decoded clock lines).
Proof.
  intros H. simpl in H. unfold NMEAGenerator_init in H.
  destruct (_parse_common_params FileGenerator_init args) as [[g rem]|] eqn:E;
    [|discriminate].
  pose proof (parse_common_params_rem _ _ _ _ E) as Hin.
  apply parse_common_params_keeps in E. simpl in E. destruct E as [Ep _].
  destruct rem as [|file rem]; [discriminate|].
  unfold NMEA_load_file in H.
  destruct (read_lines fs file) as [lines|] eqn:L; [|discriminate].
  injection H as <-. exists file, lines.
  split; [apply Hin; left; reflexivity|]. split; [exact L|].
  cbn [self _positions set_positions]. rewrite nmea_lines_times, Ep. reflexivity.
Qed.

(** Every time the decoder returns is a UTC time when the clock's are. *)
Lemma parse_datetime_utc (now : datetime) (t : string) (d : option string)
      (dt : datetime) :
  tzinfo now = Some UTC ->
  _parse_datetime (F := F) now t d = Some dt -> tzinfo dt = Some UTC.
Proof.
  intros Hn H. unfold _parse_datetime in H.
  destruct (negb (PyStr.nonempty t)); [discriminate|].
  destruct (PyNum.py_int _) as [h|]; [|discriminate].
  destruct (PyNum.py_int _) as [m|]; [|discriminate].
  destruct (PyNum.py_int _) as [sc|]; [|discriminate].
  destruct (microsecond_of t) as [u|]; [|discriminate].
  assert (R : PyTime.replace_time now h m sc u = Some dt -> tzinfo dt = Some UTC).
  { unfold PyTime.replace_time. destruct (PyTime.valid _); [|discriminate].
    intros E. injection E as <-. exact Hn. }
  destruct d as [[|c r]|]; auto.
  destruct (PyNum.py_int _) as [dd|]; [|discriminate].
  destruct (PyNum.py_int _) as [mm|]; [|discriminate].
  destruct (PyNum.py_int _) as [yy|]; [|discriminate].
  unfold PyTime.make in H. destruct (PyTime.valid _); [|discriminate].
  injection H as <-. reflexivity.
Qed.

Lemma decode_utc (now : datetime) (nmea : string) (p : Position F) :
  tzinfo now = Some UTC ->
  decode now nmea = Some p -> tzinfo (time p) = Some UTC.
Proof.
  intros Hn H. unfold decode in H.
  destruct (negb (PyStr.startswith nmea "$")); [discriminate|].
  destruct (is_rmc _).
  - unfold decode_rmc in H.
    destruct (_ || _); [discriminate|].
    destruct (_parse_lat _ _); [|discriminate].
    destruct (_parse_lon _ _); [|discriminate].
    destruct (if PyStr.nonempty _ then _ else _); [|discriminate].
    destruct (_parse_datetime _ _ _) as [dt|] eqn:E; [|discriminate].
    injection H as <-. exact (parse_datetime_utc _ _ _ _ Hn E).
  - destruct (is_gga _); [|discriminate].
    unfold decode_gga in H.
    destruct (_ <? _)%nat; [discriminate|].
    destruct (_parse_lat _ _); [|discriminate].
    destruct (_parse_lon _ _); [|discriminate].
    destruct (if PyStr.nonempty _ then _ else _); [|discriminate].
    destruct (_parse_datetime _ _ _) as [dt|] eqn:E; [|discriminate].
    injection H as <-. exact (parse_datetime_utc _ _ _ _ Hn E).
Qed.

Lemma decoded_utc (lines : list string) :
  forall clock,
    (forall i, tzinfo (clock i) = Some UTC) ->
    Forall (fun q : Position F => tzinfo (time q) = Some UTC)
           (decoded clock lines).
Proof.
  induction lines as [|line lines IH]; intros clock Hc; cbn [decoded].
  - constructor.
  - destruct (decode (clock O) line) as [p|] eqn:E.
    + constructor; [exact (decode_utc _ _ _ (Hc O) E)|].
      apply IH. intros i. apply Hc.
    + apply IH. intros i. apply Hc.
Qed.

End LoaderFacts.

(** ** Strings *)

Section StringFacts.
Import PyStr.

Lemma append_assoc (a b c : string) : ((a ++ b) ++ c = a ++ (b ++ c))%string.
Proof. induction a; simpl; congruence. Qed.

Lemma append_nil_r (a : string) : (a ++ "")%string = a.
Proof. induction a; simpl; congruence. Qed.

Lemma length_append (a b : string) :
  String.length (a ++ b) = (String.length a + String.length b)%nat.
Proof. induction a; simpl; congruence. Qed.

Lemma take_append (a b : string) : take (String.length a) (a ++ b) = a.
Proof. induction a; simpl; [destruct b|]; congruence. Qed.

Lemma drop_append (a b : string) : drop (String.length a) (a ++ b) = b.
Proof. induction a; simpl; auto. Qed.

Lemma drop_append_skip (a b : string) (c : ascii) :
  drop (S (String.length a)) (a ++ String c b) = b.
Proof. induction a; simpl; auto. Qed.

Lemma clamp_in_range (n i : nat) :
  (i <= n)%nat -> clamp n (Z.of_nat i) = i.
Proof.
  intros H. unfold clamp.
  destruct (Z.ltb_spec (Z.of_nat i) 0); lia.
Qed.

Lemma slice_to_append (a b : string) :
  slice_to (a ++ b) (Z.of_nat (String.length a)) = a.
Proof.
  unfold slice_to. rewrite clamp_in_range by (rewrite length_append; lia).
  apply take_append.
Qed.

Lemma slice_from_append (a b : string) :
  slice_from (a ++ b) (Z.of_nat (String.length a)) = b.
Proof.
  unfold slice_from. rewrite clamp_in_range by (rewrite length_append; lia).
  apply drop_append.
Qed.

Lemma lstrip_append (p : string) (c : ascii) (s : string) :
  is_space c = false ->
  lstrip (p ++ String c s) = (lstrip p ++ String c s)%string.
Proof.
  intros Hc. induction p as [|a p IH]; simpl.
  - rewrite Hc. reflexivity.
  - destruct (is_space a); [exact IH|reflexivity].
Qed.

Lemma rstrip_append (q : string) (c : ascii) (s : string) :
  is_space c = false ->
  rstrip (q ++ String c s) = (q ++ String c (rstrip s))%string.
Proof.
  intros Hc. induction q as [|a q IH]; simpl.
  - destruct (rstrip s); [rewrite Hc|]; reflexivity.
  - rewrite IH. destruct q; reflexivity.
Qed.

Lemma find_lstrip_none (c : ascii) (p : string) :
  find c p = None -> find c (lstrip p) = None.
Proof.
  induction p as [|a p IH]; simpl; auto.
  destruct (Ascii.eqb a c) eqn:E; [discriminate|].
  intros H. destruct (is_space a).
  - apply IH. destruct (find c p); [discriminate|reflexivity].
  - simpl. rewrite E. exact H.
Qed.

Lemma find_append_first (c : ascii) (q r : string) :
  find c q = None ->
  find c (q ++ String c r) = Some (String.length q).
Proof.
  induction q as [|a q IH]; simpl.
  - rewrite Ascii.eqb_refl. reflexivity.
  - destruct (Ascii.eqb a c); [discriminate|].
    intros H. rewrite IH; [reflexivity|].
    destruct (find c q); [discriminate|reflexivity].
Qed.

Lemma contains_false (c : ascii) (s : string) :
  contains c s = false <-> find c s = None.
Proof.
  unfold contains. destruct (find c s); split; congruence.
Qed.

Lemma find_append_later (c : ascii) (q r : string) :
  find c q = None ->
  find c (q ++ r)
  = option_map (fun i => (String.length q + i)%nat) (find c r).
Proof.
  induction q as [|a q IH]; simpl.
  - intros _. destruct (find c r); reflexivity.
  - destruct (Ascii.eqb a c); [discriminate|].
    intros H. rewrite IH by (destruct (find c q); [discriminate|reflexivity]).
    destruct (find c r); reflexivity.
Qed.

Lemma take_append_more (q r : string) (k : nat) :
  take (String.length q + k) (q ++ r) = (q ++ take k r)%string.
Proof. induction q; simpl; congruence. Qed.

Lemma split_head (c : ascii) (a r : string) :
  find c a = None ->
  split c (a ++ String c r) = a :: split c r.
Proof.
  induction a as [|x a IH]; simpl.
  - rewrite Ascii.eqb_refl. reflexivity.
  - destruct (Ascii.eqb x c); [discriminate|].
    intros H. rewrite IH by (destruct (find c a); [discriminate|reflexivity]).
    reflexivity.
Qed.

Lemma slice_from_1 (c : ascii) (s : string) : slice_from (String c s) 1 = s.
Proof.
  unfold slice_from.
  replace (clamp (String.length (String c s)) 1) with 1%nat; [reflexivity|].
  unfold clamp. cbn [String.length Z.ltb Z.compare]. lia.
Qed.

End StringFacts.

(** ** The decoder and the text after the first star *)

Section DecodeFacts.
Import PyStr.
Context {F : Type} {PF : PyFloat F}.

(** The fields of a line are those of its part before the first star. *)
Lemma fields_of_star (p s : string) :
  contains "*" p = false ->
  fields_of (p ++ "*" ++ s) = split "," (slice_from (lstrip p) 1).
Proof.
  intros Hp. apply contains_false in Hp.
  unfold fields_of, strip.
  change (p ++ "*" ++ s)%string with (p ++ String "*" s)%string.
  rewrite lstrip_append by reflexivity.
  rewrite rstrip_append by reflexivity.
  rewrite find_append_first by (apply find_lstrip_none; exact Hp).
  rewrite slice_to_append. reflexivity.
Qed.

Lemma startswith_dollar_star (p s1 s2 : string) :
  startswith (p ++ "*" ++ s1) "$" = startswith (p ++ "*" ++ s2) "$".
Proof. destruct p; reflexivity. Qed.


Lemma void_rmc_split (t : string) :
  exists more,
    split "," (slice_from ("$GPRMC,120000.00,V" ++ String "," t) 1)
    = "GPRMC" :: "120000.00" :: "V" :: more.
Proof.
  change ("$GPRMC,120000.00,V" ++ String "," t)%string
    with (String "$" ("GPRMC" ++ String "," ("120000.00" ++ String ","
                        ("V" ++ String "," t))))%string.
  rewrite slice_from_1.
  rewrite !split_head by reflexivity. eexists. reflexivity.
Qed.

Lemma fields_of_void_rmc (rest : string) :
  exists more, fields_of ("$GPRMC,120000.00,V," ++ rest)
               = "GPRMC" :: "120000.00" :: "V" :: more.
Proof.
  unfold fields_of, strip.
  change (lstrip ("$GPRMC,120000.00,V," ++ rest))
    with ("$GPRMC,120000.00,V" ++ String "," rest)%string.
  rewrite rstrip_append by reflexivity.
  set (q := "$GPRMC,120000.00,V").
  rewrite (find_append_later "*" q) by reflexivity.
  destruct (find "*" (String "," (rstrip rest))) as [i|] eqn:E; cbn [option_map].
  - unfold slice_to.
    assert (L : (i <= String.length (String "," (rstrip rest)))%nat).
    { clear -E. revert i E. generalize (String "," (rstrip rest)).
      induction s as [|a s IH]; simpl; intros i E; [discriminate|].
      destruct (Ascii.eqb a "*"). { injection E as <-. lia. }
      destruct (find "*" s); [|discriminate]. injection E as <-.
      specialize (IH _ eq_refl). lia. }
    rewrite clamp_in_range
      by (rewrite length_append; unfold q; cbn [String.length] in *; lia).
    rewrite take_append_more.
    destruct i as [|i];
      [simpl in E; destruct (find "*" (rstrip rest)); discriminate|].
    cbn [take]. apply void_rmc_split.
  - apply void_rmc_split.
Qed.

Lemma decode_void_rmc (now : datetime) (rest : string) :
  decode (F := F) now ("$GPRMC,120000.00,V," ++ rest) = None.
Proof.
  unfold decode.
  change (startswith ("$GPRMC,120000.00,V," ++ rest) "$") with true.
  destruct (fields_of_void_rmc rest) as [more ->].
  cbn [negb field nth]. change (is_rmc "GPRMC") with true. cbv iota.
  unfold decode_rmc. cbn [field nth].
  change (String.eqb "V" "A") with false.
  rewrite orb_true_r. reflexivity.
Qed.

(** *** The decoder and the description of its failures *)

Lemma find_le (c : ascii) (s : string) (i : nat) :
  find c s = Some i -> (i <= String.length s)%nat.
Proof.
  revert i; induction s as [|a r IH]; intros i H; cbn [find] in H;
    [discriminate|].
  destruct (Ascii.eqb a c).
  - injection H as <-. cbn. lia.
  - destruct (find c r) as [j|]; [|discriminate].
    injection H as <-. specialize (IH j eq_refl). cbn [String.length]. lia.
Qed.

Lemma take_find_upto (c : ascii) (s : string) :
  match find c s with
  | Some i => take i s
  | None => s
  end = DecodeSpec.upto c s.
Proof.
  induction s as [|a r IH]; cbn [find DecodeSpec.upto]; [reflexivity|].
  destruct (Ascii.eqb a c); [reflexivity|].
  destruct (find c r) as [j|]; cbn [option_map take]; rewrite <- IH; reflexivity.
Qed.

Lemma slice_to_nat (s : string) (i : nat) :
  (i <= String.length s)%nat -> slice_to s (Z.of_nat i) = take i s.
Proof.
  intros H. unfold slice_to, clamp.
  destruct (Z.ltb_spec (Z.of_nat i) 0); [lia|].
  f_equal. lia.
Qed.

Lemma slice_from_one (s : string) : slice_from s 1 = drop 1 s.
Proof.
  unfold slice_from, clamp. change (1 <? 0) with false.
  destruct s as [|a r]; [reflexivity|].
  cbn [String.length]. f_equal. lia.
Qed.

(** The decoder's fields are the fields of the description. *)
Lemma fields_of_spec (nmea : string) : fields_of nmea = DecodeSpec.fields nmea.
Proof.
  unfold fields_of, DecodeSpec.fields.
  rewrite slice_from_one. f_equal. f_equal.
  rewrite <- take_find_upto.
  destruct (find "*" (strip nmea)) as [i|] eqn:E; [|reflexivity].
  apply slice_to_nat, (find_le _ _ _ E).
Qed.

Lemma is_rmc_spec (nmea : string) :
  is_rmc (field (fields_of nmea) 0) = DecodeSpec.rmc nmea.
Proof.
  unfold is_rmc, DecodeSpec.rmc, DecodeSpec.nth_field, field.
  rewrite fields_of_spec. cbn [existsb].
  destruct (String.eqb _ "GPRMC"), (String.eqb _ "RMC"), (String.eqb _ "GNRMC");
    reflexivity.
Qed.

Lemma is_gga_spec (nmea : string) :
  is_gga (field (fields_of nmea) 0) = DecodeSpec.gga nmea.
Proof.
  unfold is_gga, DecodeSpec.gga, DecodeSpec.nth_field, field.
  rewrite fields_of_spec. cbn [existsb].
  destruct (String.eqb _ "GPGGA"), (String.eqb _ "GGA"), (String.eqb _ "GNGGA");
    reflexivity.
Qed.

Lemma startswith_dollar_spec (nmea : string) :
  negb (startswith nmea "$") = DecodeSpec.no_dollar nmea.
Proof.
  destruct nmea as [|c r]; [reflexivity|].
  destruct c as [[] [] [] [] [] [] [] []]; reflexivity.
Qed.

(** A coordinate field that is there fails to parse in the three ways of
    the description, and in no other. *)
Lemma parse_coordinate_fails (coord : string) (maxd : Z) :
  nonempty coord = true ->
  let k := DecodeSpec.degrees_end coord maxd in
  _parse_coordinate (F := F) coord maxd = None
  <-> is_none (PyNum.py_int (slice_to coord k))
      || is_none (f_of_int (DecodeSpec.number (slice_to coord k)))
      || ((contains "." coord || (k <? Z.of_nat (String.length coord)))
          && is_none (py_float (F := F) (slice_from coord k))) = true.
Proof.
  intros Hne k. subst k.
  unfold _parse_coordinate, DecodeSpec.degrees_end, DecodeSpec.number, contains.
  rewrite Hne. cbn [negb].
  destruct (find "." coord) as [dot|].
  - unfold deg_and_min.
    destruct (4 <=? Z.of_nat dot);
      (destruct (PyNum.py_int _) as [deg|]; cbn [is_none orb andb];
       [|split; congruence]);
      destruct (py_float _) as [mv|]; cbn [is_none orb andb];
      destruct (f_of_int deg); cbn [is_none orb]; split; congruence.
  - destruct (Z.ltb_spec 2 (Z.of_nat (String.length coord)));
      destruct (Z.leb_spec (Z.of_nat (String.length coord)) 2); try lia;
      (destruct (PyNum.py_int _) as [deg|]; cbn [is_none orb andb];
       [|split; congruence]);
      destruct (_ <? Z.of_nat (String.length coord)); cbn [orb andb];
      try (destruct (py_float _) as [mv|]; cbn [is_none orb andb]);
      destruct (f_of_int deg); cbn [is_none orb]; split; congruence.
Qed.

Lemma parse_lat_fails (coord hemi : string) :
  is_none (_parse_lat (F := F) coord hemi)
  = DecodeSpec.bad_coordinate (F := F) coord hemi 2.
Proof.
  unfold _parse_lat, DecodeSpec.bad_coordinate.
  destruct (nonempty coord) eqn:Hc; cbn [negb orb andb]; [|reflexivity].
  destruct (nonempty hemi); cbn [negb andb]; [|reflexivity].
  pose proof (parse_coordinate_fails coord 2 Hc) as H. cbv zeta in H.
  destruct (_parse_coordinate coord 2); cbn [is_none].
  - destruct (_ || _ || _); [|reflexivity].
    destruct H as [_ H]. specialize (H eq_refl). discriminate.
  - destruct H as [H _]. rewrite (H eq_refl). reflexivity.
Qed.

Lemma parse_lon_fails (coord hemi : string) :
  is_none (_parse_lon (F := F) coord hemi)
  = DecodeSpec.bad_coordinate (F := F) coord hemi 3.
Proof.
  unfold _parse_lon, DecodeSpec.bad_coordinate.
  destruct (nonempty coord) eqn:Hc; cbn [negb orb andb]; [|reflexivity].
  destruct (nonempty hemi); cbn [negb andb]; [|reflexivity].
  pose proof (parse_coordinate_fails coord 3 Hc) as H. cbv zeta in H.
  destruct (_parse_coordinate coord 3); cbn [is_none].
  - destruct (_ || _ || _); [|reflexivity].
    destruct H as [_ H]. specialize (H eq_refl). discriminate.
  - destruct H as [H _]. rewrite (H eq_refl). reflexivity.
Qed.

Lemma microsecond_of_spec (t : string) :
  microsecond_of (F := F) t = DecodeSpec.microseconds t.
Proof.
  unfold microsecond_of, DecodeSpec.microseconds, item.
  destruct (contains "." t) eqn:C; [|reflexivity].
  assert (L : exists a b rest, split "." t = a :: b :: rest).
  { unfold contains in C. clear -C. induction t as [|c r IH];
      cbn [find] in C; [discriminate|]. cbn [split].
    destruct (Ascii.eqb c ".").
    - destruct r as [|c' r']; cbn [split].
      + exists "", "", []. reflexivity.
      + destruct (Ascii.eqb c' "."); [eauto|].
        destruct (split "." r') as [|h tl]; eauto.
    - destruct (find "." r) as [j|]; [|discriminate].
      destruct (IH eq_refl) as (a & b & rest & ->). eauto. }
  destruct L as (a & b & rest & ->). reflexivity.
Qed.

(** The timestamp of a line fails to parse in the ways of the description,
    and in no other; [d] is the date field, empty when there is none. *)
Lemma parse_datetime_fails (now : datetime) (t d : string) (date : option string) :
  date = Some d \/ (date = None /\ d = "") ->
  let H := DecodeSpec.number (slice t 0 2) in
  let M := DecodeSpec.number (slice t 2 4) in
  let S := DecodeSpec.number (slice t 4 6) in
  let us := match DecodeSpec.microseconds (F := F) t with
            | Some z => z
            | None => 0
            end in
  is_none (_parse_datetime (F := F) now t date)
  = negb (nonempty t)
    || DecodeSpec.pairs_rejected t
    || is_none (DecodeSpec.microseconds (F := F) t)
    || (nonempty d && DecodeSpec.pairs_rejected d)
    || is_none (if nonempty d
                then PyTime.make (DecodeSpec.number (slice d 4 6) + 2000)
                       (DecodeSpec.number (slice d 2 4))
                       (DecodeSpec.number (slice d 0 2)) H M S us
                else PyTime.replace_time now H M S us).
Proof.
  intros Hd. cbv zeta.
  unfold _parse_datetime, DecodeSpec.pairs_rejected, DecodeSpec.number.
  rewrite microsecond_of_spec.
  destruct (nonempty t); cbn [negb orb]; [|reflexivity].
  destruct (PyNum.py_int (slice t 0 2)) as [h|]; cbn [is_none orb]; [|reflexivity].
  destruct (PyNum.py_int (slice t 2 4)) as [m|]; cbn [is_none orb]; [|reflexivity].
  destruct (PyNum.py_int (slice t 4 6)) as [sc|]; cbn [is_none orb]; [|reflexivity].
  destruct (DecodeSpec.microseconds t) as [u|]; cbn [is_none orb]; [|reflexivity].
  destruct Hd as [->|[-> ->]].
  - destruct d as [|c r]; cbn [nonempty andb orb]; [reflexivity|].
    destruct (PyNum.py_int (slice (String c r) 0 2)) as [dd|]; cbn [is_none orb];
      [|reflexivity].
    destruct (PyNum.py_int (slice (String c r) 2 4)) as [mm|]; cbn [is_none orb];
      [|reflexivity].
    destruct (PyNum.py_int (slice (String c r) 4 6)) as [yy|]; cbn [is_none orb];
      reflexivity.
  - reflexivity.
Qed.

End DecodeFacts.

(** ** The relay *)

Section RelayFacts.
Import Net.

Lemma encode_ascii_some (s b : string) : encode_ascii s = Some b -> b = s.
Proof. unfold encode_ascii. destruct (all_ascii s); congruence. Qed.

Lemma sendall_ok (c c' : conn) (data : string) :
  sendall c data = (c', false) ->
  fd c' = fd c /\ received c' = (received c ++ data)%string.
Proof.
  unfold sendall. destruct (closed c); [discriminate|].
  destruct (budget c) as [b|].
  - destruct (String.length data <=? b)%nat; [|discriminate].
    intros H. injection H as <-. auto.
  - intros H. injection H as <-. auto.
Qed.

(** A pair sent without an exception has reached the peer whole, the first
    argument before the second. *)
Lemma send_pair_ok (c c' : conn) (rmc gga : string) :
  send_pair c rmc gga = (c', false) ->
  fd c' = fd c /\ received c' = (received c ++ rmc ++ gga)%string.
Proof.
  unfold send_pair.
  destruct (encode_ascii rmc) as [rb|] eqn:Er; [|discriminate].
  apply encode_ascii_some in Er. subst rb.
  destruct (sendall c rmc) as [c1 [|]] eqn:E1; [discriminate|].
  apply sendall_ok in E1. destruct E1 as [F1 R1].
  destruct (encode_ascii gga) as [gb|] eqn:Eg; [|discriminate].
  apply encode_ascii_some in Eg. subst gb.
  intros E2. apply sendall_ok in E2. destruct E2 as [F2 R2].
  split; [congruence|]. rewrite R2, R1. apply append_assoc.
Qed.

Lemma lookup_conn_fd (i : nat) (clients : list conn) (c : conn) :
  lookup_conn i clients = Some c -> fd c = i.
Proof.
  induction clients as [|x l IH]; simpl; [discriminate|].
  destruct (Nat.eqb_spec (fd x) i); [congruence|auto].
Qed.

Lemma lookup_conn_none (i : nat) (clients : list conn) :
  ~ In i (map fd clients) -> lookup_conn i clients = None.
Proof.
  induction clients as [|x l IH]; simpl; auto.
  intros H. destruct (Nat.eqb_spec (fd x) i); [tauto|]. apply IH. tauto.
Qed.

Lemma lookup_conn_in (c : conn) (clients : list conn) :
  NoDup (map fd clients) -> In c clients ->
  lookup_conn (fd c) clients = Some c.
Proof.
  induction clients as [|x l IH]; simpl; [tauto|].
  intros N [->|H].
  - rewrite Nat.eqb_refl. reflexivity.
  - inversion N as [|? ? Hx Nl]; subst.
    destruct (Nat.eqb_spec (fd x) (fd c)) as [E|E].
    + exfalso. apply Hx. rewrite E. apply in_map. exact H.
    + auto.
Qed.

Lemma map_fd_update (c' : conn) (clients : list conn) :
  map fd (update_conn c' clients) = map fd clients.
Proof.
  induction clients as [|x l IH]; simpl; auto.
  destruct (Nat.eqb_spec (fd x) (fd c')); simpl; congruence.
Qed.

Lemma lookup_update_same (c' : conn) (clients : list conn) :
  In (fd c') (map fd clients) ->
  lookup_conn (fd c') (update_conn c' clients) = Some c'.
Proof.
  induction clients as [|x l IH]; simpl; [tauto|].
  intros H. destruct (Nat.eqb_spec (fd x) (fd c')) as [E|E]; simpl.
  - rewrite Nat.eqb_refl. reflexivity.
  - destruct (Nat.eqb_spec (fd x) (fd c')); [tauto|]. apply IH. tauto.
Qed.

Lemma lookup_update_other (i : nat) (c' : conn) (clients : list conn) :
  i <> fd c' ->
  lookup_conn i (update_conn c' clients) = lookup_conn i clients.
Proof.
  intros H. induction clients as [|x l IH]; simpl; auto.
  destruct (Nat.eqb_spec (fd x) (fd c')) as [E|E]; simpl.
  - destruct (Nat.eqb_spec (fd c') i); [congruence|].
    destruct (Nat.eqb_spec (fd x) i); [congruence|reflexivity].
  - destruct (Nat.eqb_spec (fd x) i); auto.
Qed.

Lemma in_map_fd_remove (i j : nat) (clients : list conn) :
  In i (map fd (remove_conn j clients)) -> In i (map fd clients).
Proof.
  induction clients as [|x l IH]; simpl; auto.
  destruct (Nat.eqb_spec (fd x) j); simpl; tauto.
Qed.

Lemma NoDup_remove_conn (j : nat) (clients : list conn) :
  NoDup (map fd clients) -> NoDup (map fd (remove_conn j clients)).
Proof.
  induction clients as [|x l IH]; simpl; auto.
  intros N. inversion N as [|? ? Hx Nl]; subst.
  destruct (Nat.eqb_spec (fd x) j); simpl; auto.
  constructor; auto. intros H. apply Hx. eapply in_map_fd_remove; eauto.
Qed.

Lemma lookup_remove_same (j : nat) (clients : list conn) :
  NoDup (map fd clients) -> lookup_conn j (remove_conn j clients) = None.
Proof.
  induction clients as [|x l IH]; simpl; auto.
  intros N. inversion N as [|? ? Hx Nl]; subst.
  destruct (Nat.eqb_spec (fd x) j) as [E|E]; simpl.
  - apply lookup_conn_none. congruence.
  - destruct (Nat.eqb_spec (fd x) j); [tauto|auto].
Qed.

Lemma lookup_remove_other (i j : nat) (clients : list conn) :
  i <> j -> lookup_conn i (remove_conn j clients) = lookup_conn i clients.
Proof.
  intros H. induction clients as [|x l IH]; simpl; auto.
  destruct (Nat.eqb_spec (fd x) j) as [E|E]; simpl.
  - destruct (Nat.eqb_spec (fd x) i); [congruence|reflexivity].
  - destruct (Nat.eqb_spec (fd x) i); auto.
Qed.

Lemma lookup_conn_some_in (i : nat) (clients : list conn) (c : conn) :
  lookup_conn i clients = Some c -> In i (map fd clients).
Proof.
  induction clients as [|x l IH]; simpl; [discriminate|].
  destruct (Nat.eqb_spec (fd x) i); auto.
Qed.

(** The loop adds no connection. *)
Lemma broadcast_loop_none (rmc gga : string) (ids : list nat) :
  forall (clients : list conn) (i : nat),
    NoDup (map fd clients) ->
    lookup_conn i clients = None ->
    lookup_conn i (broadcast_loop ids clients rmc gga) = None.
Proof.
  induction ids as [|j ids IH]; intros clients i N H; simpl; auto.
  destruct (lookup_conn j clients) as [c|] eqn:E; [|auto].
  pose proof (lookup_conn_fd _ _ _ E) as Fc.
  destruct (send_pair c rmc gga) as [c1 [|]] eqn:S.
  - apply IH; [apply NoDup_remove_conn; exact N|].
    destruct (Nat.eq_dec i j) as [->|D];
      [apply lookup_remove_same; exact N|].
    rewrite lookup_remove_other by exact D. exact H.
  - apply send_pair_ok in S. destruct S as [F1 _].
    apply IH; [rewrite map_fd_update; exact N|].
    rewrite lookup_update_other; [exact H|]. congruence.
Qed.

(** What the loop leaves of a connection: untouched when its identity is not
    in the snapshot, and with the pair appended when it is and it is still in
    the list. *)
Lemma broadcast_loop_received (rmc gga : string) (ids : list nat) :
  forall (clients : list conn) (i : nat) (c0 c' : conn),
    NoDup (map fd clients) -> NoDup ids ->
    lookup_conn i clients = Some c0 ->
    lookup_conn i (broadcast_loop ids clients rmc gga) = Some c' ->
    (In i ids -> received c' = (received c0 ++ rmc ++ gga)%string)
    /\ (~ In i ids -> c' = c0).
Proof.
  induction ids as [|j ids IH]; intros clients i c0 c' N Ni H0 H'; simpl in *.
  - split; [tauto|congruence].
  - inversion Ni as [|? ? Hj Nids]; subst.
    destruct (lookup_conn j clients) as [c|] eqn:E.
    + pose proof (lookup_conn_fd _ _ _ E) as Fc.
      destruct (send_pair c rmc gga) as [c1 [|]] eqn:S.
      * (* the client is dropped *)
        destruct (Nat.eq_dec i j) as [->|D].
        -- rewrite broadcast_loop_none in H';
             [discriminate | apply NoDup_remove_conn; exact N
             | apply lookup_remove_same; exact N].
        -- destruct (IH (remove_conn j clients) i c0 c') as [A B]; auto.
           ++ apply NoDup_remove_conn; exact N.
           ++ rewrite lookup_remove_other by exact D. exact H0.
           ++ split; [intros [?|?]; [congruence|auto] | intros ?; apply B; tauto].
      * apply send_pair_ok in S. destruct S as [F1 R1].
        assert (N1 : NoDup (map fd (update_conn c1 clients)))
          by (rewrite map_fd_update; exact N).
        destruct (Nat.eq_dec i j) as [->|D].
        -- assert (c = c0) by congruence. subst c.
           assert (L1 : lookup_conn j (update_conn c1 clients) = Some c1).
           { rewrite <- Fc, <- F1. apply lookup_update_same.
             rewrite F1, Fc. eapply lookup_conn_some_in; eauto. }
           destruct (IH (update_conn c1 clients) j c1 c') as [_ B]; auto.
           split; [intros _; rewrite (B Hj); exact R1 | tauto].
        -- destruct (IH (update_conn c1 clients) i c0 c') as [A B]; auto.
           ++ rewrite lookup_update_other; [exact H0|congruence].
           ++ split; [intros [?|?]; [congruence|auto] | intros ?; apply B; tauto].
    + destruct (IH clients i c0 c') as [A B]; auto.
      split; [intros [?|?]; [congruence|auto] | intros ?; apply B; tauto].
Qed.

End RelayFacts.

(** ** The checksum *)

Section ChecksumFacts.
Import PyStr PyNum ChecksumSpec.

Lemma xor_bytes_acc (s : string) :
  forall acc, xor_bytes s acc = N.lxor acc (xor_all s).
Proof.
  induction s as [|c s IH]; intros acc; simpl.
  - symmetry. apply N.lxor_0_r.
  - rewrite IH. apply N.lxor_assoc.
Qed.

Lemma lxor_byte (a b : N) :
  (a < 256 -> b < 256 -> N.lxor a b < 256)%N.
Proof.
  intros Ha Hb.
  destruct (N.eq_dec (N.lxor a b) 0) as [->|Hz]; [reflexivity|].
  change 256%N with (2 ^ 8)%N.
  apply N.log2_lt_pow2; [lia|].
  eapply N.le_lt_trans; [apply N.log2_lxor|].
  assert (La : (N.log2 a < 8)%N).
  { destruct (N.eq_dec a 0) as [->|]; [reflexivity|].
    apply N.log2_lt_pow2; [lia|exact Ha]. }
  assert (Lb : (N.log2 b < 8)%N).
  { destruct (N.eq_dec b 0) as [->|]; [reflexivity|].
    apply N.log2_lt_pow2; [lia|exact Hb]. }
  lia.
Qed.

Lemma xor_all_byte (s : string) : (xor_all s < 256)%N.
Proof.
  induction s as [|c s IH]; simpl; [reflexivity|].
  apply lxor_byte; [apply N_ascii_bounded|exact IH].
Qed.

(** On a byte, [f"{n:02X}"] is the two uppercase hexadecimal digits, and
    neither they nor the CR LF after them hold a star. *)
Lemma fmt_X_byte (n : N) :
  (n < 256)%N ->
  fmt_X 2 n = two_hex n /\ find "*" (two_hex n ++ crlf) = None.
Proof.
  intros H.
  assert (A : forallb (fun k =>
                         String.eqb (fmt_X 2 (N.of_nat k)) (two_hex (N.of_nat k))
                         && negb (contains "*" (two_hex (N.of_nat k) ++ crlf)))
                      (seq 0 256) = true) by (vm_compute; reflexivity).
  rewrite forallb_forall in A.
  specialize (A (N.to_nat n)). rewrite N2Nat.id in A.
  assert (I : In (N.to_nat n) (seq 0 256)) by (apply in_seq; lia).
  apply A in I. apply andb_prop in I. destruct I as [I1 I2].
  split; [apply String.eqb_eq; exact I1|].
  apply contains_false. destruct (contains _ _); [discriminate|reflexivity].
Qed.

Lemma rfind_append_last (c : ascii) (a b : string) :
  find c b = None ->
  rfind c (a ++ String c b) = Some (String.length a).
Proof.
  intros Hb.
  assert (R : rfind c b = None).
  { clear a. induction b as [|x b IH]; simpl in *; auto.
    destruct (Ascii.eqb x c); [discriminate|].
    rewrite IH; [reflexivity|].
    destruct (find c b); [discriminate|reflexivity]. }
  induction a as [|x a IH]; simpl.
  - rewrite R, Ascii.eqb_refl. reflexivity.
  - rewrite IH. reflexivity.
Qed.

(** Every framed body passes the check. *)
Lemma frame_checksum_holds (body : string) :
  checksum_holds (frame body) = true.
Proof.
  unfold frame, calculate_checksum.
  rewrite xor_bytes_acc, N.lxor_0_l.
  destruct (fmt_X_byte (xor_all body) (xor_all_byte body)) as [-> Hf].
  change ("$" ++ body ++ "*" ++ two_hex (xor_all body) ++ crlf)%string
    with (String "$" (body ++ String "*" (two_hex (xor_all body) ++ crlf)))%string.
  unfold checksum_holds.
  rewrite rfind_append_last by exact Hf.
  rewrite take_append, drop_append_skip. apply String.eqb_refl.
Qed.

End ChecksumFacts.

(** ** Digits, formats and what [int] and [float] read back *)

Section FormatFacts.
Import PyStr PyNum PyTime.
#[local] Open Scope Q_scope.
#[local] Open Scope string_scope.


Lemma all_chars_append P a b :
  all_chars P (a ++ b) = all_chars P a && all_chars P b.
Proof. induction a; simpl; auto. rewrite IHa, andb_assoc. reflexivity. Qed.

Lemma all_chars_weaken (P Q : ascii -> bool) s :
  (forall c, P c = true -> Q c = true) ->
  all_chars P s = true -> all_chars Q s = true.
Proof.
  intros H. induction s; simpl; auto.
  intros E. apply andb_prop in E. destruct E. rewrite H, IHs; auto.
Qed.

Lemma all_chars_take P n s :
  all_chars P s = true -> all_chars P (take n s) = true.
Proof.
  revert n; induction s; intros [|n]; simpl; auto.
  intros E. apply andb_prop in E. destruct E as [-> E]. simpl. auto.
Qed.

Lemma all_chars_drop P n s :
  all_chars P s = true -> all_chars P (drop n s) = true.
Proof.
  revert n; induction s; intros [|n]; simpl; auto.
  intros E. apply andb_prop in E. destruct E as [_ E]. auto.
Qed.

Lemma nval_append a b acc : nval (a ++ b) acc = nval b (nval a acc).
Proof. revert acc; induction a; simpl; auto. Qed.

Lemma digits_us_all_digits s :
  all_chars is_digit s = true ->
  forall acc cnt prev,
    s <> "" \/ prev = true ->
    digits_us s acc cnt prev = Some (nval s acc, (cnt + String.length s)%nat).
Proof.
  induction s as [|c s IH]; simpl; intros H acc cnt prev Hp.
  - destruct Hp as [Hp| ->]; [congruence|]. rewrite Nat.add_0_r. reflexivity.
  - apply andb_prop in H. destruct H as [Hc Hs]. rewrite Hc.
    rewrite IH by auto. f_equal. f_equal. lia.
Qed.

Lemma digit_char_ok d :
  (d < 10)%N -> is_digit (digit_char d) = true /\ digit_val (digit_char d) = d.
Proof.
  intros H. unfold is_digit, digit_val, digit_char, ord.
  rewrite N_ascii_embedding by lia.
  split; [|lia].
  apply andb_true_intro. split; apply N.leb_le; lia.
Qed.

(** The digits [digits_acc] puts in front of [acc]. *)
Lemma digits_acc_dec fuel :
  forall n acc,
    (n < 2 ^ N.of_nat fuel)%N -> (0 < fuel)%nat ->
    exists d,
      digits_acc digit_char 10 fuel n acc = (d ++ acc)%string
      /\ all_chars is_digit d = true
      /\ d <> ""
      /\ (forall a, nval d a = (a * 10 ^ N.of_nat (String.length d) + n)%N)
      /\ (n < 10 ^ N.of_nat (String.length d))%N
      /\ (forall k, (0 < k)%nat -> (n < 10 ^ N.of_nat k)%N ->
                    (String.length d <= k)%nat).
Proof.
  induction fuel as [|fuel IH]; intros n acc Hn Hf; [lia|].
  cbn [digits_acc].
  destruct (digit_char_ok (n mod 10)) as [D1 D2]; [apply N.mod_lt; lia|].
  destruct (N.ltb_spec n 10) as [L|L].
  - exists (String (digit_char (n mod 10)) ""). simpl.
    rewrite D1, D2. rewrite N.mod_small by exact L.
    repeat split; auto; try discriminate; try lia.
  - assert (Hf' : (0 < fuel)%nat).
    { destruct fuel; [|lia]. simpl in Hn. lia. }
    assert (Hn' : (n / 10 < 2 ^ N.of_nat fuel)%N).
    { replace (N.of_nat (S fuel)) with (N.succ (N.of_nat fuel)) in Hn by lia.
      rewrite N.pow_succ_r' in Hn.
      apply N.Div0.div_lt_upper_bound. lia. }
    destruct (IH (n / 10)%N (String (digit_char (n mod 10)) acc) Hn' Hf')
      as (d & E & A & Ne & V & B & Lk).
    exists (d ++ String (digit_char (n mod 10)) "")%string.
    rewrite E, append_assoc. simpl.
    repeat split.
    + rewrite all_chars_append, A. simpl. rewrite D1. reflexivity.
    + destruct d; [congruence|discriminate].
    + intros a. rewrite nval_append, V. simpl. rewrite D2, length_append. simpl.
      replace (N.of_nat (String.length d + 1)) with (N.succ (N.of_nat (String.length d))) by lia.
      rewrite N.pow_succ_r'.
      pose proof (N.div_mod n 10 ltac:(lia)). lia.
    + rewrite length_append. simpl.
      replace (N.of_nat (String.length d + 1)) with (N.succ (N.of_nat (String.length d))) by lia.
      rewrite N.pow_succ_r'.
      pose proof (N.div_mod n 10 ltac:(lia)).
      pose proof (N.mod_lt n 10 ltac:(lia)). lia.
    + intros k Hk Hnk. rewrite length_append. simpl.
      destruct k as [|k]; [lia|].
      destruct k as [|k]; [simpl in Hnk; lia|].
      assert (String.length d <= S k)%nat; [|lia].
      apply Lk; [lia|].
      replace (N.of_nat (S (S k))) with (N.succ (N.of_nat (S k))) in Hnk by lia.
      rewrite N.pow_succ_r' in Hnk.
      apply N.Div0.div_lt_upper_bound. lia.
Qed.

Lemma dec_spec n :
  all_chars is_digit (dec n) = true
  /\ dec n <> ""
  /\ (forall a, nval (dec n) a = (a * 10 ^ N.of_nat (String.length (dec n)) + n)%N)
  /\ (forall k, (0 < k)%nat -> (n < 10 ^ N.of_nat k)%N ->
                (String.length (dec n) <= k)%nat).
Proof.
  unfold dec.
  destruct (digits_acc_dec (S (N.to_nat (N.log2 n))) n "") as (d & E & A & Ne & V & B & Lk).
  - destruct (N.eq_dec n 0) as [->|Hz]; [reflexivity|].
    replace (N.of_nat (S (N.to_nat (N.log2 n)))) with (N.succ (N.log2 n)) by lia.
    apply N.log2_spec. lia.
  - lia.
  - rewrite E, append_nil_r. auto.
Qed.

Lemma length_zeros k : String.length (zeros k) = k.
Proof. induction k; simpl; auto. Qed.

Lemma all_digits_zeros k : all_chars is_digit (zeros k) = true.
Proof. induction k; simpl; auto. Qed.

Lemma nval_zeros k : nval (zeros k) 0 = 0%N.
Proof. induction k; simpl; auto. Qed.

(** A number padded to [w] digits: digits only, of value [n], and exactly
    [w] of them when [n] fits. *)
Lemma zfill_dec_spec w n :
  all_chars is_digit (zfill w (dec n)) = true
  /\ zfill w (dec n) <> ""
  /\ nval (zfill w (dec n)) 0 = n
  /\ ((0 < w)%nat -> (n < 10 ^ N.of_nat w)%N ->
      String.length (zfill w (dec n)) = w).
Proof.
  destruct (dec_spec n) as (A & Ne & V & Lk).
  unfold zfill. repeat split.
  - rewrite all_chars_append, all_digits_zeros, A. reflexivity.
  - destruct (zeros _); [exact Ne|discriminate].
  - rewrite nval_append, nval_zeros, V. lia.
  - intros Hw Hn. rewrite length_append, length_zeros.
    specialize (Lk w Hw Hn). lia.
Qed.

Lemma digit_not_space c : is_digit c = true -> is_space c = false.
Proof.
  unfold is_digit, is_space. intros H.
  apply andb_prop in H. destruct H as [H1 H2].
  apply N.leb_le in H1. apply N.leb_le in H2.
  repeat match goal with
         | |- context [(?a <=? ?b)%N] => destruct (N.leb_spec a b)
         | |- context [(?a =? ?b)%N] => destruct (N.eqb_spec a b)
         end; simpl; auto; lia.
Qed.

Lemma lstrip_id s :
  all_chars (fun c => negb (is_space c)) s = true -> lstrip s = s.
Proof.
  destruct s; simpl; auto. intros H. apply andb_prop in H. destruct H as [H _].
  destruct (is_space a); [discriminate|reflexivity].
Qed.

Lemma rstrip_id s :
  all_chars (fun c => negb (is_space c)) s = true -> rstrip s = s.
Proof.
  induction s as [|c s IH]; simpl; auto.
  intros H. apply andb_prop in H. destruct H as [Hc Hs].
  rewrite IH by exact Hs.
  destruct s; [|reflexivity].
  destruct (is_space c); [discriminate|reflexivity].
Qed.

Lemma strip_id s :
  all_chars (fun c => negb (is_space c)) s = true -> strip s = s.
Proof. intros H. unfold strip. rewrite lstrip_id, rstrip_id; auto. Qed.

(** [int] and [float] skip fewer characters than [str.strip] does. *)
Lemma num_space_is_space c : is_num_space c = true -> is_space c = true.
Proof.
  unfold is_num_space, is_space.
  repeat match goal with
         | |- context [(?a <=? ?b)%N] => destruct (N.leb_spec a b)
         | |- context [(?a =? ?b)%N] => destruct (N.eqb_spec a b)
         end; simpl; auto; lia.
Qed.

Lemma not_space_not_num_space c : is_space c = false -> is_num_space c = false.
Proof.
  intros H. destruct (is_num_space c) eqn:E; [|reflexivity].
  apply num_space_is_space in E. congruence.
Qed.

Lemma num_lstrip_id s :
  all_chars (fun c => negb (is_space c)) s = true -> num_lstrip s = s.
Proof.
  destruct s; simpl; auto. intros H. apply andb_prop in H. destruct H as [H _].
  rewrite not_space_not_num_space; [reflexivity|].
  destruct (is_space a); [discriminate|reflexivity].
Qed.

Lemma num_rstrip_id s :
  all_chars (fun c => negb (is_space c)) s = true -> num_rstrip s = s.
Proof.
  induction s as [|c s IH]; simpl; auto.
  intros H. apply andb_prop in H. destruct H as [Hc Hs].
  rewrite IH by exact Hs.
  destruct s; [|reflexivity].
  rewrite not_space_not_num_space; [reflexivity|].
  destruct (is_space c); [discriminate|reflexivity].
Qed.

Lemma num_strip_id s :
  all_chars (fun c => negb (is_space c)) s = true -> num_strip s = s.
Proof. intros H. unfold num_strip. rewrite num_lstrip_id, num_rstrip_id; auto. Qed.

Lemma digits_no_space s :
  all_chars is_digit s = true ->
  all_chars (fun c => negb (is_space c)) s = true.
Proof.
  apply all_chars_weaken. intros c H. rewrite digit_not_space; auto.
Qed.

Lemma split_sign_digit c r :
  is_digit c = true -> split_sign (String c r) = (false, String c r).
Proof.
  destruct c as [[] [] [] [] [] [] [] []]; intros H; try discriminate H;
    reflexivity.
Qed.

(** [int] reads back a padded number. *)
Lemma py_int_zfill w n :
  (String.length (zfill w (dec n)) <= int_max_str_digits)%nat ->
  py_int (zfill w (dec n)) = Some (Z.of_N n).
Proof.
  intros Hlen.
  destruct (zfill_dec_spec w n) as (A & Ne & V & _).
  unfold py_int. rewrite num_strip_id by (apply digits_no_space; exact A).
  destruct (zfill w (dec n)) as [|c r] eqn:E; [congruence|].
  assert (Hc : is_digit c = true) by (simpl in A; apply andb_prop in A; tauto).
  rewrite split_sign_digit by exact Hc.
  unfold digits.
  rewrite digits_us_all_digits by (auto; left; discriminate).
  rewrite V. rewrite Nat.add_0_l.
  destruct (Nat.ltb_spec int_max_str_digits (String.length (String c r)));
    [lia|reflexivity].
Qed.

Lemma digit_props c :
  is_digit c = true ->
  Ascii.eqb c "." = false /\ is_exp_mark c = false
  /\ Ascii.eqb c "," = false /\ Ascii.eqb c "*" = false
  /\ (forall r, String.eqb (lowercase (String c r)) "inf" = false
                /\ String.eqb (lowercase (String c r)) "infinity" = false
                /\ String.eqb (lowercase (String c r)) "nan" = false).
Proof.
  destruct c as [[] [] [] [] [] [] [] []]; intros H; try discriminate H;
    repeat split; reflexivity.
Qed.

Lemma find_none_all_chars (x : ascii) s :
  all_chars (fun c => negb (Ascii.eqb c x)) s = true -> find x s = None.
Proof.
  induction s as [|c s IH]; simpl; auto.
  intros H. apply andb_prop in H. destruct H as [Hc Hs].
  destruct (Ascii.eqb c x); [discriminate|]. rewrite IH; auto.
Qed.

Lemma digits_no_dot s :
  all_chars is_digit s = true -> find "." s = None.
Proof.
  intros H. apply find_none_all_chars. revert H. apply all_chars_weaken.
  intros c Hc. destruct (digit_props c Hc) as (-> & _). reflexivity.
Qed.

Lemma split_exp_none s :
  all_chars (fun c => negb (is_exp_mark c)) s = true -> split_exp s = (s, None).
Proof.
  induction s as [|c s IH]; simpl; auto.
  intros H. apply andb_prop in H. destruct H as [Hc Hs].
  destruct (is_exp_mark c); [discriminate|]. rewrite IH; auto.
Qed.

(** The mantissa of digits, a point, digits. *)
Lemma mant_part_point ip fp :
  all_chars is_digit ip = true -> ip <> "" ->
  all_chars is_digit fp = true -> fp <> "" ->
  mant_part (ip ++ "." ++ fp)
  = Some ((nval ip 0 * pow10 (String.length fp) + nval fp 0)%N,
          String.length fp).
Proof.
  intros Ai Ni Af Nf. unfold mant_part.
  change (ip ++ "." ++ fp)%string with (ip ++ String "." fp)%string.
  rewrite find_append_first by (apply digits_no_dot; exact Ai).
  rewrite take_append, drop_append_skip.
  unfold digits.
  rewrite !digits_us_all_digits by auto.
  destruct ip; [congruence|]. destruct fp; [congruence|]. reflexivity.
Qed.

(** The text of a non-negative number with [p >= 1] decimals. *)
Lemma fixed_digits_form p q :
  (0 < p)%nat ->
  let n := round_half_even (q * (Z.of_N (pow10 p) # 1)) in
  fixed_digits p q
  = (dec (n / pow10 p) ++ "." ++ zfill p (dec (n mod pow10 p)))%string.
Proof. intros Hp. unfold fixed_digits. destruct p; [lia|reflexivity]. Qed.

Lemma pow10_pos p : (0 < pow10 p)%N.
Proof. unfold pow10. apply N.neq_0_lt_0, N.pow_nonzero. lia. Qed.

(** [float] on a sign, digits, a point and digits. *)
Lemma py_float_lit_point neg ipz fp :
  all_chars is_digit ipz = true -> ipz <> "" ->
  all_chars is_digit fp = true -> fp <> "" ->
  py_float_lit (sign_str neg ++ ipz ++ "." ++ fp)
  = Some (LitNum neg (nval ipz 0 * pow10 (String.length fp) + nval fp 0)%N
                 (- Z.of_nat (String.length fp))).
Proof.
  intros Az Nz Af Nf.
  assert (Hbody : forall P : ascii -> bool,
             (forall c, is_digit c = true -> P c = true) -> P "."%char = true ->
             all_chars P (ipz ++ "." ++ fp) = true).
  { intros P Pd Pp.
    change (ipz ++ "." ++ fp)%string with (ipz ++ String "." fp)%string.
    rewrite all_chars_append. cbn [all_chars]. rewrite Pp.
    rewrite (all_chars_weaken is_digit P ipz Pd Az).
    rewrite (all_chars_weaken is_digit P fp Pd Af). reflexivity. }
  assert (Hsp : all_chars (fun c => negb (is_space c)) (ipz ++ "." ++ fp) = true)
    by (apply Hbody; [intros c Hc; rewrite digit_not_space; auto|reflexivity]).
  assert (Hcore : forall sgn : bool,
             (let low := lowercase (ipz ++ "." ++ fp) in
              if String.eqb low "inf" || String.eqb low "infinity"
              then Some (LitInf sgn)
              else if String.eqb low "nan" then Some LitNan
              else
                let '(m, e) := split_exp (ipz ++ "." ++ fp) in
                match mant_part m, exp_part e with
                | Some (n, k), Some x => Some (LitNum sgn n (x - Z.of_nat k))
                | _, _ => None
                end)
             = Some (LitNum sgn (nval ipz 0 * pow10 (String.length fp) + nval fp 0)%N
                            (- Z.of_nat (String.length fp)))).
  { intros sgn. cbv zeta.
    rewrite split_exp_none
      by (apply Hbody; [intros x Hx; destruct (digit_props x Hx) as (_ & -> & _);
                        reflexivity | reflexivity]).
    rewrite mant_part_point by auto. cbn [exp_part].
    destruct ipz as [|c r] eqn:Ez; [congruence|].
    assert (Hc : is_digit c = true) by (simpl in Az; apply andb_prop in Az; tauto).
    destruct (digit_props c Hc) as (_ & _ & _ & _ & Hs).
    change (String c r ++ "." ++ fp)%string with (String c (r ++ "." ++ fp))%string.
    destruct (Hs (r ++ "." ++ fp)%string) as (-> & -> & ->). reflexivity. }
  unfold py_float_lit.
  destruct neg; cbn [sign_str].
  - change ("-" ++ ipz ++ "." ++ fp)%string
      with (String "-" (ipz ++ "." ++ fp))%string.
    rewrite num_strip_id
      by exact (andb_true_intro
                  (conj (eq_refl : negb (is_space "-") = true) Hsp)).
    cbn [split_sign]. apply Hcore.
  - change ("" ++ ipz ++ "." ++ fp)%string with (ipz ++ "." ++ fp)%string.
    rewrite num_strip_id by exact Hsp.
    destruct ipz as [|c r] eqn:Ez; [congruence|].
    assert (Hc : is_digit c = true) by (simpl in Az; apply andb_prop in Az; tauto).
    change (String c r ++ "." ++ fp)%string with (String c (r ++ "." ++ fp))%string.
    rewrite split_sign_digit by exact Hc.
    change (String c (r ++ "." ++ fp))%string with (String c r ++ "." ++ fp)%string.
    apply Hcore.
Qed.

(** [float] reads back what the [f] format has written: the digits of the
    rounded number, and the sign. *)
Lemma py_float_lit_fmt_f w p neg q :
  (0 < p)%nat ->
  py_float_lit (fmt_f w p (VFin neg q))
  = Some (LitNum neg (round_half_even (q * (Z.of_N (pow10 p) # 1)))
                 (- Z.of_nat p)).
Proof.
  intros Hp. cbn [fmt_f].
  rewrite (fixed_digits_form p q Hp). cbv zeta.
  set (n := round_half_even (q * (Z.of_N (pow10 p) # 1))).
  set (ip := dec (n / pow10 p)). set (fp := zfill p (dec (n mod pow10 p))).
  unfold zfill at 1.
  set (k := (w - String.length (sign_str neg)
             - String.length (ip ++ "." ++ fp))%nat).
  rewrite <- (append_assoc (zeros k) ip).
  destruct (dec_spec (n / pow10 p)) as (Ai & Ni & Vi & _). fold ip in Ai, Ni, Vi.
  destruct (zfill_dec_spec p (n mod pow10 p)) as (Af & Nf & Vf & Lf).
  fold fp in Af, Nf, Vf, Lf.
  assert (Lp : String.length fp = p).
  { apply Lf; [exact Hp|]. apply N.mod_lt. pose proof (pow10_pos p). lia. }
  rewrite py_float_lit_point; auto.
  - rewrite nval_append, nval_zeros, Vi, Vf, Lp.
    replace (0 * 10 ^ N.of_nat (String.length ip) + n / pow10 p)%N
      with (n / pow10 p)%N by lia.
    replace (n / pow10 p * pow10 p + n mod pow10 p)%N with n
      by (pose proof (N.div_mod n (pow10 p)) as D;
          pose proof (pow10_pos p); lia).
    reflexivity.
  - rewrite all_chars_append, all_digits_zeros, Ai. reflexivity.
  - destruct (zeros k); [exact Ni|discriminate].
Qed.

(** A string of digits denotes less than ten to its length; digits read
    after others shift those. *)
Lemma nval_shift s :
  all_chars is_digit s = true ->
  forall a,
    nval s a = (a * 10 ^ N.of_nat (String.length s) + nval s 0)%N
    /\ (nval s 0 < 10 ^ N.of_nat (String.length s))%N.
Proof.
  induction s as [|c s IH]; intros H a.
  - simpl. split; lia.
  - cbn [all_chars] in H. apply andb_prop in H. destruct H as [Hc Hs].
    cbn [nval String.length].
    destruct (IH Hs (a * 10 + digit_val c)%N) as [E1 _].
    destruct (IH Hs (0 * 10 + digit_val c)%N) as [E2 B].
    destruct (IH Hs 0%N) as [_ B0].
    rewrite E1, E2.
    replace (N.of_nat (S (String.length s))) with (N.succ (N.of_nat (String.length s))) by lia.
    rewrite N.pow_succ_r'.
    assert (Hd : (digit_val c < 10)%N).
    { unfold is_digit in Hc. unfold digit_val.
      apply andb_prop in Hc. destruct Hc as [H1 H2].
      apply N.leb_le in H1. apply N.leb_le in H2. lia. }
    split; nia.
Qed.


(** The rounding of the [f] format is off by half a unit at most. *)
Lemma round_half_even_bounds (q : Q) :
  (0 <= Qnum q)%Z ->
  let r := Z.of_N (round_half_even q) in
  let d := Zpos (Qden q) in
  (2 * (r * d - Qnum q) <= d /\ 2 * (Qnum q - r * d) <= d)%Z.
Proof.
  intros Hq. unfold round_half_even. cbv zeta.
  set (n := Qnum q) in *. set (d := Zpos (Qden q)).
  assert (Hd : (0 < d)%Z) by (unfold d; lia).
  pose proof (Z.div_mod n d ltac:(lia)) as E.
  pose proof (Z.mod_pos_bound n d Hd) as B.
  assert (K : (0 <= n / d)%Z) by (apply Z.div_pos; lia).
  set (k := (n / d)%Z) in *. set (r := (n mod d)%Z) in *.
  destruct (Z.ltb_spec (2 * r) d); [rewrite Z2N.id by lia; nia|].
  destruct (Z.ltb_spec d (2 * r)); [rewrite Z2N.id by lia; nia|].
  destruct (Z.even k); rewrite Z2N.id by lia; nia.
Qed.

Lemma round_half_even_close (q : Q) :
  0 <= q -> Qabs ((Z.of_N (round_half_even q) # 1) - q) <= 1 # 2.
Proof.
  intros Hq.
  assert (Hn : (0 <= Qnum q)%Z).
  { unfold Qle in Hq. simpl in Hq. lia. }
  destruct (round_half_even_bounds q Hn) as [A B].
  apply Qabs_Qle_condition. destruct q as [n d]. cbn [Qnum Qden] in *.
  unfold Qle, Qminus, Qplus, Qopp; cbn [Qnum Qden]. split; lia.
Qed.

(** A number below an integer bound rounds to at most that bound. *)
Lemma round_half_even_le (q : Q) (b : Z) :
  0 <= q -> q <= (b # 1) -> (Z.of_N (round_half_even q) <= b)%Z.
Proof.
  intros Hq Hb.
  assert (Hn : (0 <= Qnum q)%Z).
  { unfold Qle in Hq. simpl in Hq. lia. }
  destruct (round_half_even_bounds q Hn) as [A B].
  destruct q as [n d]. unfold Qle in Hb. cbn [Qnum Qden] in *. nia.
Qed.

Lemma fmt_d_of_N w n : fmt_d w (Z.of_N n) = zfill w (dec n).
Proof.
  unfold fmt_d.
  destruct (Z.ltb_spec (Z.of_N n) 0) as [H|H]; [lia|].
  cbn [sign_str String.length append]. rewrite Nat.sub_0_r, Zabs2N.id.
  reflexivity.
Qed.

(** Minutes below 100 in the [09.6f] format: two digits, a point, six
    digits. *)
Lemma fmt_f_minutes (m : Q) :
  let n := round_half_even (m * (Z.of_N (pow10 6) # 1)) in
  (n < 100 * pow10 6)%N ->
  fmt_f 9 6 (VFin false m)
  = (zfill 2 (dec (n / pow10 6)) ++ "." ++ zfill 6 (dec (n mod pow10 6)))%string.
Proof.
  intros n Hn. cbn [fmt_f sign_str String.length append].
  rewrite (fixed_digits_form 6 m) by lia. cbv zeta. fold n.
  destruct (dec_spec (n / pow10 6)) as (_ & Hne & _ & Lk).
  destruct (zfill_dec_spec 6 (n mod pow10 6)) as (_ & _ & _ & L6).
  assert (L2 : (String.length (dec (n / pow10 6)) <= 2)%nat).
  { apply Lk; [lia|]. apply N.Div0.div_lt_upper_bound.
    change (10 ^ N.of_nat 2)%N with 100%N. lia. }
  assert (E6 : String.length (zfill 6 (dec (n mod pow10 6))) = 6%nat).
  { apply L6; [lia|]. apply N.mod_lt. pose proof (pow10_pos 6). lia. }
  set (D := dec (n / pow10 6)) in *.
  set (F6 := zfill 6 (dec (n mod pow10 6))) in *.
  unfold zfill.
  rewrite !length_append, E6, append_assoc.
  replace (9 - 0 - (String.length D + (String.length "." + 6)))%nat
    with (2 - String.length D)%nat
    by (cbn [String.length]; lia).
  reflexivity.
Qed.

Section AnyCoord.
Context {F : Type} {PF : PyFloat F}.

(** The decoder reads a formatted coordinate back: the degrees plus the
    rounded minutes over sixty. *)
Lemma parse_formatted_coordinate (w : nat) (d : N) (m : Q) (maxd : Z) :
  (2 <= w <= 4300)%nat -> (d < 10 ^ N.of_nat w)%N ->
  let n := round_half_even (m * (Z.of_N (pow10 6) # 1)) in
  (n < 100 * pow10 6)%N ->
  _parse_coordinate (F := F)
    (fmt_d w (Z.of_N d) ++ fmt_f 9 6 (VFin false m)) maxd
  = (deg_f <- f_of_int (Z.of_N d) ;;
     Some (f_add deg_f (f_div (f_lit false n (-6)) f_sixty))).
Proof.
  intros Hw Hd n Hn.
  rewrite fmt_d_of_N, (fmt_f_minutes m Hn). fold n.
  set (s1 := zfill w (dec d)).
  set (s2 := zfill 2 (dec (n / pow10 6))).
  set (s3 := zfill 6 (dec (n mod pow10 6))).
  destruct (zfill_dec_spec w d) as (A1 & N1 & V1 & L1). fold s1 in A1, N1, V1, L1.
  destruct (zfill_dec_spec 2 (n / pow10 6)) as (A2 & N2 & V2 & L2).
  fold s2 in A2, N2, V2, L2.
  assert (E1 : String.length s1 = w) by (apply L1; [lia|exact Hd]).
  assert (E2 : String.length s2 = 2%nat).
  { apply L2; [lia|]. apply N.Div0.div_lt_upper_bound.
    change (10 ^ N.of_nat 2)%N with 100%N. lia. }
  unfold _parse_coordinate.
  assert (Hne : nonempty (s1 ++ s2 ++ "." ++ s3) = true).
  { destruct s1; [congruence|reflexivity]. }
  rewrite Hne. cbn [negb].
  assert (Hdot : find "." (s1 ++ s2 ++ "." ++ s3) = Some (w + 2)%nat).
  { rewrite find_append_later by (apply digits_no_dot; exact A1).
    change (s2 ++ "." ++ s3)%string with (s2 ++ String "." s3)%string.
    rewrite find_append_first by (apply digits_no_dot; exact A2).
    rewrite E1, E2. reflexivity. }
  rewrite Hdot.
  destruct (Z.leb_spec 4 (Z.of_nat (w + 2))) as [_|]; [|lia].
  replace (Z.of_nat (w + 2) - 2)%Z with (Z.of_nat (String.length s1)) by lia.
  unfold deg_and_min.
  rewrite slice_to_append, slice_from_append.
  unfold s1 at 1. rewrite py_int_zfill by (fold s1; unfold int_max_str_digits; lia).
  unfold py_float.
  replace (s2 ++ "." ++ s3)%string with (fmt_f 9 6 (VFin false m))
    by (rewrite (fmt_f_minutes m Hn); reflexivity).
  rewrite py_float_lit_fmt_f by lia. fold n.
  reflexivity.
Qed.

End AnyCoord.

Lemma Qmake_scale (a : Z) (b : positive) : (a # b) == (a # 1) * (1 # b).
Proof. unfold Qeq, Qmult. cbn [Qnum Qden]. lia. Qed.

(** Rounding to six decimals is off by half a millionth at most. *)
Lemma round6_close (m : Q) :
  0 <= m ->
  let n := round_half_even (m * (Z.of_N (pow10 6) # 1)) in
  Qabs ((Z.of_N n # 1000000) - m) <= 1 # 2000000.
Proof.
  intros Hm n.
  assert (H0 : 0 <= m * (Z.of_N (pow10 6) # 1)).
  { change (Z.of_N (pow10 6) # 1) with (1000000 # 1). nra. }
  pose proof (round_half_even_close _ H0) as C. fold n in C.
  change (Z.of_N (pow10 6) # 1) with (1000000 # 1) in C.
  apply Qabs_Qle_condition in C. apply Qabs_Qle_condition.
  rewrite (Qmake_scale (Z.of_N n) 1000000).
  split; lra.
Qed.

Lemma clean_append a b : clean a -> clean b -> clean (a ++ b).
Proof. unfold clean. intros A B. rewrite all_chars_append, A, B. reflexivity. Qed.

Lemma clean_digits s : all_chars is_digit s = true -> clean s.
Proof.
  apply all_chars_weaken. intros c H.
  destruct (digit_props c H) as (_ & _ & H1 & H2 & _).
  unfold okch. rewrite H1, H2. reflexivity.
Qed.

Lemma clean_take n s : clean s -> clean (take n s).
Proof. apply all_chars_take. Qed.

Lemma clean_no_comma s : clean s -> find "," s = None.
Proof.
  intros H. apply find_none_all_chars. revert H. apply all_chars_weaken.
  intros c. unfold okch. destruct (Ascii.eqb c ","); simpl; congruence.
Qed.

Lemma clean_no_star s : clean s -> find "*" s = None.
Proof.
  intros H. apply find_none_all_chars. revert H. apply all_chars_weaken.
  intros c. unfold okch. destruct (Ascii.eqb c "*"); simpl;
    [rewrite andb_false_r|]; congruence.
Qed.

Lemma clean_sign neg : clean (sign_str neg).
Proof. destruct neg; reflexivity. Qed.

Lemma clean_zfill w s : clean s -> clean (zfill w s).
Proof.
  intros H. unfold zfill. apply clean_append; [|exact H].
  apply clean_digits, all_digits_zeros.
Qed.

Lemma clean_dec n : clean (dec n).
Proof. apply clean_digits. apply (dec_spec n). Qed.

Lemma clean_fmt_d w z : clean (fmt_d w z).
Proof.
  unfold fmt_d. apply clean_append; [apply clean_sign|].
  apply clean_zfill, clean_dec.
Qed.

Lemma clean_fixed_digits p q : clean (fixed_digits p q).
Proof.
  unfold fixed_digits. destruct p; [apply clean_dec|].
  apply clean_append; [apply clean_dec|].
  apply clean_append; [reflexivity|]. apply clean_zfill, clean_dec.
Qed.

Lemma clean_fmt_f w p v : clean (fmt_f w p v).
Proof.
  destruct v as [|neg|neg q]; cbn [fmt_f].
  - apply clean_zfill. reflexivity.
  - apply clean_append; [apply clean_sign|]. apply clean_zfill. reflexivity.
  - apply clean_append; [apply clean_sign|].
    apply clean_zfill, clean_fixed_digits.
Qed.

Lemma clean_strftime_HMSf d : clean (PyTime.strftime_HMSf d).
Proof.
  unfold PyTime.strftime_HMSf.
  repeat (apply clean_append; [first [apply clean_fmt_d | reflexivity]|]).
  apply clean_fmt_d.
Qed.

Lemma clean_time_str d : clean (time_str_of d).
Proof.
  unfold time_str_of, slice_to. apply clean_take, clean_strftime_HMSf.
Qed.

Lemma clean_strftime_dmy d : clean (PyTime.strftime_dmy d).
Proof.
  unfold PyTime.strftime_dmy.
  repeat (apply clean_append; [apply clean_fmt_d|]). apply clean_fmt_d.
Qed.

Lemma fmt_f_nonempty w p v : fmt_f w p v <> "".
Proof.
  assert (Z : forall k s, s <> "" -> zfill k s <> "").
  { intros k s H. unfold zfill. destruct (zeros _); [exact H|discriminate]. }
  assert (A : forall a b, b <> "" -> (a ++ b)%string <> "").
  { intros a b H. destruct a; [exact H|discriminate]. }
  destruct v as [|neg|neg q]; cbn [fmt_f].
  - apply Z. discriminate.
  - apply A, Z. discriminate.
  - apply A, Z. unfold fixed_digits.
    destruct (dec_spec (round_half_even (q * (Z.of_N (pow10 p) # 1)) / pow10 p))
      as (_ & Hne & _).
    destruct p; [exact Hne|].
    destruct (dec _); [congruence|discriminate].
Qed.


(** One coordinate through [format_coord] and [_parse_coordinate], in exact
    arithmetic: the text is a clean non-empty field, and the number read back
    is the magnitude of the coordinate to half a millionth of a minute. *)
Lemma slice_middle (a b r : string) :
  slice (a ++ b ++ r) (Z.of_nat (String.length a))
        (Z.of_nat (String.length a + String.length b)) = b.
Proof.
  unfold slice. rewrite !clamp_in_range by (rewrite !length_append; lia).
  rewrite drop_append.
  replace (String.length a + String.length b - String.length a)%nat
    with (String.length b) by lia.
  apply take_append.
Qed.

Lemma split_none (c : ascii) (s : string) : find c s = None -> split c s = [s].
Proof.
  induction s as [|a s IH]; simpl; auto.
  destruct (Ascii.eqb a c); [discriminate|].
  intros H. rewrite IH; [reflexivity|].
  destruct (find c s); [discriminate|reflexivity].
Qed.

Lemma length_take (n : nat) (s : string) :
  (n <= String.length s)%nat -> String.length (take n s) = n.
Proof.
  revert n; induction s as [|c s IH]; intros [|n] H; simpl in *; auto; try lia.
  rewrite IH; lia.
Qed.

Lemma take_drop (n : nat) (s : string) : (take n s ++ drop n s)%string = s.
Proof.
  revert n; induction s as [|c s IH]; intros [|n]; simpl; auto.
  rewrite IH. reflexivity.
Qed.

(** A number of at most [w] digits in a field of width [w]. *)
Lemma fmt_d_field (w : nat) (z : Z) :
  (0 < w <= 4300)%nat -> (0 <= z < 10 ^ Z.of_nat w)%Z ->
  all_chars is_digit (fmt_d w z) = true
  /\ String.length (fmt_d w z) = w
  /\ py_int (fmt_d w z) = Some z
  /\ nval (fmt_d w z) 0 = Z.to_N z.
Proof.
  intros Hw Hz.
  assert (E : z = Z.of_N (Z.to_N z)) by (rewrite Z2N.id; lia).
  rewrite E, N2Z.id. set (n := Z.to_N z) in *. rewrite fmt_d_of_N.
  destruct (zfill_dec_spec w n) as (A & _ & V & L).
  assert (Len : String.length (zfill w (dec n)) = w).
  { apply L; [lia|]. apply N2Z.inj_lt.
    rewrite <- E, N2Z.inj_pow, nat_N_Z. change (Z.of_N 10) with 10%Z. lia. }
  repeat split; auto.
  apply py_int_zfill. unfold int_max_str_digits. lia.
Qed.

(** What [valid] says, field by field. *)
Lemma valid_fields (d : datetime) :
  valid d = true ->
  (1 <= year d <= 9999 /\ 1 <= month d <= 12
   /\ 1 <= day d <= days_in_month (year d) (month d)
   /\ 0 <= hour d <= 23 /\ 0 <= minute d <= 59 /\ 0 <= second d <= 59
   /\ 0 <= microsecond d <= 999999)%Z.
Proof.
  unfold valid, between. intros H.
  repeat (apply andb_prop in H; destruct H as [H ?]).
  repeat match goal with
         | H : (_ <=? _)%Z = true |- _ => apply Z.leb_le in H
         end.
  lia.
Qed.

Lemma valid_intro (d : datetime) :
  (1 <= year d <= 9999 /\ 1 <= month d <= 12
   /\ 1 <= day d <= days_in_month (year d) (month d)
   /\ 0 <= hour d <= 23 /\ 0 <= minute d <= 59 /\ 0 <= second d <= 59
   /\ 0 <= microsecond d <= 999999)%Z ->
  valid d = true.
Proof.
  intros H. unfold valid, between.
  repeat (apply andb_true_intro; split); apply Z.leb_le; lia.
Qed.

Lemma days_in_month_bounds (y m : Z) : (28 <= days_in_month y m <= 31)%Z.
Proof.
  unfold days_in_month.
  destruct (m =? 2)%Z; [destruct (is_leap y); lia|].
  destruct (_ || _); lia.
Qed.

Lemma mod_spec (a b : Z) :
  (0 < b -> a = b * (a / b) + a mod b /\ 0 <= a mod b < b)%Z.
Proof.
  intros H. split; [apply Z.div_mod; lia | apply Z.mod_pos_bound; lia].
Qed.

(** The day of a valid date exists in the year 2000 + yy as well. *)
Lemma days_in_month_century (y m : Z) :
  (days_in_month y m <= days_in_month (y mod 100 + 2000) m)%Z.
Proof.
  unfold days_in_month.
  destruct (m =? 2)%Z; [|lia].
  assert (L : is_leap y = true -> is_leap (y mod 100 + 2000) = true).
  { unfold is_leap. intros H.
    apply andb_prop in H. destruct H as [H4 H].
    apply Z.eqb_eq in H4.
    pose proof (mod_spec y 100 ltac:(lia)) as M100.
    pose proof (mod_spec y 4 ltac:(lia)) as M4.
    pose proof (mod_spec y 400 ltac:(lia)) as M400.
    apply andb_true_intro. split.
    - apply Z.eqb_eq.
      pose proof (mod_spec (y mod 100 + 2000) 4 ltac:(lia)). lia.
    - apply orb_true_iff. apply orb_prop in H. destruct H as [H|H].
      + left. apply negb_true_iff in H. apply Z.eqb_neq in H.
        apply negb_true_iff. apply Z.eqb_neq.
        pose proof (mod_spec (y mod 100 + 2000) 100 ltac:(lia)). lia.
      + right. apply Z.eqb_eq in H. apply Z.eqb_eq.
        assert (E : (y mod 100 = 0)%Z) by lia. rewrite E. reflexivity. }
  destruct (is_leap y); [rewrite L by reflexivity; lia|].
  destruct (is_leap _); lia.
Qed.

(** The time field of a sentence: two digits each for the hour, the minute
    and the second, a point, and the first three digits of the
    microseconds. *)
Lemma time_str_form (d : datetime) :
  valid d = true ->
  exists HH MM SS U3,
    time_str_of d = (HH ++ MM ++ SS ++ "." ++ U3)%string
    /\ (all_chars is_digit HH = true /\ String.length HH = 2%nat
        /\ py_int HH = Some (hour d))
    /\ (all_chars is_digit MM = true /\ String.length MM = 2%nat
        /\ py_int MM = Some (minute d))
    /\ (all_chars is_digit SS = true /\ String.length SS = 2%nat
        /\ py_int SS = Some (second d))
    /\ (all_chars is_digit U3 = true /\ String.length U3 = 3%nat
        /\ Z.of_N (nval U3 0) = (microsecond d / 1000)%Z).
Proof.
  intros V. apply valid_fields in V.
  destruct (fmt_d_field 2 (hour d)) as (A1 & L1 & P1 & _); [lia|simpl; lia|].
  destruct (fmt_d_field 2 (minute d)) as (A2 & L2 & P2 & _); [lia|simpl; lia|].
  destruct (fmt_d_field 2 (second d)) as (A3 & L3 & P3 & _); [lia|simpl; lia|].
  destruct (fmt_d_field 6 (microsecond d)) as (A4 & L4 & _ & V4);
    [lia|simpl; lia|].
  set (HH := fmt_d 2 (hour d)) in *. set (MM := fmt_d 2 (minute d)) in *.
  set (SS := fmt_d 2 (second d)) in *. set (U6 := fmt_d 6 (microsecond d)) in *.
  exists HH, MM, SS, (take 3 U6).
  split.
  { unfold time_str_of, strftime_HMSf, slice_to.
    fold HH MM SS U6.
    replace (clamp _ (-3)) with (String.length HH + (String.length MM
                                 + (String.length SS + 4)))%nat.
    - rewrite !take_append_more. reflexivity.
    - unfold clamp. rewrite !length_append, L1, L2, L3, L4. reflexivity. }
  repeat split; auto.
  - apply all_chars_take. exact A4.
  - apply length_take. lia.
  - (* the value of the first three digits *)
    pose proof (take_drop 3 U6) as TD.
    assert (At : all_chars is_digit (take 3 U6) = true) by (apply all_chars_take; exact A4).
    assert (Ad : all_chars is_digit (drop 3 U6) = true) by (apply all_chars_drop; exact A4).
    assert (Ld : String.length (drop 3 U6) = 3%nat).
    { pose proof (length_append (take 3 U6) (drop 3 U6)) as LA.
      rewrite TD, L4, length_take in LA by lia. lia. }
    rewrite <- TD, nval_append in V4.
    destruct (nval_shift _ Ad (nval (take 3 U6) 0)) as [E B]. rewrite Ld in E.
    destruct (nval_shift _ Ad 0%N) as [_ B0]. rewrite Ld in B0.
    rewrite E in V4. change (10 ^ N.of_nat 3)%N with 1000%N in *.
    assert (Hus : microsecond d
                  = (Z.of_N (nval (take 3 U6) 0) * 1000
                     + Z.of_N (nval (drop 3 U6) 0))%Z) by lia.
    rewrite Hus.
    rewrite Z.div_add_l by lia. rewrite Z.div_small by lia. lia.
Qed.

(** The date field: two digits each for the day, the month and the year
    within its century. *)
Lemma date_str_form (d : datetime) :
  valid d = true ->
  exists DD MO YY,
    strftime_dmy d = (DD ++ MO ++ YY)%string
    /\ (String.length DD = 2%nat /\ py_int DD = Some (day d))
    /\ (String.length MO = 2%nat /\ py_int MO = Some (month d))
    /\ (String.length YY = 2%nat /\ py_int YY = Some (year d mod 100)%Z)
    /\ nonempty (DD ++ MO ++ YY) = true.
Proof.
  intros V. apply valid_fields in V.
  pose proof (days_in_month_bounds (year d) (month d)) as DB.
  pose proof (mod_spec (year d) 100 ltac:(lia)) as MY.
  destruct (fmt_d_field 2 (day d)) as (A1 & L1 & P1 & _); [lia|simpl; lia|].
  destruct (fmt_d_field 2 (month d)) as (A2 & L2 & P2 & _); [lia|simpl; lia|].
  destruct (fmt_d_field 2 (year d mod 100)%Z) as (A3 & L3 & P3 & _);
    [lia|simpl; lia|].
  exists (fmt_d 2 (day d)), (fmt_d 2 (month d)), (fmt_d 2 (year d mod 100)%Z).
  repeat split; auto.
  destruct (fmt_d 2 (day d)); [discriminate|reflexivity].
Qed.

Section TimeOnFloats.
Import PyStr PyNum PyTime.
#[local] Open Scope Z_scope.
Context {F : Type} {PF : PyFloat F}.

(** The one float computation of [_parse_datetime]:
    [int(float("0.mmm") * 1e6)] is [mmm] thousand. *)
Hypothesis millis_exact :
  forall n : N, (n < 1000)%N ->
    f_trunc (f_mul (f_lit false n (-3)) (f_lit false 1 6))
    = Some (Z.of_N n * 1000).

Lemma parse_time_fields_any (d : datetime) :
  valid d = true ->
  let ts := time_str_of d in
  nonempty ts = true
  /\ py_int (slice ts 0 2) = Some (hour d)
  /\ py_int (slice ts 2 4) = Some (minute d)
  /\ py_int (slice ts 4 6) = Some (second d)
  /\ microsecond_of (F := F) ts = Some (microsecond d / 1000 * 1000)%Z.
Proof.
  intros V ts.
  destruct (time_str_form d V)
    as (HH & MM & SS & U3 & E & (A1 & L1 & P1) & (A2 & L2 & P2)
        & (A3 & L3 & P3) & (A4 & L4 & V4)).
  unfold ts. rewrite E. clear ts E.
  split; [destruct HH; [discriminate|reflexivity]|].
  split.
  { replace (slice _ 0 2) with HH; [exact P1|].
    pose proof (slice_middle "" HH (MM ++ SS ++ "." ++ U3)) as S.
    rewrite L1 in S. symmetry. exact S. }
  split.
  { replace (slice _ 2 4) with MM; [exact P2|].
    pose proof (slice_middle HH MM (SS ++ "." ++ U3)) as S.
    rewrite L1, L2 in S. symmetry. exact S. }
  split.
  { replace (slice _ 4 6) with SS; [exact P3|].
    pose proof (slice_middle (HH ++ MM) SS ("." ++ U3)) as S.
    rewrite length_append, L1, L2, L3, append_assoc in S. symmetry. exact S. }
  assert (A6 : all_chars is_digit (HH ++ MM ++ SS) = true)
    by (rewrite !all_chars_append, A1, A2, A3; reflexivity).
  assert (Hs : (HH ++ MM ++ SS ++ "." ++ U3)%string
               = ((HH ++ MM ++ SS) ++ String "." U3)%string)
    by (rewrite !append_assoc; reflexivity).
  rewrite Hs. unfold microsecond_of, contains.
  rewrite find_append_first by (apply digits_no_dot; exact A6).
  rewrite split_head by (apply digits_no_dot; exact A6).
  rewrite split_none by (apply digits_no_dot; exact A4).
  cbn [item nth_error].
  unfold py_float.
  assert (N4 : U3 <> "") by (destruct U3; [discriminate|discriminate]).
  pose proof (py_float_lit_point false "0" U3 eq_refl ltac:(discriminate) A4 N4) as P.
  cbn [sign_str append] in P. cbn [append]. rewrite P.
  rewrite L4.
  change (nval "0" 0 * pow10 3 + nval U3 0)%N with (nval U3 0).
  change (- Z.of_nat 3) with (-3).
  destruct (nval_shift U3 A4 0%N) as [_ B]. rewrite L4 in B.
  change (10 ^ N.of_nat 3)%N with 1000%N in B.
  rewrite (millis_exact _ B). rewrite V4. reflexivity.
Qed.

Lemma parse_datetime_time_only_any (now d : datetime) :
  valid d = true -> valid now = true ->
  _parse_datetime (F := F) now (time_str_of d) None
  = Some (mk_dt (year now) (month now) (day now) (hour d) (minute d)
                (second d) (microsecond d / 1000 * 1000) (tzinfo now)).
Proof.
  intros V Vn.
  destruct (parse_time_fields_any d V) as (Ne & PH & PM & PS & PU).
  unfold _parse_datetime. rewrite Ne, PH, PM, PS, PU. cbn [negb].
  unfold replace_time.
  rewrite valid_intro; [reflexivity|].
  apply valid_fields in V. apply valid_fields in Vn.
  cbn [year month day hour minute second microsecond].
  pose proof (mod_spec (microsecond d) 1000 ltac:(lia)). lia.
Qed.

Lemma parse_datetime_with_date_any (now d : datetime) :
  valid d = true ->
  _parse_datetime (F := F) now (time_str_of d) (Some (strftime_dmy d))
  = Some (mk_dt (year d mod 100 + 2000) (month d) (day d) (hour d) (minute d)
                (second d) (microsecond d / 1000 * 1000) (Some UTC)).
Proof.
  intros V.
  destruct (parse_time_fields_any d V) as (Ne & PH & PM & PS & PU).
  destruct (date_str_form d V)
    as (DD & MO & YY & E & (L1 & P1) & (L2 & P2) & (L3 & P3) & Nd).
  unfold _parse_datetime. rewrite Ne, PH, PM, PS, PU. cbn [negb].
  rewrite E.
  destruct (DD ++ MO ++ YY)%string as [|c0 r0] eqn:Ed; [discriminate|].
  rewrite <- Ed.
  replace (slice _ 0 2) with DD.
  2:{ pose proof (slice_middle "" DD (MO ++ YY)) as S.
      rewrite L1 in S. symmetry. exact S. }
  replace (slice _ 2 4) with MO.
  2:{ pose proof (slice_middle DD MO YY) as S.
      rewrite L1, L2 in S. symmetry. exact S. }
  replace (slice _ 4 6) with YY.
  2:{ pose proof (slice_middle (DD ++ MO) YY "") as S.
      rewrite length_append, L1, L2, L3, append_assoc, append_nil_r in S.
      symmetry. exact S. }
  rewrite P1, P2, P3. unfold make.
  rewrite valid_intro; [reflexivity|].
  apply valid_fields in V. cbn [year month day hour minute second microsecond].
  pose proof (mod_spec (microsecond d) 1000 ltac:(lia)).
  pose proof (mod_spec (year d) 100 ltac:(lia)).
  pose proof (days_in_month_century (year d) (month d)). lia.
Qed.

End TimeOnFloats.

Section Millis64.
#[local] Open Scope Z_scope.

(** On binary64 the product [float("0.mmm") * 1e6] truncates to [mmm]
    thousand for each of the thousand values of [mmm]. *)
Lemma binary64_millis_exact (n : N) :
  (n < 1000)%N ->
  f_trunc (f_mul (f_lit (F := Binary64.t) false n (-3)) (f_lit false 1 6))
  = Some (Z.of_N n * 1000).
Proof.
  intros H.
  assert (A : forallb
                (fun k =>
                   match f_trunc (f_mul (f_lit (F := Binary64.t) false
                                           (N.of_nat k) (-3))
                                        (f_lit false 1 6)) with
                   | Some z => z =? Z.of_N (N.of_nat k) * 1000
                   | None => false
                   end)
                (seq 0 1000) = true) by (vm_compute; reflexivity).
  rewrite forallb_forall in A.
  specialize (A (N.to_nat n)). rewrite N2Nat.id in A.
  assert (I : In (N.to_nat n) (seq 0 1000)) by (apply in_seq; lia).
  apply A in I.
  destruct (f_trunc _) as [z|]; [|discriminate].
  apply Z.eqb_eq in I. congruence.
Qed.

End Millis64.



Section OneDecimal.
Context {F : Type} {PF : PyFloat F}.

(** [float] reads the [.1f] text of a float as its rounding to one
    decimal. *)
Lemma py_float_fmt1 (x : F) :
  py_float (F := F) (fmt_f 0 1 (f_view x)) = Some (one_decimal x).
Proof.
  unfold py_float, one_decimal. destruct (f_view x) as [|neg|neg q].
  - reflexivity.
  - destruct neg; reflexivity.
  - rewrite py_float_lit_fmt_f by lia. reflexivity.
Qed.

End OneDecimal.

Lemma nostar_append a b : nostar a -> nostar b -> nostar (a ++ b).
Proof. unfold nostar. intros A B. rewrite all_chars_append, A, B. reflexivity. Qed.

Lemma clean_nostar s : clean s -> nostar s.
Proof.
  apply all_chars_weaken. intros c. unfold okch.
  destruct (Ascii.eqb c "*"); [rewrite andb_false_r|]; auto.
Qed.

Section Frames.
Context {F : Type} {PF : PyFloat F}.

(** The decoder sees the body of a framed sentence. *)
Lemma fields_of_frame (body : string) :
  nostar body -> fields_of (frame body) = split "," body.
Proof.
  intros H. unfold frame.
  change ("$" ++ body ++ "*" ++ calculate_checksum body ++ crlf)%string
    with (("$" ++ body) ++ "*" ++ (calculate_checksum body ++ crlf))%string.
  rewrite fields_of_star.
  - cbn [append lstrip]. change (is_space "$") with false. cbv iota.
    rewrite slice_from_1. reflexivity.
  - apply contains_false. apply find_none_all_chars.
    cbn [append all_chars]. exact H.
Qed.

Lemma startswith_frame (body : string) : startswith (frame body) "$" = true.
Proof. reflexivity. Qed.

End Frames.


Section Assembly.

Context {F : Type} {PF : PyFloat F}.

Lemma parse_lat_formatted (s : string) (b : bool) (x : F) :
  nonempty s = true ->
  _parse_coordinate (F := F) s 2 = Some x ->
  _parse_lat (F := F) s (if b then "N" else "S")
  = Some (if b then x else f_neg x).
Proof.
  intros Hs Hp. unfold _parse_lat. rewrite Hs, Hp.
  destruct b; reflexivity.
Qed.

Lemma parse_lon_formatted (s : string) (b : bool) (x : F) :
  nonempty s = true ->
  _parse_coordinate (F := F) s 3 = Some x ->
  _parse_lon (F := F) s (if b then "E" else "W")
  = Some (if b then x else f_neg x).
Proof.
  intros Hs Hp. unfold _parse_lon. rewrite Hs, Hp.
  destruct b; reflexivity.
Qed.

Lemma clean_dir (b : bool) (x y : string) :
  clean x -> clean y -> clean (if b then x else y).
Proof. destruct b; auto. Qed.

(** The fields of a GGA body. *)
Lemma split_gga_body (ts la lad lo lod el : string) :
  clean ts -> clean la -> clean lad -> clean lo -> clean lod -> clean el ->
  let body := ("GPGGA," ++ ts ++ "," ++ la ++ "," ++ lad ++ ","
               ++ lo ++ "," ++ lod ++ "," ++ GGA_FIX_QUALITY ++ ","
               ++ GGA_NUM_SATELLITES ++ "," ++ GGA_HDOP ++ ","
               ++ el ++ ",M,"
               ++ GGA_GEOID_SEPARATION ++ ",M," ++ GGA_DGPS_AGE ++ ","
               ++ GGA_DGPS_REF)%string in
  nostar body
  /\ split "," body
     = ["GPGGA"; ts; la; lad; lo; lod; "1"; "08"; "1.0"; el; "M"; "0.0"; "M";
        ""; ""].
Proof.
  intros C1 C2 C3 C4 C5 C6 body. split.
  - unfold body.
    repeat (apply nostar_append;
            [first [reflexivity | apply clean_nostar; assumption]|]).
    reflexivity.
  - unfold body.
    change (split "," ("GPGGA" ++ String "," (ts ++ String "," (la ++ String ","
              (lad ++ String "," (lo ++ String "," (lod ++ String ","
              ("1" ++ String "," ("08" ++ String "," ("1.0" ++ String ","
              (el ++ String "," ("M" ++ String "," ("0.0" ++ String ","
              ("M" ++ String "," ("" ++ String "," ""))))))))))))))
            = ["GPGGA"; ts; la; lad; lo; lod; "1"; "08"; "1.0"; el; "M"; "0.0";
               "M"; ""; ""]).
    rewrite !split_head by (first [reflexivity | apply clean_no_comma; assumption]).
    reflexivity.
Qed.

(** The fields of an RMC body. *)
Lemma split_rmc_body (ts la lad lo lod sp ds : string) :
  clean ts -> clean la -> clean lad -> clean lo -> clean lod -> clean sp ->
  clean ds ->
  let body := ("GPRMC," ++ ts ++ ",A," ++ la ++ "," ++ lad ++ ","
               ++ lo ++ "," ++ lod ++ ","
               ++ sp ++ ",0.0," ++ ds ++ ",,,A")%string in
  nostar body
  /\ split "," body
     = ["GPRMC"; ts; "A"; la; lad; lo; lod; sp; "0.0"; ds; ""; ""; "A"].
Proof.
  intros C1 C2 C3 C4 C5 C6 C7 body. split.
  - unfold body.
    repeat (apply nostar_append;
            [first [reflexivity | apply clean_nostar; assumption]|]).
    reflexivity.
  - unfold body.
    change (split "," ("GPRMC" ++ String "," (ts ++ String "," ("A" ++ String ","
              (la ++ String "," (lad ++ String "," (lo ++ String ","
              (lod ++ String "," (sp ++ String "," ("0.0" ++ String ","
              (ds ++ String "," ("" ++ String "," ("" ++ String "," "A"))))))))))))
            = ["GPRMC"; ts; "A"; la; lad; lo; lod; sp; "0.0"; ds; ""; ""; "A"]).
    rewrite !split_head by (first [reflexivity | apply clean_no_comma; assumption]).
    reflexivity.
Qed.

End Assembly.


End FormatFacts.
(** ** Binary64: what the operations return *)

Section Bits.

Lemma fexp_eq e : fexp 53 1024 e = Z.max (e - 53) (-1074).
Proof. reflexivity. Qed.

Lemma digits2_pos_spec p :
  2 ^ (Zpos (digits2_pos p) - 1) <= Zpos p < 2 ^ Zpos (digits2_pos p).
Proof.
  induction p as [p IH|p IH|]; cbn [digits2_pos].
  - rewrite Pos2Z.inj_succ.
    replace (Z.succ (Zpos (digits2_pos p)) - 1) with (Z.succ (Zpos (digits2_pos p) - 1)) by lia.
    rewrite !Z.pow_succ_r by lia. lia.
  - rewrite Pos2Z.inj_succ.
    replace (Z.succ (Zpos (digits2_pos p)) - 1) with (Z.succ (Zpos (digits2_pos p) - 1)) by lia.
    rewrite !Z.pow_succ_r by lia. lia.
  - cbn. lia.
Qed.

Lemma Zdigits2_spec m :
  0 < m -> 2 ^ (Zdigits2 m - 1) <= m < 2 ^ Zdigits2 m.
Proof.
  destruct m as [|p|p]; try lia. intros _. apply digits2_pos_spec.
Qed.

Lemma Zdigits2_pos m : 0 < m -> 0 < Zdigits2 m.
Proof. destruct m; cbn; lia. Qed.

Lemma Zdigits2_unique m d :
  2 ^ (d - 1) <= m < 2 ^ d -> 0 < m -> Zdigits2 m = d.
Proof.
  intros [L U] Hm.
  destruct (Zdigits2_spec m Hm) as [L' U'].
  pose proof (Zdigits2_pos m Hm) as P.
  assert (0 < d).
  { destruct (Z.lt_ge_cases 0 d); auto.
    assert (2 ^ d <= 2 ^ 0) by (apply Z.pow_le_mono_r; lia).
    change (2 ^ 0) with 1 in *. lia. }
  assert (d - 1 < Zdigits2 m).
  { apply (Z.pow_lt_mono_r_iff 2); lia. }
  assert (Zdigits2 m - 1 < d).
  { apply (Z.pow_lt_mono_r_iff 2); lia. }
  lia.
Qed.

Lemma shr_1_m mrs :
  0 <= shr_m mrs -> shr_m (shr_1 mrs) = shr_m mrs / 2.
Proof.
  destruct mrs as [m r s]; cbn [shr_m]. intros H.
  destruct m as [|[p|p|]|p]; cbn [shr_1 shr_m]; try lia;
    try reflexivity; Z.div_mod_to_equations; lia.
Qed.

Lemma shr_1_nonneg mrs : 0 <= shr_m mrs -> 0 <= shr_m (shr_1 mrs).
Proof.
  intros H. rewrite shr_1_m by exact H. apply Z.div_pos; lia.
Qed.

Lemma pow2_xO p : 2 ^ Zpos p~0 = 2 ^ Zpos p * 2 ^ Zpos p.
Proof. rewrite <- Z.pow_add_r by lia. f_equal. lia. Qed.

Lemma pow2_xI p : 2 ^ Zpos p~1 = 2 * (2 ^ Zpos p * 2 ^ Zpos p).
Proof.
  rewrite <- Z.pow_add_r by lia.
  replace (Zpos p~1) with (Z.succ (Zpos p + Zpos p)) by lia.
  apply Z.pow_succ_r. lia.
Qed.

Lemma iter_shr_m p :
  forall mrs, 0 <= shr_m mrs ->
    shr_m (iter_pos shr_1 p mrs) = shr_m mrs / 2 ^ Zpos p
    /\ 0 <= shr_m (iter_pos shr_1 p mrs).
Proof.
  induction p as [p IH|p IH|]; intros mrs H; cbn [iter_pos].
  - pose proof (shr_1_nonneg mrs H) as H1.
    destruct (IH _ H1) as [E1 N1].
    destruct (IH _ N1) as [E2 N2].
    split; [|exact N2].
    rewrite E2, E1, shr_1_m by exact H.
    assert (0 < 2 ^ Zpos p) by (apply Z.pow_pos_nonneg; lia).
    rewrite !Z.div_div by lia.
    rewrite pow2_xI. reflexivity.
  - destruct (IH _ H) as [E1 N1].
    destruct (IH _ N1) as [E2 N2].
    split; [|exact N2].
    rewrite E2, E1.
    assert (0 < 2 ^ Zpos p) by (apply Z.pow_pos_nonneg; lia).
    rewrite !Z.div_div by lia.
    rewrite pow2_xO. reflexivity.
  - split; [|apply shr_1_nonneg, H].
    rewrite shr_1_m by exact H. reflexivity.
Qed.

(** A shift of a record: the mantissa is divided, the exponent grows. *)
Lemma shr_spec mrs e n :
  0 <= shr_m mrs ->
  shr_m (fst (shr mrs e n)) = shr_m mrs / 2 ^ Z.max n 0
  /\ snd (shr mrs e n) = e + Z.max n 0
  /\ (n <= 0 -> fst (shr mrs e n) = mrs).
Proof.
  intros H. destruct n as [|p|p]; cbn [shr fst snd].
  - rewrite Z.div_1_r. repeat split; lia.
  - destruct (iter_shr_m p mrs H) as [E _].
    replace (Z.max (Zpos p) 0) with (Zpos p) by lia.
    repeat split; auto; lia.
  - replace (Z.max (Zneg p) 0) with 0 by lia. rewrite Z.div_1_r.
    repeat split; lia.
Qed.

Lemma round_nearest_even_cases m l :
  round_nearest_even m l = m \/ round_nearest_even m l = m + 1.
Proof.
  destruct l as [|[| |]]; cbn [round_nearest_even]; auto.
  destruct (Z.even m); auto.
Qed.

Lemma shr_record_of_loc_m m l : shr_m (shr_record_of_loc m l) = m.
Proof. destruct l as [|[| |]]; reflexivity. Qed.

Lemma shr_nonpos mrs e n : n <= 0 -> shr mrs e n = (mrs, e).
Proof. destruct n; cbn [shr]; auto; lia. Qed.

Lemma second_shift (sx : bool) (q e1 : Z) :
  -1074 <= e1 <= 970 -> 0 <= q <= 2 ^ 53 -> (-1074 < e1 -> 2 ^ 52 <= q) ->
  rounded sx q e1
    (let '(mrs, e) := shr_fexp 53 1024 q e1 loc_Exact in
     match shr_m mrs with
     | Z0 => S754_zero sx
     | Zpos m => if e <=? 1024 - 53 then S754_finite sx m e
                 else S754_infinity sx
     | Zneg _ => S754_nan
     end).
Proof.
  intros He Hq Hn. change (2 ^ 53) with 9007199254740992 in Hq.
  change (2 ^ 52) with 4503599627370496 in Hn.
  unfold shr_fexp. rewrite fexp_eq.
  destruct (Z.eq_dec q 0) as [->|Hq0].
  - cbn [Zdigits2 Z.add].
    rewrite shr_nonpos by lia.
    cbn [shr_record_of_loc shr_m]. constructor. reflexivity.
  - destruct (Z.eq_dec q 9007199254740992) as [->|Hq1].
    + cbn [Zdigits2 digits2_pos Pos.succ].
      replace (Z.max (54 + e1 - 53) (-1074) - e1) with 1 by lia.
      cbn [shr iter_pos shr_1 shr_record_of_loc shr_m].
      destruct (Z.leb_spec (e1 + 1) (1024 - 53)); [|lia].
      apply rounded_finite.
      * unfold bounded, canonical_mantissa. rewrite fexp_eq.
        cbn [digits2_pos Pos.succ].
        apply andb_true_intro; split; [apply Z.eqb_eq|apply Z.leb_le]; lia.
      * lia.
      * replace (e1 + 1 - e1) with 1 by lia. reflexivity.
    + assert (P : 0 < q) by lia.
      destruct (Zdigits2_spec q P) as [L U].
      pose proof (Zdigits2_pos q P) as Dp.
      assert (D53 : Zdigits2 q <= 53).
      { destruct (Z.le_gt_cases (Zdigits2 q) 53); auto.
        assert (2 ^ 53 <= 2 ^ (Zdigits2 q - 1)) by (apply Z.pow_le_mono_r; lia).
        change (2 ^ 53) with 9007199254740992 in *. lia. }
      assert (Dn : -1074 < e1 -> Zdigits2 q = 53).
      { intros N. specialize (Hn N).
        destruct (Z.le_gt_cases 53 (Zdigits2 q)); [lia|].
        assert (2 ^ Zdigits2 q <= 2 ^ 52) by (apply Z.pow_le_mono_r; lia).
        change (2 ^ 52) with 4503599627370496 in *. lia. }
      assert (E : Z.max (Zdigits2 q + e1 - 53) (-1074) = e1) by lia.
      rewrite E, Z.sub_diag.
      cbn [shr]. rewrite shr_record_of_loc_m.
      destruct q as [|m|m]; try lia.
      destruct (Z.leb_spec e1 (1024 - 53)); [|lia].
      apply rounded_finite.
      * unfold bounded, canonical_mantissa. rewrite fexp_eq.
        cbn [Zdigits2] in E. rewrite E.
        apply andb_true_intro; split; [apply Z.eqb_eq|apply Z.leb_le]; lia.
      * lia.
      * rewrite Z.sub_diag. lia.
Qed.

Lemma binary_round_aux_spec (sx : bool) (mx ex : Z) (lx : location) :
  0 <= mx -> ex <= fexp 53 1024 (Zdigits2 mx + ex) -> Zdigits2 mx + ex <= 1023 ->
  let e1 := fexp 53 1024 (Zdigits2 mx + ex) in
  exists q,
    (q = mx / 2 ^ (e1 - ex) \/ q = mx / 2 ^ (e1 - ex) + 1)
    /\ (lx = loc_Exact -> e1 = ex -> q = mx)
    /\ rounded sx q e1 (binary_round_aux 53 1024 sx mx ex lx).
Proof.
  intros Hm Hal Hd e1.
  unfold binary_round_aux.
  unfold shr_fexp at 1. fold e1.
  pose proof (shr_spec (shr_record_of_loc mx lx) ex (e1 - ex)) as S1.
  rewrite shr_record_of_loc_m in S1. specialize (S1 Hm).
  destruct (shr (shr_record_of_loc mx lx) ex (e1 - ex)) as [mrs e'].
  cbn [fst snd] in S1. destruct S1 as (Em & Ee & Ex).
  replace (Z.max (e1 - ex) 0) with (e1 - ex) in Em, Ee by lia.
  replace e' with e1 by lia.
  set (n := e1 - ex) in *.
  set (q := round_nearest_even (shr_m mrs) (loc_of_shr_record mrs)).
  assert (Hn : 0 <= n) by (unfold n; lia).
  assert (P2 : 0 < 2 ^ n) by (apply Z.pow_pos_nonneg; lia).
  assert (M0 : 0 <= mx / 2 ^ n) by (apply Z.div_pos; lia).
  assert (E1 : e1 = Z.max (Zdigits2 mx + ex - 53) (-1074)) by reflexivity.
  assert (M1 : mx / 2 ^ n < 2 ^ 53).
  { apply Z.div_lt_upper_bound; [lia|].
    destruct (Z.eq_dec mx 0) as [->|N0]; [lia|].
    destruct (Zdigits2_spec mx) as [_ U]; [lia|].
    assert (2 ^ Zdigits2 mx <= 2 ^ (n + 53)) by (apply Z.pow_le_mono_r; lia).
    rewrite Z.pow_add_r in H by lia. lia. }
  assert (M2 : -1074 < e1 -> 2 ^ 52 <= mx / 2 ^ n).
  { intros N.
    assert (N0 : 0 < mx).
    { destruct (Z.eq_dec mx 0) as [E0|N0]; [|lia].
      rewrite E0 in E1, Hal. cbn [Zdigits2] in E1. lia. }
    destruct (Zdigits2_spec mx N0) as [L _].
    apply Z.div_le_lower_bound; [lia|].
    replace (Zdigits2 mx - 1) with (n + 52) in L by lia.
    rewrite Z.pow_add_r in L by lia. lia. }
  exists q. split; [|split].
  - unfold q. rewrite <- Em. apply round_nearest_even_cases.
  - intros -> Hex. unfold q. rewrite Ex by lia. reflexivity.
  - apply second_shift.
    + lia.
    + unfold q.
      destruct (round_nearest_even_cases (shr_m mrs) (loc_of_shr_record mrs))
        as [-> | ->]; rewrite Em; lia.
    + intros N. specialize (M2 N). unfold q.
      destruct (round_nearest_even_cases (shr_m mrs) (loc_of_shr_record mrs))
        as [-> | ->]; rewrite Em; lia.
Qed.

End Bits.

Section Reals.
#[local] Open Scope Q_scope.

Lemma two_neq0 : ~ (2 # 1) == 0.
Proof. discriminate. Qed.

Lemma pow2_pos (e : Z) : 0 < (2 # 1) ^ e.
Proof. apply Qpower_0_lt. reflexivity. Qed.

Lemma pow2_add (a b : Z) : (2 # 1) ^ (a + b) == (2 # 1) ^ a * (2 # 1) ^ b.
Proof. apply Qpower_plus, two_neq0. Qed.

Lemma pow2_le (a b : Z) : (a <= b)%Z -> (2 # 1) ^ a <= (2 # 1) ^ b.
Proof. intros H. apply Qpower_le_compat_l; [exact H|discriminate]. Qed.

Lemma pow2_inj_Z (k : Z) : (0 <= k)%Z -> inject_Z (2 ^ k) == (2 # 1) ^ k.
Proof. intros H. rewrite Zpower_Qpower by exact H. reflexivity. Qed.

Lemma mag_eq (m : positive) (e : Z) :
  Binary64.mag m e == inject_Z (Zpos m) * (2 # 1) ^ e.
Proof.
  unfold Binary64.mag. destruct (Z.leb_spec 0 e) as [H|H].
  - change ((Zpos m * 2 ^ e)%Z # 1) with (inject_Z (Zpos m * 2 ^ e)).
    rewrite inject_Z_mult, pow2_inj_Z by exact H. reflexivity.
  - rewrite Qmake_Qdiv.
    assert (P : (0 < 2 ^ (- e))%Z) by (apply Z.pow_pos_nonneg; lia).
    rewrite Z2Pos.id by exact P.
    rewrite pow2_inj_Z by lia. rewrite Qpower_opp.
    unfold Qdiv. rewrite Qinv_involutive. reflexivity.
Qed.

Lemma mag_pos (m : positive) (e : Z) : 0 < Binary64.mag m e.
Proof.
  rewrite mag_eq. apply Qmult_lt_0_compat; [reflexivity|apply pow2_pos].
Qed.

(** The number that [rounded] stands for. *)
Lemma rounded_real (sx : bool) (q e1 : Z) (R : spec_float) :
  rounded sx q e1 R ->
  finite64 R = true /\ float64 R
  /\ real R == (if sx then - (inject_Z q * (2 # 1) ^ e1) else inject_Z q * (2 # 1) ^ e1).
Proof.
  intros [->|m e B L E].
  - repeat split. cbn [real inject_Z]. destruct sx; ring.
  - repeat split; [exact B|].
    assert (M : Binary64.mag m e == inject_Z q * (2 # 1) ^ e1).
    { rewrite mag_eq, <- E, inject_Z_mult, pow2_inj_Z by lia.
      rewrite <- Qmult_assoc, <- pow2_add.
      replace (e - e1 + e1)%Z with e by lia. reflexivity. }
    cbn [real]. destruct sx; rewrite M; reflexivity.
Qed.

Lemma scale (z n ex : Z) :
  (0 <= n)%Z -> inject_Z (z * 2 ^ n) * (2 # 1) ^ ex == inject_Z z * (2 # 1) ^ (n + ex).
Proof.
  intros H. rewrite inject_Z_mult, pow2_inj_Z, pow2_add by exact H. ring.
Qed.

Lemma inject_Z_le (a b : Z) : (a <= b)%Z -> inject_Z a <= inject_Z b.
Proof. intros H. rewrite <- Zle_Qle. exact H. Qed.

Lemma eps64_pow : (2 # 1) ^ 52 * eps64 == 1.
Proof. reflexivity. Qed.

Lemma digits_below (mx ex : Z) (v : Q) :
  (0 <= mx)%Z -> (ex <= fexp 53 1024 (Zdigits2 mx + ex))%Z ->
  inject_Z mx * (2 # 1) ^ ex <= v -> v < (2 # 1) ^ 1023 ->
  (Zdigits2 mx + ex <= 1023)%Z.
Proof.
  intros Hm Hal Hl Hu.
  destruct (Z.eq_dec mx 0) as [->|N0].
  - cbn [Zdigits2] in *. rewrite fexp_eq in Hal. lia.
  - destruct (Zdigits2_spec mx) as [L _]; [lia|].
    pose proof (Zdigits2_pos mx) as P.
    assert (T : (2 # 1) ^ (Zdigits2 mx - 1 + ex) < (2 # 1) ^ 1023).
    { eapply Qle_lt_trans; [|exact Hu].
      eapply Qle_trans; [|exact Hl].
      rewrite pow2_add, <- pow2_inj_Z by lia.
      apply Qmult_le_compat_r; [apply inject_Z_le, L|].
      apply Qlt_le_weak, pow2_pos. }
    apply Qpower_lt_compat_l_inv in T; [lia|reflexivity].
Qed.

Lemma round_aux_real (sx : bool) (mx ex : Z) (lx : location) (v : Q) :
  (0 <= mx)%Z -> (ex <= fexp 53 1024 (Zdigits2 mx + ex))%Z ->
  inject_Z mx * (2 # 1) ^ ex <= v -> v <= inject_Z (mx + 1) * (2 # 1) ^ ex ->
  v < (2 # 1) ^ 1023 ->
  rounds sx (binary_round_aux 53 1024 sx mx ex lx) v.
Proof.
  intros Hm Hal Hl Hu Hv.
  pose proof (digits_below mx ex v Hm Hal Hl Hv) as Hd.
  destruct (binary_round_aux_spec sx mx ex lx Hm Hal Hd) as (q & Hq & _ & Hr).
  set (e1 := fexp 53 1024 (Zdigits2 mx + ex)) in *.
  set (n := (e1 - ex)%Z) in *.
  assert (Hn : (0 <= n)%Z) by (unfold n; lia).
  assert (P2 : (0 < 2 ^ n)%Z) by (apply Z.pow_pos_nonneg; lia).
  set (m1 := (mx / 2 ^ n)%Z) in *.
  assert (M0 : (0 <= m1)%Z) by (apply Z.div_pos; lia).
  assert (Zl : (m1 * 2 ^ n <= mx)%Z).
  { unfold m1. pose proof (Z.mul_div_le mx (2 ^ n) P2). lia. }
  assert (Zu : (mx + 1 <= (m1 + 1) * 2 ^ n)%Z).
  { unfold m1. pose proof (Z.mod_pos_bound mx (2 ^ n) P2).
    pose proof (Z.div_mod mx (2 ^ n)). lia. }
  assert (En : (n + ex)%Z = e1) by (unfold n; lia).
  assert (Ql : inject_Z m1 * (2 # 1) ^ e1 <= v).
  { rewrite <- En, <- scale by exact Hn.
    eapply Qle_trans; [|exact Hl].
    apply Qmult_le_compat_r; [apply inject_Z_le, Zl|].
    apply Qlt_le_weak, pow2_pos. }
  assert (Qu : v <= inject_Z (m1 + 1) * (2 # 1) ^ e1).
  { rewrite <- En, <- scale by exact Hn.
    eapply Qle_trans; [exact Hu|].
    apply Qmult_le_compat_r; [apply inject_Z_le, Zu|].
    apply Qlt_le_weak, pow2_pos. }
  rewrite inject_Z_plus in Qu. change (inject_Z 1) with 1 in Qu.
  pose proof (pow2_pos e1) as Pe.
  assert (V0 : 0 <= v).
  { eapply Qle_trans; [|exact Hl].
    apply Qmult_le_0_compat; [change 0 with (inject_Z 0); apply inject_Z_le, Hm|].
    apply Qlt_le_weak, pow2_pos. }
  assert (Bd : (2 # 1) ^ e1 <= v * eps64 + tiny64).
  { destruct (Z.eq_dec e1 (-1074)) as [E|E].
    - rewrite E. unfold tiny64.
      assert (0 <= v * eps64) by (apply Qmult_le_0_compat; [exact V0|discriminate]).
      lra.
    - assert (E1 : e1 = (Zdigits2 mx + ex - 53)%Z).
      { unfold e1. rewrite fexp_eq. unfold e1 in E. rewrite fexp_eq in E. lia. }
      assert (N0 : (0 < mx)%Z).
      { destruct (Z.eq_dec mx 0) as [E0|N0]; [|lia].
        rewrite E0 in E1. cbn [Zdigits2] in E1. lia. }
      destruct (Zdigits2_spec mx N0) as [L _].
      pose proof (Zdigits2_pos mx N0) as P.
      assert (T : (2 # 1) ^ e1 * (2 # 1) ^ 52 <= v).
      { eapply Qle_trans; [|exact Hl].
        rewrite <- pow2_add.
        replace (e1 + 52)%Z with (Zdigits2 mx - 1 + ex)%Z by lia.
        rewrite pow2_add, <- pow2_inj_Z by lia.
        apply Qmult_le_compat_r; [apply inject_Z_le, L|].
        apply Qlt_le_weak, pow2_pos. }
      assert (T2 : (2 # 1) ^ e1 * (2 # 1) ^ 52 * eps64 <= v * eps64)
        by (apply Qmult_le_compat_r; [exact T|discriminate]).
      rewrite <- Qmult_assoc, eps64_pow, Qmult_1_r in T2.
      assert (0 <= tiny64) by (apply Qlt_le_weak, pow2_pos).
      lra. }
  destruct (rounded_real sx q e1 _ Hr) as (F & Vd & Er).
  split; [exact F|]. split; [exact Vd|].
  exists (inject_Z q * (2 # 1) ^ e1). split; [exact Er|].
  fold m1 in Hq.
  split.
  - apply Qmult_le_0_compat; [|lra].
    change 0 with (inject_Z 0). apply inject_Z_le. lia.
  - apply Qabs_Qle_condition.
    destruct Hq as [-> | ->].
    + lra.
    + rewrite inject_Z_plus. change (inject_Z 1) with 1. lra.
Qed.

(** With nothing to round, the result is the number itself. *)
Lemma round_aux_exact (sx : bool) (mx ex : Z) :
  (0 <= mx)%Z -> ex = fexp 53 1024 (Zdigits2 mx + ex) ->
  (Zdigits2 mx + ex <= 1023)%Z ->
  let R := binary_round_aux 53 1024 sx mx ex loc_Exact in
  finite64 R = true /\ float64 R
  /\ real R == (if sx then - (inject_Z mx * (2 # 1) ^ ex) else inject_Z mx * (2 # 1) ^ ex).
Proof.
  intros Hm He Hd R.
  destruct (binary_round_aux_spec sx mx ex loc_Exact Hm) as (q & _ & Hq & Hr);
    [lia|exact Hd|].
  rewrite Hq in Hr by auto. rewrite <- He in Hr.
  exact (rounded_real sx mx ex _ Hr).
Qed.

End Reals.

Section Ops.
#[local] Open Scope Q_scope.
Lemma rounds_near (sx : bool) (R : spec_float) (a v : Q) :
  rounds sx R a -> 0 <= a -> v == (if sx then - a else a) -> near64 R v.
Proof.
  intros (F & V & b & Eb & Hb & Hab) Ha Ev.
  split; [exact F|]. split; [exact V|].
  rewrite Eb, Ev.
  assert (E1 : Qabs (if sx then - a else a) == a).
  { destruct sx; [rewrite Qabs_opp|]; apply Qabs_pos, Ha. }
  rewrite E1.
  assert (E2 : (if sx then - b else b) - (if sx then - a else a)
               == (if sx then - (b - a) else b - a)) by (destruct sx; ring).
  rewrite E2.
  assert (E3 : Qabs (if sx then - (b - a) else b - a) == Qabs (b - a))
    by (destruct sx; [apply Qabs_opp|reflexivity]).
  rewrite E3. exact Hab.
Qed.

Lemma near64_ext (R : Binary64.t) (v w : Q) :
  v == w -> near64 R v -> near64 R w.
Proof.
  intros E (F & V & H). split; [exact F|]. split; [exact V|].
  rewrite <- E. exact H.
Qed.

Lemma near64_exact (R : Binary64.t) (v : Q) :
  finite64 R = true -> float64 R -> real R == v -> near64 R v.
Proof.
  intros F V E. split; [exact F|]. split; [exact V|].
  rewrite E. setoid_replace (v - v) with 0 by ring.
  change (Qabs 0) with 0.
  assert (0 <= Qabs v) by apply Qabs_nonneg.
  assert (0 < tiny64) by apply pow2_pos.
  assert (0 <= Qabs v * eps64) by (apply Qmult_le_0_compat; [auto|discriminate]).
  lra.
Qed.

(** *** What validity says *)

Lemma bounded_canonical (m : positive) (e : Z) :
  bounded 53 1024 m e = true ->
  (e = Z.max (Zpos (digits2_pos m) + e - 53) (-1074) /\ e <= 971)%Z.
Proof.
  unfold bounded, canonical_mantissa. rewrite fexp_eq. intros H.
  apply andb_prop in H. destruct H as [A B].
  apply Z.eqb_eq in A. apply Z.leb_le in B. lia.
Qed.

(** *** Multiplication *)

Lemma digits_mul (a b : positive) :
  (Zpos (digits2_pos a) + Zpos (digits2_pos b) - 1
   <= Zpos (digits2_pos (a * b)))%Z.
Proof.
  destruct (digits2_pos_spec a) as [La _].
  destruct (digits2_pos_spec b) as [Lb _].
  destruct (digits2_pos_spec (a * b)) as [_ U].
  set (da := Zpos (digits2_pos a)) in *. set (db := Zpos (digits2_pos b)) in *.
  set (d := Zpos (digits2_pos (a * b))) in *.
  assert (P : (2 ^ (da - 1 + (db - 1)) < 2 ^ d)%Z).
  { rewrite Z.pow_add_r by (unfold da, db; lia).
    rewrite Pos2Z.inj_mul in U.
    assert (0 < 2 ^ (da - 1))%Z by (apply Z.pow_pos_nonneg; unfold da; lia).
    assert (0 < 2 ^ (db - 1))%Z by (apply Z.pow_pos_nonneg; unfold db; lia).
    nia. }
  apply Z.pow_lt_mono_r_iff in P; unfold d in *; lia.
Qed.

Lemma real_finite (s : bool) (m : positive) (e : Z) :
  real (S754_finite s m e)
  == (if s then - (inject_Z (Zpos m) * (2 # 1) ^ e) else inject_Z (Zpos m) * (2 # 1) ^ e).
Proof. cbn [real]. destruct s; rewrite mag_eq; reflexivity. Qed.

Lemma signed_mul (sx sy : bool) (a b : Q) :
  (if sx then - a else a) * (if sy then - b else b)
  == (if xorb sx sy then - (a * b) else a * b).
Proof. destruct sx, sy; cbn [xorb]; ring. Qed.

Lemma Qabs_signed (s : bool) (a : Q) :
  0 <= a -> Qabs (if s then - a else a) == a.
Proof. intros H. destruct s; [rewrite Qabs_opp|]; apply Qabs_pos, H. Qed.

Lemma mul_near (x y : Binary64.t) :
  finite64 x = true -> finite64 y = true -> float64 x -> float64 y ->
  Qabs (real x * real y) < (2 # 1) ^ 1023 ->
  near64 (SFmul 53 1024 x y) (real x * real y).
Proof.
  intros Fx Fy Vx Vy Hb.
  destruct x as [sx| | |sx mx ex]; try discriminate;
    destruct y as [sy| | |sy my ey]; try discriminate;
    cbn [SFmul];
    try (apply near64_exact; [reflexivity|reflexivity|cbn [real]; ring]).
  unfold float64 in Vx, Vy. cbn [valid_binary] in Vx, Vy.
  destruct (bounded_canonical _ _ Vx) as [Cx _].
  destruct (bounded_canonical _ _ Vy) as [Cy _].
  pose proof (digits_mul mx my) as Dm.
  set (a := inject_Z (Zpos (mx * my)) * (2 # 1) ^ (ex + ey)).
  assert (Pa : 0 <= a).
  { apply Qmult_le_0_compat; [discriminate|apply Qlt_le_weak, pow2_pos]. }
  assert (E : real (S754_finite sx mx ex) * real (S754_finite sy my ey)
              == (if xorb sx sy then - a else a)).
  { rewrite !real_finite, signed_mul. unfold a.
    destruct (xorb sx sy); rewrite Pos2Z.inj_mul, inject_Z_mult, pow2_add; ring. }
  rewrite E in Hb. rewrite Qabs_signed in Hb by exact Pa.
  apply (near64_ext _ _ _ (Qeq_sym _ _ E)).
  apply (rounds_near (xorb sx sy) _ a); [|exact Pa|reflexivity].
  apply round_aux_real.
  - lia.
  - rewrite fexp_eq. cbn [Zdigits2].
    pose proof (Pos2Z.is_pos (digits2_pos mx)).
    pose proof (Pos2Z.is_pos (digits2_pos my)). lia.
  - apply Qle_refl.
  - unfold a. apply Qmult_le_compat_r; [|apply Qlt_le_weak, pow2_pos].
    apply inject_Z_le. lia.
  - exact Hb.
Qed.

(** *** Division *)

Lemma fexp_mono (a b : Z) : (a <= b)%Z -> (fexp 53 1024 a <= fexp 53 1024 b)%Z.
Proof. rewrite !fexp_eq. lia. Qed.

Lemma div_core_spec (m1 m2 : positive) (e1 e2 : Z) :
  let v := (inject_Z (Zpos m1) * (2 # 1) ^ e1) / (inject_Z (Zpos m2) * (2 # 1) ^ e2) in
  let '(q, e', l) := SFdiv_core_binary 53 1024 (Zpos m1) e1 (Zpos m2) e2 in
  (0 <= q)%Z /\ (e' <= fexp 53 1024 (Zdigits2 q + e'))%Z
  /\ inject_Z q * (2 # 1) ^ e' <= v /\ v <= inject_Z (q + 1) * (2 # 1) ^ e'.
Proof.
  intros v. unfold SFdiv_core_binary.
  set (d1 := Zdigits2 (Zpos m1)). set (d2 := Zdigits2 (Zpos m2)).
  set (E := (d1 + e1 - (d2 + e2))%Z).
  set (e' := Z.min (fexp 53 1024 E) (e1 - e2)).
  set (s := (e1 - e2 - e')%Z).
  assert (Hs : (0 <= s)%Z) by (unfold s, e'; lia).
  set (m' := match s with
             | 0%Z => Zpos m1
             | Zpos _ => Z.shiftl (Zpos m1) s
             | Zneg _ => 0%Z
             end).
  assert (Em : m' = (Zpos m1 * 2 ^ s)%Z).
  { unfold m'. destruct s as [|p|p] eqn:Es; try lia.
    apply Z.shiftl_mul_pow2. lia. }
  clearbody m'.
  pose proof (Z_div_mod m' (Zpos m2) (eq_refl : (Zpos m2 > 0)%Z)) as DM.
  destruct (Z.div_eucl m' (Zpos m2)) as [q r]. destruct DM as [Edm Hr].
  assert (P2 : (0 < 2 ^ s)%Z) by (apply Z.pow_pos_nonneg; lia).
  assert (M0 : (0 <= m')%Z) by (rewrite Em; apply Z.mul_nonneg_nonneg; lia).
  assert (Hq : (0 <= q)%Z).
  { destruct (Z.le_gt_cases 0 q) as [|G]; [auto|].
    assert (Zpos m2 * q <= Zpos m2 * (-1))%Z by (apply Z.mul_le_mono_nonneg_l; lia).
    clear - Edm Hr M0 G H. lia. }
  split; [exact Hq|].
  assert (Ev : v == inject_Z m' / inject_Z (Zpos m2) * (2 # 1) ^ e').
  { unfold v. rewrite Em, inject_Z_mult, pow2_inj_Z by exact Hs.
    assert (H1 : (2 # 1) ^ e1 == (2 # 1) ^ s * (2 # 1) ^ e' * (2 # 1) ^ e2).
    { rewrite <- !pow2_add. replace (s + e' + e2)%Z with e1 by (unfold s; lia).
      reflexivity. }
    rewrite H1.
    pose proof (pow2_pos e2). pose proof (pow2_pos e').
    field. split; [discriminate|lra]. }
  assert (Pm : 0 < inject_Z (Zpos m2)) by reflexivity.
  pose proof (pow2_pos e') as Pe.
  split; [|split].
  - destruct (Z.le_gt_cases e' (-1074)) as [L|G]; [rewrite fexp_eq; lia|].
    assert (EE : fexp 53 1024 E = (E - 53)%Z) by (rewrite fexp_eq in *; unfold e' in G; rewrite fexp_eq in G; lia).
    assert (Le : (e' <= E - 53)%Z) by (unfold e'; lia).
    destruct (digits2_pos_spec m1) as [L1 _]. fold (Zdigits2 (Zpos m1)) in L1.
    destruct (digits2_pos_spec m2) as [_ U2]. fold (Zdigits2 (Zpos m2)) in U2.
    fold d1 in L1. fold d2 in U2.
    assert (Pd1 : (0 < d1)%Z) by (unfold d1; cbn; lia).
    assert (Pd2 : (0 < d2)%Z) by (unfold d2; cbn; lia).
    set (k := (d1 - 1 + s - d2)%Z).
    assert (Hk : (52 <= k)%Z) by (unfold k, s, E in *; lia).
    assert (Q1 : (2 ^ k <= q)%Z).
    { assert (T : (2 ^ k * Zpos m2 <= m')%Z).
      { rewrite Em.
        assert (2 ^ k * 2 ^ d2 = 2 ^ (d1 - 1) * 2 ^ s)%Z.
        { rewrite <- !Z.pow_add_r by lia. f_equal. unfold k. lia. }
        assert (0 < 2 ^ k)%Z by (apply Z.pow_pos_nonneg; lia).
        nia. }
      assert (0 < 2 ^ k)%Z by (apply Z.pow_pos_nonneg; lia).
      destruct (Z.le_gt_cases (2 ^ k) q); [auto|]. nia. }
    assert (Q0 : (0 < q)%Z).
    { assert (0 < 2 ^ k)%Z by (apply Z.pow_pos_nonneg; lia). lia. }
    destruct (Zdigits2_spec q Q0) as [_ Uq].
    assert (Dq : (k < Zdigits2 q)%Z).
    { apply (Z.pow_lt_mono_r_iff 2); [lia| |lia].
      pose proof (Zdigits2_pos q Q0). lia. }
    eapply Z.le_trans; [|apply (fexp_mono E)]; [lia|].
    unfold k, s, E in *. lia.
  - rewrite Ev. apply Qmult_le_compat_r; [|lra].
    apply Qle_shift_div_l; [exact Pm|].
    rewrite <- inject_Z_mult. apply inject_Z_le. nia.
  - rewrite Ev. apply Qmult_le_compat_r; [|lra].
    apply Qle_shift_div_r; [exact Pm|].
    rewrite <- inject_Z_mult. apply inject_Z_le. nia.
Qed.

Lemma signed_div (sx sy : bool) (a b : Q) :
  ~ b == 0 ->
  (if sx then - a else a) / (if sy then - b else b)
  == (if xorb sx sy then - (a / b) else a / b).
Proof. intros H. destruct sx, sy; cbn [xorb]; field; exact H. Qed.

(** A quotient by a float that is not a zero. *)
Lemma div_near (x : Binary64.t) (sy : bool) (my : positive) (ey : Z) :
  finite64 x = true ->
  let y := S754_finite sy my ey in
  Qabs (real x / real y) < (2 # 1) ^ 1023 ->
  near64 (SFdiv 53 1024 x y) (real x / real y).
Proof.
  intros Fx y Hb. subst y.
  destruct x as [sx| | |sx mx ex]; try discriminate; cbn [SFdiv].
  - apply near64_exact; [reflexivity|reflexivity|].
    cbn [real]. unfold Qdiv. rewrite Qmult_0_l. reflexivity.
  - pose proof (div_core_spec mx my ex ey) as C. cbv zeta in C.
    destruct (SFdiv_core_binary 53 1024 (Zpos mx) ex (Zpos my) ey)
      as [[q e'] l].
    destruct C as (Hq & Hal & Hl & Hu).
    set (a := inject_Z (Zpos mx) * (2 # 1) ^ ex) in *.
    set (b := inject_Z (Zpos my) * (2 # 1) ^ ey) in *.
    assert (Pb : 0 < b).
    { apply Qmult_lt_0_compat; [reflexivity|apply pow2_pos]. }
    assert (Pa : 0 <= a).
    { apply Qmult_le_0_compat; [discriminate|apply Qlt_le_weak, pow2_pos]. }
    assert (Pab : 0 <= a / b).
    { apply Qle_shift_div_l; [exact Pb|]. lra. }
    assert (E : real (S754_finite sx mx ex) / real (S754_finite sy my ey)
                == (if xorb sx sy then - (a / b) else a / b)).
    { rewrite !real_finite. fold a b. apply signed_div. lra. }
    rewrite E in Hb. rewrite Qabs_signed in Hb by exact Pab.
    apply (near64_ext _ _ _ (Qeq_sym _ _ E)).
    apply (rounds_near (xorb sx sy) _ (a / b)); [|exact Pab|reflexivity].
    apply round_aux_real; auto.
Qed.

(** *** Rounding an integer mantissa at an exponent *)

Lemma iter_xO (m d : positive) :
  Zpos (Pos.iter xO m d) = (Zpos m * 2 ^ Zpos d)%Z.
Proof.
  induction d as [|d IH] using Pos.peano_ind.
  - cbn [Pos.iter]. rewrite Pos2Z.inj_xO. lia.
  - rewrite Pos.iter_succ, Pos2Z.inj_xO, IH, Pos2Z.inj_succ, Z.pow_succ_r by lia.
    ring.
Qed.

Lemma shl_align_spec (mx : positive) (ex ex' : Z) :
  let '(mz, ez) := shl_align mx ex ex' in
  ez = Z.min ex ex' /\ Zpos mz = (Zpos mx * 2 ^ (ex - ez))%Z.
Proof.
  unfold shl_align. destruct (ex' - ex)%Z as [|d|d] eqn:E.
  - split; [lia|]. rewrite Z.sub_diag. lia.
  - split; [lia|]. rewrite Z.sub_diag. lia.
  - split; [lia|]. rewrite iter_xO. f_equal. f_equal. lia.
Qed.

Lemma digits_shift (m : positive) (k : Z) :
  (0 <= k)%Z -> Zdigits2 (Zpos m * 2 ^ k) = (Zdigits2 (Zpos m) + k)%Z.
Proof.
  intros Hk. cbn [Zdigits2].
  destruct (digits2_pos_spec m) as [L U].
  assert (P : (0 < 2 ^ k)%Z) by (apply Z.pow_pos_nonneg; lia).
  apply Zdigits2_unique; [|lia].
  replace (Zpos (digits2_pos m) + k - 1)%Z with (Zpos (digits2_pos m) - 1 + k)%Z
    by lia.
  rewrite !Z.pow_add_r by lia. split; nia.
Qed.

Lemma rounds_ext (sx : bool) (R : spec_float) (v w : Q) :
  v == w -> rounds sx R v -> rounds sx R w.
Proof.
  intros E (F & V & a & Ea & Pa & H). split; [exact F|]. split; [exact V|].
  exists a. split; [exact Ea|]. split; [exact Pa|]. rewrite <- E. exact H.
Qed.

Lemma binary_round_aligned (m : positive) (e : Z) :
  let '(mz, ez) := shl_align m e (fexp 53 1024 (Zpos (digits2_pos m) + e)) in
  (ez <= fexp 53 1024 (Zdigits2 (Zpos mz) + ez))%Z
  /\ (Zdigits2 (Zpos mz) + ez = Zpos (digits2_pos m) + e)%Z
  /\ ez = Z.min e (fexp 53 1024 (Zpos (digits2_pos m) + e))
  /\ inject_Z (Zpos mz) * (2 # 1) ^ ez == inject_Z (Zpos m) * (2 # 1) ^ e.
Proof.
  pose proof (shl_align_spec m e (fexp 53 1024 (Zpos (digits2_pos m) + e))) as S.
  destruct (shl_align m e _) as [mz ez]. destruct S as [Ez Em].
  assert (Hk : (0 <= e - ez)%Z) by lia.
  assert (D : (Zdigits2 (Zpos mz) + ez = Zpos (digits2_pos m) + e)%Z).
  { rewrite Em, digits_shift by exact Hk. cbn [Zdigits2]. lia. }
  split; [rewrite D; lia|]. split; [exact D|]. split; [exact Ez|].
  rewrite Em, scale by exact Hk.
  replace (e - ez + ez)%Z with e by lia. reflexivity.
Qed.

Lemma binary_round_real (sx : bool) (m : positive) (e : Z) :
  inject_Z (Zpos m) * (2 # 1) ^ e < (2 # 1) ^ 1023 ->
  rounds sx (binary_round 53 1024 sx m e) (inject_Z (Zpos m) * (2 # 1) ^ e).
Proof.
  intros Hb. unfold binary_round.
  pose proof (binary_round_aligned m e) as A.
  destruct (shl_align m e _) as [mz ez]. destruct A as (Al & _ & _ & Ev).
  apply (rounds_ext _ _ _ _ Ev).
  apply round_aux_real.
  - lia.
  - exact Al.
  - apply Qle_refl.
  - apply Qmult_le_compat_r; [apply inject_Z_le; lia|].
    apply Qlt_le_weak, pow2_pos.
  - rewrite Ev. exact Hb.
Qed.

(** A number that fits the format is not rounded. *)
Lemma binary_round_exact (sx : bool) (m : positive) (e : Z) :
  (fexp 53 1024 (Zpos (digits2_pos m) + e) <= e)%Z ->
  (Zpos (digits2_pos m) + e <= 1023)%Z ->
  let R := binary_round 53 1024 sx m e in
  finite64 R = true /\ float64 R
  /\ real R == (if sx then - (inject_Z (Zpos m) * (2 # 1) ^ e)
                else inject_Z (Zpos m) * (2 # 1) ^ e).
Proof.
  intros Hf Hd R. unfold R, binary_round.
  pose proof (binary_round_aligned m e) as A.
  destruct (shl_align m e _) as [mz ez]. destruct A as (Al & D & Ez & Ev).
  destruct (round_aux_exact sx (Zpos mz) ez) as (F & V & Er).
  - lia.
  - rewrite D. lia.
  - rewrite D. exact Hd.
  - split; [exact F|]. split; [exact V|].
    rewrite Er. destruct sx; rewrite Ev; reflexivity.
Qed.

Lemma normalize_near (m e : Z) :
  Qabs (inject_Z m * (2 # 1) ^ e) < (2 # 1) ^ 1023 ->
  near64 (binary_normalize 53 1024 m e false) (inject_Z m * (2 # 1) ^ e).
Proof.
  intros Hb. destruct m as [|p|p]; cbn [binary_normalize].
  - apply near64_exact; [reflexivity|reflexivity|]. cbn [real]. ring.
  - assert (P : 0 <= inject_Z (Zpos p) * (2 # 1) ^ e).
    { apply Qmult_le_0_compat; [discriminate|apply Qlt_le_weak, pow2_pos]. }
    rewrite Qabs_pos in Hb by exact P.
    apply (rounds_near false _ (inject_Z (Zpos p) * (2 # 1) ^ e));
      [apply binary_round_real, Hb|exact P|reflexivity].
  - assert (P : 0 <= inject_Z (Zpos p) * (2 # 1) ^ e).
    { apply Qmult_le_0_compat; [discriminate|apply Qlt_le_weak, pow2_pos]. }
    assert (E : inject_Z (Zneg p) * (2 # 1) ^ e == - (inject_Z (Zpos p) * (2 # 1) ^ e)).
    { change (Zneg p) with (- Zpos p)%Z. rewrite inject_Z_opp. ring. }
    rewrite E, Qabs_opp, Qabs_pos in Hb by exact P.
    apply (rounds_near true _ (inject_Z (Zpos p) * (2 # 1) ^ e));
      [apply binary_round_real, Hb|exact P|exact E].
Qed.

(** [float(z)] is [z] itself for an integer below [2^53] in magnitude. *)
Lemma of_int_exact (z : Z) :
  (Z.abs z < 2 ^ 53)%Z ->
  exists r, Binary64.of_int z = Some r
            /\ finite64 r = true /\ float64 r /\ real r == inject_Z z.
Proof.
  intros Hz. unfold Binary64.of_int.
  change Binary64.prec with 53%Z. change Binary64.emax with 1024%Z.
  destruct z as [|p|p]; cbn [binary_normalize].
  - exists (S754_zero false).
    split; [reflexivity|]. split; [reflexivity|]. split; reflexivity.
  - assert (D : (Zpos (digits2_pos p) <= 53)%Z).
    { destruct (digits2_pos_spec p) as [L _].
      destruct (Z.le_gt_cases (Zpos (digits2_pos p)) 53); [auto|].
      assert (2 ^ 53 <= 2 ^ (Zpos (digits2_pos p) - 1))%Z
        by (apply Z.pow_le_mono_r; lia).
      lia. }
    destruct (binary_round_exact false p 0) as (F & V & Er);
      [rewrite fexp_eq; lia|lia|].
    destruct (binary_round 53 1024 false p 0) as [s| | |s m e] eqn:R;
      try discriminate.
    exists (S754_finite s m e).
    split; [reflexivity|]. split; [exact F|]. split; [exact V|].
    rewrite Er. change ((2 # 1) ^ 0) with 1. ring.
  - assert (D : (Zpos (digits2_pos p) <= 53)%Z).
    { destruct (digits2_pos_spec p) as [L _].
      destruct (Z.le_gt_cases (Zpos (digits2_pos p)) 53); [auto|].
      assert (2 ^ 53 <= 2 ^ (Zpos (digits2_pos p) - 1))%Z
        by (apply Z.pow_le_mono_r; lia).
      lia. }
    destruct (binary_round_exact true p 0) as (F & V & Er);
      [rewrite fexp_eq; lia|lia|].
    destruct (binary_round 53 1024 true p 0) as [s| | |s m e] eqn:R;
      try discriminate.
    exists (S754_finite s m e).
    split; [reflexivity|]. split; [exact F|]. split; [exact V|].
    rewrite Er. change ((2 # 1) ^ 0) with 1.
    change (Zneg p) with (- Zpos p)%Z. rewrite inject_Z_opp. ring.
Qed.

(** *** Addition and subtraction *)

Lemma signed_inject (s : bool) (m : Z) (e : Q) :
  inject_Z (cond_Zopp s m) * e == (if s then - (inject_Z m * e) else inject_Z m * e).
Proof.
  destruct s; cbn [cond_Zopp]; [rewrite inject_Z_opp; ring|reflexivity].
Qed.

Lemma aligned_real (s : bool) (m : positive) (e ez : Z) :
  (ez <= e)%Z ->
  inject_Z (cond_Zopp s (Zpos (fst (shl_align m e ez)))) * (2 # 1) ^ ez
  == real (S754_finite s m e).
Proof.
  intros H. pose proof (shl_align_spec m e ez) as S.
  destruct (shl_align m e ez) as [mz e']. destruct S as [Ee Em].
  cbn [fst]. rewrite signed_inject, real_finite.
  assert (E : inject_Z (Zpos mz) * (2 # 1) ^ ez == inject_Z (Zpos m) * (2 # 1) ^ e).
  { rewrite Em. replace e' with ez by lia.
    rewrite scale by lia. replace (e - ez + ez)%Z with e by lia. reflexivity. }
  destruct s; rewrite E; reflexivity.
Qed.

Lemma add_near (x y : Binary64.t) :
  finite64 x = true -> finite64 y = true -> float64 x -> float64 y ->
  Qabs (real x + real y) < (2 # 1) ^ 1023 ->
  near64 (SFadd 53 1024 x y) (real x + real y).
Proof.
  intros Fx Fy Vx Vy Hb.
  destruct x as [sx| | |sx mx ex]; try discriminate;
    destruct y as [sy| | |sy my ey]; try discriminate; cbn [SFadd].
  - apply near64_exact; [destruct sx, sy; reflexivity
                        |destruct sx, sy; reflexivity|].
    destruct sx, sy; reflexivity.
  - apply near64_exact; [reflexivity|exact Vy|]. cbn [real]. ring.
  - apply near64_exact; [reflexivity|exact Vx|]. cbn [real]. ring.
  - set (ez := Z.min ex ey).
    assert (E : real (S754_finite sx mx ex) + real (S754_finite sy my ey)
                == inject_Z (cond_Zopp sx (Zpos (fst (shl_align mx ex ez)))
                             + cond_Zopp sy (Zpos (fst (shl_align my ey ez))))
                   * (2 # 1) ^ ez).
    { rewrite inject_Z_plus, Qmult_plus_distr_l.
      rewrite !aligned_real by (unfold ez; lia). reflexivity. }
    rewrite E in Hb.
    apply (near64_ext _ _ _ (Qeq_sym _ _ E)).
    apply normalize_near, Hb.
Qed.

Lemma sub_near (x y : Binary64.t) :
  finite64 x = true -> finite64 y = true -> float64 x -> float64 y ->
  Qabs (real x - real y) < (2 # 1) ^ 1023 ->
  near64 (SFsub 53 1024 x y) (real x - real y).
Proof.
  intros Fx Fy Vx Vy Hb.
  destruct x as [sx| | |sx mx ex]; try discriminate;
    destruct y as [sy| | |sy my ey]; try discriminate; cbn [SFsub].
  - apply near64_exact; [destruct sx, sy; reflexivity
                        |destruct sx, sy; reflexivity|].
    destruct sx, sy; reflexivity.
  - apply near64_exact; [reflexivity|exact Vy|].
    cbn [real]. destruct sy; cbn [negb]; ring.
  - apply near64_exact; [reflexivity|exact Vx|]. cbn [real]. ring.
  - set (ez := Z.min ex ey).
    assert (E : real (S754_finite sx mx ex) - real (S754_finite sy my ey)
                == inject_Z (cond_Zopp sx (Zpos (fst (shl_align mx ex ez)))
                             - cond_Zopp sy (Zpos (fst (shl_align my ey ez))))
                   * (2 # 1) ^ ez).
    { unfold Z.sub. rewrite inject_Z_plus, inject_Z_opp.
      setoid_replace ((inject_Z (cond_Zopp sx (Zpos (fst (shl_align mx ex ez))))
                       + - inject_Z (cond_Zopp sy (Zpos (fst (shl_align my ey ez)))))
                      * (2 # 1) ^ ez)
        with (inject_Z (cond_Zopp sx (Zpos (fst (shl_align mx ex ez)))) * (2 # 1) ^ ez
              - inject_Z (cond_Zopp sy (Zpos (fst (shl_align my ey ez)))) * (2 # 1) ^ ez)
        by ring.
      rewrite !aligned_real by (unfold ez; lia). reflexivity. }
    rewrite E in Hb.
    apply (near64_ext _ _ _ (Qeq_sym _ _ E)).
    apply normalize_near, Hb.
Qed.

(** *** The other operations *)

Lemma real_abs (x : Binary64.t) : real (SFabs x) == Qabs (real x).
Proof.
  destruct x as [s| | |s m e]; cbn [SFabs real]; try reflexivity.
  pose proof (mag_pos m e).
  destruct s; [rewrite Qabs_opp|]; rewrite Qabs_pos; lra.
Qed.

Lemma real_opp (x : Binary64.t) : real (SFopp x) == - real x.
Proof.
  destruct x as [s| | |s m e]; cbn [SFopp real]; try reflexivity.
  destruct s; cbn [negb]; ring.
Qed.

Lemma finite_abs (x : Binary64.t) : finite64 (SFabs x) = finite64 x.
Proof. destruct x; reflexivity. Qed.

Lemma finite_opp (x : Binary64.t) : finite64 (SFopp x) = finite64 x.
Proof. destruct x; reflexivity. Qed.

Lemma float_abs (x : Binary64.t) : float64 x -> float64 (SFabs x).
Proof. destruct x; auto. Qed.

Lemma float_opp (x : Binary64.t) : float64 x -> float64 (SFopp x).
Proof. destruct x; auto. Qed.

Lemma ge0_negative (x : Binary64.t) :
  finite64 x = true -> SFleb (S754_zero false) x = negb (negative x).
Proof. destruct x as [s| | |[|] m e]; try discriminate; reflexivity. Qed.

Lemma real_negative (x : Binary64.t) :
  real x == (if negative x then - Qabs (real x) else Qabs (real x)).
Proof.
  destruct x as [s| | |s m e]; cbn [real negative]; try reflexivity.
  pose proof (mag_pos m e).
  destruct s; [rewrite Qabs_opp|]; rewrite Qabs_pos by lra; reflexivity.
Qed.

(** [int(x)] cuts the magnitude down to an integer and keeps the sign. *)
Lemma trunc_spec (x : Binary64.t) :
  finite64 x = true ->
  exists k : Z,
    Binary64.trunc x = Some (if negative x then (- k)%Z else k)
    /\ (0 <= k)%Z
    /\ inject_Z k <= Qabs (real x) /\ Qabs (real x) < inject_Z k + 1.
Proof.
  destruct x as [s| | |s m e]; try discriminate; intros _.
  - exists 0%Z. cbn [Binary64.trunc negative real].
    split; [reflexivity|]. split; [lia|]. split; [apply Qle_refl|reflexivity].
  - pose proof (mag_pos m e) as P.
    exists (Qfloor (Binary64.mag m e)).
    assert (A : Qabs (real (S754_finite s m e)) == Binary64.mag m e).
    { cbn [real]. destruct s; [rewrite Qabs_opp|]; apply Qabs_pos; lra. }
    split; [|split; [|split]].
    + cbn [Binary64.trunc negative].
      destruct (Binary64.mag m e) as [n d]. destruct s; reflexivity.
    + change 0%Z with (Qfloor 0). apply Qfloor_resp_le. lra.
    + rewrite A. apply Qfloor_le.
    + rewrite A. rewrite <- (inject_Z_plus _ 1). apply Qlt_floor.
Qed.

Lemma view_finite (x : Binary64.t) :
  finite64 x = true ->
  exists q, Binary64.view x = PyNum.VFin (match x with
                                          | S754_zero s | S754_finite s _ _ => s
                                          | _ => false
                                          end) q
            /\ q == Qabs (real x).
Proof.
  destruct x as [s| | |s m e]; try discriminate; intros _; cbn [Binary64.view].
  - exists 0. split; reflexivity.
  - exists (Binary64.mag m e). split; [reflexivity|].
    pose proof (mag_pos m e).
    cbn [real]. destruct s; [rewrite Qabs_opp|]; rewrite Qabs_pos by lra;
      reflexivity.
Qed.

End Ops.

Section Literals.
#[local] Open Scope Q_scope.
Lemma tiny64_pos : 0 < tiny64.
Proof. apply pow2_pos. Qed.

Lemma tiny64_small : tiny64 <= 1 # 1000000000000000000000000000000.
Proof. unfold Qle. vm_compute. discriminate. Qed.

Lemma near64_bound (R : Binary64.t) (v B : Q) :
  near64 R v -> Qabs v <= B ->
  finite64 R = true /\ float64 R
  /\ - (B * eps64 + tiny64) <= real R - v <= B * eps64 + tiny64.
Proof.
  intros (F & V & H) Hb. split; [exact F|]. split; [exact V|].
  apply Qabs_Qle_condition.
  eapply Qle_trans; [exact H|].
  assert (Qabs v * eps64 <= B * eps64)
    by (apply Qmult_le_compat_r; [exact Hb|discriminate]).
  lra.
Qed.

Lemma below_max (q : Q) : Qabs q <= 8 * 10 ^ 307 -> Qabs q < (2 # 1) ^ 1023.
Proof.
  intros H. eapply Qle_lt_trans; [exact H|].
  unfold Qlt. vm_compute. reflexivity.
Qed.

(** The float of a decimal with digits after the point. *)
Lemma lit_near (neg : bool) (n : N) (k : positive) :
  let v := inject_Z (Z.of_N n) / inject_Z (10 ^ Zpos k) in
  v <= 8 * 10 ^ 307 ->
  near64 (Binary64.lit neg n (Zneg k)) (if neg then - v else v).
Proof.
  intros v Hv. unfold Binary64.lit.
  assert (P10 : (0 < 10 ^ Zpos k)%Z) by (apply Z.pow_pos_nonneg; lia).
  destruct n as [|p].
  - apply near64_exact; [reflexivity|reflexivity|].
    unfold v. cbn [Z.of_N real inject_Z]. destruct neg; reflexivity.
  - change (0 <=? Zneg k)%Z with false. cbv iota.
    change (- Zneg k)%Z with (Zpos k).
    change Binary64.prec with 53%Z. change Binary64.emax with 1024%Z.
    assert (Ey : real (S754_finite false (Z.to_pos (10 ^ Zpos k)) 0)
                 == inject_Z (10 ^ Zpos k)).
    { rewrite real_finite. rewrite Z2Pos.id by exact P10.
      change ((2 # 1) ^ 0) with 1. ring. }
    assert (Ex : real (S754_finite neg p 0)
                 == (if neg then - inject_Z (Zpos p) else inject_Z (Zpos p))).
    { rewrite real_finite. change ((2 # 1) ^ 0) with 1. destruct neg; ring. }
    assert (Pq : 0 < inject_Z (10 ^ Zpos k)).
    { change 0 with (inject_Z 0). rewrite <- Zlt_Qlt. exact P10. }
    assert (E : real (S754_finite neg p 0)
                / real (S754_finite false (Z.to_pos (10 ^ Zpos k)) 0)
                == (if neg then - v else v)).
    { rewrite Ex, Ey. unfold v. cbn [Z.of_N].
      destruct neg; field; lra. }
    apply (near64_ext _ _ _ E).
    apply div_near; [reflexivity|].
    rewrite E. apply below_max.
    assert (0 <= v).
    { unfold v. apply Qle_shift_div_l; [exact Pq|].
      rewrite Qmult_0_l. change 0 with (inject_Z 0). rewrite <- Zle_Qle.
      lia. }
    destruct neg; [rewrite Qabs_opp|]; rewrite Qabs_pos; auto.
Qed.

End Literals.

Section Coordinates64.
Import PyStr PyNum PyTime.
#[local] Open Scope Q_scope.

Lemma sixty64 :
  f_sixty (F := Binary64.t) = S754_finite false 8444249301319680 (-47).
Proof. vm_compute. reflexivity. Qed.

Lemma real_sixty64 : real (S754_finite false 8444249301319680 (-47)) == 60.
Proof. vm_compute. reflexivity. Qed.

Lemma view_abs (b : Binary64.t) :
  finite64 b = true ->
  exists q, Binary64.view (SFabs b) = VFin false q /\ q == Qabs (real b).
Proof.
  destruct b as [s| | |s m e]; try discriminate; intros _;
    cbn [SFabs Binary64.view].
  - exists 0. split; reflexivity.
  - exists (Binary64.mag m e). split; [reflexivity|].
    pose proof (mag_pos m e).
    cbn [real]. destruct s; [rewrite Qabs_opp|]; rewrite Qabs_pos by lra;
      reflexivity.
Qed.

Lemma small_below_max (q : Q) : Qabs q <= 1000 -> Qabs q < 2 ^ 1023.
Proof.
  intros H. apply below_max. eapply Qle_trans; [exact H|].
  unfold Qle. vm_compute. discriminate.
Qed.

(** The text of a coordinate: the whole degrees, and minutes that are off
    sixty times the rest by the rounding of three float operations. *)
Lemma format_coord64 (w : nat) (x : Binary64.t) :
  finite64 x = true -> float64 x -> Qabs (real x) <= 180 ->
  exists (k : Z) (q : Q),
    (0 <= k)%Z
    /\ inject_Z k <= Qabs (real x) /\ Qabs (real x) < inject_Z k + 1
    /\ Binary64.trunc x = Some (if negative x then (- k)%Z else k)
    /\ format_coord (F := Binary64.t) w x
       = Some (fmt_d w k ++ fmt_f 9 6 (VFin false q))%string
    /\ 0 <= q
    /\ - ((121 # 1) * eps64 + (61 # 1) * tiny64)
       <= q - (60 # 1) * (Qabs (real x) - inject_Z k)
       <= (121 # 1) * eps64 + (61 # 1) * tiny64.
Proof.
  intros Fx Vx Hx.
  pose proof tiny64_pos as Tp. pose proof tiny64_small as Ts.
  destruct (trunc_spec x Fx) as (k & Et & Hk0 & Hkl & Hku).
  pose proof (real_negative x) as Ex.
  set (sg := negative x) in *.
  set (X := Qabs (real x)) in *.
  assert (HX0 : 0 <= X) by apply Qabs_nonneg.
  assert (Hk180 : (k <= 180)%Z).
  { rewrite Zle_Qle. change (inject_Z 180) with 180. lra. }
  (* the degrees as a float *)
  destruct (of_int_exact (if sg then (- k)%Z else k)) as (df & Edf & Fdf & Vdf & Rdf).
  { change (2 ^ 53)%Z with 9007199254740992%Z. destruct sg; lia. }
  assert (Rdf' : real df == (if sg then - inject_Z k else inject_Z k)).
  { rewrite Rdf. destruct sg; [rewrite inject_Z_opp|]; reflexivity. }
  (* the fraction *)
  assert (Ea : real x - real df == (if sg then - (X - inject_Z k) else X - inject_Z k)).
  { rewrite Ex, Rdf'. destruct sg; ring. }
  assert (Na : near64 (SFsub 53 1024 x df) (real x - real df)).
  { apply sub_near; [exact Fx|exact Fdf|exact Vx|exact Vdf|].
    apply small_below_max. rewrite Ea.
    destruct sg; [rewrite Qabs_opp|]; rewrite Qabs_pos by lra; lra. }
  destruct (near64_bound _ _ 1 Na) as (Fa & Va & Ba).
  { rewrite Ea. destruct sg; [rewrite Qabs_opp|]; rewrite Qabs_pos by lra; lra. }
  set (a := SFsub 53 1024 x df) in *.
  (* the minutes *)
  assert (Nb : near64 (SFmul 53 1024 a (S754_finite false 8444249301319680 (-47)))
                      (real a * real (S754_finite false 8444249301319680 (-47)))).
  { apply mul_near; [exact Fa|reflexivity|exact Va|reflexivity|].
    apply small_below_max. rewrite real_sixty64.
    apply Qabs_Qle_condition. unfold eps64 in Ba.
    rewrite Ea in Ba. destruct sg; split; lra. }
  destruct (near64_bound _ _ 61 Nb) as (Fb & Vb & Bb).
  { rewrite real_sixty64. apply Qabs_Qle_condition. unfold eps64 in Ba.
    rewrite Ea in Ba. destruct sg; split; lra. }
  rewrite real_sixty64 in Bb.
  set (b := SFmul 53 1024 a (S754_finite false 8444249301319680 (-47))) in *.
  destruct (view_abs b Fb) as (q & Eq' & Hq).
  exists k, q.
  split; [exact Hk0|]. split; [exact Hkl|]. split; [exact Hku|].
  split; [exact Et|].
  split.
  { unfold format_coord.
    cbn [f_trunc f_of_int f_abs f_mul f_sub f_view Binary64.ops].
    rewrite Et, Edf, sixty64.
    change (SFsub Binary64.prec Binary64.emax x df) with a.
    change (SFmul Binary64.prec Binary64.emax a
              (S754_finite false 8444249301319680 (-47))) with b.
    rewrite Eq'.
    replace (Z.abs (if sg then (- k)%Z else k)) with k by (destruct sg; lia).
    reflexivity. }
  split; [rewrite Hq; apply Qabs_nonneg|].
  rewrite Hq. rewrite Ea in Ba. unfold eps64 in *.
  destruct (Qlt_le_dec (real b) 0) as [Lb|Lb];
    [rewrite Qabs_neg by lra|rewrite Qabs_pos by lra];
    destruct sg; split; lra.
Qed.

Lemma coord_round_trip64 (w : nat) (x : Binary64.t) (bound maxd : Z) :
  (2 <= w <= 4300)%nat -> (0 <= bound <= 180)%Z -> (bound < 10 ^ Z.of_nat w)%Z ->
  finite64 x = true -> float64 x -> Qabs (real x) <= inject_Z bound ->
  exists s r,
    format_coord (F := Binary64.t) w x = Some s
    /\ clean s /\ nonempty s = true
    /\ _parse_coordinate (F := Binary64.t) s maxd = Some r
    /\ finite64 r = true /\ float64 r
    /\ Qabs ((if negative x then - real r else real r) - real x)
       <= coord_tolerance.
Proof.
  intros Hw Hbd Hb Fx Vx Hx.
  pose proof tiny64_pos as Tp. pose proof tiny64_small as Ts.
  assert (Hb180 : inject_Z bound <= 180).
  { change 180 with (inject_Z 180). rewrite <- Zle_Qle. lia. }
  destruct (format_coord64 w x Fx Vx) as (k & q & Hk0 & Hkl & Hku & Et & Hf & Hq0 & Bq);
    [lra|].
  pose proof (real_negative x) as Ex.
  set (sg := negative x) in *.
  set (X := Qabs (real x)) in *.
  assert (HX0 : 0 <= X) by apply Qabs_nonneg.
  assert (Hkb : (k <= bound)%Z).
  { rewrite Zle_Qle. lra. }
  assert (Hk180 : inject_Z k <= 180).
  { change 180 with (inject_Z 180). rewrite <- Zle_Qle. lia. }
  assert (Hk0' : 0 <= inject_Z k).
  { change 0 with (inject_Z 0). rewrite <- Zle_Qle. lia. }
  (* the text *)
  set (n := round_half_even (q * (Z.of_N (pow10 6) # 1))).
  assert (Hn : (n < 100 * pow10 6)%N).
  { assert (Z.of_N n <= 61000000)%Z.
    { apply round_half_even_le.
      - change (Z.of_N (pow10 6) # 1) with (1000000 # 1). nra.
      - change (Z.of_N (pow10 6) # 1) with (1000000 # 1).
        unfold eps64 in Bq. lra. }
    change (100 * pow10 6)%N with 100000000%N. lia. }
  rewrite <- (Z2N.id k Hk0) in Hf.
  assert (Hd : (Z.to_N k < 10 ^ N.of_nat w)%N).
  { apply N2Z.inj_lt. rewrite Z2N.id, N2Z.inj_pow, nat_N_Z by exact Hk0.
    change (Z.of_N 10) with 10%Z. lia. }
  (* the way back *)
  destruct (of_int_exact k) as (dk & Edk & Fdk & Vdk & Rdk).
  { change (2 ^ 53)%Z with 9007199254740992%Z. lia. }
  pose proof (round6_close q Hq0) as C6. fold n in C6.
  apply Qabs_Qle_condition in C6.
  rewrite (Qmake_scale (Z.of_N n) 1000000) in C6.
  change (Z.of_N n # 1) with (inject_Z (Z.of_N n)) in C6.
  assert (HN0 : 0 <= inject_Z (Z.of_N n)).
  { change 0 with (inject_Z 0). rewrite <- Zle_Qle. lia. }
  set (v := inject_Z (Z.of_N n) / inject_Z (10 ^ 6)).
  assert (Ev : v == inject_Z (Z.of_N n) * (1 # 1000000)).
  { unfold v. change (inject_Z (10 ^ 6)) with (1000000 # 1). field. }
  assert (Hv : 0 <= v <= 62).
  { rewrite Ev. unfold eps64 in Bq.
    set (Nq := inject_Z (Z.of_N n)) in *. clearbody Nq.
    set (K := inject_Z k) in *. clearbody K X.
    clear -C6 Bq HN0 Tp Ts Hkl Hku. split; lra. }
  assert (Nl : near64 (Binary64.lit false n (-6)) v).
  { apply (lit_near false n 6). fold v.
    eapply Qle_trans; [apply Hv|]. unfold Qle. vm_compute. discriminate. }
  destruct (near64_bound _ _ 62 Nl) as (Fl & Vl & Bl).
  { rewrite Qabs_pos; lra. }
  set (l := Binary64.lit false n (-6)) in *.
  assert (Nc : near64 (SFdiv 53 1024 l (S754_finite false 8444249301319680 (-47)))
                      (real l / real (S754_finite false 8444249301319680 (-47)))).
  { apply div_near; [exact Fl|].
    apply small_below_max. rewrite real_sixty64.
    apply Qabs_Qle_condition. unfold eps64 in Bl.
    change (real l / 60) with (real l * (1 # 60)). split; lra. }
  destruct (near64_bound _ _ 2 Nc) as (Fc & Vc & Bc).
  { rewrite real_sixty64.
    apply Qabs_Qle_condition. unfold eps64 in Bl.
    change (real l / 60) with (real l * (1 # 60)). split; lra. }
  rewrite real_sixty64 in Bc.
  change (real l / 60) with (real l * (1 # 60)) in Bc.
  set (c := SFdiv 53 1024 l (S754_finite false 8444249301319680 (-47))) in *.
  assert (Nr : near64 (SFadd 53 1024 dk c) (real dk + real c)).
  { apply add_near; [exact Fdk|exact Fc|exact Vdk|exact Vc|].
    apply small_below_max. rewrite Rdk.
    apply Qabs_Qle_condition. unfold eps64 in *. split; lra. }
  destruct (near64_bound _ _ 183 Nr) as (Fr & Vr & Br).
  { rewrite Rdk. apply Qabs_Qle_condition. unfold eps64 in *. split; lra. }
  rewrite Rdk in Br.
  set (r := SFadd 53 1024 dk c) in *.
  exists (fmt_d w (Z.of_N (Z.to_N k)) ++ fmt_f 9 6 (VFin false q))%string, r.
  split; [exact Hf|].
  split; [apply clean_append; [apply clean_fmt_d|apply clean_fmt_f]|].
  split.
  { pose proof (fmt_f_nonempty 9 6 (VFin false q)).
    destruct (fmt_d _ _); [|reflexivity].
    destruct (fmt_f _ _ _); [congruence|reflexivity]. }
  split.
  { rewrite (parse_formatted_coordinate w (Z.to_N k) q maxd Hw Hd Hn).
    fold n. rewrite Z2N.id by exact Hk0.
    cbn [f_of_int f_add f_div f_lit Binary64.ops]. rewrite Edk, sixty64.
    reflexivity. }
  split; [exact Fr|]. split; [exact Vr|].
  unfold coord_tolerance.
  assert (Es : (if sg then - real r else real r) - real x
               == (if sg then - (real r - X) else real r - X)).
  { rewrite Ex. destruct sg; ring. }
  rewrite Es.
  assert (Fin : Qabs (real r - X) <= (1 # 120000000) + (1 # 10000000000000)).
  { apply Qabs_Qle_condition. rewrite Ev in Bl. unfold eps64 in *.
    set (N := inject_Z (Z.of_N n)) in *. clearbody N.
    set (R := real r) in *. set (Cc := real c) in *. set (L := real l) in *.
    set (K := inject_Z k) in *.
    clearbody R Cc L K X. clear -Br Bc Bl C6 Bq Tp Ts HX0 Hkl Hku Hk180 Hk0'.
    split; lra. }
  destruct sg; [rewrite Qabs_opp|]; exact Fin.
Qed.

End Coordinates64.

Section Speed64.
Import PyStr PyNum PyTime.
#[local] Open Scope Q_scope.

Lemma knots64 :
  knots_per_kmh (F := Binary64.t) = S754_finite false 4863500287992182 (-53).
Proof. vm_compute. reflexivity. Qed.

Lemma real_knots64 :
  real (S754_finite false 4863500287992182 (-53))
  == 2431750143996091 # 4503599627370496.
Proof. vm_compute. reflexivity. Qed.

Lemma kmh64 :
  kmh_per_knot (F := Binary64.t) = S754_finite false 8340666509890159 (-52).
Proof. vm_compute. reflexivity. Qed.

Lemma real_kmh64 :
  real (S754_finite false 8340666509890159 (-52))
  == 8340666509890159 # 4503599627370496.
Proof. vm_compute. reflexivity. Qed.

Lemma max_speed_pos : 1 <= 10 ^ 307.
Proof. unfold Qle. vm_compute. discriminate. Qed.

Lemma sign_view (x : Binary64.t) :
  finite64 x = true ->
  exists s q, Binary64.view x = VFin s q /\ 0 <= q
              /\ real x == (if s then - q else q).
Proof.
  destruct x as [s| | |s m e]; try discriminate; intros _; cbn [Binary64.view].
  - exists s, 0. split; [reflexivity|]. split; [apply Qle_refl|].
    cbn [real]. destruct s; reflexivity.
  - exists s, (Binary64.mag m e). split; [reflexivity|].
    split; [apply Qlt_le_weak, mag_pos|]. reflexivity.
Qed.

(** The speed through the RMC sentence: knots to one decimal, and back. *)
Lemma speed_round_trip64 (sp : Binary64.t) :
  finite64 sp = true -> float64 sp -> 0 <= real sp -> real sp <= max_speed ->
  exists x,
    py_float (F := Binary64.t)
      (fmt_f 0 1 (f_view (f_mul sp knots_per_kmh))) = Some x
    /\ finite64 (f_mul x kmh_per_knot) = true
    /\ float64 (f_mul x kmh_per_knot)
    /\ Qabs (real (f_mul x kmh_per_knot) - real sp)
       <= speed_tolerance (real sp).
Proof.
  intros Fs Vs H0 Hmax.
  pose proof tiny64_pos as Tp. pose proof tiny64_small as Ts.
  pose proof max_speed_pos as Mp.
  cbn [f_mul f_view Binary64.ops]. rewrite knots64, kmh64.
  change Binary64.prec with 53%Z. change Binary64.emax with 1024%Z.
  set (c1 := S754_finite false 4863500287992182 (-53)).
  set (c2 := S754_finite false 8340666509890159 (-52)).
  change max_speed with (10 ^ 307) in Hmax.
  set (M := 10 ^ 307) in *.
  (* to knots *)
  assert (Nk : near64 (SFmul 53 1024 sp c1) (real sp * real c1)).
  { apply mul_near; [exact Fs|reflexivity|exact Vs|reflexivity|].
    apply below_max. fold M. unfold c1. rewrite real_knots64.
    rewrite Qabs_pos by nra. clearbody M. lra. }
  destruct (near64_bound _ _ (real sp * real c1) Nk) as (Fk & Vk & Bk).
  { unfold c1. rewrite real_knots64. rewrite Qabs_pos by nra. apply Qle_refl. }
  unfold c1 in Bk. rewrite real_knots64 in Bk. fold c1 in Bk.
  set (kn := SFmul 53 1024 sp c1) in *.
  destruct (sign_view kn Fk) as (s & q & Ev & Hq0 & Ek).
  rewrite Ev. unfold py_float. rewrite py_float_lit_fmt_f by lia.
  set (n := round_half_even (q * (Z.of_N (pow10 1) # 1))).
  change (- Z.of_nat 1)%Z with (-1)%Z.
  exists (Binary64.lit s n (-1)). split; [reflexivity|].
  (* the rounded knots *)
  assert (Hq10 : 0 <= q * (Z.of_N (pow10 1) # 1)).
  { change (Z.of_N (pow10 1) # 1) with (10 # 1). lra. }
  pose proof (round_half_even_close _ Hq10) as C. fold n in C.
  change (Z.of_N (pow10 1) # 1) with (10 # 1) in C.
  change (Z.of_N n # 1) with (inject_Z (Z.of_N n)) in C.
  apply Qabs_Qle_condition in C.
  assert (HN0 : 0 <= inject_Z (Z.of_N n)).
  { change 0 with (inject_Z 0). rewrite <- Zle_Qle. lia. }
  set (v := inject_Z (Z.of_N n) / inject_Z (10 ^ 1)).
  assert (Ev' : v == inject_Z (Z.of_N n) * (1 # 10)).
  { unfold v. change (inject_Z (10 ^ 1)) with (10 # 1). field. }
  rewrite Ek in Bk. unfold eps64 in Bk.
  assert (Hv : 0 <= v /\ v <= 2 * M).
  { rewrite Ev'. set (N := inject_Z (Z.of_N n)) in *.
    set (S := real sp) in *. clearbody N S M.
    clear -C Bk HN0 Tp Ts H0 Hmax Hq0 Mp. destruct s; split; lra. }
  assert (Nl : near64 (Binary64.lit s n (-1)) (if s then - v else v)).
  { apply (lit_near s n 1). fold v. fold M. clearbody M v. lra. }
  destruct (near64_bound _ _ v Nl) as (Fl & Vl & Bl).
  { destruct s; [rewrite Qabs_opp|]; rewrite Qabs_pos by apply Hv;
      apply Qle_refl. }
  set (l := Binary64.lit s n (-1)) in *.
  (* back to km/h *)
  unfold eps64 in Bl.
  assert (Nr : near64 (SFmul 53 1024 l c2) (real l * real c2)).
  { apply mul_near; [exact Fl|reflexivity|exact Vl|reflexivity|].
    apply below_max. fold M. unfold c2. rewrite real_kmh64.
    apply Qabs_Qle_condition.
    set (N := inject_Z (Z.of_N n)) in *. set (L := real l) in *.
    set (S := real sp) in *. clearbody N S M L v.
    clear -C Bk Bl HN0 Tp Ts H0 Hmax Hq0 Mp Hv Ev'. destruct s; split; lra. }
  destruct (near64_bound _ _ (inject_Z (Z.of_N n) * (1 # 10)
                              * (1 + (1 # 4503599627370496)) * (2 # 1) + 1) Nr)
    as (Fr & Vr & Br).
  { unfold c2. rewrite real_kmh64. apply Qabs_Qle_condition.
    set (N := inject_Z (Z.of_N n)) in *. set (L := real l) in *.
    set (S := real sp) in *. clearbody N S M L v.
    clear -C Bk Bl HN0 Tp Ts H0 Hmax Hq0 Mp Hv Ev'. destruct s; split; lra. }
  unfold c2 in Br. rewrite real_kmh64 in Br. fold c2 in Br.
  split; [exact Fr|]. split; [exact Vr|].
  unfold speed_tolerance, eps64 in *.
  apply Qabs_Qle_condition.
  set (N := inject_Z (Z.of_N n)) in *. set (L := real l) in *.
  set (R := real (SFmul 53 1024 l c2)) in *.
  set (S := real sp) in *. clearbody N S M L R v.
  clear -C Bk Bl Br HN0 Tp Ts H0 Hmax Hq0 Mp Hv Ev'.
  destruct s; split; lra.
Qed.

End Speed64.

Section RoundTrip64.
Import PyStr PyNum PyTime.
#[local] Open Scope Q_scope.
#[local] Open Scope string_scope.

(** The speed through the RMC sentence, in the decoder's terms. *)
Lemma speed_round_trip (sp : Binary64.t) :
  finite64 sp = true -> float64 sp -> 0 <= real sp -> real sp <= max_speed ->
  near (speed_tolerance (real sp))
       (f_mul (one_decimal (f_mul sp knots_per_kmh)) kmh_per_knot) sp.
Proof.
  intros Fs Vs H0 Hm.
  destruct (speed_round_trip64 sp Fs Vs H0 Hm) as (x & Ex & Fr & _ & Br).
  rewrite py_float_fmt1 in Ex. injection Ex as <-.
  split; [exact Fr|]. split; [exact Fs|exact Br].
Qed.

(** A coordinate through either sentence: the text the encoder writes, and
    the float the decoder reads in it. *)
Lemma coord_through (w : nat) (x : Binary64.t) (bound maxd : Z) :
  (2 <= w <= 4300)%nat -> (0 <= bound <= 180)%Z -> (bound < 10 ^ Z.of_nat w)%Z ->
  finite64 x = true -> float64 x -> Qabs (real x) <= inject_Z bound ->
  exists s r,
    format_coord (F := Binary64.t) w x = Some s
    /\ clean s /\ nonempty s = true
    /\ _parse_coordinate (F := Binary64.t) s maxd = Some r
    /\ near coord_tolerance (if f_ge0 x then r else f_neg r) x.
Proof.
  intros Hw Hbd Hb Fx Vx Hx.
  destruct (coord_round_trip64 w x bound maxd Hw Hbd Hb Fx Vx Hx)
    as (s & r & Hf & Cs & Ns & Hp & Fr & _ & Er).
  exists s, r. repeat (split; [assumption|]).
  cbn [f_ge0 f_neg Binary64.ops]. rewrite (ge0_negative x Fx).
  destruct (negative x); cbn [negb].
  - split; [rewrite finite_opp; exact Fr|]. split; [exact Fx|].
    rewrite real_opp. exact Er.
  - split; [exact Fr|]. split; [exact Fx|exact Er].
Qed.

(** What the decoder returns for the two sentences of a position. *)
Lemma decode_encoded (p : Position Binary64.t) (now : datetime) :
  finite64 (lat p) = true -> float64 (lat p) -> Qabs (real (lat p)) <= 90 ->
  finite64 (lon p) = true -> float64 (lon p) -> Qabs (real (lon p)) <= 180 ->
  valid (time p) = true -> valid now = true ->
  exists gga rmc la lo,
    encode_gga p = Some gga /\ encode_rmc p = Some rmc
    /\ decode now gga
       = Some (position6 0 la lo f_zero (one_decimal (elevation p))
                 (mk_dt (year now) (month now) (day now) (hour (time p))
                        (minute (time p)) (second (time p))
                        (microsecond (time p) / 1000 * 1000)%Z (tzinfo now)))
    /\ decode now rmc
       = Some (position6 0 la lo
                 (f_mul (one_decimal (f_mul (speed p) knots_per_kmh))
                        kmh_per_knot)
                 f_zero
                 (mk_dt (year (time p) mod 100 + 2000)%Z (month (time p))
                        (day (time p)) (hour (time p)) (minute (time p))
                        (second (time p))
                        (microsecond (time p) / 1000 * 1000)%Z (Some UTC)))
    /\ near coord_tolerance la (lat p) /\ near coord_tolerance lo (lon p).
Proof.
  intros Fla Vla Rla Flo Vlo Rlo Vt Vn.
  destruct p as [idx pla plo psp pel pt pdu ptr pde].
  cbn [lat lon speed elevation time] in *.
  destruct (coord_through 2 pla 90 2) as (sla & xla & Hfla & Cla & Nla & Pla & Ela);
    [lia|lia|reflexivity|exact Fla|exact Vla|exact Rla|].
  destruct (coord_through 3 plo 180 3) as (slo & xlo & Hflo & Clo & Nlo & Plo & Elo);
    [lia|lia|reflexivity|exact Flo|exact Vlo|exact Rlo|].
  set (lad := if f_ge0 pla then "N" else "S").
  set (lod := if f_ge0 plo then "E" else "W").
  assert (Clad : clean lad) by (apply clean_dir; reflexivity).
  assert (Clod : clean lod) by (apply clean_dir; reflexivity).
  assert (Hfc : format_coords pla plo = Some (sla, lad, slo, lod)).
  { unfold format_coords. rewrite Hfla, Hflo. reflexivity. }
  pose proof (parse_lat_formatted sla (f_ge0 pla) xla Nla Pla) as PLa.
  fold lad in PLa.
  pose proof (parse_lon_formatted slo (f_ge0 plo) xlo Nlo Plo) as PLo.
  fold lod in PLo.
  set (ts := time_str_of pt).
  pose proof (clean_time_str pt) as Cts. fold ts in Cts.
  set (el := fmt_f 0 1 (f_view pel)).
  pose proof (clean_fmt_f 0 1 (f_view pel)) as Cel. fold el in Cel.
  destruct (split_gga_body ts sla lad slo lod el Cts Cla Clad Clo Clod Cel)
    as [Gs Gf].
  set (bg := ("GPGGA," ++ ts ++ "," ++ sla ++ "," ++ lad ++ ","
               ++ slo ++ "," ++ lod ++ "," ++ GGA_FIX_QUALITY ++ ","
               ++ GGA_NUM_SATELLITES ++ "," ++ GGA_HDOP ++ ","
               ++ el ++ ",M,"
               ++ GGA_GEOID_SEPARATION ++ ",M," ++ GGA_DGPS_AGE ++ ","
               ++ GGA_DGPS_REF)%string) in *.
  set (kn := fmt_f 0 1 (f_view (f_mul psp knots_per_kmh))).
  pose proof (clean_fmt_f 0 1 (f_view (f_mul psp knots_per_kmh))) as Ckn.
  fold kn in Ckn.
  set (ds := strftime_dmy pt).
  pose proof (clean_strftime_dmy pt) as Cds. fold ds in Cds.
  destruct (split_rmc_body ts sla lad slo lod kn ds Cts Cla Clad Clo Clod Ckn Cds)
    as [Rs Rf].
  set (br := ("GPRMC," ++ ts ++ ",A," ++ sla ++ "," ++ lad ++ ","
               ++ slo ++ "," ++ lod ++ ","
               ++ kn ++ ",0.0," ++ ds ++ ",,,A")%string) in *.
  exists (frame bg), (frame br),
    (if f_ge0 pla then xla else f_neg xla),
    (if f_ge0 plo then xlo else f_neg xlo).
  split.
  { unfold encode_gga, gga_body. cbn [lat lon elevation time].
    rewrite Hfc. reflexivity. }
  split.
  { unfold encode_rmc, rmc_body. cbn [lat lon speed time].
    rewrite Hfc. reflexivity. }
  split.
  { unfold decode. rewrite startswith_frame. cbn [negb].
    rewrite fields_of_frame by exact Gs. rewrite Gf. cbn [field nth].
    change (is_rmc "GPGGA") with false. change (is_gga "GPGGA") with true.
    cbv iota. unfold decode_gga. cbn [List.length field nth].
    change (15 <? 10)%nat with false. cbv iota.
    rewrite PLa, PLo.
    assert (Nel : nonempty el = true).
    { pose proof (fmt_f_nonempty 0 1 (f_view pel)) as H. fold el in H.
      destruct el; [congruence|reflexivity]. }
    rewrite Nel. unfold el. rewrite py_float_fmt1.
    unfold ts.
    rewrite (parse_datetime_time_only_any binary64_millis_exact now pt Vt Vn).
    reflexivity. }
  split.
  { unfold decode. rewrite startswith_frame. cbn [negb].
    rewrite fields_of_frame by exact Rs. rewrite Rf. cbn [field nth].
    change (is_rmc "GPRMC") with true. cbv iota.
    unfold decode_rmc. cbn [List.length field nth].
    change (13 <? 10)%nat with false. change (String.eqb "A" "A") with true.
    cbn [negb orb]. rewrite PLa, PLo.
    assert (Nkn : nonempty kn = true).
    { pose proof (fmt_f_nonempty 0 1 (f_view (f_mul psp knots_per_kmh))) as H.
      fold kn in H. destruct kn; [congruence|reflexivity]. }
    rewrite Nkn. unfold kn. rewrite py_float_fmt1.
    unfold ts, ds.
    rewrite (parse_datetime_with_date_any binary64_millis_exact now pt Vt).
    reflexivity. }
  split; [exact Ela|exact Elo].
Qed.

End RoundTrip64.

Section IntegersOfFloats.
#[local] Open Scope Z_scope.

Lemma shr_1_even (a : Z) :
  0 <= a ->
  shr_1 (Build_shr_record (2 * a) false false) = Build_shr_record a false false.
Proof. destruct a as [|p|p]; try lia; reflexivity. Qed.

(** Shifting out zeros leaves nothing to round. *)
Lemma iter_shr_exact (p : positive) :
  forall a, 0 <= a ->
    iter_pos shr_1 p (Build_shr_record (a * 2 ^ Zpos p) false false)
    = Build_shr_record a false false.
Proof.
  induction p as [p IH|p IH|]; intros a Ha; cbn [iter_pos].
  - rewrite pow2_xI.
    replace (a * (2 * (2 ^ Zpos p * 2 ^ Zpos p)))
      with (2 * (a * 2 ^ Zpos p * 2 ^ Zpos p)) by ring.
    assert (0 < 2 ^ Zpos p) by (apply Z.pow_pos_nonneg; lia).
    rewrite shr_1_even by nia.
    rewrite IH by nia. apply IH, Ha.
  - rewrite pow2_xO.
    replace (a * (2 ^ Zpos p * 2 ^ Zpos p))
      with (a * 2 ^ Zpos p * 2 ^ Zpos p) by ring.
    assert (0 < 2 ^ Zpos p) by (apply Z.pow_pos_nonneg; lia).
    rewrite IH by nia. apply IH, Ha.
  - change (2 ^ 1) with 2. rewrite Z.mul_comm. apply shr_1_even, Ha.
Qed.

(** A mantissa with [n] zeros at its end, at an exponent [n] below the one
    of the format: the float has the mantissa without them. *)
Lemma binary_round_aux_shift (sx : bool) (pa : positive) (n ex : Z) :
  0 <= n ->
  fexp 53 1024 (Zpos (digits2_pos pa) + n + ex) = ex + n -> ex + n <= 971 ->
  binary_round_aux 53 1024 sx (Zpos pa * 2 ^ n) ex loc_Exact
  = S754_finite sx pa (ex + n).
Proof.
  intros Hn Hf He. unfold binary_round_aux, shr_fexp.
  rewrite digits_shift by exact Hn. cbn [Zdigits2].
  rewrite Hf. replace (ex + n - ex) with n by lia.
  cbn [shr_record_of_loc].
  assert (S1 : shr (Build_shr_record (Zpos pa * 2 ^ n) false false) ex n
               = (Build_shr_record (Zpos pa) false false, ex + n)).
  { destruct n as [|p|p]; try lia.
    - cbn [shr]. rewrite Z.mul_1_r, Z.add_0_r. reflexivity.
    - cbn [shr]. rewrite iter_shr_exact by lia. reflexivity. }
  rewrite S1. cbn [shr_m loc_of_shr_record round_nearest_even Zdigits2].
  replace (Zpos (digits2_pos pa) + (ex + n)) with (Zpos (digits2_pos pa) + n + ex)
    by lia.
  rewrite Hf, Z.sub_diag. cbn [shr shr_record_of_loc shr_m].
  destruct (Z.leb_spec (ex + n) (1024 - 53)); [reflexivity|lia].
Qed.

(** [float(int(x))] does not overflow: the integer part of a float of the
    format is within the range of the format. *)
Lemma of_int_trunc (x : Binary64.t) :
  finite64 x = true -> float64 x ->
  exists z y, Binary64.trunc x = Some z /\ Binary64.of_int z = Some y.
Proof.
  intros Fx Vx.
  destruct x as [s| | |s m e]; try discriminate.
  - exists 0, (S754_zero false). split; reflexivity.
  - unfold float64 in Vx. cbn [valid_binary] in Vx.
    destruct (bounded_canonical _ _ Vx) as [Ce Le].
    pose proof (Pos2Z.is_pos (digits2_pos m)) as Dp.
    destruct (digits2_pos_spec m) as [Lm Um].
    destruct (Z.le_gt_cases e 0) as [Hle|Hgt].
    + (* below 2^53 *)
      destruct (trunc_spec (S754_finite s m e) eq_refl)
        as (k & Et & Hk0 & Hkl & _).
      assert (Hk : k < 2 ^ 53).
      { assert (A : (Qabs (real (S754_finite s m e)) <= inject_Z (Zpos m))%Q).
        { cbn [real].
          assert (M : (Binary64.mag m e <= inject_Z (Zpos m))%Q).
          { rewrite mag_eq.
            setoid_replace (inject_Z (Zpos m))
              with (inject_Z (Zpos m) * (2 # 1) ^ 0)%Q at 2
              by (change ((2 # 1) ^ 0)%Q with 1%Q; ring).
            apply Qmult_le_l; [reflexivity|]. apply pow2_le, Hle. }
          pose proof (mag_pos m e).
          destruct s; [rewrite Qabs_opp|]; rewrite Qabs_pos by lra; exact M. }
        assert (B : (inject_Z k <= inject_Z (Zpos m))%Q) by lra.
        rewrite <- Zle_Qle in B.
        assert (2 ^ Zpos (digits2_pos m) <= 2 ^ 53)
          by (apply Z.pow_le_mono_r; lia).
        lia. }
      destruct (of_int_exact (if negative (S754_finite s m e) then - k else k))
        as (y & Ey & _).
      { destruct (negative _); lia. }
      eauto.
    + (* an integer *)
      assert (Em : Binary64.mag m e = ((Zpos m * 2 ^ e)%Z # 1)%Q).
      { unfold Binary64.mag. destruct (Z.leb_spec 0 e); [reflexivity|lia]. }
      assert (P : 0 < Zpos m * 2 ^ e).
      { apply Z.mul_pos_pos; [lia|apply Z.pow_pos_nonneg; lia]. }
      exists (if s then - (Zpos m * 2 ^ e) else Zpos m * 2 ^ e),
             (S754_finite s m e).
      split.
      { cbn [Binary64.trunc]. rewrite Em. cbn [Qnum Qden].
        rewrite Z.div_1_r. reflexivity. }
      unfold Binary64.of_int.
      change Binary64.prec with 53. change Binary64.emax with 1024.
      assert (R : binary_round 53 1024 s (Z.to_pos (Zpos m * 2 ^ e)) 0
                  = S754_finite s m e).
      { unfold binary_round.
        pose proof (shl_align_spec (Z.to_pos (Zpos m * 2 ^ e)) 0
                      (fexp 53 1024
                         (Zpos (digits2_pos (Z.to_pos (Zpos m * 2 ^ e))) + 0)))
          as S.
        assert (D : Zpos (digits2_pos (Z.to_pos (Zpos m * 2 ^ e)))
                    = Zpos (digits2_pos m) + e).
        { pose proof (digits_shift m e ltac:(lia)) as D.
          destruct (Zpos m * 2 ^ e) as [|p|p] eqn:Ep; try lia.
          cbn [Zdigits2] in D. cbn [Z.to_pos]. exact D. }
        rewrite D in S |- *.
        rewrite fexp_eq in S |- *.
        destruct (shl_align _ 0 _) as [mz ez]. destruct S as [Ez Emz].
        replace ez with 0 in * by lia.
        rewrite Z.sub_diag, Z.mul_1_r, Z2Pos.id in Emz by exact P.
        rewrite Emz.
        rewrite (binary_round_aux_shift s m e 0); [f_equal; lia|lia| |lia].
        rewrite fexp_eq. lia. }
      destruct s.
      * destruct (Zpos m * 2 ^ e) as [|p|p] eqn:Ep; try lia.
        cbn [Z.opp binary_normalize]. cbn [Z.to_pos] in R. rewrite R.
        reflexivity.
      * destruct (Zpos m * 2 ^ e) as [|p|p] eqn:Ep; try lia.
        cbn [binary_normalize]. cbn [Z.to_pos] in R. rewrite R.
        reflexivity.
Qed.

(** [format_coords] raises on the infinities and NaN only. *)
Lemma format_coord_fails (w : nat) (x : Binary64.t) :
  float64 x ->
  format_coord (F := Binary64.t) w x = None <-> finite64 x = false.
Proof.
  intros Vx. unfold format_coord.
  cbn [f_trunc f_of_int Binary64.ops].
  destruct (finite64 x) eqn:Fx.
  - destruct (of_int_trunc x Fx Vx) as (z & y & -> & ->).
    split; discriminate.
  - destruct x; try discriminate; split; reflexivity.
Qed.

End IntegersOfFloats.


(** * The claims *)

Section GeneratorClaims.
Context {F : Type} {PF : PyFloat F}.

(** C8.  Exhaustion.  Pulling [k] times more often than positions remain
    hands out every remaining position once and in order, and then raises
    [StopIteration] at each of the [k] further pulls; a pull on the
    generator so left raises [StopIteration] again and leaves it as it is. *)
Theorem exhaustion_is_final (G : Generator F) (clock : nat -> datetime)
        (k : nat) (now : datetime) :
  let n := List.length (remaining G) in
  fst (pulls clock (n + k) G)
  = (map Yield (emit_all (cls G) clock (remaining G))
     ++ repeat StopIteration k)%list
  /\ next now (snd (pulls clock (n + k) G))
     = (StopIteration, snd (pulls clock (n + k) G)).
Proof.
  intros n. split.
  - apply pulls_run.
  - apply next_exhausted, remaining_nil_exhausted, pulls_reach_end.
    unfold n. lia.
Qed.

(** C2 (as amended).  A generator of any of the three classes, built from
    its file and then pulled, with [datetime.now(timezone.utc)] as the
    clock: every position it yields has a time that carries the UTC
    timezone.  The CSV and the GeoJSON generator stamp the position at the
    pull: its time is the clock reading of that pull, not the placeholder
    stored at load time.  The NMEA generator does not stamp: the [j]-th
    position it yields has the time that the [j]-th line of its file that
    decodes was decoded to when the file was loaded. *)
Theorem time_stamped_on_pull (k : kind) (fs : files F)
        (clock pclock : nat -> datetime) (args : list string)
        (G : Generator F) (n j : nat) (p : Position F) :
  (forall i, tzinfo (clock i) = Some UTC) ->
  (forall i, tzinfo (pclock i) = Some UTC) ->
  construct k fs clock args = Some G ->
  nth_error (fst (pulls pclock n G)) j = Some (Yield p) ->
  tzinfo (time p) = Some UTC
  /\ match k with
     | CSV | GeoJSON => time p = pclock j
     | NMEA =>
         exists file lines q,
           In file args /\ read_lines fs file = Some lines
           /\ nth_error (decoded clock lines) j = Some q
           /\ time p = time q
     end.
Proof.
  intros Hc Hp Hk Hj.
  destruct (construct_fresh k fs clock args G Hk) as [Ek Ei].
  assert (L : (j < n)%nat).
  { rewrite <- (length_pulls n pclock G). apply nth_error_Some. congruence. }
  rewrite (pulls_nth n pclock G j L), Ei, Ek in Hj. cbn [Nat.add] in Hj.
  destruct (nth_error (_positions (self G)) j) as [p0|] eqn:E;
    [|discriminate].
  injection Hj as <-.
  destruct k; cbn [emitted time with_time]; try (split; [apply Hp|reflexivity]).
  destruct (construct_nmea_times fs clock args G Hk) as (file & lines & Hin & Hl & Ht).
  assert (T : nth_error (map (@time F) (decoded clock lines)) j = Some (time p0)).
  { rewrite <- Ht. apply map_nth_error, E. }
  rewrite nth_error_map in T.
  destruct (nth_error (decoded clock lines) j) as [q|] eqn:Q; [|discriminate].
  cbn [option_map] in T. injection T as T.
  split.
  - rewrite <- T.
    pose proof (decoded_utc lines clock Hc) as U.
    rewrite Forall_forall in U. apply U. eapply nth_error_In; eauto.
  - exists file, lines, q. auto.
Qed.

(** C7.  A generator of any of the three classes built with an argument
    [index=<start>] (the last such argument counts), pulled until all its
    positions are out, yields the index values [start], [start + 1], ... in
    this order: the j-th point of the file gets [start + (j - 1)]. *)
Theorem index_override_numbers (k : kind) (fs : files F)
        (clock pclock : nat -> datetime) (a1 a2 : list string) (s : string)
        (start : Z) (G : Generator F) :
  PyNum.py_int s = Some start ->
  Forall (fun a => PyStr.startswith a "index=" = false) a2 ->
  construct k fs clock (a1 ++ ("index=" ++ s)%string :: a2)%list = Some G ->
  map (@index F)
      (yields (fst (pulls pclock (List.length (_positions (self G))) G)))
  = map (fun j => start + Z.of_nat j)
        (seq 0 (List.length (_positions (self G)))).
Proof.
  intros Hs Ha2 Hc.
  destruct (construct_numbered k fs clock a1 a2 s start G Hs Ha2 Hc)
    as (_ & Hi & Hn).
  assert (R : remaining G = _positions (self G))
    by (unfold remaining; rewrite Hi; reflexivity).
  pose proof (pulls_run G pclock 0) as P.
  rewrite R, Nat.add_0_r, app_nil_r in P.
  rewrite P, yields_map_Yield, map_index_emit_all.
  apply numbered_map_index, Hn.
Qed.

End GeneratorClaims.

(** C2, witness: the NMEA generator of the sample file, loaded at
    [load_time] and pulled at [pull_time]. *)
Lemma time_stamped_on_pull_witness :
  exists (G : Generator Samples.B) (p : Position Samples.B),
    construct NMEA Samples.disk (fun _ => Samples.load_time) ["route.nmea"]
    = Some G
    /\ nth_error (fst (pulls (fun _ => Samples.pull_time) 1 G)) 0
       = Some (Yield p)
    /\ tzinfo (time p) = Some UTC
    /\ exists file lines (q : Position Samples.B),
         In file ["route.nmea"]
         /\ read_lines Samples.disk file = Some lines
         /\ nth_error (decoded (fun _ => Samples.load_time) lines) 0 = Some q
         /\ time p = time q.
Proof.
  eexists. eexists.
  split; [vm_compute; reflexivity|].
  split; [vm_compute; reflexivity|].
  refine (time_stamped_on_pull NMEA Samples.disk (fun _ => Samples.load_time)
            (fun _ => Samples.pull_time) ["route.nmea"] _ 1 0 _
            (fun _ => eq_refl) (fun _ => eq_refl) _ _);
    vm_compute; reflexivity.
Defined.

(** C2, counterexample: the NMEA generator built from a file with one RMC
    line, pulled at [pull_time], yields a position whose time is the one
    written in the line. *)
Lemma nmea_time_not_stamped :
  option_map (fun G => option_map (@time Samples.B)
                         (hd_error (yields [fst (next Samples.pull_time G)])))
             (construct NMEA Samples.disk (fun _ => Samples.load_time)
                        ["route.nmea"])
  = Some (Some Samples.rmc_line_time)
  /\ Samples.rmc_line_time <> Samples.pull_time.
Proof.
  split; [vm_compute; reflexivity | discriminate].
Qed.

(** C3, the failing input: a file whose only line does not decode gives an
    NMEA generator, with no position in it, whose first pull raises
    [StopIteration]. *)
Theorem nmea_accepts_empty_route :
  construct NMEA Samples.disk (fun _ => Samples.load_time) ["bad.nmea"]
  = Some (mk_generator NMEA (@mk_gen Samples.B [] 0 None None))
  /\ fst (next Samples.pull_time
               (mk_generator NMEA (@mk_gen Samples.B [] 0 None None)))
     = StopIteration.
Proof.
  split; vm_compute; reflexivity.
Qed.

(** C7, witness: [CSVGenerator("route.csv", "index=100")] on the sample
    directory. *)
Lemma index_override_numbers_witness :
  PyNum.py_int "100" = Some 100
  /\ construct CSV Samples.disk (fun _ => Samples.load_time)
               ["route.csv"; "index=100"] = Some Samples.csv_generator_100
  /\ map (@index Samples.B)
         (yields (fst (pulls (fun _ => Samples.pull_time) 1
                             Samples.csv_generator_100)))
     = [100].
Proof.
  split; [reflexivity|]. split; [vm_compute; reflexivity|].
  exact (index_override_numbers CSV Samples.disk (fun _ => Samples.load_time)
           (fun _ => Samples.pull_time) ["route.csv"] [] "100" 100
           Samples.csv_generator_100 eq_refl (Forall_nil _) eq_refl).
Defined.

(** ** The codec on binary64 *)

(** C9.  The row [1,59.9343,30.3351,10.0,5.5,2.0,manual,"Start"], read by
    [csv.reader] and loaded with no override, gives one position with index
    1, latitude 59.9343, longitude 30.3351, speed 10.0, elevation 5.5,
    duration 2.0, transition [manual] and description [Start]; whatever time
    is stamped on it, its GGA sentence carries the latitude field
    [5956.058000] with [N] and the longitude field [03020.106000] with
    [E]. *)
Theorem csv_scenario :
  PyCsv.record Samples.start_row = Some Samples.start_fields
  /\ construct CSV Samples.disk (fun _ => Samples.load_time) ["route.csv"]
     = Some Samples.csv_generator
  /\ (forall now : datetime,
        encode_gga (with_time Samples.start_position now)
        = Some (frame ("GPGGA," ++ time_str_of now
                       ++ ",5956.058000,N,03020.106000,E,1,08,1.0,5.5,M,0.0,M,,")))
  /\ option_map (fun s => firstn 4 (skipn 2 (PyStr.split "," s)))
                (encode_gga (with_time Samples.start_position Samples.pull_time))
     = Some ["5956.058000"; "N"; "03020.106000"; "E"].
Proof.
  split; [vm_compute; reflexivity|].
  split; [vm_compute; reflexivity|].
  split; [|vm_compute; reflexivity].
  intros now.
  assert (Hc : format_coords (lat Samples.start_position)
                             (lon Samples.start_position)
               = Some ("5956.058000", "N", "03020.106000", "E"))
    by (vm_compute; reflexivity).
  assert (He : PyNum.fmt_f 0 1 (f_view (elevation Samples.start_position))
               = "5.5") by (vm_compute; reflexivity).
  unfold encode_gga, gga_body.
  cbn [lat lon elevation time with_time].
  rewrite Hc, He. reflexivity.
Qed.

(** ** The encoder *)

Section EncoderClaims.
Context {F : Type} {PF : PyFloat F}.

(** C5.  In every sentence the encoder produces, GGA or RMC, the exclusive
    or of the byte values of the characters strictly between the leading
    dollar and the trailing star is written, as two uppercase hexadecimal
    digits, right after that star (and a CR LF ends the sentence). *)
Theorem checksum_of_encoded (data : Position F) (sentence : string) :
  encode_gga data = Some sentence \/ encode_rmc data = Some sentence ->
  ChecksumSpec.checksum_holds sentence = true.
Proof.
  unfold encode_gga, encode_rmc.
  intros [H|H].
  - destruct (gga_body data) as [b|]; [|discriminate].
    injection H as <-. apply frame_checksum_holds.
  - destruct (rmc_body data) as [b|]; [|discriminate].
    injection H as <-. apply frame_checksum_holds.
Qed.

End EncoderClaims.

(** C5, witness: the GGA sentence of the sample position. *)
Lemma checksum_of_encoded_witness :
  ChecksumSpec.checksum_holds Samples.gga_sentence = true.
Proof.
  apply (checksum_of_encoded
           (with_time Samples.start_position Samples.pull_time)).
  left. vm_compute. reflexivity.
Defined.

(** ** The decoder *)

Section DecoderClaims.
Context {F : Type} {PF : PyFloat F}.

(** C10.  The decoder does not look at what follows the first star: two
    lines that agree up to it decode alike, both to the same position or
    both to a failure, whatever checksum digits (right or wrong) follow. *)
Theorem checksum_ignored (now : datetime) (p s1 s2 : string) :
  PyStr.contains "*" p = false ->
  decode (F := F) now (p ++ "*" ++ s1) = decode now (p ++ "*" ++ s2).
Proof.
  intros Hp. unfold decode.
  rewrite (startswith_dollar_star p s1 s2).
  rewrite !(fields_of_star p _ Hp). reflexivity.
Qed.

(** C6 (as amended).  [decode] raises exactly when the line has no leading
    dollar, or, with the line stripped, cut in front of its first star and
    split at the commas after its first character, the first field is none
    of GPRMC, GNRMC, RMC, GPGGA, GNGGA, GGA, or there are fewer than ten
    fields, or it is an RMC line whose validity flag is not [A], or no
    timestamp can be read (an empty time field, a pair of characters of the
    time or of the RMC date that [int] rejects, decimals of the seconds that
    [float] rejects, numbers that are not those of a [datetime]), or a
    latitude or longitude field that stands with its hemisphere letter has
    degrees that [int] rejects or that are too large for a float, or
    minutes that [float] rejects, or the speed field of an RMC line or the
    elevation field of a GGA line is there and [float] rejects it; on
    every other line it returns a position.  [$GPXXX,1,2,3*00] and every
    line that starts with [$GPRMC,120000.00,V,] are among the failures. *)
Theorem decode_fails_iff (now : datetime) (nmea : string) :
  (decode (F := F) now nmea = None
   <-> DecodeSpec.fails (F := F) now nmea = true)
  /\ decode (F := F) now "$GPXXX,1,2,3*00" = None
  /\ (forall rest, decode (F := F) now ("$GPRMC,120000.00,V," ++ rest) = None).
Proof.
  split; [|split; [reflexivity | apply decode_void_rmc]].
  assert (E : is_none (decode (F := F) now nmea)
              = DecodeSpec.fails (F := F) now nmea).
  { unfold decode, DecodeSpec.fails, DecodeSpec.listed_failure,
      DecodeSpec.unknown_type, DecodeSpec.too_few_fields, DecodeSpec.void_rmc,
      DecodeSpec.no_timestamp, DecodeSpec.bad_number, DecodeSpec.bad_float.
    rewrite startswith_dollar_spec, is_rmc_spec, is_gga_spec.
    destruct (DecodeSpec.no_dollar nmea); cbn [orb]; [reflexivity|].
    unfold decode_rmc, decode_gga.
    pose proof (parse_datetime_fails (F := F) now
                  (PyStr.field (fields_of nmea) 1)
                  (PyStr.field (fields_of nmea) 9)
                  (Some (PyStr.field (fields_of nmea) 9))
                  (or_introl eq_refl)) as TR.
    pose proof (parse_datetime_fails (F := F) now
                  (PyStr.field (fields_of nmea) 1) "" None
                  (or_intror (conj eq_refl eq_refl))) as TG.
    cbv zeta in TR, TG. cbv zeta.
    unfold DecodeSpec.nth_field. unfold PyStr.field in *.
    rewrite <- !fields_of_spec.
    set (fs := fields_of nmea) in *.
    destruct (DecodeSpec.rmc nmea); cbn [negb orb andb].
    - rewrite <- TR. clear TR TG.
      rewrite <- (parse_lat_fails (nth 3 fs "") (nth 4 fs "")).
      rewrite <- (parse_lon_fails (nth 5 fs "") (nth 6 fs "")).
      destruct (List.length fs <? 10)%nat; cbn [orb]; [reflexivity|].
      destruct (String.eqb (nth 2 fs "") "A"); cbn [negb orb]; [|reflexivity].
      destruct (_parse_lat (nth 3 fs "") (nth 4 fs "")); cbn [is_none orb];
        [|rewrite orb_true_r; reflexivity].
      destruct (_parse_lon (nth 5 fs "") (nth 6 fs "")); cbn [is_none orb];
        [|rewrite orb_true_r; reflexivity].
      destruct (PyStr.nonempty (nth 7 fs "")); cbn [andb orb];
        [destruct (py_float (nth 7 fs "")); cbn [is_none orb];
         [|rewrite orb_true_r; reflexivity]|];
        destruct (_parse_datetime now (nth 1 fs "") (Some (nth 9 fs "")));
        reflexivity.
    - destruct (DecodeSpec.gga nmea); cbn [negb orb]; [|reflexivity].
      rewrite <- TG. clear TR TG.
      rewrite <- (parse_lat_fails (nth 2 fs "") (nth 3 fs "")).
      rewrite <- (parse_lon_fails (nth 4 fs "") (nth 5 fs "")).
      destruct (List.length fs <? 10)%nat; cbn [orb]; [reflexivity|].
      destruct (_parse_lat (nth 2 fs "") (nth 3 fs "")); cbn [is_none orb];
        [|rewrite orb_true_r; reflexivity].
      destruct (_parse_lon (nth 4 fs "") (nth 5 fs "")); cbn [is_none orb];
        [|rewrite orb_true_r; reflexivity].
      destruct (PyStr.nonempty (nth 9 fs "")); cbn [andb orb];
        [destruct (py_float (nth 9 fs "")); cbn [is_none orb];
         [|rewrite orb_true_r; reflexivity]|];
        destruct (_parse_datetime now (nth 1 fs "") None);
        reflexivity. }
  rewrite <- E. destruct (decode now nmea); cbn [is_none]; split; congruence.
Qed.

End DecoderClaims.

(** C10, witness: the sample RMC line with its checksum and with [00]. *)
Lemma checksum_ignored_witness :
  PyStr.contains "*" Samples.rmc_text = false
  /\ decode (F := Samples.B) Samples.load_time (Samples.rmc_text ++ "*" ++ "5A")
     = decode Samples.load_time (Samples.rmc_text ++ "*" ++ "00").
Proof.
  split; [reflexivity|].
  exact (checksum_ignored Samples.load_time Samples.rmc_text "5A" "00" eq_refl).
Defined.

(** C6, counterexample: a GGA line with a dollar, a recognised type, ten
    fields and a timestamp that parses, on which [decode] raises because its
    latitude is not a number. *)
Lemma decode_fails_unlisted :
  decode (F := Samples.B) Samples.load_time Samples.abc_line = None
  /\ DecodeSpec.listed_failure (F := Samples.B) Samples.load_time
       Samples.abc_line = false.
Proof.
  split; vm_compute; reflexivity.
Qed.

(** ** The relay *)

(** C1 (as amended).  A pair put on an empty queue with [add_data rmc gga]
    and relayed: every client that is still connected afterwards has
    received, after what it had received before, the first sentence of the
    pair ([rmc]) and then the second ([gga]), with nothing in between. *)
Theorem relay_sends_rmc_then_gga (t : Net.ClientThread) (rmc gga : string)
        (c c' : Net.conn) :
  Net._data_queue t = [] ->
  NoDup (map Net.fd (Net._clients t)) ->
  In c (Net._clients t) ->
  Net.lookup_conn (Net.fd c)
    (Net._clients (Net.drain (Net.add_data t rmc gga))) = Some c' ->
  Net.received c' = (Net.received c ++ rmc ++ gga)%string.
Proof.
  intros Hq N Hin H.
  unfold Net.drain, Net.add_data in H. cbn [Net._data_queue Net._clients] in H.
  rewrite Hq in H.
  cbn [app Net.drain_queue Net._broadcast Net._clients] in H.
  destruct (broadcast_loop_received rmc gga (map Net.fd (Net._clients t))
              (Net._clients t) (Net.fd c) c c' N N
              (lookup_conn_in c _ N Hin) H) as [A _].
  apply A, in_map, Hin.
Qed.

(** C1, witness: the sample relay with its one client. *)
Lemma relay_sends_rmc_then_gga_witness :
  Net.received
    (Net.mk_conn 7 (Samples.rmc_sentence ++ Samples.gga_sentence) None false)
  = (Net.received Samples.client
     ++ Samples.rmc_sentence ++ Samples.gga_sentence)%string.
Proof.
  apply (relay_sends_rmc_then_gga Samples.relay Samples.rmc_sentence
           Samples.gga_sentence Samples.client).
  - reflexivity.
  - repeat constructor. simpl. tauto.
  - simpl. tauto.
  - vm_compute. reflexivity.
Defined.

(** C1, counterexample: the two sentences of the sample position, enqueued
    as the encoder names them, reach the client as the RMC sentence followed
    by the GGA sentence, which is not the GGA sentence followed by the RMC
    sentence. *)
Lemma relay_sends_rmc_first :
  encode_rmc (with_time Samples.start_position Samples.pull_time)
  = Some Samples.rmc_sentence
  /\ encode_gga (with_time Samples.start_position Samples.pull_time)
     = Some Samples.gga_sentence
  /\ map Net.received
         (Net._clients
            (Net.drain (Net.add_data Samples.relay Samples.rmc_sentence
                                     Samples.gga_sentence)))
     = [(Samples.rmc_sentence ++ Samples.gga_sentence)%string]
  /\ (Samples.rmc_sentence ++ Samples.gga_sentence)%string
     <> (Samples.gga_sentence ++ Samples.rmc_sentence)%string.
Proof.
  repeat split; try (vm_compute; reflexivity).
  vm_compute. discriminate.
Qed.

(** ** The round trip through a sentence *)

Section RoundTrip.
Import PyStr PyNum PyTime.
#[local] Open Scope Q_scope.
#[local] Open Scope string_scope.

(** C4 (as amended).  On binary64, a position whose latitude is a finite
    float in [-90, 90], whose longitude is one in [-180, 180] and whose
    speed is one from 0 to 1e307 km/h, whatever its elevation, goes through
    either sentence and back.  The GGA sentence decodes to the same
    latitude and longitude within half a millionth of a minute
    (1/120000000 degree) and the rounding of the float operations (less
    than 1e-13 degree), and to the elevation written to one decimal.  The
    RMC sentence decodes to the same latitude and longitude, within the
    same tolerance, and to a speed that is off by at most 0.09261 km/h
    (half a tenth of a knot is 0.0926 km/h) plus 0.3641 millionths of the
    speed (the two conversion factors multiply to 1.000000364). *)
Theorem codec_round_trip (p : Position Binary64.t) (now : datetime) :
  finite64 (lat p) = true -> float64 (lat p) -> Qabs (real (lat p)) <= 90 ->
  finite64 (lon p) = true -> float64 (lon p) -> Qabs (real (lon p)) <= 180 ->
  finite64 (speed p) = true -> float64 (speed p) ->
  0 <= real (speed p) -> real (speed p) <= max_speed ->
  valid (time p) = true -> valid now = true ->
  exists gga rmc g r,
    encode_gga p = Some gga /\ decode now gga = Some g
    /\ near coord_tolerance (lat g) (lat p)
    /\ near coord_tolerance (lon g) (lon p)
    /\ elevation g = one_decimal (elevation p)
    /\ encode_rmc p = Some rmc /\ decode now rmc = Some r
    /\ near coord_tolerance (lat r) (lat p)
    /\ near coord_tolerance (lon r) (lon p)
    /\ near (speed_tolerance (real (speed p))) (speed r) (speed p).
Proof.
  intros Fla Vla Rla Flo Vlo Rlo Fsp Vsp Rsp Msp Vt Vn.
  destruct (decode_encoded p now Fla Vla Rla Flo Vlo Rlo Vt Vn)
    as (gga & rmc & la & lo & Eg & Er & Dg & Dr & Nla & Nlo).
  exists gga, rmc. eexists _, _.
  split; [exact Eg|]. split; [exact Dg|].
  cbn [lat lon elevation speed position6].
  split; [exact Nla|]. split; [exact Nlo|]. split; [reflexivity|].
  split; [exact Er|]. split; [exact Dr|].
  cbn [lat lon elevation speed position6].
  split; [exact Nla|]. split; [exact Nlo|].
  apply speed_round_trip; assumption.
Qed.

End RoundTrip.

(** C4, witness: the sample position, stamped with [pull_time]. *)
Lemma codec_round_trip_witness :
  let p := with_time Samples.start_position Samples.pull_time in
  exists gga rmc g r,
    encode_gga p = Some gga
    /\ decode Samples.load_time gga = Some g
    /\ near coord_tolerance (lat g) (lat p)
    /\ near coord_tolerance (lon g) (lon p)
    /\ elevation g = one_decimal (elevation p)
    /\ encode_rmc p = Some rmc
    /\ decode Samples.load_time rmc = Some r
    /\ near coord_tolerance (lat r) (lat p)
    /\ near coord_tolerance (lon r) (lon p)
    /\ near (speed_tolerance (real (speed p))) (speed r) (speed p).
Proof.
  apply (codec_round_trip (with_time Samples.start_position Samples.pull_time)
           Samples.load_time);
    try reflexivity; unfold Qle; vm_compute; discriminate.
Defined.

(** C4, counterexample: on binary64, the sample position at 1e9 km/h comes
    back from its RMC sentence at 1000000364 km/h, 364 km/h more. *)
Lemma speed_drifts_at_high_speed :
  speed Samples.fast_position = f_lit false 1000000000 0
  /\ f_trunc (speed Samples.fast_position) = Some 1000000000
  /\ option_map (@speed Samples.B)
                (rmc <- encode_rmc Samples.fast_position ;;
                 decode Samples.load_time rmc)
     = Some (f_lit false 1000000364 0)
  /\ f_trunc (f_lit (F := Samples.B) false 1000000364 0) = Some 1000000364.
Proof.
  repeat split; vm_compute; reflexivity.
Qed.

(** On binary64 the sample position comes back from either sentence with
    the very latitude and longitude it had. *)
Example sample_round_trip_binary64 :
  let p := with_time Samples.start_position Samples.pull_time in
  option_map (fun g => (lat g, lon g))
             (gga <- encode_gga p ;; decode Samples.load_time gga)
  = Some (lat p, lon p)
  /\ option_map (fun r => (lat r, lon r))
                (rmc <- encode_rmc p ;; decode Samples.load_time rmc)
     = Some (lat p, lon p).
Proof.
  split; vm_compute; reflexivity.
Qed.

(** * Further properties *)

(** ** The encoder *)

Section AsciiFacts.
Import PyStr PyNum PyTime ChecksumSpec.
Context {F : Type} {PF : PyFloat F}.

Lemma all_ascii_chars (s : string) : Net.all_ascii s = all_chars is_ascii s.
Proof.
  induction s as [|c r IH]; cbn; [reflexivity | rewrite IH; reflexivity].
Qed.

Lemma ascii_append a b : ascii_text a -> ascii_text b -> ascii_text (a ++ b).
Proof.
  unfold ascii_text. intros A B. rewrite all_chars_append, A, B. reflexivity.
Qed.

Lemma ascii_digits s : all_chars is_digit s = true -> ascii_text s.
Proof.
  apply all_chars_weaken. intros c H. unfold is_digit in H.
  apply andb_true_iff in H. destruct H as [_ H]. apply N.leb_le in H.
  unfold is_ascii. apply N.ltb_lt. lia.
Qed.

Lemma ascii_sign neg : ascii_text (sign_str neg).
Proof. destruct neg; reflexivity. Qed.

Lemma ascii_zfill w s : ascii_text s -> ascii_text (zfill w s).
Proof.
  intros H. unfold zfill. apply ascii_append; [|exact H].
  apply ascii_digits, all_digits_zeros.
Qed.

Lemma ascii_dec n : ascii_text (dec n).
Proof. apply ascii_digits. apply (dec_spec n). Qed.

Lemma ascii_fmt_d w z : ascii_text (fmt_d w z).
Proof.
  unfold fmt_d. apply ascii_append; [apply ascii_sign|].
  apply ascii_zfill, ascii_dec.
Qed.

Lemma ascii_fixed_digits p q : ascii_text (fixed_digits p q).
Proof.
  unfold fixed_digits. destruct p; [apply ascii_dec|].
  apply ascii_append; [apply ascii_dec|].
  apply ascii_append; [reflexivity|]. apply ascii_zfill, ascii_dec.
Qed.

Lemma ascii_fmt_f w p v : ascii_text (fmt_f w p v).
Proof.
  destruct v as [|neg|neg q]; cbn [fmt_f].
  - apply ascii_zfill. reflexivity.
  - apply ascii_append; [apply ascii_sign|]. apply ascii_zfill. reflexivity.
  - apply ascii_append; [apply ascii_sign|].
    apply ascii_zfill, ascii_fixed_digits.
Qed.

Lemma ascii_time_str d : ascii_text (time_str_of d).
Proof.
  unfold time_str_of, slice_to. apply all_chars_take.
  unfold strftime_HMSf.
  repeat (apply ascii_append; [first [apply ascii_fmt_d | reflexivity]|]).
  apply ascii_fmt_d.
Qed.

Lemma ascii_strftime_dmy d : ascii_text (strftime_dmy d).
Proof.
  unfold strftime_dmy.
  repeat (apply ascii_append; [apply ascii_fmt_d|]). apply ascii_fmt_d.
Qed.

(** The two hexadecimal digits of a checksum are ASCII. *)
Lemma ascii_checksum body : ascii_text (calculate_checksum body).
Proof.
  unfold calculate_checksum. rewrite xor_bytes_acc, N.lxor_0_l.
  pose proof (xor_all_byte body) as B. set (n := xor_all body) in *.
  assert (A : forallb (fun k => all_chars is_ascii (fmt_X 2 (N.of_nat k)))
                      (seq 0 256) = true) by (vm_compute; reflexivity).
  rewrite forallb_forall in A.
  specialize (A (N.to_nat n)). rewrite N2Nat.id in A.
  apply A, in_seq. lia.
Qed.

Lemma ascii_frame body : ascii_text body -> ascii_text (frame body).
Proof.
  intros H. unfold frame.
  apply ascii_append; [reflexivity|]. apply ascii_append; [exact H|].
  apply ascii_append; [reflexivity|].
  apply ascii_append; [apply ascii_checksum | reflexivity].
Qed.

Lemma ascii_format_coord w x s :
  format_coord (F := F) w x = Some s -> ascii_text s.
Proof.
  unfold format_coord. intros H.
  destruct (f_trunc x) as [deg|]; [|discriminate].
  destruct (f_of_int deg) as [deg_f|]; [|discriminate].
  injection H as <-. apply ascii_append; [apply ascii_fmt_d | apply ascii_fmt_f].
Qed.

Lemma ascii_if (b : bool) x y :
  ascii_text x -> ascii_text y -> ascii_text (if b then x else y).
Proof. destruct b; auto. Qed.

Lemma ascii_gga_body (data : Position F) body :
  gga_body data = Some body -> ascii_text body.
Proof.
  unfold gga_body, format_coords. intros H.
  destruct (format_coord 2 (lat data)) as [la|] eqn:Ela; [|discriminate].
  destruct (format_coord 3 (lon data)) as [lo|] eqn:Elo; [|discriminate].
  injection H as <-.
  apply ascii_format_coord in Ela, Elo.
  repeat (apply ascii_append;
          [first [ reflexivity | apply ascii_time_str | assumption
                 | apply ascii_fmt_f | apply ascii_if; reflexivity ]|]).
  reflexivity.
Qed.

Lemma ascii_rmc_body (data : Position F) body :
  rmc_body data = Some body -> ascii_text body.
Proof.
  unfold rmc_body, format_coords. intros H.
  destruct (format_coord 2 (lat data)) as [la|] eqn:Ela; [|discriminate].
  destruct (format_coord 3 (lon data)) as [lo|] eqn:Elo; [|discriminate].
  injection H as <-.
  apply ascii_format_coord in Ela, Elo.
  repeat (apply ascii_append;
          [first [ reflexivity | apply ascii_time_str | assumption
                 | apply ascii_fmt_f | apply ascii_if; reflexivity
                 | apply ascii_strftime_dmy ]|]).
  reflexivity.
Qed.

Lemma xor_all_append (a b : string) :
  xor_all (a ++ b) = N.lxor (xor_all a) (xor_all b).
Proof.
  induction a as [|c a IH]; cbn [append xor_all].
  - rewrite N.lxor_0_l. reflexivity.
  - rewrite IH, N.lxor_assoc. reflexivity.
Qed.

(** X1.  A sentence the encoder produces, GGA or RMC, is made of ASCII
    characters only, whatever the floats of the position are: the
    [.encode('ascii')] of [_broadcast] returns it unchanged and never
    raises on it. *)
Theorem encoded_sentences_are_ascii (data : Position F) (sentence : string) :
  encode_gga data = Some sentence \/ encode_rmc data = Some sentence ->
  Net.encode_ascii sentence = Some sentence.
Proof.
  intros H. unfold Net.encode_ascii. rewrite all_ascii_chars.
  assert (A : ascii_text sentence).
  { destruct H as [H|H]; [unfold encode_gga in H | unfold encode_rmc in H].
    - destruct (gga_body data) as [b|] eqn:E; [|discriminate].
      injection H as <-. apply ascii_frame. eapply ascii_gga_body; eauto.
    - destruct (rmc_body data) as [b|] eqn:E; [|discriminate].
      injection H as <-. apply ascii_frame. eapply ascii_rmc_body; eauto. }
  rewrite A. reflexivity.
Qed.

(** X2.  [calculate_checksum] is an exclusive or, so it does not see the
    order of the characters: two sentences that differ by the exchange of
    two neighbouring pieces [a] and [b] have the same checksum. *)
Theorem checksum_misses_transpositions (p a b q : string) :
  calculate_checksum (p ++ a ++ b ++ q) = calculate_checksum (p ++ b ++ a ++ q).
Proof.
  unfold calculate_checksum. f_equal. rewrite !xor_bytes_acc. f_equal.
  rewrite !xor_all_append. f_equal.
  rewrite <- (N.lxor_assoc (xor_all a)), <- (N.lxor_assoc (xor_all b)).
  rewrite (N.lxor_comm (xor_all a)). reflexivity.
Qed.

End AsciiFacts.

(** X1, witness: the GGA sentence of the sample position. *)
Lemma encoded_sentences_are_ascii_witness :
  encode_gga (with_time Samples.start_position Samples.pull_time)
  = Some Samples.gga_sentence
  /\ Net.encode_ascii Samples.gga_sentence = Some Samples.gga_sentence.
Proof.
  assert (H : encode_gga (with_time Samples.start_position Samples.pull_time)
              = Some Samples.gga_sentence) by (vm_compute; reflexivity).
  split; [exact H|].
  exact (encoded_sentences_are_ascii
           (with_time Samples.start_position Samples.pull_time)
           Samples.gga_sentence (or_introl H)).
Defined.

Section TimeField.
Import PyStr PyNum PyTime.

Lemma digit_val_inj (c c' : ascii) :
  is_digit c = true -> is_digit c' = true ->
  digit_val c = digit_val c' -> c = c'.
Proof.
  unfold is_digit, digit_val, ord. intros H H' E.
  apply andb_true_iff in H, H'. destruct H as [A _], H' as [A' _].
  apply N.leb_le in A, A'.
  rewrite <- (ascii_N_embedding c), <- (ascii_N_embedding c'). f_equal. lia.
Qed.

(** Two runs of digits of one length that denote one number are equal. *)
Lemma digits_eq (a : string) :
  forall b,
    all_chars is_digit a = true -> all_chars is_digit b = true ->
    String.length a = String.length b -> nval a 0 = nval b 0 -> a = b.
Proof.
  induction a as [|c r IH]; intros [|c' r'] A B L V; try discriminate; auto.
  cbn [all_chars] in A, B. apply andb_true_iff in A, B.
  destruct A as [Dc Ar], B as [Dc' Ar'].
  cbn [String.length] in L. injection L as L.
  cbn [nval] in V. rewrite !N.mul_0_l, !N.add_0_l in V.
  destruct (nval_shift r Ar (digit_val c)) as [E1 _].
  destruct (nval_shift r' Ar' (digit_val c')) as [E2 _].
  destruct (nval_shift r Ar 0%N) as [_ B1].
  destruct (nval_shift r' Ar' 0%N) as [_ B2].
  rewrite E1, E2, <- L in V. rewrite <- L in B2.
  set (P := (10 ^ N.of_nat (String.length r))%N) in *.
  assert (Ed : digit_val c = digit_val c').
  { destruct (N.lt_trichotomy (digit_val c) (digit_val c')) as [T|[T|T]];
      [exfalso; nia | exact T | exfalso; nia]. }
  assert (Er : nval r 0 = nval r' 0) by (rewrite Ed in V; lia).
  f_equal; [apply digit_val_inj; assumption | apply IH; assumption].
Qed.

(** X3.  The time field of a sentence is the hour, the minute and the
    second in two digits each, a point, and the milliseconds in three
    digits; the microseconds below a millisecond are cut off, not rounded
    (999999 microseconds are written [.999]). *)
Theorem time_field_truncates_to_milliseconds (d : datetime) :
  valid d = true ->
  time_str_of d
  = fmt_d 2 (hour d) ++ fmt_d 2 (minute d) ++ fmt_d 2 (second d) ++ "."
    ++ fmt_d 3 (microsecond d / 1000).
Proof.
  intros V. apply valid_fields in V.
  destruct (fmt_d_field 2 (hour d)) as (A1 & L1 & P1 & _); [lia|simpl; lia|].
  destruct (fmt_d_field 2 (minute d)) as (A2 & L2 & P2 & _); [lia|simpl; lia|].
  destruct (fmt_d_field 2 (second d)) as (A3 & L3 & P3 & _); [lia|simpl; lia|].
  destruct (fmt_d_field 6 (microsecond d)) as (A4 & L4 & _ & V4);
    [lia|simpl; lia|].
  assert (Hms : 0 <= microsecond d / 1000 < 10 ^ Z.of_nat 3).
  { change (10 ^ Z.of_nat 3) with 1000. split.
    - apply Z.div_pos; lia.
    - apply Z.div_lt_upper_bound; lia. }
  destruct (fmt_d_field 3 (microsecond d / 1000)) as (A5 & L5 & _ & V5);
    [lia|exact Hms|].
  set (HH := fmt_d 2 (hour d)) in *. set (MM := fmt_d 2 (minute d)) in *.
  set (SS := fmt_d 2 (second d)) in *. set (U6 := fmt_d 6 (microsecond d)) in *.
  set (U3 := fmt_d 3 (microsecond d / 1000)) in *.
  assert (T : time_str_of d = HH ++ MM ++ SS ++ "." ++ take 3 U6).
  { unfold time_str_of, strftime_HMSf, slice_to.
    fold HH MM SS U6.
    replace (clamp _ (-3)) with (String.length HH + (String.length MM
                                 + (String.length SS + 4)))%nat.
    - rewrite !take_append_more. reflexivity.
    - unfold clamp. rewrite !length_append, L1, L2, L3, L4. reflexivity. }
  rewrite T. do 4 f_equal.
  assert (At : all_chars is_digit (take 3 U6) = true)
    by (apply all_chars_take; exact A4).
  apply digits_eq; auto.
  - rewrite length_take by lia. congruence.
  - pose proof (take_drop 3 U6) as TD.
    assert (Ad : all_chars is_digit (drop 3 U6) = true)
      by (apply all_chars_drop; exact A4).
    assert (Ld : String.length (drop 3 U6) = 3%nat).
    { pose proof (length_append (take 3 U6) (drop 3 U6)) as LA.
      rewrite TD, L4, length_take in LA by lia. lia. }
    rewrite <- TD, nval_append in V4.
    destruct (nval_shift _ Ad (nval (take 3 U6) 0)) as [E B]. rewrite Ld in E.
    destruct (nval_shift _ Ad 0%N) as [_ B0]. rewrite Ld in B0.
    rewrite E in V4. change (10 ^ N.of_nat 3)%N with 1000%N in *.
    rewrite V5. apply N2Z.inj. rewrite Z2N.id by lia.
    assert (Hus : microsecond d
                  = (Z.of_N (nval (take 3 U6) 0) * 1000
                     + Z.of_N (nval (drop 3 U6) 0))%Z) by lia.
    rewrite Hus.
    rewrite Z.div_add_l by lia. rewrite Z.div_small by lia. lia.
Qed.

End TimeField.

(** X3, witness: the clock reading [pull_time], 09:30:07.250000. *)
Lemma time_field_truncates_to_milliseconds_witness :
  PyTime.valid Samples.pull_time = true
  /\ time_str_of Samples.pull_time
     = (PyNum.fmt_d 2 9 ++ PyNum.fmt_d 2 30 ++ PyNum.fmt_d 2 7 ++ "."
        ++ PyNum.fmt_d 3 (250000 / 1000))%string.
Proof.
  split; [reflexivity|].
  exact (time_field_truncates_to_milliseconds Samples.pull_time eq_refl).
Defined.

Section EncoderOnFloats.
Import PyStr PyNum PyTime.
#[local] Open Scope Q_scope.
#[local] Open Scope string_scope.

(** X4.  On binary64, [encode_gga] and [encode_rmc] raise on the same
    positions: those whose latitude or longitude is an infinity or a NaN
    ([int] raises on it).  On every finite latitude and longitude, however
    large, they return a sentence ([float(int(x))] does not overflow).  An
    infinity or a NaN as speed or elevation is written out ([inf], [nan])
    and does not make them raise. *)
Theorem encoding_fails_iff_not_finite (data : Position Binary64.t) :
  float64 (lat data) -> float64 (lon data) ->
  (encode_gga data = None
   <-> finite64 (lat data) && finite64 (lon data) = false)
  /\ (encode_rmc data = None
      <-> finite64 (lat data) && finite64 (lon data) = false).
Proof.
  intros Vla Vlo.
  pose proof (format_coord_fails 2 (lat data) Vla) as Hla.
  pose proof (format_coord_fails 3 (lon data) Vlo) as Hlo.
  unfold encode_gga, encode_rmc, gga_body, rmc_body, format_coords.
  destruct (format_coord 2 (lat data)) as [sla|];
    destruct (format_coord 3 (lon data)) as [slo|];
    destruct (finite64 (lat data)); destruct (finite64 (lon data));
    cbn [andb]; split; split; intros H; try reflexivity; try discriminate;
    try (destruct Hla as [Hla _]; specialize (Hla eq_refl); discriminate);
    try (destruct Hla as [_ Hla]; specialize (Hla eq_refl); discriminate);
    try (destruct Hlo as [Hlo _]; specialize (Hlo eq_refl); discriminate);
    try (destruct Hlo as [_ Hlo]; specialize (Hlo eq_refl); discriminate).
Qed.

(** X5.  On binary64: when the minutes of a coordinate round up to sixty
    at the sixth decimal, as they do for a non-negative coordinate whose
    minutes exceed 59.9999996, [format_coords] writes the minutes as
    [60.000000] after the unchanged degrees; it does not carry them into
    the degrees. *)
Theorem minutes_are_not_carried (w : nat) (x : Binary64.t) (deg : Z) :
  finite64 x = true -> float64 x -> 0 <= real x -> real x <= 180 ->
  f_trunc x = Some deg ->
  (599999996 # 10000000) < (real x - inject_Z deg) * (60 # 1) ->
  format_coord (F := Binary64.t) w x = Some (fmt_d w deg ++ "60.000000").
Proof.
  intros Fx Vx H0 H180 Ht Hm.
  pose proof tiny64_pos as Tp. pose proof tiny64_small as Ts.
  destruct (format_coord64 w x Fx Vx)
    as (k & q & Hk0 & Hkl & Hku & Et & Hf & Hq0 & Bq).
  { rewrite Qabs_pos by exact H0. exact H180. }
  rewrite Qabs_pos in Hkl, Hku, Bq by exact H0.
  assert (Nn : negative x = false).
  { destruct x as [s| | |[|] m e]; try reflexivity.
    cbn [real] in H0. pose proof (mag_pos m e). lra. }
  rewrite Nn in Et. cbn [f_trunc Binary64.ops] in Ht.
  rewrite Et in Ht. injection Ht as <-.
  rewrite Hf. do 2 f_equal.
  set (n := round_half_even (q * (Z.of_N (pow10 6) # 1))).
  assert (Hn : n = 60000000%N).
  { pose proof (round6_close q Hq0) as C. fold n in C.
    apply Qabs_Qle_condition in C.
    rewrite (Qmake_scale (Z.of_N n) 1000000) in C.
    unfold eps64 in Bq.
    clearbody n.
    set (N1 := Z.of_N n) in *. set (K := inject_Z k) in *.
    set (X := real x) in *.
    assert (E : N1 = 60000000%Z).
    { assert (L : (N1 # 1) < (60000001 # 1)) by (clearbody N1 K X; lra).
      assert (U : (59999999 # 1) < (N1 # 1)) by (clearbody N1 K X; lra).
      unfold Qlt in L, U. cbn [Qnum Qden] in L, U. lia. }
    unfold N1 in E. lia. }
  unfold fmt_f. rewrite fixed_digits_form by lia. fold n. rewrite Hn.
  vm_compute. reflexivity.
Qed.

End EncoderOnFloats.

(** X4, witness: the sample position. *)
Lemma encoding_fails_iff_not_finite_witness :
  (encode_gga Samples.start_position = None
   <-> finite64 (lat Samples.start_position)
       && finite64 (lon Samples.start_position) = false)
  /\ (encode_rmc Samples.start_position = None
      <-> finite64 (lat Samples.start_position)
          && finite64 (lon Samples.start_position) = false).
Proof.
  exact (encoding_fails_iff_not_finite Samples.start_position
           eq_refl eq_refl).
Defined.

(** X5, witness: the latitude 59.9999999999 is written [5960.000000]. *)
Lemma minutes_are_not_carried_witness :
  format_coord (F := Samples.B) 2 MoreSamples.almost_sixty
  = Some "5960.000000".
Proof.
  apply (minutes_are_not_carried 2 MoreSamples.almost_sixty 59);
    try reflexivity; unfold Qle; vm_compute; discriminate.
Defined.

(** ** The decoder *)

Section DecoderMore.
Import PyStr PyNum PyTime.
Context {F : Type} {PF : PyFloat F}.

Lemma rstrip_spaces (ws : string) :
  all_chars is_space ws = true -> rstrip ws = "".
Proof.
  induction ws as [|c r IH]; cbn [all_chars rstrip]; auto.
  intros H. apply andb_true_iff in H. destruct H as [Hc Hr].
  rewrite (IH Hr), Hc. reflexivity.
Qed.

Lemma rstrip_append_spaces (s ws : string) :
  all_chars is_space ws = true -> rstrip (s ++ ws) = rstrip s.
Proof.
  intros H. induction s as [|c r IH]; cbn [append rstrip].
  - apply rstrip_spaces, H.
  - rewrite IH. reflexivity.
Qed.

Lemma space_not_dollar (c : ascii) :
  is_space c = true -> Ascii.eqb "$" c = false.
Proof.
  intros H. destruct (Ascii.eqb_spec "$" c) as [<-|];
    [discriminate | reflexivity].
Qed.

(** X6.  [decode] tests for the leading dollar before it strips the line:
    blanks (spaces, CR, LF, ...) after a line change nothing, and a line
    with a blank in front is refused. *)
Theorem decode_strips_the_end_only (now : datetime) (s ws : string) :
  all_chars is_space ws = true ->
  decode (F := F) now (s ++ ws) = decode now s
  /\ (ws <> "" -> decode (F := F) now (ws ++ s) = None).
Proof.
  intros H. split.
  - unfold decode. destruct s as [|c r].
    + cbn [append]. destruct ws as [|w ws']; [reflexivity|].
      cbn [all_chars] in H. apply andb_true_iff in H. destruct H as [Hw _].
      cbn [startswith]. rewrite (space_not_dollar w Hw). reflexivity.
    + cbn [append startswith].
      destruct (Ascii.eqb_spec "$" c) as [<-|]; [|reflexivity].
      cbn [andb negb].
      replace (fields_of (String "$" (r ++ ws))) with (fields_of (String "$" r));
        [reflexivity|].
      unfold fields_of, strip.
      change (lstrip (String "$" (r ++ ws))) with (String "$" r ++ ws).
      change (lstrip (String "$" r)) with (String "$" r).
      rewrite rstrip_append_spaces by exact H. reflexivity.
  - intros Hne. destruct ws as [|w ws']; [congruence|].
    cbn [all_chars] in H. apply andb_true_iff in H. destruct H as [Hw _].
    unfold decode. cbn [append startswith].
    rewrite (space_not_dollar w Hw). reflexivity.
Qed.

Lemma find_Some_le (c : ascii) (s : string) (i : nat) :
  find c s = Some i -> (i <= String.length s)%nat.
Proof.
  revert i; induction s as [|a r IH]; intros i H; cbn [find] in H;
    [discriminate|].
  destruct (Ascii.eqb a c).
  - injection H as <-. cbn. lia.
  - destruct (find c r) as [j|]; [|discriminate]. injection H as <-.
    specialize (IH j eq_refl). cbn. lia.
Qed.

(** The fields of a line that starts with a dollar, a plain word and a
    comma: the word, and fields that do not depend on it. *)
Lemma fields_of_head (t r : string) :
  plain_word t ->
  fields_of ("$" ++ t ++ "," ++ r) = t :: split "," (before_star r).
Proof.
  intros Ht.
  assert (Hc : clean t).
  { revert Ht. apply all_chars_weaken. intros c H.
    apply andb_true_iff in H. tauto. }
  pose proof (clean_no_comma t Hc) as Hcomma.
  unfold fields_of, strip.
  change (lstrip ("$" ++ t ++ "," ++ r)) with ("$" ++ t ++ "," ++ r).
  change ("$" ++ t ++ "," ++ r) with (("$" ++ t) ++ String "," r).
  rewrite rstrip_append by reflexivity.
  set (r' := rstrip r).
  assert (Hq : find "*" (("$" ++ t) ++ ",") = None).
  { apply find_none_all_chars. rewrite all_chars_append.
    apply andb_true_iff. split; [|reflexivity].
    cbn [append all_chars]. apply andb_true_iff. split; [reflexivity|].
    revert Hc. apply all_chars_weaken. intros c H. unfold okch in H.
    apply andb_true_iff in H. tauto. }
  replace (("$" ++ t) ++ String "," r') with ((("$" ++ t) ++ ",") ++ r')
    by (rewrite append_assoc; reflexivity).
  rewrite (find_append_later _ _ r' Hq).
  unfold before_star. fold r'.
  destruct (find "*" r') as [i|] eqn:Ei; cbn [option_map].
  - unfold slice_to. rewrite clamp_in_range.
    2:{ rewrite (length_append _ r'). pose proof (find_Some_le _ _ _ Ei). lia. }
    rewrite take_append_more.
    rewrite !append_assoc. cbn [append]. rewrite slice_from_1.
    apply split_head, Hcomma.
  - rewrite !append_assoc. cbn [append]. rewrite slice_from_1.
    apply split_head, Hcomma.
Qed.

(** X7.  The three spellings of a sentence type that [decode] accepts, with
    the talker [GP], with the talker [GN] and without a talker, decode
    alike: two lines that differ in that spelling only give the same
    position, or both fail. *)
Theorem talker_is_ignored (now : datetime) (rest : string) :
  decode (F := F) now ("$GPRMC," ++ rest) = decode now ("$RMC," ++ rest)
  /\ decode (F := F) now ("$GNRMC," ++ rest) = decode now ("$RMC," ++ rest)
  /\ decode (F := F) now ("$GPGGA," ++ rest) = decode now ("$GGA," ++ rest)
  /\ decode (F := F) now ("$GNGGA," ++ rest) = decode now ("$GGA," ++ rest).
Proof.
  assert (A : forall t, plain_word t ->
                decode (F := F) now ("$" ++ t ++ "," ++ rest)
                = let fields := t :: split "," (before_star rest) in
                  if is_rmc t then decode_rmc now fields
                  else if is_gga t then decode_gga now fields else None).
  { intros t Ht. unfold decode.
    change (startswith ("$" ++ t ++ "," ++ rest) "$") with true.
    rewrite (fields_of_head t rest Ht). reflexivity. }
  pose proof (A "GPRMC" eq_refl) as A1. pose proof (A "RMC" eq_refl) as A2.
  pose proof (A "GNRMC" eq_refl) as A3. pose proof (A "GPGGA" eq_refl) as A4.
  pose proof (A "GGA" eq_refl) as A5. pose proof (A "GNGGA" eq_refl) as A6.
  cbn [append] in A1, A2, A3, A4, A5, A6.
  cbn [append]. rewrite A1, A2, A3, A4, A5, A6.
  repeat split; reflexivity.
Qed.

(** X8.  A position that [decode] returns has the index 0, the duration
    0.0, the transition [auto] and an empty description; from an RMC line
    it has the elevation 0.0, from a GGA line the speed 0.0. *)
Theorem decode_fills_in_defaults (now : datetime) (nmea : string)
        (p : Position F) :
  decode now nmea = Some p ->
  index p = 0 /\ duration p = f_zero /\ transition p = "auto"
  /\ description p = ""
  /\ (if is_rmc (field (fields_of nmea) 0)
      then elevation p = f_zero else speed p = f_zero).
Proof.
  unfold decode. intros H.
  destruct (negb (startswith nmea "$")); [discriminate|].
  destruct (is_rmc (field (fields_of nmea) 0)).
  - unfold decode_rmc in H.
    destruct (_ || _); [discriminate|].
    destruct (_parse_lat _ _); [|discriminate].
    destruct (_parse_lon _ _); [|discriminate].
    destruct (if nonempty _ then _ else _); [|discriminate].
    destruct (_parse_datetime _ _ _); [|discriminate].
    injection H as <-. cbn. auto.
  - destruct (is_gga (field (fields_of nmea) 0)); [|discriminate].
    unfold decode_gga in H.
    destruct (_ <? _)%nat; [discriminate|].
    destruct (_parse_lat _ _); [|discriminate].
    destruct (_parse_lon _ _); [|discriminate].
    destruct (if nonempty _ then _ else _); [|discriminate].
    destruct (_parse_datetime _ _ _); [|discriminate].
    injection H as <-. cbn. auto.
Qed.

Lemma parse_lat_empty (a b : string) (x : F) :
  a = "" \/ b = "" -> _parse_lat a b = Some x -> x = f_zero.
Proof.
  unfold _parse_lat. intros [-> | ->] H.
  - cbn in H. congruence.
  - rewrite orb_true_r in H. congruence.
Qed.

Lemma parse_lon_empty (a b : string) (x : F) :
  a = "" \/ b = "" -> _parse_lon a b = Some x -> x = f_zero.
Proof.
  unfold _parse_lon. intros [-> | ->] H.
  - cbn in H. congruence.
  - rewrite orb_true_r in H. congruence.
Qed.

(** X9.  An empty field is read as 0.0 and is no error: a line whose
    latitude field or hemisphere letter is empty decodes to the latitude
    0.0, likewise for the longitude, and an empty speed field (RMC) or
    altitude field (GGA) gives the speed or the elevation 0.0. *)
Theorem empty_coordinate_reads_zero (now : datetime) (nmea : string)
        (p : Position F) :
  decode now nmea = Some p ->
  let fields := fields_of nmea in
  let k := if is_rmc (field fields 0) then 3%nat else 2%nat in
  (field fields k = "" \/ field fields (k + 1) = "" -> lat p = f_zero)
  /\ (field fields (k + 2) = "" \/ field fields (k + 3) = ""
      -> lon p = f_zero)
  /\ (if is_rmc (field fields 0)
      then field fields 7 = "" -> speed p = f_zero
      else field fields 9 = "" -> elevation p = f_zero).
Proof.
  intros H. cbv zeta. unfold decode in H.
  destruct (negb (startswith nmea "$")); [discriminate|].
  destruct (is_rmc (field (fields_of nmea) 0)).
  - unfold decode_rmc in H.
    destruct (_ || _); [discriminate|].
    destruct (_parse_lat _ _) as [la|] eqn:Ela; [|discriminate].
    destruct (_parse_lon _ _) as [lo|] eqn:Elo; [|discriminate].
    destruct (if nonempty _ then _ else _) as [sp|] eqn:Esp; [|discriminate].
    destruct (_parse_datetime _ _ _); [|discriminate].
    injection H as <-. cbn [lat lon speed position6 Nat.add].
    repeat split.
    + intros E. eapply parse_lat_empty; eauto.
    + intros E. eapply parse_lon_empty; eauto.
    + intros E. rewrite E in Esp. cbn in Esp. congruence.
  - destruct (is_gga (field (fields_of nmea) 0)); [|discriminate].
    unfold decode_gga in H.
    destruct (_ <? _)%nat; [discriminate|].
    destruct (_parse_lat _ _) as [la|] eqn:Ela; [|discriminate].
    destruct (_parse_lon _ _) as [lo|] eqn:Elo; [|discriminate].
    destruct (if nonempty _ then _ else _) as [el|] eqn:Eel; [|discriminate].
    destruct (_parse_datetime _ _ _); [|discriminate].
    injection H as <-. cbn [lat lon elevation position6 Nat.add].
    repeat split.
    + intros E. eapply parse_lat_empty; eauto.
    + intros E. eapply parse_lon_empty; eauto.
    + intros E. rewrite E in Eel. cbn in Eel. congruence.
Qed.

Lemma parse_datetime_no_date (now : datetime) (time_str : string)
      (date_str : option string) (dt : datetime) :
  date_str = None \/ date_str = Some "" ->
  _parse_datetime (F := F) now time_str date_str = Some dt ->
  year dt = year now /\ month dt = month now /\ day dt = day now
  /\ tzinfo dt = tzinfo now.
Proof.
  intros Hd H. unfold _parse_datetime in H.
  destruct (negb (nonempty time_str)); [discriminate|].
  destruct (py_int (slice time_str 0 2)) as [h|]; [|discriminate].
  destruct (py_int (slice time_str 2 4)) as [m|]; [|discriminate].
  destruct (py_int (slice time_str 4 6)) as [s|]; [|discriminate].
  destruct (microsecond_of time_str) as [us|]; [|discriminate].
  assert (R : replace_time now h m s us = Some dt)
    by (destruct Hd as [-> | ->]; exact H).
  unfold replace_time in R.
  destruct (valid _) eqn:V; [|discriminate].
  injection R as <-. cbn. auto.
Qed.

(** X10.  A GGA line carries no date, and an RMC line may have an empty
    date field: the position decoded from such a line has the year, the
    month, the day and the time zone that the clock shows when the line is
    decoded. *)
Theorem date_comes_from_clock (now : datetime) (nmea : string)
        (p : Position F) :
  decode now nmea = Some p ->
  is_rmc (field (fields_of nmea) 0) = false
  \/ field (fields_of nmea) 9 = "" ->
  year (time p) = year now /\ month (time p) = month now
  /\ day (time p) = day now /\ tzinfo (time p) = tzinfo now.
Proof.
  unfold decode. intros H Hk.
  destruct (negb (startswith nmea "$")); [discriminate|].
  destruct (is_rmc (field (fields_of nmea) 0)).
  - destruct Hk as [Hk|Hk]; [discriminate|].
    unfold decode_rmc in H.
    destruct (_ || _); [discriminate|].
    destruct (_parse_lat _ _); [|discriminate].
    destruct (_parse_lon _ _); [|discriminate].
    destruct (if nonempty _ then _ else _); [|discriminate].
    destruct (_parse_datetime _ _ _) as [dt|] eqn:E; [|discriminate].
    injection H as <-. cbn [time position6].
    rewrite Hk in E.
    exact (parse_datetime_no_date now _ _ dt (or_intror eq_refl) E).
  - destruct (is_gga (field (fields_of nmea) 0)); [|discriminate].
    unfold decode_gga in H.
    destruct (_ <? _)%nat; [discriminate|].
    destruct (_parse_lat _ _); [|discriminate].
    destruct (_parse_lon _ _); [|discriminate].
    destruct (if nonempty _ then _ else _); [|discriminate].
    destruct (_parse_datetime _ _ _) as [dt|] eqn:E; [|discriminate].
    injection H as <-. cbn [time position6].
    exact (parse_datetime_no_date now _ _ dt (or_introl eq_refl) E).
Qed.

(** *** Two-digit years *)

Lemma length_lstrip (s : string) :
  (String.length (lstrip s) <= String.length s)%nat.
Proof.
  induction s as [|c r IH]; cbn [lstrip]; auto.
  destruct (is_space c); cbn [String.length]; lia.
Qed.

Lemma length_rstrip (s : string) :
  (String.length (rstrip s) <= String.length s)%nat.
Proof.
  induction s as [|c r IH]; cbn [rstrip]; auto.
  destruct (rstrip r) as [|c' r'].
  - destruct (is_space c); cbn [String.length]; lia.
  - cbn [String.length] in *. lia.
Qed.

Lemma length_strip (s : string) :
  (String.length (strip s) <= String.length s)%nat.
Proof.
  unfold strip. pose proof (length_rstrip (lstrip s)).
  pose proof (length_lstrip s). lia.
Qed.

Lemma length_num_strip (s : string) :
  (String.length (num_strip s) <= String.length s)%nat.
Proof.
  assert (A : forall t, (String.length (num_lstrip t) <= String.length t)%nat).
  { induction t as [|c r IH]; cbn [num_lstrip]; auto.
    destruct (is_num_space c); cbn [String.length]; lia. }
  assert (B : forall t, (String.length (num_rstrip t) <= String.length t)%nat).
  { induction t as [|c r IH]; cbn [num_rstrip]; auto.
    destruct (num_rstrip r) as [|c' r'].
    - destruct (is_num_space c); cbn [String.length]; lia.
    - cbn [String.length] in *. lia. }
  unfold num_strip. pose proof (B (num_lstrip s)). pose proof (A s). lia.
Qed.

Lemma digit_val_le c : is_digit c = true -> (digit_val c <= 9)%N.
Proof.
  unfold is_digit, digit_val. intros H. apply andb_true_iff in H.
  destruct H as [A B]. apply N.leb_le in A, B. lia.
Qed.

(** The number that a run of digits denotes has at most as many digits as
    the run has characters. *)
Lemma digits_us_bound (s : string) :
  forall acc cnt prev n k,
    digits_us s acc cnt prev = Some (n, k) ->
    (n < (acc + 1) * 10 ^ N.of_nat (String.length s))%N.
Proof.
  induction s as [|c r IH]; intros acc cnt prev n k H; cbn [digits_us] in H.
  - destruct prev; [|discriminate]. injection H as <- _.
    cbn [String.length]. change (10 ^ N.of_nat 0)%N with 1%N. lia.
  - cbn [String.length]. rewrite Nat2N.inj_succ, N.pow_succ_r'.
    destruct (is_digit c) eqn:D.
    + apply IH in H. pose proof (digit_val_le c D).
      assert (0 < 10 ^ N.of_nat (String.length r))%N
        by (apply N.neq_0_lt_0, N.pow_nonzero; lia).
      nia.
    + destruct (Ascii.eqb c "_"); [|discriminate].
      destruct prev; [|discriminate]. apply IH in H.
      assert (0 < 10 ^ N.of_nat (String.length r))%N
        by (apply N.neq_0_lt_0, N.pow_nonzero; lia).
      nia.
Qed.

Lemma length_split_sign (s : string) :
  (String.length (snd (split_sign s)) <= String.length s)%nat
  /\ (fst (split_sign s) = true ->
      (S (String.length (snd (split_sign s))) <= String.length s)%nat).
Proof.
  destruct s as [|c r]; [cbn; split; [lia|discriminate]|].
  destruct (Ascii.eqb_spec c "-") as [->|N1];
    [cbn; split; [lia | intros _; lia]|].
  destruct (Ascii.eqb_spec c "+") as [->|N2];
    [cbn; split; [lia | discriminate]|].
  assert (E : split_sign (String c r) = (false, String c r)).
  { destruct c as [[] [] [] [] [] [] [] []]; try reflexivity;
      exfalso; auto. }
  rewrite E. cbn. split; [lia | discriminate].
Qed.

(** [int] of a text of at most two characters lies between -9 and 99. *)
Lemma py_int_two_chars (s : string) (z : Z) :
  (String.length s <= 2)%nat -> py_int s = Some z -> -9 <= z <= 99.
Proof.
  intros L H. unfold py_int in H.
  pose proof (length_num_strip s) as Ls.
  pose proof (length_split_sign (num_strip s)) as [L1 L2].
  destruct (split_sign (num_strip s)) as [neg body]. cbn [fst snd] in *.
  unfold digits in H.
  destruct (digits_us body 0 0 false) as [[n k]|] eqn:E; [|discriminate].
  apply digits_us_bound in E.
  destruct (int_max_str_digits <? k)%nat; [discriminate|]. injection H as <-.
  assert (P : forall j, (j <= 2)%nat -> (10 ^ N.of_nat j <= 100)%N).
  { intros [|[|[|j]]] Hj; try lia; cbn; lia. }
  destruct neg.
  - specialize (L2 eq_refl).
    assert (Hb : (String.length body <= 1)%nat) by lia.
    assert (10 ^ N.of_nat (String.length body) <= 10)%N.
    { destruct (String.length body) as [|[|j]]; try lia; cbn; lia. }
    lia.
  - assert (Hb : (String.length body <= 2)%nat) by lia.
    specialize (P _ Hb). lia.
Qed.

Lemma length_take_le (n : nat) (s : string) :
  (String.length (take n s) <= n)%nat.
Proof.
  revert s; induction n as [|n IH]; intros [|c r]; cbn; try lia.
  specialize (IH r). lia.
Qed.

Lemma length_slice_4_6 (s : string) : (String.length (slice s 4 6) <= 2)%nat.
Proof.
  unfold slice. set (a := clamp _ 4). set (b := clamp _ 6).
  assert (b - a <= 2)%nat
    by (unfold a, b, clamp;
        change (4 <? 0) with false; change (6 <? 0) with false; lia).
  pose proof (length_take_le (b - a) (drop a s)). lia.
Qed.

(** X11.  The year of an RMC line with a date is 2000 plus the number in
    the last two characters of the date field, so it lies between 1991 and
    2099 (a date [..99] is read as 2099, never as 1999), and the time is a
    UTC time. *)
Theorem rmc_year_is_20yy (now : datetime) (nmea : string) (p : Position F) :
  decode now nmea = Some p ->
  is_rmc (field (fields_of nmea) 0) = true ->
  field (fields_of nmea) 9 <> "" ->
  tzinfo (time p) = Some UTC
  /\ py_int (slice (field (fields_of nmea) 9) 4 6)
     = Some (year (time p) - 2000)
  /\ 1991 <= year (time p) <= 2099.
Proof.
  unfold decode. intros H Hk Hd.
  destruct (negb (startswith nmea "$")); [discriminate|].
  rewrite Hk in H. unfold decode_rmc in H.
  destruct (_ || _); [discriminate|].
  destruct (_parse_lat _ _); [|discriminate].
  destruct (_parse_lon _ _); [|discriminate].
  destruct (if nonempty _ then _ else _); [|discriminate].
  destruct (_parse_datetime _ _ _) as [dt|] eqn:E; [|discriminate].
  injection H as <-. cbn [time position6].
  unfold _parse_datetime in E.
  destruct (negb (nonempty _)); [discriminate|].
  destruct (py_int (slice _ 0 2)) as [h|]; [|discriminate].
  destruct (py_int (slice _ 2 4)) as [m|]; [|discriminate].
  destruct (py_int (slice _ 4 6)) as [s|]; [|discriminate].
  destruct (microsecond_of _) as [us|]; [|discriminate].
  destruct (field (fields_of nmea) 9) as [|c ds] eqn:E9; [congruence|].
  destruct (py_int (slice (String c ds) 0 2)) as [d'|]; [|discriminate].
  destruct (py_int (slice (String c ds) 2 4)) as [m'|]; [|discriminate].
  destruct (py_int (slice (String c ds) 4 6)) as [y'|] eqn:Ey; [|discriminate].
  unfold make in E. destruct (valid _); [|discriminate].
  injection E as <-. cbn [tzinfo year].
  pose proof (py_int_two_chars _ _ (length_slice_4_6 _) Ey).
  repeat split; try lia. f_equal. lia.
Qed.

End DecoderMore.

(** X6, witness: the text of the sample RMC line with a CR LF after it, and
    with a CR LF in front of it. *)
Lemma decode_strips_the_end_only_witness :
  all_chars PyStr.is_space crlf = true
  /\ decode (F := Samples.B) Samples.load_time (Samples.rmc_text ++ crlf)
     = decode Samples.load_time Samples.rmc_text
  /\ (crlf <> "" ->
      decode (F := Samples.B) Samples.load_time (crlf ++ Samples.rmc_text)
      = None).
Proof.
  split; [reflexivity|].
  exact (decode_strips_the_end_only Samples.load_time Samples.rmc_text crlf
           eq_refl).
Defined.

(** X8, witness: the sample RMC line. *)
Lemma decode_fills_in_defaults_witness :
  exists p : Position Samples.B,
    decode Samples.load_time Samples.rmc_line = Some p
    /\ index p = 0 /\ duration p = f_zero /\ transition p = "auto"
    /\ description p = "" /\ elevation p = f_zero.
Proof.
  eexists. split; [vm_compute; reflexivity|].
  apply (decode_fills_in_defaults Samples.load_time Samples.rmc_line).
  vm_compute. reflexivity.
Defined.

(** X9, witness: the GGA line of a receiver without a fix decodes to the
    latitude, the longitude and the elevation 0.0. *)
Lemma empty_coordinate_reads_zero_witness :
  exists p : Position Samples.B,
    decode Samples.load_time MoreSamples.no_fix_line = Some p
    /\ lat p = f_zero /\ lon p = f_zero /\ elevation p = f_zero.
Proof.
  eexists. split; [vm_compute; reflexivity|].
  match goal with
  | |- lat ?p = _ /\ _ =>
      assert (H : decode Samples.load_time MoreSamples.no_fix_line = Some p)
        by (vm_compute; reflexivity);
      pose proof (empty_coordinate_reads_zero Samples.load_time
                    MoreSamples.no_fix_line p H) as T
  end.
  cbv zeta in T. destruct T as (A & B & C).
  split; [apply A; left; vm_compute; reflexivity|].
  split; [apply B; left; vm_compute; reflexivity|].
  apply C. vm_compute. reflexivity.
Defined.

(** X10, witness: the same line, decoded while the clock shows
    [load_time]. *)
Lemma date_comes_from_clock_witness :
  exists p : Position Samples.B,
    decode Samples.load_time MoreSamples.no_fix_line = Some p
    /\ year (time p) = 2026 /\ month (time p) = 11 /\ day (time p) = 5
    /\ tzinfo (time p) = Some UTC.
Proof.
  eexists. split; [vm_compute; reflexivity|].
  apply (date_comes_from_clock Samples.load_time MoreSamples.no_fix_line).
  - vm_compute. reflexivity.
  - left. vm_compute. reflexivity.
Defined.

(** X11, witness: the sample RMC line, dated [010120]. *)
Lemma rmc_year_is_20yy_witness :
  exists p : Position Samples.B,
    decode Samples.load_time Samples.rmc_line = Some p
    /\ tzinfo (time p) = Some UTC
    /\ PyNum.py_int (PyStr.slice "010120" 4 6) = Some (year (time p) - 2000)
    /\ 1991 <= year (time p) <= 2099.
Proof.
  eexists. split; [vm_compute; reflexivity|].
  apply (rmc_year_is_20yy Samples.load_time Samples.rmc_line).
  - vm_compute. reflexivity.
  - vm_compute. reflexivity.
  - vm_compute. discriminate.
Defined.

(** ** The time through a sentence *)

Section TimeRoundTrip.
Import PyStr PyNum PyTime.
#[local] Open Scope Q_scope.
#[local] Open Scope string_scope.

(** X12.  On binary64, for a position whose latitude is a finite float in
    [-90, 90] and whose longitude is one in [-180, 180], whatever its speed
    and elevation: the time of day comes back from either sentence cut to
    the millisecond.  From the GGA sentence it comes back with the date and
    the time zone of the clock at the time of decoding; from the RMC
    sentence with the day and the month it had, the year moved into
    2000..2099 (the year modulo 100, plus 2000), and UTC. *)
Theorem time_round_trip (p : Position Binary64.t) (now : datetime) :
  finite64 (lat p) = true -> float64 (lat p) -> Qabs (real (lat p)) <= 90 ->
  finite64 (lon p) = true -> float64 (lon p) -> Qabs (real (lon p)) <= 180 ->
  valid (time p) = true -> valid now = true ->
  let ms := (microsecond (time p) / 1000 * 1000)%Z in
  exists gga rmc g r,
    encode_gga p = Some gga /\ decode now gga = Some g
    /\ time g = mk_dt (year now) (month now) (day now)
                      (hour (time p)) (minute (time p)) (second (time p)) ms
                      (tzinfo now)
    /\ encode_rmc p = Some rmc /\ decode now rmc = Some r
    /\ time r = mk_dt (year (time p) mod 100 + 2000) (month (time p))
                      (day (time p))
                      (hour (time p)) (minute (time p)) (second (time p)) ms
                      (Some UTC).
Proof.
  intros Fla Vla Rla Flo Vlo Rlo Vt Vn ms.
  destruct (decode_encoded p now Fla Vla Rla Flo Vlo Rlo Vt Vn)
    as (gga & rmc & la & lo & Eg & Er & Dg & Dr & _).
  exists gga, rmc. eexists _, _.
  split; [exact Eg|]. split; [exact Dg|]. split; [reflexivity|].
  split; [exact Er|]. split; [exact Dr|]. reflexivity.
Qed.

End TimeRoundTrip.

(** X12, witness: the sample position, stamped with [pull_time]. *)
Lemma time_round_trip_witness :
  let p := with_time Samples.start_position Samples.pull_time in
  exists gga rmc g r,
    encode_gga p = Some gga
    /\ decode Samples.load_time gga = Some g
    /\ time g = mk_dt 2026 11 5 9 30 7 250000 (Some UTC)
    /\ encode_rmc p = Some rmc
    /\ decode Samples.load_time rmc = Some r
    /\ time r = mk_dt 2026 11 5 9 30 7 250000 (Some UTC).
Proof.
  apply (time_round_trip (with_time Samples.start_position Samples.pull_time)
           Samples.load_time);
    try reflexivity; unfold Qle; vm_compute; discriminate.
Defined.

(** ** Arguments, overrides and pulls *)

Section LoaderMore.
Import PyStr.
Context {F : Type} {PF : PyFloat F}.

Lemma parse_common_params_filter (args : list string) :
  forall (g g' : FileGenerator F) (rem : list string),
    _parse_common_params g args = Some (g', rem) ->
    rem = filter (fun a => negb (is_common_param a)) args.
Proof.
  induction args as [|a args IH]; intros g g' rem H;
    cbn [_parse_common_params] in H.
  - injection H as _ <-. reflexivity.
  - cbn [filter]. unfold is_common_param at 1.
    destruct (startswith a "duration=").
    + destruct (py_float (param_value a)); [|discriminate]. cbn. eauto.
    + destruct (startswith a "index=").
      * destruct (PyNum.py_int (param_value a)); [|discriminate]. cbn. eauto.
      * destruct (_parse_common_params g args) as [[g1 r1]|] eqn:E;
          [|discriminate].
        injection H as _ <-. cbn. f_equal. eauto.
Qed.

Lemma parse_common_params_none (args : list string) :
  forall g : FileGenerator F,
    _parse_common_params g args = None
    <-> Exists (fun a => bad_param (F := F) a = true) args.
Proof.
  induction args as [|a args IH]; intros g; cbn [_parse_common_params].
  - split; [discriminate | intros H; inversion H].
  - rewrite Exists_cons. unfold bad_param at 1.
    destruct (startswith a "duration=").
    + destruct (py_float (param_value a)) as [d|]; cbn [is_none].
      * rewrite IH. split; [auto | intros [?|?]; [discriminate | auto]].
      * split; auto.
    + destruct (startswith a "index=").
      * destruct (PyNum.py_int (param_value a)) as [i|]; cbn [is_none].
        -- rewrite IH. split; [auto | intros [?|?]; [discriminate | auto]].
        -- split; auto.
      * specialize (IH g).
        destruct (_parse_common_params g args) as [[g1 r1]|].
        -- split; [discriminate|]. intros [?|E]; [discriminate|].
           apply IH in E. discriminate.
        -- split; auto. intros _. right. apply IH. reflexivity.
Qed.

(** Without a [duration=] argument the duration override stays as it is. *)
Lemma parse_common_params_no_duration (args : list string) :
  Forall (fun a => startswith a "duration=" = false) args ->
  forall (g g' : FileGenerator F) (rem : list string),
    _parse_common_params g args = Some (g', rem) ->
    _duration_override g' = _duration_override g.
Proof.
  induction 1 as [|a args Ha _ IH]; intros g g' rem H;
    cbn [_parse_common_params] in H.
  - injection H as <- _. auto.
  - rewrite Ha in H. destruct (startswith a "index=").
    + destruct (PyNum.py_int (param_value a)); [|discriminate].
      apply IH in H. simpl in H. exact H.
    + destruct (_parse_common_params g args) as [[g1 r1]|] eqn:E;
        [|discriminate].
      injection H as <- _. eapply IH; eauto.
Qed.

(** The last [duration=] argument sets the duration override. *)
Lemma parse_common_params_duration (a1 a2 : list string) (s : string) (d : F) :
  py_float s = Some d ->
  Forall (fun a => startswith a "duration=" = false) a2 ->
  forall (g g' : FileGenerator F) (rem : list string),
    _parse_common_params g (a1 ++ ("duration=" ++ s)%string :: a2)%list
    = Some (g', rem) ->
    _duration_override g' = Some d.
Proof.
  intros Hs Ha2.
  induction a1 as [|a a1 IH]; intros g g' rem H.
  - cbn [app] in H.
    cbn [_parse_common_params] in H.
    change (startswith ("duration=" ++ s) "duration=") with true in H.
    change (param_value ("duration=" ++ s)) with s in H.
    cbv iota in H. rewrite Hs in H.
    apply (parse_common_params_no_duration a2 Ha2) in H. exact H.
  - cbn [_parse_common_params app] in H.
    destruct (startswith a "duration=").
    + destruct (py_float (param_value a)); [|discriminate]. eauto.
    + destruct (startswith a "index=").
      * destruct (PyNum.py_int (param_value a)); [|discriminate]. eauto.
      * destruct (_parse_common_params g (a1 ++ ("duration=" ++ s)%string :: a2)%list)
          as [[g1 r1]|] eqn:E; [|discriminate].
        injection H as <- _. eauto.
Qed.

Lemma holds_from_snoc P (ps : list (Position F)) (p : Position F) :
  holds_from P ps -> P (1 + Z.of_nat (List.length ps)) p ->
  holds_from P (ps ++ [p])%list.
Proof.
  intros Hps Hp j q Hj.
  destruct (Nat.lt_ge_cases j (List.length ps)) as [L|L].
  - rewrite nth_error_app1 in Hj by exact L. auto.
  - rewrite nth_error_app2 in Hj by exact L.
    destruct (j - List.length ps)%nat as [|d] eqn:D; simpl in Hj.
    + injection Hj as <-. replace j with (List.length ps) by lia. exact Hp.
    + destruct d; discriminate.
Qed.

Lemma csv_rows_holds (g : FileGenerator F) P :
  kept_by g P ->
  forall rows idx acc ps,
    csv_rows g idx rows acc = Some ps ->
    idx = 1 + Z.of_nat (List.length acc) ->
    holds_from P acc -> holds_from P ps.
Proof.
  intros K. induction rows as [|row rows IH]; intros idx acc ps H Hi Ha;
    simpl in H.
  - injection H as <-. exact Ha.
  - destruct (csv_position g idx row) as [[p|]|] eqn:E; [| |discriminate].
    + eapply IH; [exact H| |].
      * rewrite length_app. cbn [List.length]. lia.
      * apply holds_from_snoc; [exact Ha|].
        unfold csv_position in E. destruct row as [|c0 row']; [discriminate|].
        destruct (startswith c0 "#"); [discriminate|].
        destruct (_ <? _)%nat; [discriminate|].
        repeat match type of E with
               | (match ?x with Some _ => _ | None => _ end) = _ =>
                   destruct x; [|discriminate]
               end.
        injection E as <-. rewrite <- Hi. apply K. reflexivity.
    + eapply IH; eauto.
Qed.

Lemma geo_features_holds (g : FileGenerator F) P :
  kept_by g P ->
  forall features idx acc ps,
    geo_features g idx features acc = Some ps ->
    idx = 1 + Z.of_nat (List.length acc) ->
    holds_from P acc -> holds_from P ps.
Proof.
  intros K. induction features as [|ft fts IH]; intros idx acc ps H Hi Ha;
    simpl in H.
  - injection H as <-. exact Ha.
  - destruct (geo_position g idx ft) as [[p|]|] eqn:E; [| |discriminate].
    + eapply IH; [exact H| |].
      * rewrite length_app. cbn [List.length]. lia.
      * apply holds_from_snoc; [exact Ha|].
        unfold geo_position in E.
        repeat match type of E with
               | (match ?x with Some _ => _ | None => _ end) = _ =>
                   destruct x; [|discriminate]
               | (if ?b then _ else _) = _ => destruct b; [discriminate|]
               end.
        injection E as <-. rewrite <- Hi. apply K. reflexivity.
    + eapply IH; eauto.
Qed.

Lemma nmea_lines_holds (g : FileGenerator F) P :
  kept_by g P ->
  forall lines clock idx acc,
    idx = 1 + Z.of_nat (List.length acc) ->
    holds_from P acc -> holds_from P (nmea_lines clock g idx lines acc).
Proof.
  intros K. induction lines as [|line lines IH]; intros clock idx acc Hi Ha;
    simpl.
  - exact Ha.
  - destruct (decode (clock O) line) as [p|].
    + apply IH.
      * rewrite length_app. cbn [List.length]. lia.
      * apply holds_from_snoc; [exact Ha|].
        rewrite <- Hi. apply K. reflexivity.
    + apply IH; auto.
Qed.

Lemma holds_from_nil P : holds_from P (@nil (Position F)).
Proof. intros [|j] p H; discriminate. Qed.

(** What [construct] returns: a generator of the class asked for, with its
    cursor at 0, whose positions have every property the override step of
    the parsed arguments establishes. *)
Lemma construct_holds (k : kind) (fs : files F) (clock : nat -> datetime)
      (args : list string) (G : Generator F) :
  construct k fs clock args = Some G ->
  exists g rem,
    _parse_common_params FileGenerator_init args = Some (g, rem)
    /\ cls G = k /\ _index (self G) = O
    /\ forall P, kept_by g P -> holds_from P (_positions (self G)).
Proof.
  intros H.
  destruct k; simpl in H;
    [unfold CSVGenerator_init in H | unfold GeoJSONGenerator_init in H
     | unfold NMEAGenerator_init in H];
    destruct (_parse_common_params FileGenerator_init _) as [[g rem]|] eqn:E;
    try discriminate;
    exists g, rem; (split; [reflexivity|]);
    apply parse_common_params_keeps in E; simpl in E; destruct E as [Ep Ei];
    destruct rem as [|filename rem]; try discriminate.
  - unfold CSV_load_file in H.
    destruct (read_csv fs filename) as [rows|]; [|discriminate].
    destruct (csv_rows g 1 rows (_positions g)) as [ps|] eqn:E; [|discriminate].
    destruct ps as [|p ps]; [discriminate|]. injection H as <-. simpl.
    repeat split; auto. intros P K.
    eapply csv_rows_holds; eauto; rewrite Ep; auto using holds_from_nil.
  - unfold GeoJSON_load_file in H.
    destruct (read_json fs filename) as [[| | | | | |items]|]; try discriminate.
    destruct (assoc "features" items) as [[| | | | |l|]|]; try discriminate.
    destruct (geo_features g 1 l (_positions g)) as [ps|] eqn:E; [|discriminate].
    destruct ps as [|p ps]; [discriminate|]. injection H as <-. simpl.
    repeat split; auto. intros P K.
    eapply geo_features_holds; eauto; rewrite Ep; auto using holds_from_nil.
  - unfold NMEA_load_file in H.
    destruct (read_lines fs filename) as [lines|]; [|discriminate].
    injection H as <-. simpl. repeat split; auto. intros P K.
    apply nmea_lines_holds; auto; rewrite Ep; auto using holds_from_nil.
Qed.




Lemma yields_Forall (P : Position F -> Prop) (rs : list (pulled (Position F))) :
  Forall (fun r => match r with Yield p => P p | StopIteration => True end) rs ->
  Forall P (yields rs).
Proof.
  induction 1 as [|[p|] rs H _ IH]; simpl; auto.
Qed.

Lemma Forall_nth_error {A} (P : A -> Prop) (l : list A) :
  (forall j x, nth_error l j = Some x -> P x) -> Forall P l.
Proof.
  intros H. apply Forall_forall. intros x Hx.
  apply In_nth_error in Hx. destruct Hx as [j Hj]. eauto.
Qed.

(** What [m] pulls hand out are stored positions, stamped or not. *)
Lemma pulls_Forall (P : Position F -> Prop) (G : Generator F) :
  (forall p now, In p (_positions (self G)) -> P (emitted (cls G) now p)) ->
  forall clock m, Forall P (yields (fst (pulls clock m G))).
Proof.
  intros H clock m. apply yields_Forall, Forall_nth_error. intros j r Hj.
  assert (L : (j < m)%nat).
  { rewrite <- (length_pulls m clock G). apply nth_error_Some. congruence. }
  rewrite (pulls_nth m clock G j L) in Hj. injection Hj as <-.
  destruct (nth_error (_positions (self G)) (_index (self G) + j)) as [p|] eqn:E;
    [|exact I].
  apply H. eapply nth_error_In; eauto.
Qed.


(** X13.  When [_parse_common_params] returns, the arguments it hands back
    are the given ones without those that start with [duration=] or
    [index=], in the order given, and the positions and the cursor of the
    generator are as they were. *)
Theorem common_params_are_taken_out (g g' : FileGenerator F)
        (args rem : list string) :
  _parse_common_params g args = Some (g', rem) ->
  rem = filter (fun a => negb (is_common_param a)) args
  /\ _positions g' = _positions g /\ _index g' = _index g.
Proof.
  intros H. split.
  - eapply parse_common_params_filter; eauto.
  - eapply parse_common_params_keeps; eauto.
Qed.

(** X14.  [_parse_common_params] raises exactly when one of the arguments
    is a [duration=] argument whose value [float] does not read, or an
    [index=] argument whose value [int] does not read; an argument of
    neither kind never makes it raise. *)
Theorem common_params_fail_iff_bad_value (g : FileGenerator F)
        (args : list string) :
  _parse_common_params g args = None
  <-> exists param, In param args /\ bad_param (F := F) param = true.
Proof.
  rewrite parse_common_params_none. apply Exists_exists.
Qed.

(** X15.  A generator of any of the three classes cannot be built from
    [duration=] and [index=] arguments alone (or from no argument): without
    a file name the constructor raises. *)
Theorem construct_needs_a_file (k : kind) (fs : files F)
        (clock : nat -> datetime) (args : list string) :
  Forall (fun a => is_common_param a = true) args ->
  construct k fs clock args = None.
Proof.
  intros H.
  assert (E : forall g rem,
             _parse_common_params FileGenerator_init args = Some (g, rem) ->
             rem = []).
  { intros g rem P. rewrite (parse_common_params_filter _ _ _ _ P).
    clear P. induction H as [|a args Ha _ IH]; cbn [filter]; auto.
    rewrite Ha. exact IH. }
  destruct k; cbn [construct];
    [unfold CSVGenerator_init | unfold GeoJSONGenerator_init
     | unfold NMEAGenerator_init];
    destruct (_parse_common_params FileGenerator_init args) as [[g rem]|] eqn:P;
    auto; rewrite (E g rem eq_refl); reflexivity.
Qed.

(** X16.  A generator of any of the three classes built with an argument
    [duration=<d>] (the last such argument counts) hands out every position
    with the duration [d], whatever the file says. *)
Theorem duration_override_applies (k : kind) (fs : files F)
        (clock pclock : nat -> datetime) (a1 a2 : list string) (s : string)
        (d : F) (G : Generator F) (m : nat) :
  py_float s = Some d ->
  Forall (fun a => startswith a "duration=" = false) a2 ->
  construct k fs clock (a1 ++ ("duration=" ++ s)%string :: a2)%list = Some G ->
  Forall (fun p => duration p = d) (yields (fst (pulls pclock m G))).
Proof.
  intros Hs Ha2 Hc.
  destruct (construct_holds k fs clock _ G Hc) as (g & rem & Hp & _ & _ & Hall).
  pose proof (parse_common_params_duration a1 a2 s d Hs Ha2 _ _ _ Hp) as Hd.
  specialize (Hall (fun _ q => duration q = d)).
  assert (K : kept_by g (fun _ q => duration q = d)).
  { intros p i _. unfold _apply_common_params. rewrite Hd.
    destruct (_index_override g); reflexivity. }
  specialize (Hall K).
  apply pulls_Forall. intros p now Hin.
  apply In_nth_error in Hin. destruct Hin as [j Hj].
  specialize (Hall j p Hj). cbn beta in Hall.
  destruct (cls G); exact Hall.
Qed.

(** X17.  A generator of any of the three classes built without an
    [index=] argument, pulled until all its positions are out, yields the
    index values 1, 2, 3, ... in this order: the usable points are numbered
    in file order, and a number written in the file is not used. *)
Theorem default_numbering_from_one (k : kind) (fs : files F)
        (clock pclock : nat -> datetime) (args : list string)
        (G : Generator F) :
  Forall (fun a => startswith a "index=" = false) args ->
  construct k fs clock args = Some G ->
  map (@index F)
      (yields (fst (pulls pclock (List.length (_positions (self G))) G)))
  = map (fun j => 1 + Z.of_nat j)
        (seq 0 (List.length (_positions (self G)))).
Proof.
  intros Ha Hc.
  destruct (construct_holds k fs clock _ G Hc) as (g & rem & Hp & _ & Hi & Hall).
  pose proof (parse_common_params_no_index args Ha _ _ _ Hp) as Ho.
  cbn in Ho.
  assert (K : kept_by g (fun i q => index q = i)).
  { intros p i Hpi. unfold _apply_common_params. rewrite Ho.
    destruct (_duration_override g); exact Hpi. }
  specialize (Hall _ K).
  assert (R : remaining G = _positions (self G))
    by (unfold remaining; rewrite Hi; reflexivity).
  pose proof (pulls_run G pclock 0) as P.
  rewrite R, Nat.add_0_r, app_nil_r in P.
  rewrite P, yields_map_Yield, map_index_emit_all.
  apply numbered_map_index. exact Hall.
Qed.

(** X18.  A CSV or GeoJSON generator that was built holds at least one
    position, and its first pull yields the first of them, stamped with the
    clock; the first pull never raises [StopIteration]. *)
Theorem first_pull_yields (k : kind) (fs : files F)
        (clock : nat -> datetime) (args : list string) (G : Generator F)
        (now : datetime) :
  k <> NMEA ->
  construct k fs clock args = Some G ->
  exists q rest G',
    _positions (self G) = q :: rest
    /\ next now G = (Yield (with_time q now), G').
Proof.
  intros Hk Hc.
  destruct (construct_holds k fs clock _ G Hc) as (g & rem & _ & Hcls & Hi & _).
  assert (Hne : _positions (self G) <> []).
  { destruct k; cbn [construct] in Hc;
      [eapply csv_never_empty | eapply geojson_never_empty | congruence]; eauto. }
  destruct (_positions (self G)) as [|q qs] eqn:E; [congruence|].
  assert (N : nth_error (_positions (self G)) (_index (self G)) = Some q)
    by (rewrite Hi, E; reflexivity).
  destruct (next_available now G q N) as (G' & Hn & _).
  exists q, qs, G'. split; [reflexivity|].
  rewrite Hn, Hcls. destruct k; try reflexivity. congruence.
Qed.

(** X19.  A pull that yields a position moves the cursor by one and keeps
    the class, the overrides and the number of stored positions; the
    position handed out is the one now stored at the old cursor (for the
    CSV and GeoJSON classes the stored object itself got the new time), and
    no other stored position is changed. *)
Theorem pull_touches_one_position (G G' : Generator F) (now : datetime)
        (p : Position F) :
  next now G = (Yield p, G') ->
  cls G' = cls G
  /\ _index (self G') = S (_index (self G))
  /\ _duration_override (self G') = _duration_override (self G)
  /\ _index_override (self G') = _index_override (self G)
  /\ List.length (_positions (self G')) = List.length (_positions (self G))
  /\ nth_error (_positions (self G')) (_index (self G)) = Some p
  /\ forall j, j <> _index (self G) ->
       nth_error (_positions (self G')) j = nth_error (_positions (self G)) j.
Proof.
  destruct G as [k g]. unfold next, _update_position. cbn [cls self].
  intros H.
  destruct (nth_error (_positions g) (_index g)) as [q|] eqn:E.
  - assert (L : (_index g < List.length (_positions g))%nat)
      by (apply nth_error_Some; congruence).
    destruct k; unfold stamping_update_position, FileGenerator_update_position in H;
      rewrite E in H; cbn in H; injection H as <- <-; cbn;
      repeat split; auto using length_store, nth_error_store_same.
    all: intros j Hj; apply nth_error_store_other; congruence.
  - destruct k; unfold stamping_update_position, FileGenerator_update_position in H;
      rewrite E in H; discriminate.
Qed.

End LoaderMore.

(** X13, witness: a file name, a duration, an index and one more
    argument. *)
Lemma common_params_are_taken_out_witness :
  _parse_common_params (F := Samples.B) FileGenerator_init
    ["route.csv"; "duration=2.5"; "index=100"; "more"]
  = Some (mk_gen [] 0 (Some (f_lit false 25 (-1))) (Some 100),
          ["route.csv"; "more"])
  /\ ["route.csv"; "more"]
     = filter (fun a => negb (is_common_param a))
              ["route.csv"; "duration=2.5"; "index=100"; "more"].
Proof.
  assert (H : _parse_common_params (F := Samples.B) FileGenerator_init
                ["route.csv"; "duration=2.5"; "index=100"; "more"]
              = Some (mk_gen [] 0 (Some (f_lit false 25 (-1))) (Some 100),
                      ["route.csv"; "more"]))
    by (vm_compute; reflexivity).
  split; [exact H|].
  exact (proj1 (common_params_are_taken_out _ _ _ _ H)).
Defined.

(** X15, witness: [CSVGenerator("duration=1", "index=5")]. *)
Lemma construct_needs_a_file_witness :
  Forall (fun a => is_common_param a = true) ["duration=1"; "index=5"]
  /\ construct CSV Samples.disk (fun _ => Samples.load_time)
               ["duration=1"; "index=5"] = None.
Proof.
  assert (H : Forall (fun a => is_common_param a = true)
                     ["duration=1"; "index=5"])
    by (repeat constructor).
  split; [exact H|].
  exact (construct_needs_a_file CSV Samples.disk (fun _ => Samples.load_time)
           ["duration=1"; "index=5"] H).
Defined.

(** X16, witness: [CSVGenerator("route.csv", "duration=7.5")] on the
    sample directory, pulled three times. *)
Lemma duration_override_applies_witness :
  exists G : Generator Samples.B,
    py_float "7.5" = Some (f_lit (F := Samples.B) false 75 (-1))
    /\ construct CSV Samples.disk (fun _ => Samples.load_time)
                 ["route.csv"; "duration=7.5"] = Some G
    /\ Forall (fun p => duration p = f_lit false 75 (-1))
              (yields (fst (pulls (fun _ => Samples.pull_time) 3 G))).
Proof.
  eexists. split; [reflexivity|]. split; [vm_compute; reflexivity|].
  apply (duration_override_applies CSV Samples.disk
           (fun _ => Samples.load_time) (fun _ => Samples.pull_time)
           ["route.csv"] [] "7.5").
  - reflexivity.
  - constructor.
  - vm_compute. reflexivity.
Defined.

(** X17, witness: [CSVGenerator("route.csv")] on the sample directory. *)
Lemma default_numbering_from_one_witness :
  Forall (fun a => PyStr.startswith a "index=" = false) ["route.csv"]
  /\ construct CSV Samples.disk (fun _ => Samples.load_time) ["route.csv"]
     = Some Samples.csv_generator
  /\ map (@index Samples.B)
         (yields (fst (pulls (fun _ => Samples.pull_time) 1
                             Samples.csv_generator)))
     = [1].
Proof.
  assert (A : Forall (fun a => PyStr.startswith a "index=" = false)
                     ["route.csv"]) by (repeat constructor).
  assert (H : construct CSV Samples.disk (fun _ => Samples.load_time)
                        ["route.csv"] = Some Samples.csv_generator)
    by (vm_compute; reflexivity).
  split; [exact A|]. split; [exact H|].
  exact (default_numbering_from_one CSV Samples.disk
           (fun _ => Samples.load_time) (fun _ => Samples.pull_time)
           ["route.csv"] Samples.csv_generator A H).
Defined.

(** X18, witness: the first pull on [CSVGenerator("route.csv")]. *)
Lemma first_pull_yields_witness :
  CSV <> NMEA
  /\ construct CSV Samples.disk (fun _ => Samples.load_time) ["route.csv"]
     = Some Samples.csv_generator
  /\ exists q rest G',
       _positions (self Samples.csv_generator) = q :: rest
       /\ next Samples.pull_time Samples.csv_generator
          = (Yield (with_time q Samples.pull_time), G').
Proof.
  assert (A : CSV <> NMEA) by discriminate.
  assert (H : construct CSV Samples.disk (fun _ => Samples.load_time)
                        ["route.csv"] = Some Samples.csv_generator)
    by (vm_compute; reflexivity).
  split; [exact A|]. split; [exact H|].
  exact (first_pull_yields CSV Samples.disk (fun _ => Samples.load_time)
           ["route.csv"] Samples.csv_generator Samples.pull_time A H).
Defined.

(** X19, witness: the pull on the sample CSV generator at [pull_time]. *)
Lemma pull_touches_one_position_witness :
  next Samples.pull_time Samples.csv_generator
  = (Yield (with_time Samples.start_position Samples.pull_time),
     snd (next Samples.pull_time Samples.csv_generator))
  /\ nth_error
       (_positions (self (snd (next Samples.pull_time Samples.csv_generator))))
       (_index (self Samples.csv_generator))
     = Some (with_time Samples.start_position Samples.pull_time).
Proof.
  assert (H : next Samples.pull_time Samples.csv_generator
              = (Yield (with_time Samples.start_position Samples.pull_time),
                 snd (next Samples.pull_time Samples.csv_generator)))
    by reflexivity.
  split; [exact H|].
  exact (proj1 (proj2 (proj2 (proj2 (proj2 (proj2
           (pull_touches_one_position _ _ _ _ H))))))).
Defined.

(** ** The relay *)

Section RelayMore.
Import PyStr Net NetMore NetShutdown.

Lemma NoDup_broadcast_loop (rmc gga : string) (ids : list nat) :
  forall clients : list conn,
    NoDup (map fd clients) ->
    NoDup (map fd (broadcast_loop ids clients rmc gga)).
Proof.
  induction ids as [|i ids IH]; intros clients N; simpl; auto.
  destruct (lookup_conn i clients) as [c|] eqn:L; auto.
  destruct (send_pair c rmc gga) as [c' [|]] eqn:S.
  - apply IH, NoDup_remove_conn, N.
  - apply IH. rewrite map_fd_update. exact N.
Qed.

(** The loop of [_broadcast], client by client. *)
Lemma broadcast_loop_lookup (rmc gga : string) (ids : list nat) :
  forall (clients : list conn) (i : nat),
    NoDup (map fd clients) -> NoDup ids ->
    lookup_conn i (broadcast_loop ids clients rmc gga)
    = match lookup_conn i clients with
      | Some c => if existsb (Nat.eqb i) ids then served c rmc gga else Some c
      | None => None
      end.
Proof.
  induction ids as [|i0 ids IH]; intros clients i N Ni.
  - simpl. destruct (lookup_conn i clients); reflexivity.
  - inversion Ni as [|? ? Hnotin Ni']; subst.
    cbn [broadcast_loop existsb].
    destruct (lookup_conn i0 clients) as [c|] eqn:L.
    + pose proof (lookup_conn_fd _ _ _ L) as Hfd.
      unfold served at 1.
      destruct (send_pair c rmc gga) as [c' [|]] eqn:S.
      * (* dropped *)
        rewrite IH by auto using NoDup_remove_conn.
        destruct (Nat.eqb_spec i i0) as [->|Hne].
        -- rewrite lookup_remove_same by exact N. rewrite L.
           cbn [orb]. unfold served. rewrite S. reflexivity.
        -- rewrite lookup_remove_other by exact Hne. cbn [orb]. reflexivity.
      * (* served *)
        destruct (send_pair_ok _ _ _ _ S) as [Hfd' _].
        assert (Hc' : fd c' = i0) by congruence.
        rewrite IH by (try rewrite map_fd_update; auto).
        destruct (Nat.eqb_spec i i0) as [->|Hne].
        -- rewrite <- Hc'. rewrite lookup_update_same
             by (rewrite Hc'; eapply lookup_conn_some_in; eauto).
           rewrite Hc'. rewrite L. cbn [orb].
           assert (E : existsb (Nat.eqb i0) ids = false).
           { apply not_true_is_false. intros E.
             apply existsb_exists in E. destruct E as [x [Hx Hx']].
             apply Nat.eqb_eq in Hx'. subst x. contradiction. }
           rewrite E. unfold served. rewrite S. reflexivity.
        -- rewrite lookup_update_other by congruence. cbn [orb]. reflexivity.
    + rewrite IH by auto.
      destruct (Nat.eqb_spec i i0) as [->|Hne].
      * rewrite L. reflexivity.
      * cbn [orb]. reflexivity.
Qed.

Lemma existsb_lookup (i : nat) (clients : list conn) (c : conn) :
  lookup_conn i clients = Some c ->
  existsb (Nat.eqb i) (map fd clients) = true.
Proof.
  intros L. apply existsb_exists. exists i. split.
  - eapply lookup_conn_some_in; eauto.
  - apply Nat.eqb_refl.
Qed.

Lemma broadcast_lookup (t : ClientThread) (rmc gga : string) (i : nat) :
  NoDup (map fd (_clients t)) ->
  lookup_conn i (_clients (_broadcast t rmc gga))
  = match lookup_conn i (_clients t) with
    | Some c => served c rmc gga
    | None => None
    end.
Proof.
  intros N. unfold _broadcast. cbn [_clients].
  rewrite broadcast_loop_lookup by auto.
  destruct (lookup_conn i (_clients t)) as [c|] eqn:L; auto.
  rewrite (existsb_lookup _ _ _ L). reflexivity.
Qed.

Lemma lookup_all_none (clients : list conn) :
  (forall i, lookup_conn i clients = None) -> clients = [].
Proof.
  destruct clients as [|c rest]; auto. intros H.
  specialize (H (fd c)). simpl in H. rewrite Nat.eqb_refl in H. discriminate.
Qed.

Lemma send_pair_healthy (c : conn) (rmc gga : string) :
  budget c = None -> closed c = false ->
  all_ascii rmc = true -> all_ascii gga = true ->
  send_pair c rmc gga
  = (mk_conn (fd c) (received c ++ rmc ++ gga) None false, false).
Proof.
  intros Hb Hc Hr Hg. unfold send_pair, encode_ascii. rewrite Hr, Hg.
  unfold sendall. rewrite Hc, Hb. cbn [closed budget fd received].
  rewrite append_assoc. reflexivity.
Qed.

Lemma send_pair_not_ascii (c : conn) (rmc gga : string) :
  all_ascii rmc = false \/ all_ascii gga = false ->
  snd (send_pair c rmc gga) = true.
Proof.
  intros H. unfold send_pair, encode_ascii.
  destruct (all_ascii rmc); [|reflexivity].
  destruct (sendall c rmc) as [c1 [|]]; [reflexivity|].
  destruct H as [H|H]; [discriminate|]. rewrite H. reflexivity.
Qed.

Lemma drain_queue_healthy (queue : list (string * string)) :
  forall (t : ClientThread) (c : conn),
    NoDup (map fd (_clients t)) ->
    lookup_conn (fd c) (_clients t) = Some c ->
    budget c = None -> closed c = false ->
    Forall (fun pair => ascii_pair pair = true) queue ->
    lookup_conn (fd c) (_clients (drain_queue queue t))
    = Some (mk_conn (fd c) (received c ++ wire queue) None false)
    /\ _data_queue (drain_queue queue t) = _data_queue t.
Proof.
  induction queue as [|[rmc gga] queue IH]; intros t c N L Hb Hc Hq.
  - cbn [drain_queue wire]. rewrite append_nil_r. split; [|reflexivity].
    rewrite L. destruct c; simpl in *; subst; reflexivity.
  - inversion Hq as [|? ? Hp Hq']; subst.
    apply andb_true_iff in Hp. cbn [fst snd] in Hp. destruct Hp as [Hr Hg].
    cbn [drain_queue wire].
    set (c1 := mk_conn (fd c) (received c ++ rmc ++ gga) None false).
    assert (L1 : lookup_conn (fd c1) (_clients (_broadcast t rmc gga)) = Some c1).
    { cbn [c1 fd]. rewrite broadcast_lookup by exact N. rewrite L.
      unfold served. rewrite send_pair_healthy by assumption. reflexivity. }
    assert (N1 : NoDup (map fd (_clients (_broadcast t rmc gga)))).
    { unfold _broadcast. cbn [_clients]. apply NoDup_broadcast_loop, N. }
    destruct (IH (_broadcast t rmc gga) c1 N1 L1 eq_refl eq_refl Hq') as [A B].
    cbn [c1 fd received] in A. rewrite A. split.
    + rewrite !append_assoc. reflexivity.
    + rewrite B. reflexivity.
Qed.

Lemma drain_queue_no_clients (queue : list (string * string)) :
  forall t, _clients t = [] -> _clients (drain_queue queue t) = [].
Proof.
  induction queue as [|[rmc gga] queue IH]; intros t H; cbn [drain_queue]; auto.
  apply IH. unfold _broadcast. rewrite H. reflexivity.
Qed.

(** X20.  One call of [_broadcast], client by client: a client on which
    both writes go through stays in the list, with the two sentences added
    to what it received; a client on which a write or the encoding raises
    is taken out of the list; nobody else comes into the list, the sockets
    of the list stay distinct, and the queue is not touched. *)
Theorem broadcast_serves_or_drops (t : ClientThread) (rmc gga : string)
        (i : nat) :
  NoDup (map fd (_clients t)) ->
  lookup_conn i (_clients (_broadcast t rmc gga))
  = match lookup_conn i (_clients t) with
    | Some c => match send_pair c rmc gga with
                | (c', false) => Some c'
                | (_, true) => None
                end
    | None => None
    end
  /\ NoDup (map fd (_clients (_broadcast t rmc gga)))
  /\ _data_queue (_broadcast t rmc gga) = _data_queue t.
Proof.
  intros N. split; [|split].
  - rewrite broadcast_lookup by exact N. reflexivity.
  - unfold _broadcast. cbn [_clients]. apply NoDup_broadcast_loop, N.
  - reflexivity.
Qed.

(** X21.  A sentence with a character that is not ASCII costs every client
    its connection: [.encode('ascii')] raises inside the [try] for each of
    them, and after the call the list of clients is empty. *)
Theorem broadcast_not_ascii_drops_all (t : ClientThread) (rmc gga : string) :
  NoDup (map fd (_clients t)) ->
  all_ascii rmc = false \/ all_ascii gga = false ->
  _clients (_broadcast t rmc gga) = [].
Proof.
  intros N H. apply lookup_all_none. intros i.
  rewrite broadcast_lookup by exact N.
  destruct (lookup_conn i (_clients t)) as [c|]; [|reflexivity].
  unfold served. pose proof (send_pair_not_ascii c rmc gga H) as S.
  destruct (send_pair c rmc gga) as [c' b]. simpl in S. subst b. reflexivity.
Qed.

(** X22.  Emptying the queue serves it first in, first out: a client whose
    connection holds receives, after what it had, every queued pair in the
    order of the queue, each as its RMC sentence followed by its GGA
    sentence, and the queue is empty afterwards. *)
Theorem drain_delivers_in_queue_order (t : ClientThread) (c : conn) :
  NoDup (map fd (_clients t)) -> In c (_clients t) ->
  budget c = None -> closed c = false ->
  Forall (fun pair => ascii_pair pair = true) (_data_queue t) ->
  lookup_conn (fd c) (_clients (drain t))
  = Some (mk_conn (fd c) (received c ++ wire (_data_queue t)) None false)
  /\ _data_queue (drain t) = [].
Proof.
  intros N Hin Hb Hc Hq. unfold drain.
  apply (drain_queue_healthy (_data_queue t)
           (mk_thread (_clients t) [] (_running t)) c); auto.
  cbn [_clients]. apply lookup_conn_in; assumption.
Qed.

(** X23.  [stop] clears the running flag, closes every connection and
    empties the list of clients, and leaves the queue as it is: the pairs
    still queued are not written to anybody, neither by [stop] nor by a
    later emptying of the queue; a write on a released connection raises;
    a second [stop] finds nothing to close. *)
Theorem stop_drops_the_queue (t : ClientThread) :
  let t' := fst (stop t) in
  let released := snd (stop t) in
  _running t' = false /\ _clients t' = []
  /\ _data_queue t' = _data_queue t
  /\ map received released = map received (_clients t)
  /\ Forall (fun c => forall data, sendall c data = (c, true)) released
  /\ _clients (drain t') = []
  /\ stop t' = (t', []).
Proof.
  unfold stop, _cleanup. cbn [fst snd _running _clients _data_queue].
  repeat split.
  - rewrite map_map. reflexivity.
  - apply Forall_forall. intros c Hc. apply in_map_iff in Hc.
    destruct Hc as [c0 [<- _]]. intros data. reflexivity.
  - unfold drain. apply drain_queue_no_clients. reflexivity.
Qed.

End RelayMore.

(** X20, witness: the pair of sample sentences sent to the healthy client 7
    and to the client 8, whose connection breaks after ten bytes. *)
Lemma broadcast_serves_or_drops_witness :
  NoDup (map Net.fd (Net._clients MoreSamples.two_clients))
  /\ Net.lookup_conn 7
       (Net._clients (Net._broadcast MoreSamples.two_clients
                        Samples.rmc_sentence Samples.gga_sentence))
     = Some (Net.mk_conn 7 (Samples.rmc_sentence ++ Samples.gga_sentence)
                         None false)
  /\ Net.lookup_conn 8
       (Net._clients (Net._broadcast MoreSamples.two_clients
                        Samples.rmc_sentence Samples.gga_sentence))
     = None.
Proof.
  assert (N : NoDup (map Net.fd (Net._clients MoreSamples.two_clients))).
  { repeat constructor; simpl; intuition discriminate. }
  split; [exact N|]. split.
  - exact (proj1 (broadcast_serves_or_drops MoreSamples.two_clients
                    Samples.rmc_sentence Samples.gga_sentence 7 N)).
  - exact (proj1 (broadcast_serves_or_drops MoreSamples.two_clients
                    Samples.rmc_sentence Samples.gga_sentence 8 N)).
Defined.

(** X21, witness: a sentence with an e acute sent to the two clients. *)
Lemma broadcast_not_ascii_drops_all_witness :
  NoDup (map Net.fd (Net._clients MoreSamples.two_clients))
  /\ Net.all_ascii MoreSamples.latin1_sentence = false
  /\ Net._clients (Net._broadcast MoreSamples.two_clients
                     MoreSamples.latin1_sentence Samples.gga_sentence)
     = [].
Proof.
  assert (N : NoDup (map Net.fd (Net._clients MoreSamples.two_clients))).
  { repeat constructor; simpl; intuition discriminate. }
  assert (A : Net.all_ascii MoreSamples.latin1_sentence = false)
    by reflexivity.
  split; [exact N|]. split; [exact A|].
  exact (broadcast_not_ascii_drops_all MoreSamples.two_clients
           MoreSamples.latin1_sentence Samples.gga_sentence N (or_introl A)).
Defined.

(** X22, witness: the sample relay with the pair of sample sentences queued
    twice. *)
Lemma drain_delivers_in_queue_order_witness :
  Net.lookup_conn 7 (Net._clients (Net.drain MoreSamples.queued))
  = Some (Net.mk_conn 7
            (Samples.rmc_sentence ++ Samples.gga_sentence
             ++ Samples.rmc_sentence ++ Samples.gga_sentence)
            None false)
  /\ Net._data_queue (Net.drain MoreSamples.queued) = [].
Proof.
  apply (drain_delivers_in_queue_order MoreSamples.queued Samples.client).
  - repeat constructor. simpl. tauto.
  - simpl. tauto.
  - reflexivity.
  - reflexivity.
  - repeat constructor.
Defined.

(** ** The loaders *)

Section LoaderExtras.
Import PyStr.
Context {F : Type} {PF : PyFloat F}.

Lemma parse_no_common_params (args : list string) :
  Forall (fun a => is_common_param a = false) args ->
  forall g : FileGenerator F, _parse_common_params g args = Some (g, args).
Proof.
  induction 1 as [|a args Ha _ IH]; intros g; cbn [_parse_common_params].
  - reflexivity.
  - unfold is_common_param in Ha. apply orb_false_iff in Ha.
    destruct Ha as [-> ->]. rewrite IH. reflexivity.
Qed.

Lemma nmea_lines_decoded (g : FileGenerator F) :
  _duration_override g = None -> _index_override g = None ->
  forall lines clock idx acc,
    nmea_lines clock g idx lines acc
    = (acc ++ renumbered idx (f_lit false 10 (-1)) (decoded clock lines))%list.
Proof.
  intros Hd Hi. induction lines as [|line lines IH]; intros clock idx acc;
    cbn [nmea_lines decoded].
  - cbn [renumbered]. rewrite app_nil_r. reflexivity.
  - destruct (decode (clock O) line) as [p|].
    + rewrite IH. cbn [renumbered]. rewrite <- app_assoc. cbn [app].
      unfold _apply_common_params. rewrite Hd, Hi. reflexivity.
    + apply IH.
Qed.

(** X28.  The NMEA loader keeps what decodes: built from a file name (and
    no [duration=] or [index=] argument) of a file that can be read, the
    generator holds one position for each line that [decode] accepts, in
    file order, numbered 1, 2, ... and with the duration 1.0; a line that
    does not decode is passed over and never makes the constructor
    raise. *)
Theorem nmea_loader_keeps_what_decodes (fs : files F)
        (clock : nat -> datetime) (file : string) (more lines : list string) :
  Forall (fun a => is_common_param a = false) (file :: more) ->
  read_lines fs file = Some lines ->
  construct NMEA fs clock (file :: more)
  = Some (mk_generator NMEA
            (mk_gen (renumbered 1 (f_lit false 10 (-1)) (decoded clock lines))
                    O None None)).
Proof.
  intros Ha Hl. cbn [construct]. unfold NMEAGenerator_init.
  rewrite (parse_no_common_params _ Ha). unfold NMEA_load_file. rewrite Hl.
  rewrite nmea_lines_decoded by reflexivity. reflexivity.
Qed.

(** *** The CSV loader, row by row *)

Lemma csv_position_skipped (g : FileGenerator F) (idx : Z) (row : list string) :
  csv_skipped row = true -> csv_position g idx row = Some None.
Proof.
  destruct row as [|c0 row]; cbn [csv_skipped csv_position]; auto.
  intros ->. reflexivity.
Qed.

Lemma csv_position_bad (g : FileGenerator F) (idx : Z) (row : list string) :
  csv_skipped row = false ->
  (csv_position g idx row = None <-> csv_bad_row (F := F) row = true)
  /\ (csv_bad_row (F := F) row = false ->
      exists p, csv_position g idx row = Some (Some p)).
Proof.
  intros Hs. unfold csv_bad_row. rewrite Hs. cbn [negb andb].
  destruct row as [|c0 row]; [discriminate|]. cbn [csv_skipped] in Hs.
  unfold csv_position. rewrite Hs.
  destruct (List.length (c0 :: row) <? 5)%nat eqn:L5; cbn [orb].
  - split; [split; auto | discriminate].
  - apply Nat.ltb_ge in L5.
    assert (L3 : (3 <? List.length (c0 :: row))%nat = true)
      by (apply Nat.ltb_lt; lia).
    assert (L4 : (4 <? List.length (c0 :: row))%nat = true)
      by (apply Nat.ltb_lt; lia).
    rewrite L3, L4.
    destruct (py_float (field (c0 :: row) 1)); cbn [is_none orb];
      [|split; [split; auto | discriminate]].
    destruct (py_float (field (c0 :: row) 2)); cbn [is_none orb];
      [|split; [split; auto | discriminate]].
    destruct (py_float (field (c0 :: row) 3)); cbn [is_none orb];
      [|split; [split; auto | discriminate]].
    destruct (py_float (field (c0 :: row) 4)); cbn [is_none orb];
      [|split; [split; auto | discriminate]].
    destruct (5 <? List.length (c0 :: row))%nat; cbn [andb].
    + destruct (py_float (field (c0 :: row) 5)); cbn [is_none];
        [|split; [split; auto | discriminate]].
      split; [split; discriminate | eauto].
    + split; [split; discriminate | eauto].
Qed.

Lemma csv_bad_row_skipped (row : list string) :
  csv_skipped row = true -> csv_bad_row (F := F) row = false.
Proof. intros H. unfold csv_bad_row. rewrite H. reflexivity. Qed.

Lemma csv_rows_none (g : FileGenerator F) (rows : list (list string)) :
  forall idx acc,
    csv_rows g idx rows acc = None
    <-> Exists (fun row => csv_bad_row (F := F) row = true) rows.
Proof.
  induction rows as [|row rows IH]; intros idx acc; cbn [csv_rows].
  - split; [discriminate | intros H; inversion H].
  - rewrite Exists_cons.
    destruct (csv_skipped row) eqn:Hs.
    + rewrite (csv_position_skipped g idx row Hs). rewrite IH.
      rewrite (csv_bad_row_skipped row Hs).
      split; [auto | intros [?|?]; [discriminate | auto]].
    + destruct (csv_position_bad g idx row Hs) as [[B1 B2] B3].
      destruct (csv_bad_row (F := F) row) eqn:Hb.
      * rewrite B2 by reflexivity. split; auto.
      * destruct (B3 eq_refl) as [p Hp]. rewrite Hp. rewrite IH.
        split; [auto | intros [?|?]; [discriminate | auto]].
Qed.

Lemma csv_rows_some (g : FileGenerator F) (rows : list (list string)) :
  forall idx acc ps,
    csv_rows g idx rows acc = Some ps ->
    exists news,
      ps = (acc ++ news)%list
      /\ List.length news = List.length (csv_data rows)
      /\ forall j row,
           nth_error (csv_data rows) j = Some row ->
           csv_position g (idx + Z.of_nat j) row = Some (nth_error news j).
Proof.
  induction rows as [|row rows IH]; intros idx acc ps H; cbn [csv_rows] in H.
  - injection H as <-. exists []. rewrite app_nil_r. repeat split; auto.
    intros [|j] row Hj; discriminate.
  - unfold csv_data. cbn [filter]. fold (csv_data rows).
    destruct (csv_skipped row) eqn:Hs; cbn [negb].
    + rewrite (csv_position_skipped g idx row Hs) in H. eauto.
    + destruct (csv_position g idx row) as [[p|]|] eqn:E; [| |discriminate].
      * destruct (IH _ _ _ H) as (news & -> & Hl & Hn).
        exists (p :: news). rewrite <- app_assoc. cbn [app List.length].
        repeat split; auto.
        intros [|j] r Hj; cbn [nth_error] in *.
        -- injection Hj as <-. rewrite Z.add_0_r. exact E.
        -- rewrite <- (Hn j r Hj). f_equal. lia.
      * destruct (csv_position_bad g idx row Hs) as [[_ B2] B3].
        destruct (csv_bad_row (F := F) row) eqn:Hb.
        -- rewrite B2 in E by reflexivity. discriminate.
        -- destruct (B3 eq_refl) as [p Hp]. congruence.
Qed.

Lemma csv_data_nil (rows : list (list string)) :
  csv_data rows = [] <-> forall row, In row rows -> csv_skipped row = true.
Proof.
  unfold csv_data. induction rows as [|row rows IH]; cbn [filter].
  - split; auto; try (intros _ r []).
  - destruct (csv_skipped row) eqn:Hs; cbn [negb].
    + rewrite IH. split.
      * intros H r [<-|Hr]; auto.
      * intros H r Hr. apply H. right. exact Hr.
    + split; [discriminate|]. intros H.
      rewrite (H row (or_introl eq_refl)) in Hs. discriminate.
Qed.

(** X24.  The CSV loader fails as a whole: for a file that can be read, it
    raises exactly when some row that is neither empty nor a comment has
    fewer than five columns or a latitude, longitude, speed, elevation or
    duration that [float] does not read, or when every row is empty or a
    comment. *)
Theorem csv_load_fails_iff (fs : files F) (g : FileGenerator F)
        (file : string) (rows : list (list string)) :
  read_csv fs file = Some rows -> _positions g = [] ->
  (CSV_load_file fs g file = None
   <-> (exists row, In row rows /\ csv_bad_row (F := F) row = true)
       \/ (forall row, In row rows -> csv_skipped row = true)).
Proof.
  intros Hr Hg. unfold CSV_load_file. rewrite Hr, Hg.
  rewrite <- Exists_exists, <- csv_data_nil, <- (csv_rows_none g rows 1 []).
  destruct (csv_rows g 1 rows []) as [ps|] eqn:E.
  - destruct (csv_rows_some g rows 1 [] ps E) as (news & -> & Hl & _).
    cbn [app] in *. destruct news as [|p news].
    + split; auto. intros _. right.
      destruct (csv_data rows); [reflexivity | discriminate].
    + split; [discriminate|]. intros [?|H]; [discriminate|].
      rewrite H in Hl. discriminate.
  - split; auto.
Qed.

(** X25.  When the CSV loader succeeds, it has stored one position per
    row that is neither empty nor a comment, in file order: the j-th
    position is what the j-th such row reads as, numbered [j] (from 1);
    empty rows and comments get no number. *)
Theorem csv_one_position_per_data_row (fs : files F) (g g' : FileGenerator F)
        (file : string) (rows : list (list string)) :
  read_csv fs file = Some rows -> _positions g = [] ->
  CSV_load_file fs g file = Some g' ->
  let data := filter (fun row => negb (csv_skipped row)) rows in
  List.length (_positions g') = List.length data
  /\ forall j row,
       nth_error data j = Some row ->
       csv_position g (1 + Z.of_nat j) row
       = Some (nth_error (_positions g') j).
Proof.
  intros Hr Hg H. unfold CSV_load_file in H. rewrite Hr, Hg in H.
  destruct (csv_rows g 1 rows []) as [ps|] eqn:E; [|discriminate].
  destruct (csv_rows_some g rows 1 [] ps E) as (news & -> & Hl & Hn).
  cbn [app] in *. destruct news as [|p news]; [discriminate|].
  injection H as <-. cbn [_positions set_positions]. split; auto.
Qed.

(** *** The GeoJSON loader *)

Lemma geo_features_none (g : FileGenerator F) (features : list (json F)) :
  Exists (fun ft => forall idx, geo_position g idx ft = None) features ->
  forall idx acc, geo_features g idx features acc = None.
Proof.
  induction 1 as [ft fts H|ft fts _ IH]; intros idx acc; cbn [geo_features].
  - rewrite H. reflexivity.
  - destruct (geo_position g idx ft) as [[p|]|]; auto.
Qed.

Lemma geo_features_read (g : FileGenerator F) (features : list (json F)) :
  forall idx acc,
    geo_features g idx features acc = geo_features g idx (geo_read features) acc.
Proof.
  induction features as [|ft fts IH]; intros idx acc; [reflexivity|].
  cbn [geo_read filter]. fold (geo_read fts).
  unfold other_geometry.
  cbn [geo_features]. unfold geo_position at 1.
  destruct (getitem ft "geometry") as [geometry|] eqn:Eg;
    [destruct (getitem geometry "type") as [t|] eqn:Et;
     [destruct (json_is_point t) eqn:Ep|]|]; cbn [negb].
  - cbn [geo_features]. unfold geo_position. rewrite Eg, Et, Ep.
    cbn [negb].
    repeat match goal with
           | |- match ?x with Some _ => _ | None => None end = _ =>
               destruct x as [[point|]|]; [| |reflexivity]
           end; apply IH.
  - apply IH.
  - cbn [geo_features]. unfold geo_position. rewrite Eg, Et. reflexivity.
  - cbn [geo_features]. unfold geo_position. rewrite Eg. reflexivity.
Qed.

(** X26.  The GeoJSON loader passes over every feature whose geometry is
    not a Point: two files load alike (the same positions with the same
    numbers, or both fail) when their feature lists are the same once
    those features are left out.  A feature without a [geometry] member
    is not passed over: it makes the whole load fail, wherever it stands
    in the list. *)
Theorem geojson_skips_other_geometries (fs : files F)
        (g : FileGenerator F) (file : string)
        (items : list (string * json F)) (features : list (json F)) :
  read_json fs file = Some (JDict items) ->
  assoc "features" items = Some (JList features) ->
  (forall (fs' : files F) (file' : string) (items' : list (string * json F))
          (features' : list (json F)),
      read_json fs' file' = Some (JDict items') ->
      assoc "features" items' = Some (JList features') ->
      geo_read features' = geo_read features ->
      GeoJSON_load_file fs' g file' = GeoJSON_load_file fs g file)
  /\ (forall feature,
        In feature features ->
        getitem feature "geometry" = None ->
        GeoJSON_load_file fs g file = None).
Proof.
  intros Hr Hf. split.
  - intros fs' file' items' features' Hr' Hf' E.
    unfold GeoJSON_load_file. rewrite Hr, Hf, Hr', Hf'.
    rewrite (geo_features_read g features), (geo_features_read g features'), E.
    reflexivity.
  - intros feature Hin Hg. unfold GeoJSON_load_file. rewrite Hr, Hf.
    rewrite geo_features_none; [reflexivity|].
    apply Exists_exists. exists feature. split; [exact Hin|].
    intros idx. unfold geo_position. rewrite Hg. reflexivity.
Qed.

(** X27.  A GeoJSON Point is read as longitude first, latitude second;
    a third coordinate (the altitude) is not read.  Without a [properties]
    member the speed, the elevation and the duration are 0.0, the
    transition is [auto] and the description is empty. *)
Theorem geojson_point_defaults (g : FileGenerator F) (idx : Z)
        (feature geometry : json F) (x y zero : F) (more : list (json F)) :
  getitem feature "geometry" = Some geometry ->
  getitem geometry "type" = Some (JStr "Point") ->
  getitem geometry "coordinates" = Some (JList (JFloat x :: JFloat y :: more)) ->
  getitem feature "properties" = None ->
  f_of_int 0 = Some zero ->
  geo_position g idx feature
  = Some (Some (_apply_common_params g
                  (mk_position idx y x zero zero PyTime.epoch zero "auto" "")
                  idx)).
Proof.
  intros Hg Ht Hc Hp Hz. unfold geo_position. rewrite Hg, Ht.
  cbn [json_is_point String.eqb Ascii.eqb Bool.eqb negb]. 
  rewrite Hc.
  destruct feature as [| | | | | |fitems]; try discriminate.
  cbn [getitem] in Hp. cbn [get]. rewrite Hp.
  cbn [getindex nth_error assoc get float_of_json stored_float stored_str].
  rewrite Hz. reflexivity.
Qed.

End LoaderExtras.

(** X24, witness: a file with a comment, an empty row and the row of the
    CSV scenario loads. *)
Lemma csv_load_fails_iff_witness :
  read_csv MoreSamples.disk2 "mixed.csv" = Some MoreSamples.mixed_rows
  /\ _positions (@FileGenerator_init Samples.B) = []
  /\ (CSV_load_file MoreSamples.disk2 FileGenerator_init "mixed.csv" = None
      <-> (exists row, In row MoreSamples.mixed_rows
                       /\ csv_bad_row (F := Samples.B) row = true)
          \/ (forall row, In row MoreSamples.mixed_rows
                          -> csv_skipped row = true)).
Proof.
  split; [reflexivity|]. split; [reflexivity|].
  exact (csv_load_fails_iff MoreSamples.disk2 FileGenerator_init "mixed.csv"
           MoreSamples.mixed_rows eq_refl eq_refl).
Defined.

(** X25, witness: the same file gives one position, read from its third
    row. *)
Lemma csv_one_position_per_data_row_witness :
  CSV_load_file MoreSamples.disk2 FileGenerator_init "mixed.csv"
  = Some (mk_gen [Samples.start_position] 0 None None)
  /\ List.length [Samples.start_position]
     = List.length (filter (fun row => negb (csv_skipped row))
                           MoreSamples.mixed_rows).
Proof.
  assert (H : CSV_load_file MoreSamples.disk2 FileGenerator_init "mixed.csv"
              = Some (mk_gen [Samples.start_position] 0 None None))
    by (vm_compute; reflexivity).
  split; [exact H|].
  exact (proj1 (csv_one_position_per_data_row MoreSamples.disk2
                  FileGenerator_init _ "mixed.csv" MoreSamples.mixed_rows
                  eq_refl eq_refl H)).
Defined.

(** X26, witness: a route with a LineString before and after its Point
    loads as the route of the Point alone does, to one position with the
    number 1; a route whose only feature has no geometry does not load. *)
Lemma geojson_skips_other_geometries_witness :
  GeoJSON_load_file MoreSamples.disk2 FileGenerator_init "line.geojson"
  = GeoJSON_load_file MoreSamples.disk2 FileGenerator_init "point.geojson"
  /\ option_map (fun g => map (@index Samples.B) (_positions g))
        (GeoJSON_load_file MoreSamples.disk2 FileGenerator_init "line.geojson")
     = Some [1]
  /\ GeoJSON_load_file MoreSamples.disk2 FileGenerator_init "bare.geojson"
     = None.
Proof.
  split; [|split; [vm_compute; reflexivity|]].
  - apply (proj1 (geojson_skips_other_geometries MoreSamples.disk2
                    FileGenerator_init "point.geojson" MoreSamples.point_route
                    [MoreSamples.point_feature] eq_refl eq_refl)
             MoreSamples.disk2 "line.geojson" MoreSamples.line_route
             [MoreSamples.line_feature; MoreSamples.point_feature;
              MoreSamples.line_feature]);
      reflexivity.
  - apply (proj2 (geojson_skips_other_geometries MoreSamples.disk2
                    FileGenerator_init "bare.geojson" MoreSamples.bare_route
                    [MoreSamples.bare_feature] eq_refl eq_refl)
             MoreSamples.bare_feature).
    + simpl. tauto.
    + reflexivity.
Defined.

(** X27, witness: a Point with the coordinates [30.3351, 59.9343, 120]
    and no properties. *)
Lemma geojson_point_defaults_witness :
  geo_position (F := Samples.B) FileGenerator_init 1 MoreSamples.point_feature
  = Some (Some (mk_position 1 (f_lit false 599343 (-4))
                            (f_lit false 303351 (-4))
                            f_zero f_zero PyTime.epoch f_zero "auto" "")).
Proof.
  apply (geojson_point_defaults (F := Samples.B) FileGenerator_init 1
           MoreSamples.point_feature
           (JDict [("type", JStr "Point");
                   ("coordinates",
                    JList [JFloat (f_lit false 303351 (-4));
                           JFloat (f_lit false 599343 (-4));
                           JFloat (f_lit false 120 0)])])
           (f_lit false 303351 (-4)) (f_lit false 599343 (-4)) f_zero
           [JFloat (f_lit false 120 0)]);
    reflexivity.
Defined.

(** X28, witness: a file with a line that does not decode and the sample
    RMC line. *)
Lemma nmea_loader_keeps_what_decodes_witness :
  Forall (fun a => is_common_param a = false) ["track.nmea"]
  /\ read_lines MoreSamples.disk2 "track.nmea"
     = Some [Samples.bad_line; Samples.rmc_line]
  /\ construct NMEA MoreSamples.disk2 (fun _ => Samples.load_time)
               ["track.nmea"]
     = Some (mk_generator NMEA
               (mk_gen (renumbered 1 (f_lit false 10 (-1))
                          (decoded (fun _ => Samples.load_time)
                                   [Samples.bad_line; Samples.rmc_line]))
                       O None None)).
Proof.
  assert (A : Forall (fun a => is_common_param a = false) ["track.nmea"])
    by (repeat constructor).
  split; [exact A|]. split; [reflexivity|].
  exact (nmea_loader_keeps_what_decodes MoreSamples.disk2
           (fun _ => Samples.load_time) "track.nmea" []
           [Samples.bad_line; Samples.rmc_line] A eq_refl).
Defined.

(** ** The time field on floats *)

(** X29.  On binary64, the decoder reads the time field that the encoder
    writes without any loss in the float computation of the microseconds:
    for every valid time, [_parse_datetime] returns the hour, the minute
    and the second of that time and its microseconds cut to the
    millisecond, with the date of the clock when no date is given, and
    with the day, the month and the year (in 2000..2099) of the date field
    when the encoder's date field is given. *)
Theorem binary64_reads_the_time_exactly (now d : datetime) :
  PyTime.valid d = true -> PyTime.valid now = true ->
  _parse_datetime (F := Binary64.t) now (time_str_of d) None
  = Some (mk_dt (year now) (month now) (day now) (hour d) (minute d)
                (second d) (microsecond d / 1000 * 1000) (tzinfo now))
  /\ _parse_datetime (F := Binary64.t) now (time_str_of d)
       (Some (PyTime.strftime_dmy d))
     = Some (mk_dt (year d mod 100 + 2000) (month d) (day d) (hour d)
                   (minute d) (second d) (microsecond d / 1000 * 1000)
                   (Some UTC)).
Proof.
  intros V Vn. split.
  - apply parse_datetime_time_only_any; auto using binary64_millis_exact.
  - apply parse_datetime_with_date_any; auto using binary64_millis_exact.
Qed.

(** X29, witness: the time field of [pull_time], read while the clock
    shows [load_time]. *)
Lemma binary64_reads_the_time_exactly_witness :
  PyTime.valid Samples.pull_time = true
  /\ PyTime.valid Samples.load_time = true
  /\ _parse_datetime (F := Binary64.t) Samples.load_time
       (time_str_of Samples.pull_time) None
     = Some (mk_dt 2026 11 5 9 30 7 (250000 / 1000 * 1000) (Some UTC)).
Proof.
  split; [reflexivity|]. split; [reflexivity|].
  exact (proj1 (binary64_reads_the_time_exactly Samples.load_time
                  Samples.pull_time eq_refl eq_refl)).
Defined.

(** ** The fields of an encoded sentence *)

Section EncodedFields.
Import PyStr PyNum PyTime.
Context {F : Type} {PF : PyFloat F}.

Lemma clean_format_coord (w : nat) (x : F) (s : string) :
  format_coord w x = Some s -> clean s.
Proof.
  unfold format_coord. intros H.
  destruct (f_trunc x) as [deg|]; [|discriminate].
  destruct (f_of_int deg) as [deg_f|]; [|discriminate].
  injection H as <-. apply clean_append; [apply clean_fmt_d | apply clean_fmt_f].
Qed.

(** X30.  What the splitting step of [decode] finds in a sentence of the
    encoder.  A GGA sentence has fifteen fields: the type [GPGGA], the time,
    the latitude and [N] or [S], the longitude and [E] or [W], the fix
    quality [1], [08] satellites, the dilution [1.0], the elevation to one
    decimal, [M], the geoid separation [0.0], [M] and two empty fields.  An
    RMC sentence has thirteen: the type [GPRMC], the time, the status [A],
    the latitude and longitude with their letters, the speed in knots to
    one decimal, the course [0.0], the date, two empty fields and the mode
    [A].  The checksum and the CR LF are not among the fields. *)
Theorem encoded_fields (data : Position F) (sentence : string) :
  (encode_gga data = Some sentence ->
   exists la lo,
     format_coord 2 (lat data) = Some la
     /\ format_coord 3 (lon data) = Some lo
     /\ fields_of sentence
        = ["GPGGA"; time_str_of (time data);
           la; if f_ge0 (lat data) then "N" else "S";
           lo; if f_ge0 (lon data) then "E" else "W";
           "1"; "08"; "1.0"; fmt_f 0 1 (f_view (elevation data));
           "M"; "0.0"; "M"; ""; ""])
  /\ (encode_rmc data = Some sentence ->
      exists la lo,
        format_coord 2 (lat data) = Some la
        /\ format_coord 3 (lon data) = Some lo
        /\ fields_of sentence
           = ["GPRMC"; time_str_of (time data); "A";
              la; if f_ge0 (lat data) then "N" else "S";
              lo; if f_ge0 (lon data) then "E" else "W";
              fmt_f 0 1 (f_view (f_mul (speed data) knots_per_kmh));
              "0.0"; strftime_dmy (time data); ""; ""; "A"]).
Proof.
  split; intros H.
  - unfold encode_gga, gga_body, format_coords in H.
    destruct (format_coord 2 (lat data)) as [la|] eqn:Ela; [|discriminate].
    destruct (format_coord 3 (lon data)) as [lo|] eqn:Elo; [|discriminate].
    injection H as <-. exists la, lo. split; [reflexivity|].
    split; [reflexivity|].
    destruct (split_gga_body (time_str_of (time data)) la
                (if f_ge0 (lat data) then "N" else "S") lo
                (if f_ge0 (lon data) then "E" else "W")
                (fmt_f 0 1 (f_view (elevation data))))
      as [Gs Gf];
      try (first [ apply clean_time_str | eapply clean_format_coord; eassumption
                 | apply clean_dir; reflexivity | apply clean_fmt_f ]).
    rewrite fields_of_frame by exact Gs. exact Gf.
  - unfold encode_rmc, rmc_body, format_coords in H.
    destruct (format_coord 2 (lat data)) as [la|] eqn:Ela; [|discriminate].
    destruct (format_coord 3 (lon data)) as [lo|] eqn:Elo; [|discriminate].
    injection H as <-. exists la, lo. split; [reflexivity|].
    split; [reflexivity|].
    destruct (split_rmc_body (time_str_of (time data)) la
                (if f_ge0 (lat data) then "N" else "S") lo
                (if f_ge0 (lon data) then "E" else "W")
                (fmt_f 0 1 (f_view (f_mul (speed data) knots_per_kmh)))
                (strftime_dmy (time data)))
      as [Rs Rf];
      try (first [ apply clean_time_str | eapply clean_format_coord; eassumption
                 | apply clean_dir; reflexivity | apply clean_fmt_f
                 | apply clean_strftime_dmy ]).
    rewrite fields_of_frame by exact Rs. exact Rf.
Qed.

End EncodedFields.

(** X30, witness: the GGA sentence of the sample position. *)
Lemma encoded_fields_witness :
  encode_gga (with_time Samples.start_position Samples.pull_time)
  = Some Samples.gga_sentence
  /\ exists la lo,
       format_coord 2 (lat (with_time Samples.start_position Samples.pull_time))
       = Some la
       /\ format_coord 3 (lon (with_time Samples.start_position Samples.pull_time))
          = Some lo
       /\ fields_of Samples.gga_sentence
          = ["GPGGA"; "093007.250"; la; "N"; lo; "E"; "1"; "08"; "1.0"; "5.5";
             "M"; "0.0"; "M"; ""; ""].
Proof.
  assert (H : encode_gga (with_time Samples.start_position Samples.pull_time)
              = Some Samples.gga_sentence) by (vm_compute; reflexivity).
  split; [exact H|].
  exact (proj1 (encoded_fields
                  (with_time Samples.start_position Samples.pull_time)
                  Samples.gga_sentence) H).
Defined.
